(** * Animation Frame Exporter: clip assembly and serialization

    A shallow embedding of [src/__init__.py] (the Blender add-on
    "Animation Frame Exporter") and the properties of its export engine:
    frame sampling, matrix packing, clip records, transition synthesis,
    the transition adjacency map and the error path.

    Conventions.
    - Python [int] is [Z]; lengths and array positions are [nat].
    - A Python exception is a value of [exn]; fallible pure code returns
      [result A], stateful code lives in the monad [M] over the host state.
    - Python floats are kept abstract (class [Numerics]): the properties
      proved here are about which element goes where, not about rounding. *)

From Stdlib Require Import ZArith QArith String Ascii List Lia Sorted DecimalString.
From stdpp Require Import gmap strings list.

Local Open Scope string_scope.
Local Open Scope list_scope.
Local Open Scope stdpp_scope.
Local Open Scope Z_scope.

(** ** Python values and exceptions *)

Inductive exn : Type :=
| Exception (msg : string)   (* raise Exception("...") *)
| ValueError                 (* range() arg 3 must not be zero *)
| IndexError                 (* index out of range *)
| AttributeError.            (* attribute of None *)

Inductive result (A : Type) : Type :=
| Ok (a : A)
| Raise (e : exn).
Arguments Ok {A} a.
Arguments Raise {A} e.

Definition result_bind {A B} (r : result A) (k : A -> result B) : result B :=
  match r with
  | Ok a => k a
  | Raise e => Raise e
  end.

(** [int(x)] on a finite float: truncation toward zero. *)
Definition py_int (x : Q) : Z := Z.quot (Qnum x) (Z.pos (Qden x)).

(** [len(range(lo, hi, step))] as CPython computes it. *)
Definition range_len (lo hi step : Z) : Z :=
  if 0 <? step then
    (if lo <? hi then (hi - lo - 1) / step + 1 else 0)
  else
    (if hi <? lo then (lo - hi - 1) / (- step) + 1 else 0).

(** [list(range(lo, hi, step))]; a zero step raises [ValueError]. *)
Definition py_range (lo hi step : Z) : result (list Z) :=
  if step =? 0 then Raise ValueError
  else Ok (map (fun k : nat => lo + Z.of_nat k * step)
               (seq 0 (Z.to_nat (range_len lo hi step)))).

(** [l[-1]]; raises [IndexError] on the empty list. *)
Definition py_last {A} (l : list A) : result A :=
  match last l with
  | Some x => Ok x
  | None => Raise IndexError
  end.

(** ** Frame Sampler

    Lines 258-265 of [export_multiple_animations] and 560-565 of
    [export_animation_frames_raw]:
<<
    if export_all_frames:
        frames_to_export = list(range(start_frame, end_frame + 1))
    else:
        frames_to_export = list(range(start_frame, end_frame + 1, frame_step))
        if frames_to_export[-1] != end_frame:
            frames_to_export.append(end_frame)
>> *)
Definition frames_to_export (start_frame end_frame frame_step : Z)
    (export_all_frames : bool) : result (list Z) :=
  if export_all_frames then
    py_range start_frame (end_frame + 1) 1
  else
    result_bind (py_range start_frame (end_frame + 1) frame_step) (fun frames =>
    result_bind (py_last frames) (fun final =>
    if negb (final =? end_frame) then Ok (frames ++ [end_frame])
    else Ok frames)).

(** The stepped prefix on its own: what [range] yields before the end frame
    is possibly appended. *)
Definition stepped_frames (start_frame end_frame frame_step : Z) : list Z :=
  map (fun k : nat => start_frame + Z.of_nat k * frame_step)
      (seq 0 (Z.to_nat (range_len start_frame (end_frame + 1) frame_step))).

(** ** Python strings and dicts *)

(** [sub in s]. *)
Fixpoint py_contains (sub s : string) : bool :=
  String.prefix sub s ||
  match s with
  | EmptyString => false
  | String _ s' => py_contains sub s'
  end.

(** [s.replace(old, "")] for a non-empty [old]: leftmost, non-overlapping
    occurrences are dropped.  [skip] counts the characters of the current
    occurrence that are still to be dropped. *)
Fixpoint replace_go (old : string) (skip : nat) (s : string) : string :=
  match s with
  | EmptyString => EmptyString
  | String c s' =>
      match skip with
      | S k => replace_go old k s'
      | O => if String.prefix old s
             then replace_go old (String.length old - 1) s'
             else String c (replace_go old 0 s')
      end
  end.

Definition py_remove (old s : string) : string := replace_go old 0 s.

(** [s.split(sep)] for a non-empty [sep]; [cur] is the piece being read. *)
Fixpoint split_go (sep : string) (skip : nat) (cur s : string) : list string :=
  match s with
  | EmptyString => [cur]
  | String c s' =>
      match skip with
      | S k => split_go sep k cur s'
      | O => if String.prefix sep s
             then cur :: split_go sep (String.length sep - 1) EmptyString s'
             else split_go sep 0 (cur +:+ String c EmptyString) s'
      end
  end.

Definition py_split (sep s : string) : list string :=
  split_go sep 0 EmptyString s.

(** A Python [dict] with string keys: insertion-ordered, one entry per key. *)
Definition pydict (V : Type) : Type := list (string * V).

Fixpoint dict_get {V} (k : string) (d : pydict V) : option V :=
  match d with
  | [] => None
  | (k', v) :: d' => if String.eqb k k' then Some v else dict_get k d'
  end.

(** [d[k] = v]: overwrite in place, or append a new key. *)
Fixpoint dict_set {V} (k : string) (v : V) (d : pydict V) : pydict V :=
  match d with
  | [] => [(k, v)]
  | (k', v') :: d' =>
      if String.eqb k k' then (k, v) :: d' else (k', v') :: dict_set k v d'
  end.

(** ** mathutils and numpy

    [mathutils.Matrix], its product [@] and element access, and the
    narrowing to [numpy.float32] belong to the host's libraries.  They are
    an interface here; [BLENDER_TO_THREE] is
    [Matrix.Rotation(-math.pi/2, 4, 'X')]. *)
Class Numerics : Type := {
  float : Type;
  float32 : Type;
  Matrix : Type;
  matmul : Matrix -> Matrix -> Matrix;
  mat_elem : Matrix -> nat -> nat -> float;
  to_float32 : float -> float32;
  zero32 : float32;
  BLENDER_TO_THREE : Matrix
}.

Declare Scope matrix_scope.
Delimit Scope matrix_scope with mat.
Infix "@" := matmul (at level 40, left associativity) : matrix_scope.

(** ** The host: scene, armature, actions *)

Record Action : Type := {
  action_name : string;
  frame_range : Q * Q
}.

(** What [arm.animation_data.action] can point to: an action that was in
    [bpy.data.actions] before the run, or one made during the run by
    [bpy.data.actions.new(name=...)], told apart by creation order. *)
Inductive ActionRef : Type :=
| DataAction (a : Action)
| NewAction (serial : nat) (name : string).

Record AnimationListItem : Type := {
  item_name : string;
  item_action : option Action;
  include : bool;
  frame_step : Z;
  use_full_range : bool;
  custom_start : Z;
  custom_end : Z
}.

Record Bone : Type := { bone_name : string }.

Inductive Mode : Type := OBJECT | POSE.

Inductive ExportMethod : Type := BIN | PROPERTY.

(** The part of [context] the export only reads. *)
Record BlenderContext : Type := {
  object_type : option string;      (* context.active_object.type *)
  pose_bones : list Bone;           (* arm.pose.bones *)
  frame_start : Z;                  (* scene.frame_start *)
  frame_end : Z;                    (* scene.frame_end *)
  animation_list : list AnimationListItem;
  multi_export_all_frames : bool;   (* props.multi_export_all_frames *)
  filepath : string                 (* bpy.data.filepath *)
}.

(** The host keeps [scene.frame_current] between [-MAXFRAME] and [MAXFRAME]
    and brings the argument of [scene.frame_set] that lies outside this range
    to its nearest end.  The model follows [frame_set] for the frames inside
    the range, and what is proved of [frame_current] after a call is stated
    for such frames. *)
Definition MAXFRAME : Z := 1048574.

Definition host_frame (f : Z) : Prop := - MAXFRAME <= f <= MAXFRAME.

(** Calls into the host whose effect the export never inspects. *)
Inductive HostOp : Type :=
| op_frame_set (f : Z)
| op_set_action (a : ActionRef)
| op_animation_data_create
| op_actions_new (name : string)
| op_view_layer_update
| op_mode_set (m : Mode)
| op_pose_select_all
| op_pose_copy
| op_pose_paste
| op_keyframe_insert (bone : Bone) (data_path : string) (frame : Z)
| op_interpolation_linear (a : ActionRef)
| op_makedirs (blend_path : string).

Record ClipRecord : Type := {
  clip_name : string;
  start_idx : Z;
  end_idx : Z
}.

(** The JavaScript helper file, field by field. *)
Record Descriptor : Type := {
  js_unit : string;
  (* material.setAnimationFrames(unit, name, start, end, 30) *)
  js_main_calls : list ClipRecord;
  (* material.setAnimationFrames(unit, name, start, end, 30, true) *)
  js_transition_calls : list ClipRecord;
  (* material.setAnimationTransitions(unit, src, { dst: "name", ... }) *)
  js_adjacency_calls : list (string * pydict string);
  numBones : Z;
  totalFrames : Z;
  animationCount : Z;
  frameCounts : list Z;
  frameSteps : list Z;
  animationRanges : list (Z * Z);
  animationNames : list string;
  boneNames : list string
}.

(** The helper file of the single-animation export. *)
Record SingleDescriptor : Type := {
  sd_name : string;
  sd_numBones : Z;
  sd_numFrames : Z;
  sd_startFrame : Z;
  sd_endFrame : Z;
  sd_frameStep : Z;
  sd_exportAllFrames : bool;
  sd_boneNames : list string;
  sd_last_index : Z        (* setAnimationFrames(name, 0, num_frames-1, 30) *)
}.

Inductive Message : Type :=
| msg_exported (sequences total bones : Z)
| msg_stored (sequences total bones : Z) (property_name : string)
| msg_single (frames bones : Z)
| msg_failed (e : exn).

Section Host.
Context `{Numerics}.

(** A file in [<dirname of the .blend>/animation_export/]. *)
Inductive File : Type :=
| BinFile (file_name : string) (data : list float32)
| JsFile (file_name : string) (d : Descriptor)
| SingleJsFile (file_name : string) (d : SingleDescriptor).

(** Custom properties [arm[key]]. *)
Inductive IdProp : Type :=
| prop_floats (l : list float32)
| prop_int (n : Z)
| prop_str_of_ints (l : list Z).    (* str(frame_steps) *)

Record Host : Type := {
  frame_current : Z;                              (* scene.frame_current *)
  animation_data : option (option ActionRef);     (* arm.animation_data[.action] *)
  mode : Mode;
  id_properties : gmap string IdProp;
  files : list File;
  messages : list (bool * Message);               (* show_message(is_error, message) *)
  history : list HostOp                           (* newest first *)
}.

Definition log (op : HostOp) (h : Host) : Host :=
  {| frame_current := frame_current h;
     animation_data := animation_data h;
     mode := mode h;
     id_properties := id_properties h;
     files := files h;
     messages := messages h;
     history := op :: history h |}.

Definition with_frame (f : Z) (h : Host) : Host :=
  {| frame_current := f;
     animation_data := animation_data h;
     mode := mode h;
     id_properties := id_properties h;
     files := files h;
     messages := messages h;
     history := history h |}.

Definition with_animation_data (d : option (option ActionRef)) (h : Host) : Host :=
  {| frame_current := frame_current h;
     animation_data := d;
     mode := mode h;
     id_properties := id_properties h;
     files := files h;
     messages := messages h;
     history := history h |}.

Definition with_mode (m : Mode) (h : Host) : Host :=
  {| frame_current := frame_current h;
     animation_data := animation_data h;
     mode := m;
     id_properties := id_properties h;
     files := files h;
     messages := messages h;
     history := history h |}.

Definition with_id_properties (p : gmap string IdProp) (h : Host) : Host :=
  {| frame_current := frame_current h;
     animation_data := animation_data h;
     mode := mode h;
     id_properties := p;
     files := files h;
     messages := messages h;
     history := history h |}.

Definition with_files (fs : list File) (h : Host) : Host :=
  {| frame_current := frame_current h;
     animation_data := animation_data h;
     mode := mode h;
     id_properties := id_properties h;
     files := fs;
     messages := messages h;
     history := history h |}.

Definition with_messages (ms : list (bool * Message)) (h : Host) : Host :=
  {| frame_current := frame_current h;
     animation_data := animation_data h;
     mode := mode h;
     id_properties := id_properties h;
     files := files h;
     messages := ms;
     history := history h |}.

(** [arm.animation_data.action if arm.animation_data else None]. *)
Definition current_action (h : Host) : option ActionRef :=
  match animation_data h with
  | Some a => a
  | None => None
  end.

(** ** The export monad: host state and exceptions *)

Definition M (A : Type) : Type := Host -> result A * Host.

Definition ret {A} (a : A) : M A := fun h => (Ok a, h).

Definition bind {A B} (m : M A) (k : A -> M B) : M B :=
  fun h =>
    match m h with
    | (Ok a, h') => k a h'
    | (Raise e, h') => (Raise e, h')
    end.

Definition raise {A} (e : exn) : M A := fun h => (Raise e, h).

Definition lift {A} (r : result A) : M A := fun h => (r, h).

Definition get : M Host := fun h => (Ok h, h).

Definition modify (f : Host -> Host) : M unit := fun h => (Ok tt, f h).
End Host.

Notation "x <- c ;; k" := (bind c (fun x => k))
  (at level 100, c at next level, right associativity).
Notation "c ;; k" := (bind c (fun _ => k))
  (at level 100, right associativity).
Notation "x <-- c ;; k" := (result_bind c (fun x => k))
  (at level 100, c at next level, right associativity).

(** The Pose Source: what the host evaluates for [arm.matrix_world] and
    [bone.matrix] in its current state (current frame, active action and
    everything done to it so far). *)
Class PoseSource `{Numerics} : Type := {
  matrix_world : Host -> Matrix;
  bone_matrix : Host -> Bone -> Matrix;
  (* [frame_range] of the [serial]-th action made during the run *)
  new_action_range : Host -> nat -> Q * Q
}.

Section ExportSteps.
Context `{PoseSource}.

(** *** Host calls *)

(** [scene.frame_set(frame)], for a frame the host accepts as it is
    ([host_frame]); the call is logged with its argument. *)
Definition frame_set (frame : Z) : M unit :=
  modify (fun h => log (op_frame_set frame) (with_frame frame h)).

(** [if not arm.animation_data: arm.animation_data_create()] *)
Definition ensure_animation_data : M unit :=
  h <- get ;;
  match animation_data h with
  | Some _ => ret tt
  | None => modify (fun h => log op_animation_data_create
                                 (with_animation_data (Some None) h))
  end.

(** [arm.animation_data.action = a]; on [None] the attribute is missing. *)
Definition set_action (a : ActionRef) : M unit :=
  h <- get ;;
  match animation_data h with
  | Some _ => modify (fun h => log (op_set_action a)
                                   (with_animation_data (Some (Some a)) h))
  | None => raise AttributeError
  end.

(** [if arm.animation_data and original_action:
       arm.animation_data.action = original_action] *)
Definition restore_action (original_action : option ActionRef) : M unit :=
  h <- get ;;
  match animation_data h, original_action with
  | Some _, Some a => set_action a
  | _, _ => ret tt
  end.

Definition is_actions_new (op : HostOp) : bool :=
  match op with
  | op_actions_new _ => true
  | _ => false
  end.

(** [bpy.data.actions.new(name=name)] *)
Definition actions_new (name : string) : M ActionRef :=
  h <- get ;;
  let serial := length (List.filter is_actions_new (history h)) in
  modify (log (op_actions_new name)) ;;
  ret (NewAction serial name).

Definition perform (op : HostOp) : M unit := modify (log op).

(** [bpy.ops.object.mode_set(mode=m)] *)
Definition mode_set (m : Mode) : M unit :=
  modify (fun h => log (op_mode_set m) (with_mode m h)).

(** [for x in l: body], threading the loop's variables [s]. *)
Fixpoint for_each {A S} (l : list A) (body : A -> S -> M S) (s : S) : M S :=
  match l with
  | [] => ret s
  | x :: l' => s' <- body x s ;; for_each l' body s'
  end.

Fixpoint for_each_r {A S} (l : list A) (body : A -> S -> result S) (s : S)
    : result S :=
  match l with
  | [] => Ok s
  | x :: l' => s' <-- body x s ;; for_each_r l' body s'
  end.

(** *** Matrix Packer *)

(** [BLENDER_TO_THREE @ arm.matrix_world @ bone.matrix] *)
Definition export_matrix (h : Host) (bone : Bone) : Matrix :=
  (BLENDER_TO_THREE @ matrix_world h @ bone_matrix h bone)%mat.

(** Lines 218-226:
<<
    def collect_matrices_at_frame(frame):
        scene.frame_set(frame)
        mats = []
        for bone in arm.pose.bones:
            mat = BLENDER_TO_THREE @ arm.matrix_world @ bone.matrix
            for col in range(4):
                for row in range(4):
                    mats.append(mat[row][col])
        return np.array(mats, dtype=np.float32)
>> *)
Definition collect_matrices_at_frame (bones : list Bone) (frame : Z)
    : M (list float32) :=
  frame_set frame ;;
  h <- get ;;
  let mats :=
    foldl (fun mats bone =>
      let mat := export_matrix h bone in
      foldl (fun mats col =>
        foldl (fun mats row => mats ++ [mat_elem mat row col])
              mats (seq 0 4))
        mats (seq 0 4))
      [] bones in
  ret (map to_float32 mats).

(** [np.zeros(n, dtype=np.float32)] *)
Definition np_zeros (n : nat) : list float32 := replicate n zero32.

(** [buf[idx] = v]; numpy raises [IndexError] past the end. *)
Definition np_set (buf : list float32) (idx : nat) (v : float) : result (list float32) :=
  if decide (idx < length buf)%nat then Ok (<[idx := to_float32 v]> buf)
  else Raise IndexError.

(** The inner loops of lines 286-291 (and 367-372, 574-579):
<<
    for col in range(4):
        for row in range(4):
            anim_matrices[idx] = mat[row][col]
            idx += 1
>> *)
Definition write_matrix (mat : Matrix) (st : list float32 * nat)
    : result (list float32 * nat) :=
  for_each_r (seq 0 4) (fun col st =>
    for_each_r (seq 0 4) (fun row '(buf, idx) =>
      buf' <-- np_set buf idx (mat_elem mat row col) ;;
      Ok (buf', S idx)) st) st.

(** Lines 282-291 (and 363-372, 570-579):
<<
    for f_idx, f_num in enumerate(frames_to_export):
        scene.frame_set(f_num)
        offset = f_idx * num_bones * 16
        idx = offset
        for bone in arm.pose.bones:
            mat = BLENDER_TO_THREE @ arm.matrix_world @ bone.matrix
            ...
>> *)
Definition bake_frame (bones : list Bone) (f_idx : nat) (f_num : Z)
    (anim_matrices : list float32) : M (list float32) :=
  frame_set f_num ;;
  h <- get ;;
  let offset := (f_idx * length bones * 16)%nat in
  st <- lift (for_each_r bones (fun bone st =>
                write_matrix (export_matrix h bone) st)
                (anim_matrices, offset)) ;;
  ret (fst st).

Fixpoint bake_from (bones : list Bone) (f_idx : nat) (frames : list Z)
    (anim_matrices : list float32) : M (list float32) :=
  match frames with
  | [] => ret anim_matrices
  | f_num :: rest =>
      buf <- bake_frame bones f_idx f_num anim_matrices ;;
      bake_from bones (S f_idx) rest buf
  end.

(** [np.zeros(len(frames) * num_bones * 16)] filled frame by frame. *)
Definition bake_frames (bones : list Bone) (frames : list Z) : M (list float32) :=
  bake_from bones 0 frames (np_zeros (length frames * length bones * 16)).

(** *** Multi-export: assembling the buffer and the clip records *)

(** The loop variables of [export_multiple_animations]. *)
Record Locals : Type := {
  all_matrix_data : list (list float32);
  frame_counts : list Z;
  frame_steps : list Z;
  animation_ranges : list (Z * Z);
  total_frames : Z;
  animation_helpers : list ClipRecord
}.

(** An element of [animations_to_export]: an included item with its action.
    [sel_pos] is its position in [scene.animation_list]; two items are the
    same Python object exactly when they sit at the same position. *)
Record Selected : Type := {
  sel_pos : nat;
  sel_item : AnimationListItem;
  sel_action : Action
}.

(** [item if item.include and item.action], for the item at [pos]. *)
Definition select (p : nat * AnimationListItem) : option Selected :=
  let '(pos, item) := p in
  if include item then
    match item_action item with
    | Some a => Some {| sel_pos := pos; sel_item := item; sel_action := a |}
    | None => None
    end
  else None.

(** [[item for item in scene.animation_list if item.include and item.action]] *)
Definition animations_to_export (ctx : BlenderContext) : list Selected :=
  omap select (imap pair (animation_list ctx)).

(** Lines 248-253. *)
Definition clip_range (item : AnimationListItem) (action : Action) : Z * Z :=
  if use_full_range item then
    (py_int (fst (frame_range action)), py_int (snd (frame_range action)))
  else
    (custom_start item,
     if negb (custom_end item =? 0) then custom_end item
     else py_int (snd (frame_range action))).

Definition transition_frames : Z := 10.

(** Lines 242-292, one iteration. *)
Definition export_clip (bones : list Bone) (export_all_frames : bool)
    (s : Selected) (L : Locals) : M Locals :=
  let item := sel_item s in
  let action := sel_action s in
  ensure_animation_data ;;
  set_action (DataAction action) ;;
  let '(start_frame, end_frame) := clip_range item action in
  if start_frame >? end_frame then
    raise (Exception ("Start frame cannot be after end frame for animation: "
                      +:+ action_name action))
  else
    frames_to_export <- lift (frames_to_export start_frame end_frame
                                (frame_step item) export_all_frames) ;;
    let frame_step := if export_all_frames then 1 else frame_step item in
    let num_frames := Z.of_nat (length frames_to_export) in
    let start_idx := total_frames L in
    let end_idx := total_frames L + num_frames - 1 in
    anim_matrices <- bake_frames bones frames_to_export ;;
    ret {| all_matrix_data := all_matrix_data L ++ [anim_matrices];
           frame_counts := frame_counts L ++ [num_frames];
           frame_steps := frame_steps L ++ [frame_step];
           animation_ranges := animation_ranges L ++ [(start_frame, end_frame)];
           total_frames := total_frames L + num_frames;
           animation_helpers := animation_helpers L ++
             [{| clip_name := action_name action;
                 start_idx := start_idx;
                 end_idx := end_idx |}] |}.

(** Lines 297-298:
    [[(src, dst) for src in animations_to_export
                 for dst in animations_to_export if src != dst]] *)
Definition transitions (sel : list Selected) : list (Selected * Selected) :=
  flat_map (fun src =>
    flat_map (fun dst =>
      if negb (sel_pos src =? sel_pos dst)%nat then [(src, dst)] else [])
      sel)
    sel.

(** Lines 300-304. *)
Definition last_frame (item : AnimationListItem) (action : Action) : Z :=
  if use_full_range item then py_int (snd (frame_range action))
  else if negb (custom_end item =? 0) then custom_end item
       else py_int (snd (frame_range action)).

Definition first_frame (item : AnimationListItem) (action : Action) : Z :=
  if use_full_range item then py_int (fst (frame_range action))
  else custom_start item.

(** [f"{src_item.action.name}_To_{dst_item.action.name}"] *)
Definition transition_name (src dst : Selected) : string :=
  action_name (sel_action src) +:+ "_To_" +:+ action_name (sel_action dst).

(** The three [keyframe_insert] calls per bone, lines 330-333 and 346-349. *)
Definition keyframe_all (bones : list Bone) (frame : Z) : M unit :=
  for_each bones (fun bone _ =>
    perform (op_keyframe_insert bone "location" frame) ;;
    perform (op_keyframe_insert bone "rotation_quaternion" frame) ;;
    perform (op_keyframe_insert bone "scale" frame)) tt.

(** Lines 308-386, one iteration. *)
Definition export_transition (ctx : BlenderContext) (pair : Selected * Selected)
    (L : Locals) : M Locals :=
  let '(src_item, dst_item) := pair in
  let bones := pose_bones ctx in
  let src_last := last_frame (sel_item src_item) (sel_action src_item) in
  let dst_first := first_frame (sel_item dst_item) (sel_action dst_item) in
  let tr_name := transition_name src_item dst_item in
  tr_action <- actions_new tr_name ;;
  ensure_animation_data ;;
  (* frame 1: last pose of the source *)
  set_action (DataAction (sel_action src_item)) ;;
  frame_set src_last ;;
  perform op_view_layer_update ;;
  mode_set POSE ;;
  perform op_pose_select_all ;;
  perform op_pose_copy ;;
  set_action tr_action ;;
  frame_set 1 ;;
  perform op_pose_paste ;;
  keyframe_all bones 1 ;;
  (* frame 10: first pose of the target *)
  set_action (DataAction (sel_action dst_item)) ;;
  frame_set dst_first ;;
  perform op_view_layer_update ;;
  perform op_pose_select_all ;;
  perform op_pose_copy ;;
  set_action tr_action ;;
  frame_set 10 ;;
  perform op_pose_paste ;;
  keyframe_all bones 10 ;;
  perform (op_interpolation_linear tr_action) ;;
  (* bake *)
  let step := if multi_export_all_frames ctx then 1 else 1 in
  range <- lift (py_range 1 (transition_frames + 1) step) ;;
  final <- lift (py_last range) ;;
  let frames_to_export :=
    if negb (final =? transition_frames) then range ++ [transition_frames]
    else range in
  set_action tr_action ;;
  tr_matrices <- bake_frames bones frames_to_export ;;
  let start_idx := total_frames L in
  let end_idx := total_frames L + 9 in
  let num_frames := Z.of_nat (length frames_to_export) in
  ret {| all_matrix_data := all_matrix_data L ++ [tr_matrices];
         frame_counts := frame_counts L ++ [num_frames];
         frame_steps := frame_steps L ++
           [if multi_export_all_frames ctx then 1 else 1];
         animation_ranges := animation_ranges L ++ [(1, transition_frames)];
         total_frames := total_frames L + num_frames;
         animation_helpers := animation_helpers L ++
           [{| clip_name := tr_name;
               start_idx := start_idx;
               end_idx := end_idx |}] |}.

(** What the assembly phase (lines 199-395) hands to the export phase. *)
Record Assembly : Type := {
  locals : Locals;
  combined_data : list float32;
  original_frame : Z;
  original_action : option ActionRef
}.

(** Lines 199-395 of [export_multiple_animations]. *)
Definition assemble (ctx : BlenderContext) (unit_name : string)
    (export_all_frames : bool) : M Assembly :=
  if negb (bool_decide (object_type ctx = Some "ARMATURE")) then
    raise (Exception "Please select an armature object first")
  else
  let animations_to_export := animations_to_export ctx in
  match animations_to_export with
  | [] => raise (Exception "No animations selected for export")
  | _ =>
    let bones := pose_bones ctx in
    h0 <- get ;;
    let original_frame := frame_current h0 in
    (* 1. rest pose *)
    let rest_frame := if frame_start ctx <=? 0 then 0 else 1 in
    rest <- collect_matrices_at_frame bones rest_frame ;;
    let L := {| all_matrix_data := [rest];
                frame_counts := [1];
                frame_steps := [1];
                animation_ranges := [(rest_frame, rest_frame)];
                total_frames := 1;
                animation_helpers :=
                  [{| clip_name := unit_name +:+ "Rest";
                      start_idx := 0; end_idx := 0 |}] |} in
    (* 2. normal animations *)
    L <- for_each animations_to_export (export_clip bones export_all_frames) L ;;
    (* 3. transitions; line 306 reads [original_action] anew here, and the
       value read at line 213 is never used *)
    h1 <- get ;;
    let original_action := current_action h1 in
    L <- for_each (transitions animations_to_export) (export_transition ctx) L ;;
    restore_action original_action ;;
    ret {| locals := L;
           combined_data := concat (all_matrix_data L);
           original_frame := original_frame;
           original_action := original_action |}
  end.
End ExportSteps.

(** *** Clip Registry: the transition adjacency map *)

(** [tr['name'].replace(f"{unit_name}_", "").split("_To_")] *)
Definition split_transition (unit_name name : string) : list string :=
  py_split "_To_" (py_remove (unit_name +:+ "_") name).

(** Lines 442-449:
<<
    trans_map = {}
    for tr in transitions:
        src_dst = tr['name'].replace(f"{unit_name}_", "").split("_To_")
        if len(src_dst) != 2:
            continue
        src, dst = src_dst
        trans_map.setdefault(src, {})[dst] = tr['name']
>> *)
Definition add_transition (unit_name : string)
    (trans_map : pydict (pydict string)) (tr : ClipRecord) : pydict (pydict string) :=
  match split_transition unit_name (clip_name tr) with
  | [src; dst] =>
      dict_set src (dict_set dst (clip_name tr) (default [] (dict_get src trans_map)))
               trans_map
  | _ => trans_map
  end.

Definition build_trans_map (unit_name : string) (transitions : list ClipRecord)
    : pydict (pydict string) :=
  foldl (add_transition unit_name) [] transitions.

(** [trans_map[src][dst]], when both keys are there. *)
Definition adjacency (trans_map : pydict (pydict string)) (src dst : string)
    : option string :=
  match dict_get src trans_map with
  | Some inner => dict_get dst inner
  | None => None
  end.

(** [[a for a in animation_helpers if "_To_" in a['name']]] and its
    complement, lines 418-419. *)
Definition is_transition_record (a : ClipRecord) : bool :=
  py_contains "_To_" (clip_name a).

Definition transition_records (helpers : list ClipRecord) : list ClipRecord :=
  List.filter is_transition_record helpers.

Definition rest_and_main (helpers : list ClipRecord) : list ClipRecord :=
  List.filter (fun a => negb (is_transition_record a)) helpers.

(** [str(n)] for an [int]. *)
Definition py_str (n : Z) : string := DecimalString.NilZero.string_of_int (Z.to_int n).

Inductive Status : Type := FINISHED | CANCELLED.

Section Serializer.
Context `{PoseSource}.

(** The helper file written at lines 409-483. *)
Definition descriptor (ctx : BlenderContext) (unit_name : string) (L : Locals)
    : Descriptor :=
  let helpers := animation_helpers L in
  let main_anims :=
    List.filter (fun n => negb (String.eqb n (unit_name +:+ "Rest")))
                (map clip_name (rest_and_main helpers)) in
  let trans_map := build_trans_map unit_name (transition_records helpers) in
  {| js_unit := unit_name;
     js_main_calls := rest_and_main helpers;
     js_transition_calls := transition_records helpers;
     js_adjacency_calls :=
       omap (fun src => match dict_get src trans_map with
                        | Some inner => Some (src, inner)
                        | None => None
                        end) main_anims;
     numBones := Z.of_nat (length (pose_bones ctx));
     totalFrames := total_frames L;
     animationCount := Z.of_nat (length helpers);
     frameCounts := frame_counts L;
     frameSteps := frame_steps L;
     animationRanges := animation_ranges L;
     animationNames := map clip_name helpers;
     boneNames := map bone_name (pose_bones ctx) |}.

(** [with open(path, ...) as f: ...] in the export directory, for a
    directory and a path that the file system accepts.  [os.makedirs] and
    [open] raise [OSError] otherwise (for one, when the name holds a path
    separator) and the handler then cancels the run, so what is proved of
    the written files is stated of runs that finished. *)
Definition write_file (f : File) : M unit :=
  modify (fun h => with_files (files h ++ [f]) h).

(** [arm[key] = v] *)
Definition set_property (key : string) (v : IdProp) : M unit :=
  modify (fun h => with_id_properties (<[key := v]> (id_properties h)) h).

(** [if key in arm: del arm[key]] *)
Definition del_property (key : string) : M unit :=
  modify (fun h => with_id_properties (delete key (id_properties h)) h).

(** Lines 397-487. *)
Definition export_bin (ctx : BlenderContext) (unit_name : string) (A : Assembly)
    : M Message :=
  let L := locals A in
  if String.eqb (filepath ctx) "" then
    raise (Exception "Please save your blend file first to use binary export")
  else
    perform (op_makedirs (filepath ctx)) ;;
    let base_filename := unit_name +:+ "_animations" in
    write_file (BinFile (base_filename +:+ ".bin") (combined_data A)) ;;
    write_file (JsFile (base_filename +:+ ".js") (descriptor ctx unit_name L)) ;;
    ret (msg_exported (Z.of_nat (length (animation_helpers L)))
                      (total_frames L)
                      (Z.of_nat (length (pose_bones ctx)))).

(** Lines 489-500. *)
Definition export_property (ctx : BlenderContext) (property_name : string)
    (A : Assembly) : M Message :=
  let L := locals A in
  del_property property_name ;;
  set_property property_name (prop_floats (combined_data A)) ;;
  set_property (property_name +:+ "_totalFrames") (prop_int (total_frames L)) ;;
  set_property (property_name +:+ "_numBones")
               (prop_int (Z.of_nat (length (pose_bones ctx)))) ;;
  set_property (property_name +:+ "_animationCount")
               (prop_int (Z.of_nat (length (animation_helpers L)))) ;;
  set_property (property_name +:+ "_frameSteps")
               (prop_str_of_ints (frame_steps L)) ;;
  ret (msg_stored (Z.of_nat (length (animation_helpers L)))
                  (total_frames L)
                  (Z.of_nat (length (pose_bones ctx)))
                  property_name).

(** The [try] block of [export_multiple_animations], lines 199-512. *)
Definition export_multiple_body (ctx : BlenderContext) (unit_name : string)
    (export_method : ExportMethod) (property_name : string)
    (export_all_frames : bool) : M Message :=
  A <- assemble ctx unit_name export_all_frames ;;
  msg <- match export_method with
         | BIN => export_bin ctx unit_name A
         | PROPERTY => export_property ctx property_name A
         end ;;
  (* restore original state *)
  frame_set (original_frame A) ;;
  restore_action (original_action A) ;;
  mode_set OBJECT ;;
  ret msg.

(** [bpy.ops.export_animation.show_message(message=..., is_error=...)] *)
Definition show_message (is_error : bool) (m : Message) (h : Host) : Host :=
  with_messages (messages h ++ [(is_error, m)]) h.

(** The [try]/[except] of an entry point: every exception is reported and
    turned into [{'CANCELLED'}]; the handler does nothing else. *)
Definition run_export (body : M Message) (h : Host) : Status * Host :=
  match body h with
  | (Ok msg, h') => (FINISHED, show_message false msg h')
  | (Raise e, h') => (CANCELLED, show_message true (msg_failed e) h')
  end.

Definition export_multiple_animations (ctx : BlenderContext) (unit_name : string)
    (export_method : ExportMethod) (property_name : string)
    (export_all_frames : bool) : Host -> Status * Host :=
  run_export (export_multiple_body ctx unit_name export_method property_name
                                   export_all_frames).

(** *** Single-animation export *)

Definition ref_name (r : ActionRef) : string :=
  match r with
  | DataAction a => action_name a
  | NewAction _ name => name
  end.

(** [action.frame_range] of the active action. *)
Definition ref_frame_range (h : Host) (r : ActionRef) : Q * Q :=
  match r with
  | DataAction a => frame_range a
  | NewAction serial _ => new_action_range h serial
  end.

(** Lines 554-631 of [export_animation_frames_raw]: from the range check
    on, with the name and the range settled. *)
Definition export_single_frames (ctx : BlenderContext) (animation_name : string)
    (start_frame end_frame : Z) (frame_step : Z) (export_all_frames : bool)
    (export_method : ExportMethod) (property_name : string) : M Message :=
  if start_frame >? end_frame then
    raise (Exception "Start frame cannot be after end frame")
  else
  h0 <- get ;;
  let current_frame := frame_current h0 in
  let bones := pose_bones ctx in
  let num_bones := Z.of_nat (length bones) in
  frames_to_export <- lift (frames_to_export start_frame end_frame frame_step
                                             export_all_frames) ;;
  let num_frames := Z.of_nat (length frames_to_export) in
  all_matrix_data <- bake_frames bones frames_to_export ;;
  msg <-
    match export_method with
    | BIN =>
        if String.eqb (filepath ctx) "" then
          raise (Exception "Please save your blend file first to use binary export")
        else
          perform (op_makedirs (filepath ctx)) ;;
          let base_filename :=
            animation_name +:+ "_f" +:+ py_str start_frame +:+ "_" +:+
            py_str end_frame +:+ "_n" +:+ py_str num_frames +:+
            (if negb export_all_frames then "_s" +:+ py_str frame_step else "") in
          write_file (BinFile (base_filename +:+ ".bin") all_matrix_data) ;;
          write_file (SingleJsFile (base_filename +:+ ".js")
            {| sd_name := animation_name;
               sd_numBones := num_bones;
               sd_numFrames := num_frames;
               sd_startFrame := start_frame;
               sd_endFrame := end_frame;
               sd_frameStep := frame_step;
               sd_exportAllFrames := export_all_frames;
               sd_boneNames := map bone_name bones;
               sd_last_index := num_frames - 1 |}) ;;
          ret (msg_single num_frames num_bones)
    | PROPERTY =>
        del_property property_name ;;
        set_property property_name (prop_floats all_matrix_data) ;;
        set_property (property_name +:+ "_numFrames") (prop_int num_frames) ;;
        set_property (property_name +:+ "_numBones") (prop_int num_bones) ;;
        ret (msg_single num_frames num_bones)
    end ;;
  frame_set current_frame ;;
  mode_set OBJECT ;;
  ret msg.

(** The [try] block of [export_animation_frames_raw], lines 528-631. *)
Definition export_single_body (ctx : BlenderContext) (animation_name : string)
    (use_custom_name : bool) (start_frame end_frame : option Z) (frame_step : Z)
    (export_all_frames use_full_animation_range : bool)
    (export_method : ExportMethod) (property_name : string) : M Message :=
  if negb (bool_decide (object_type ctx = Some "ARMATURE")) then
    raise (Exception "Please select an armature object first")
  else
  h0 <- get ;;
  let action_name :=
    match current_action h0 with
    | Some r => ref_name r
    | None => ""
    end in
  animation_name <-
    (if negb use_custom_name && negb (String.eqb action_name "") then ret action_name
     else if String.eqb animation_name "" then
       raise (Exception "Please provide an animation name or ensure the armature has an action")
     else ret animation_name) ;;
  range <-
    (if use_full_animation_range then
       match current_action h0 with
       | None => raise (Exception "No animation found for full range export")
       | Some action => ret (1, py_int (snd (ref_frame_range h0 action)))
       end
     else
       ret (default (frame_start ctx) start_frame,
            default (frame_end ctx) end_frame)) ;;
  export_single_frames ctx animation_name (fst range) (snd range) frame_step
    export_all_frames export_method property_name.

Definition export_animation_frames_raw (ctx : BlenderContext)
    (animation_name : string) (use_custom_name : bool)
    (start_frame end_frame : option Z) (frame_step : Z)
    (export_all_frames use_full_animation_range : bool)
    (export_method : ExportMethod) (property_name : string)
    : Host -> Status * Host :=
  run_export (export_single_body ctx animation_name use_custom_name
                start_frame end_frame frame_step export_all_frames
                use_full_animation_range export_method property_name).
End Serializer.

(** ** The Matrix Packer in the specification's words

    "For each frame, for each bone in order, apply
    transform * world_matrix * bone_local_matrix, then write its 16 elements:
    for col in 0..4: for row in 0..4: emit M[row][col]; frames concatenated
    in sampling order."  These definitions follow that sentence, not the
    code; the code is [bake_frames] and [collect_matrices_at_frame]. *)
Section PackerSpec.
Context `{PoseSource}.

Definition spec_column_major (mat : Matrix) : list float32 :=
  flat_map (fun col =>
    flat_map (fun row => [to_float32 (mat_elem mat row col)]) (seq 0 4))
    (seq 0 4).

Definition spec_frame (bones : list Bone) (h : Host) : list float32 :=
  flat_map (fun bone =>
    spec_column_major (BLENDER_TO_THREE @ matrix_world h @ bone_matrix h bone)%mat)
    bones.

(** The host once [scene.frame_set(f)] has returned. *)
Definition at_frame (f : Z) (h : Host) : Host :=
  log (op_frame_set f) (with_frame f h).

Fixpoint spec_pack (bones : list Bone) (frames : list Z) (h : Host)
    : list float32 :=
  match frames with
  | [] => []
  | f :: rest => spec_frame bones (at_frame f h) ++ spec_pack bones rest (at_frame f h)
  end.

Definition after_frames (frames : list Z) (h : Host) : Host :=
  foldl (fun h f => at_frame f h) h frames.

(** The host in which the [i]-th frame of [frames] is sampled. *)
Definition sampling_host (frames : list Z) (i : nat) (h : Host) : Host :=
  after_frames (take (S i) frames) h.
End PackerSpec.

(** ** The Clip Registry in the specification's words

    Ranges are handed out in creation order, each clip taking as many
    positions as it has frames, with no gap: [spec_layout from clips] gives
    the records of [clips] (name and frame count) when the next free
    position is [from]. *)
Fixpoint spec_layout (from : Z) (clips : list (string * Z)) : list ClipRecord :=
  match clips with
  | [] => []
  | (name, count) :: rest =>
      {| clip_name := name; start_idx := from; end_idx := from + count - 1 |}
      :: spec_layout (from + count) rest
  end.

Definition sum_counts (clips : list (string * Z)) : Z :=
  foldr (fun c acc => snd c + acc) 0 clips.

(** [end_idx - start_idx + 1] of a record. *)
Definition record_frames (r : ClipRecord) : Z := end_idx r - start_idx r + 1.

Definition sum_record_frames (rs : list ClipRecord) : Z :=
  foldr (fun r acc => record_frames r + acc) 0 rs.

(** ** Vocabulary of the proofs *)

Section SpliceDef.
Context {A : Type}.

(** [buf] with [vs] written over positions [idx .. idx + len(vs) - 1]. *)
Definition splice (idx : nat) (vs buf : list A) : list A :=
  take idx buf ++ vs ++ drop (idx + length vs) buf.

End SpliceDef.

Section RunVocabulary.
Context `{PoseSource}.

(** Nothing has been written and nothing reported between [h] and [h']. *)
Definition steady (h h' : Host) : Prop :=
  files h' = files h /\ id_properties h' = id_properties h /\
  messages h' = messages h.

(** The host after [if not arm.animation_data: arm.animation_data_create()]. *)
Definition ensured (h : Host) : Host :=
  match animation_data h with
  | Some _ => h
  | None => log op_animation_data_create (with_animation_data (Some None) h)
  end.

(** ... and after [arm.animation_data.action = a] on top of that. *)
Definition activate (a : ActionRef) (h : Host) : Host :=
  log (op_set_action a) (with_animation_data (Some (Some a)) (ensured h)).

(** [L] after the appends of one loop iteration. *)
Definition push (L : Locals) (name : string) (last_idx : Z) (num_frames : Z)
    (step : Z) (range : Z * Z) (chunk : list float32) : Locals :=
  {| all_matrix_data := all_matrix_data L ++ [chunk];
     frame_counts := frame_counts L ++ [num_frames];
     frame_steps := frame_steps L ++ [step];
     animation_ranges := animation_ranges L ++ [range];
     total_frames := total_frames L + num_frames;
     animation_helpers := animation_helpers L ++
       [{| clip_name := name; start_idx := total_frames L; end_idx := last_idx |}] |}.

Definition invalid_range (a : Action) : exn :=
  Exception ("Start frame cannot be after end frame for animation: " +:+ action_name a).

Definition transition_positions : list Z := [1; 2; 3; 4; 5; 6; 7; 8; 9; 10].

(** One exported clip as the proofs see it: its name, its Frame Index
    Sequence, its step and range, and the host in which its sampling
    starts. *)
Record Entry : Type := {
  e_name : string;
  e_frames : list Z;
  e_step : Z;
  e_range : Z * Z;
  e_host : Host
}.

Definition e_count (e : Entry) : Z := Z.of_nat (length (e_frames e)).

Definition e_chunk (bones : list Bone) (e : Entry) : list float32 :=
  spec_pack bones (e_frames e) (e_host e).

(** The loop variables that a list of entries amounts to. *)
Definition locals_of (bones : list Bone) (es : list Entry) : Locals :=
  {| all_matrix_data := map (e_chunk bones) es;
     frame_counts := map e_count es;
     frame_steps := map e_step es;
     animation_ranges := map e_range es;
     total_frames := sum_counts (map (fun e => (e_name e, e_count e)) es);
     animation_helpers := spec_layout 0 (map (fun e => (e_name e, e_count e)) es) |}.

(** The Frame Index Sequence of a selected clip (empty when the sampler
    raises). *)
Definition clip_frames (all : bool) (s : Selected) : list Z :=
  let range := clip_range (sel_item s) (sel_action s) in
  match frames_to_export (fst range) (snd range) (frame_step (sel_item s)) all with
  | Ok frames => frames
  | Raise _ => []
  end.

(** A clip the sampler accepts: its range is in order and, unless every
    frame is exported, its step is positive. *)
Definition valid_clip (all : bool) (s : Selected) : Prop :=
  let range := clip_range (sel_item s) (sel_action s) in
  fst range <= snd range /\ (all = true \/ 1 <= frame_step (sel_item s)).

Definition rest_frame (ctx : BlenderContext) : Z :=
  if frame_start ctx <=? 0 then 0 else 1.

Definition rest_entry (ctx : BlenderContext) (unit_name : string) (h : Host) : Entry :=
  {| e_name := unit_name +:+ "Rest";
     e_frames := [rest_frame ctx];
     e_step := 1;
     e_range := (rest_frame ctx, rest_frame ctx);
     e_host := h |}.

Definition clip_entry (all : bool) (s : Selected) (hx : Host) : Entry :=
  {| e_name := action_name (sel_action s);
     e_frames := clip_frames all s;
     e_step := if all then 1 else frame_step (sel_item s);
     e_range := clip_range (sel_item s) (sel_action s);
     e_host := hx |}.

Definition transition_entry (p : Selected * Selected) (hx : Host) : Entry :=
  {| e_name := transition_name (fst p) (snd p);
     e_frames := transition_positions;
     e_step := 1;
     e_range := (1, transition_frames);
     e_host := hx |}.

(** The host in which a main clip is sampled has that clip's action
    active. *)
Definition samples_action (s : Selected) (hx : Host) : Prop :=
  animation_data hx = Some (Some (DataAction (sel_action s))).

(** The host in which a transition is sampled has an action made during
    the run, under the transition's name, active. *)
Definition samples_transition (p : Selected * Selected) (hx : Host) : Prop :=
  exists serial,
    animation_data hx = Some (Some (NewAction serial (transition_name (fst p) (snd p)))).

(** The custom properties after the stores of lines 490-497. *)
Definition stored_properties (ctx : BlenderContext) (property_name : string)
    (A : Assembly) (props : gmap string IdProp) : gmap string IdProp :=
  <[property_name +:+ "_frameSteps" := prop_str_of_ints (frame_steps (locals A))]>
  (<[property_name +:+ "_animationCount" :=
       prop_int (Z.of_nat (length (animation_helpers (locals A))))]>
  (<[property_name +:+ "_numBones" := prop_int (Z.of_nat (length (pose_bones ctx)))]>
  (<[property_name +:+ "_totalFrames" := prop_int (total_frames (locals A))]>
  (<[property_name := prop_floats (combined_data A)]>
  (delete property_name props))))).

(** The two files of a binary multi-export. *)
Definition written_files (ctx : BlenderContext) (unit_name : string) (A : Assembly)
    : list File :=
  [BinFile ((unit_name +:+ "_animations") +:+ ".bin") (combined_data A);
   JsFile ((unit_name +:+ "_animations") +:+ ".js")
          (descriptor ctx unit_name (locals A))].

(** A clip whose start frame is after its end frame. *)
Definition reversed (s : Selected) : Prop :=
  snd (clip_range (sel_item s) (sel_action s)) <
  fst (clip_range (sel_item s) (sel_action s)).

(** A step the sampler can use: positive, or not used at all. *)
Definition usable_step (all : bool) (s : Selected) : Prop :=
  all = true \/ 1 <= frame_step (sel_item s).

Definition no_selection_error : exn :=
  Exception "No animations selected for export".

Definition single_range_error : exn :=
  Exception "Start frame cannot be after end frame".

(** The name the single export settles on, lines 532-539. *)
Definition single_name (h : Host) (animation_name : string) (use_custom_name : bool)
    : option string :=
  let action_name :=
    match current_action h with
    | Some r => ref_name r
    | None => ""
    end in
  if negb use_custom_name && negb (String.eqb action_name "") then Some action_name
  else if String.eqb animation_name "" then None
  else Some animation_name.

(** The range the single export settles on, lines 541-552. *)
Definition single_range (ctx : BlenderContext) (h : Host)
    (start_frame end_frame : option Z) (use_full_animation_range : bool)
    : option (Z * Z) :=
  if use_full_animation_range then
    match current_action h with
    | None => None
    | Some action => Some (1, py_int (snd (ref_frame_range h action)))
    end
  else Some (default (frame_start ctx) start_frame, default (frame_end ctx) end_frame).

Definition unsaved_error : exn :=
  Exception "Please save your blend file first to use binary export".

Definition is_armature (ctx : BlenderContext) : Prop :=
  object_type ctx = Some "ARMATURE".

(** Every way a multi-export with an armature and usable steps can end. *)
Inductive multi_outcome (ctx : BlenderContext) (all : bool) (h : Host)
    : Status * Host -> Prop :=
| outcome_no_selection :
    animations_to_export ctx = [] ->
    multi_outcome ctx all h (CANCELLED, show_message true (msg_failed no_selection_error) h)
| outcome_reversed (good : list Selected) (bad : Selected) (rest : list Selected)
    (h1 : Host) :
    animations_to_export ctx = good ++ bad :: rest ->
    Forall (valid_clip all) good ->
    reversed bad ->
    steady h h1 ->
    multi_outcome ctx all h
      (CANCELLED, show_message true (msg_failed (invalid_range (sel_action bad))) h1)
| outcome_unsaved (h1 : Host) :
    Forall (valid_clip all) (animations_to_export ctx) ->
    steady h h1 ->
    multi_outcome ctx all h
      (CANCELLED, show_message true (msg_failed unsaved_error) h1)
| outcome_finished (msg : Message) (h1 : Host) :
    Forall (valid_clip all) (animations_to_export ctx) ->
    multi_outcome ctx all h (FINISHED, show_message false msg h1).

(** The single export's file name. *)
Definition single_base_filename (name : string) (s e step : Z) (all : bool)
    (frames : list Z) : string :=
  name +:+ "_f" +:+ py_str s +:+ "_" +:+ py_str e +:+ "_n" +:+
  py_str (Z.of_nat (length frames)) +:+
  (if negb all then "_s" +:+ py_str step else "").

(** The Clip Records of a multi-export whose assembly phase succeeds. *)
Definition assembled_records (ctx : BlenderContext) (unit_name : string)
    (all : bool) (h : Host) : option (list ClipRecord) :=
  match fst (assemble ctx unit_name all h) with
  | Ok A => Some (animation_helpers (locals A))
  | Raise _ => None
  end.
End RunVocabulary.

(** [tr]'s name, with the unit prefix removed, splits into exactly
    [[src; dst]]. *)
Definition parses_to (unit_name : string) (src dst : string) (tr : ClipRecord) : Prop :=
  split_transition unit_name (clip_name tr) = [src; dst].

#[global] Instance parses_to_dec (unit_name src dst : string) (tr : ClipRecord) :
  Decision (parses_to unit_name src dst tr).
Proof. unfold parses_to. apply _. Defined.

Section Comprehension.
Context {A B : Type} (key : A -> nat) (f : A -> A -> B).

(** The shape of the comprehension at lines 297-298, over any element
    type. *)
Definition pairs_of (l1 l2 : list A) : list B :=
  flat_map (fun a =>
    flat_map (fun b => if negb (key a =? key b)%nat then [f a b] else []) l2) l1.
End Comprehension.

(** ** The animation list and the operators *)

Definition with_animation_list (items : list AnimationListItem) (ctx : BlenderContext)
    : BlenderContext :=
  {| object_type := object_type ctx;
     pose_bones := pose_bones ctx;
     frame_start := frame_start ctx;
     frame_end := frame_end ctx;
     animation_list := items;
     multi_export_all_frames := multi_export_all_frames ctx;
     filepath := filepath ctx |}.

(** The item that one iteration of the loop at lines 153-160 adds:
<<
    item = scene.animation_list.add()
    item.name = action.name
    item.action = action
    item.frame_step = 1
    item.use_full_range = True
    item.custom_start = 1
    item.custom_end = int(action.frame_range[1])
>>
    [include] keeps its default [True] (line 103); [custom_end] is an
    [IntProperty] with [min=0] (lines 121-126), and assigning a value below
    the hard minimum of such a property stores the minimum. *)
Definition refresh_item (action : Action) : AnimationListItem :=
  {| item_name := action_name action;
     item_action := Some action;
     include := true;
     frame_step := 1;
     use_full_range := true;
     custom_start := 1;
     custom_end := Z.max 0 (py_int (snd (frame_range action))) |}.

(** [AnimationList_OT_Refresh.execute], lines 150-161; [actions] is
    [bpy.data.actions]:
<<
    scene.animation_list.clear()
    for action in bpy.data.actions:
        item = scene.animation_list.add()
        ...
    return {'FINISHED'}
>> *)
Definition AnimationList_OT_Refresh_execute (actions : list Action)
    (ctx : BlenderContext) : Status * BlenderContext :=
  (FINISHED,
   with_animation_list
     (foldl (fun items action => items ++ [refresh_item action]) [] actions) ctx).

Inductive ExportMode : Type := SINGLE | MULTI.

(** [AnimationExportProperties], lines 25-96, but for
    [multi_export_all_frames], which [BlenderContext] holds. *)
Module Props.
Record t : Type := {
  animation_name : string;
  use_custom_name : bool;
  start_frame : Z;
  end_frame : Z;
  frame_step : Z;
  export_all_frames : bool;
  use_full_animation_range : bool;
  export_method : ExportMethod;
  property_name : string;
  export_mode : ExportMode;
  unit_name : string
}.
End Props.

Section Operators.
Context `{PoseSource}.

(** [ExportAnimationOperator.execute], lines 738-760. *)
Definition ExportAnimationOperator_execute (ctx : BlenderContext) (props : Props.t)
    : Host -> Status * Host :=
  match Props.export_mode props with
  | SINGLE =>
      export_animation_frames_raw ctx
        (Props.animation_name props)
        (Props.use_custom_name props)
        (if negb (Props.start_frame props =? 0)
            && negb (Props.use_full_animation_range props)
         then Some (Props.start_frame props) else None)
        (if negb (Props.end_frame props =? 0)
            && negb (Props.use_full_animation_range props)
         then Some (Props.end_frame props) else None)
        (Props.frame_step props)
        (Props.export_all_frames props)
        (Props.use_full_animation_range props)
        (Props.export_method props)
        (Props.property_name props)
  | MULTI =>
      export_multiple_animations ctx
        (Props.unit_name props)
        (Props.export_method props)
        (Props.property_name props)
        (multi_export_all_frames ctx)
  end.
End Operators.

(** [sep.join(l)] *)
Fixpoint py_join (sep : string) (l : list string) : string :=
  match l with
  | [] => ""
  | [x] => x
  | x :: l' => x +:+ sep +:+ py_join sep l'
  end.

(** ["\n"] *)
Definition newline : string := String (ascii_of_nat 10) EmptyString.

(** [ShowMessageOperator.draw], lines 654-657: the texts of the labels, in
    order.
<<
    for line in self.message.split('\n'):
        layout.label(text=line)
>> *)
Definition ShowMessageOperator_draw (message : string) : list string :=
  py_split newline message.

(** ** More vocabulary of the proofs *)

Section StateVocabulary.
Context `{PoseSource}.

(** How many actions [bpy.data.actions.new] has made so far. *)
Definition new_actions (h : Host) : nat :=
  length (List.filter is_actions_new (history h)).

(** The host once a valid main clip has been sampled. *)
Definition after_clip (all : bool) (s : Selected) (h : Host) : Host :=
  after_frames (clip_frames all s) (activate (DataAction (sel_action s)) h).

Definition after_clips (all : bool) (sel : list Selected) (h : Host) : Host :=
  foldl (fun h s => after_clip all s h) h sel.

(** What a main clip that is not valid raises: the range error, or else
    what the sampler raises on its step. *)
Definition clip_error (s : Selected) : exn :=
  if decide (reversed s) then invalid_range (sel_action s)
  else if decide (frame_step (sel_item s) = 0) then ValueError
       else IndexError.

(** [h'] comes after [h]: calls were made and none was forgotten. *)
Definition extends (h h' : Host) : Prop :=
  exists ops, history h' = ops ++ history h.

(** A computation that only makes calls. *)
Definition grows {A} (c : M A) : Prop :=
  forall h, extends h (snd (c h)).

(** The calls of lines 314-329 on an armature that has animation data,
    oldest first: the transition out of [src] into [dst] makes its action,
    reads the pose of [src] at [src_last] and pastes it at frame 1 of the
    new action. *)
Definition source_pose_calls (src dst : Selected) (src_last : Z) (serial : nat)
    : list HostOp :=
  [op_actions_new (transition_name src dst);
   op_set_action (DataAction (sel_action src));
   op_frame_set src_last;
   op_view_layer_update;
   op_mode_set POSE;
   op_pose_select_all;
   op_pose_copy;
   op_set_action (NewAction serial (transition_name src dst));
   op_frame_set 1;
   op_pose_paste].

Definition not_armature_error : exn :=
  Exception "Please select an armature object first".

Definition name_error : exn :=
  Exception "Please provide an animation name or ensure the armature has an action".

Definition no_action_error : exn :=
  Exception "No animation found for full range export".
End StateVocabulary.

(** ** A concrete host for running the model

    Integer matrices stand in for floats, the armature sits at the origin,
    and each bone's matrix is a translation by (current frame, length of
    the bone's name, 0). *)
Module Fixture.
Definition zmat : Type := list (list Z).

Definition zmat_elem (m : zmat) (row col : nat) : Z := nth col (nth row m []) 0.

Definition zmat_mul (a b : zmat) : zmat :=
  map (fun r => map (fun c =>
         foldl (fun acc k => acc + zmat_elem a r k * zmat_elem b k c) 0 (seq 0 4))
       (seq 0 4)) (seq 0 4).

Definition identity4 : zmat :=
  [[1; 0; 0; 0]; [0; 1; 0; 0]; [0; 0; 1; 0]; [0; 0; 0; 1]].

Definition ZNumerics : Numerics :=
  {| float := Z; float32 := Z; Matrix := zmat;
     matmul := zmat_mul; mat_elem := zmat_elem;
     to_float32 := fun x => x; zero32 := 0;
     BLENDER_TO_THREE :=
       [[1; 0; 0; 0]; [0; 0; 1; 0]; [0; -1; 0; 0]; [0; 0; 0; 1]] |}.

Definition ZPose : @PoseSource ZNumerics :=
  @Build_PoseSource ZNumerics
    (fun _ => identity4)
    (fun h bone =>
       [[1; 0; 0; frame_current h];
        [0; 1; 0; Z.of_nat (String.length (bone_name bone))];
        [0; 0; 1; 0];
        [0; 0; 0; 1]])
    (fun _ _ => (1%Q, 10%Q)).

Definition action (name : string) (first last : Z) : Action :=
  {| action_name := name; frame_range := (inject_Z first, inject_Z last) |}.

(** A list entry as [AnimationList_OT_Refresh] makes it. *)
Definition refreshed (a : Action) : AnimationListItem :=
  {| item_name := action_name a;
     item_action := Some a;
     include := true;
     frame_step := 1;
     use_full_range := true;
     custom_start := 1;
     custom_end := py_int (snd (frame_range a)) |}.

Definition custom (a : Action) (first last step : Z) : AnimationListItem :=
  {| item_name := action_name a;
     item_action := Some a;
     include := true;
     frame_step := step;
     use_full_range := false;
     custom_start := first;
     custom_end := last |}.

Definition skeleton : list Bone :=
  [ {| bone_name := "root" |}; {| bone_name := "arm" |} ].

Definition scene (items : list AnimationListItem) : BlenderContext :=
  {| object_type := Some "ARMATURE";
     pose_bones := skeleton;
     frame_start := 1;
     frame_end := 250;
     animation_list := items;
     multi_export_all_frames := false;
     filepath := "/work/soldier.blend" |}.

Definition Idle : Action := action "Idle" 1 20.
Definition Walk : Action := action "Walk" 1 5.
Definition Run : Action := action "Run" 1 4.

(** Selections. *)
Definition walk_run : BlenderContext := scene [refreshed Walk; refreshed Run].

Definition stepped_walk_run : BlenderContext :=
  scene [custom Walk 1 5 2; refreshed Run].

Definition only_walk : BlenderContext := scene [refreshed Walk].

(** [Walk] from frame 2 with the custom end left at 0. *)
Definition open_ended_walk : BlenderContext := scene [custom Walk 2 0 1].

(** [Walk] with start frame 5 and end frame 3. *)
Definition reversed_walk : BlenderContext := scene [custom Walk 5 3 1].

(** The elements of [animations_to_export] for these selections. *)
Definition walk_clip : Selected :=
  {| sel_pos := 0; sel_item := refreshed Walk; sel_action := Walk |}.

Definition run_clip : Selected :=
  {| sel_pos := 1; sel_item := refreshed Run; sel_action := Run |}.

Definition open_ended_clip : Selected :=
  {| sel_pos := 0; sel_item := custom Walk 2 0 1; sel_action := Walk |}.

Definition reversed_clip : Selected :=
  {| sel_pos := 0; sel_item := custom Walk 5 3 1; sel_action := Walk |}.

(** Unit "u" with a clip whose name starts with the unit prefix. *)
Definition prefixed_names : BlenderContext :=
  scene [refreshed (action "u_A" 1 2); refreshed (action "A" 1 2)].

(** A scene that was never saved. *)
Definition unsaved : BlenderContext :=
  {| object_type := Some "ARMATURE";
     pose_bones := [ {| bone_name := "root" |} ];
     frame_start := 1;
     frame_end := 250;
     animation_list := [];
     multi_export_all_frames := false;
     filepath := "" |}.

(** The host before an export: frame 7 is current, [Idle] is active. *)
Definition host0 : @Host ZNumerics :=
  {| frame_current := 7;
     animation_data := Some (Some (DataAction Idle));
     mode := OBJECT;
     id_properties := ∅;
     files := [];
     messages := [];
     history := [] |}.
End Fixture.

(** ** More scenes and panel settings *)
Module Scenes.
(** [Walk], then [Run] with start frame 4 and end frame 2. *)
Definition walk_then_reversed : BlenderContext :=
  Fixture.scene [Fixture.refreshed Fixture.Walk; Fixture.custom Fixture.Run 4 2 1].

Definition reversed_run_clip : Selected :=
  {| sel_pos := 1; sel_item := Fixture.custom Fixture.Run 4 2 1;
     sel_action := Fixture.Run |}.

(** [Walk] from frame 2 with the custom end left at 0, then [Run]. *)
Definition open_ended_walk_run : BlenderContext :=
  Fixture.scene [Fixture.custom Fixture.Walk 2 0 1; Fixture.refreshed Fixture.Run].

(** Unit "u" with every action named after the unit. *)
Definition u_A : Action := Fixture.action "u_A" 1 2.
Definition u_B : Action := Fixture.action "u_B" 1 3.

Definition unit_prefixed : BlenderContext :=
  Fixture.scene [Fixture.refreshed u_A; Fixture.refreshed u_B].

Definition short_name (s : Selected) : string :=
  match sel_pos s with
  | O => "A"
  | _ => "B"
  end.

(** The panel set to a single export of frames 3 to the scene's end, every
    second frame, into files. *)
Definition single_settings : Props.t :=
  {| Props.animation_name := "";
     Props.use_custom_name := false;
     Props.start_frame := 3;
     Props.end_frame := 0;
     Props.frame_step := 2;
     Props.export_all_frames := false;
     Props.use_full_animation_range := false;
     Props.export_method := BIN;
     Props.property_name := "animation_matrices";
     Props.export_mode := SINGLE;
     Props.unit_name := "unit" |}.

(** The panel set to a multi-export into files. *)
Definition multi_settings : Props.t :=
  {| Props.animation_name := "";
     Props.use_custom_name := false;
     Props.start_frame := 1;
     Props.end_frame := 250;
     Props.frame_step := 1;
     Props.export_all_frames := false;
     Props.use_full_animation_range := false;
     Props.export_method := BIN;
     Props.property_name := "animation_matrices";
     Props.export_mode := MULTI;
     Props.unit_name := "unit" |}.

(** [Walk] and [Run] in a file that was never saved. *)
Definition unsaved_walk_run : BlenderContext :=
  {| object_type := Some "ARMATURE";
     pose_bones := Fixture.skeleton;
     frame_start := 1;
     frame_end := 250;
     animation_list := [Fixture.refreshed Fixture.Walk; Fixture.refreshed Fixture.Run];
     multi_export_all_frames := false;
     filepath := "" |}.
End Scenes.

(** * Properties *)

(** ** Sanity checks of the Python primitives *)

Example frames_1_5_2 : frames_to_export 1 5 2 false = Ok [1; 3; 5].
Proof. reflexivity. Qed.

Example frames_1_6_2 : frames_to_export 1 6 2 false = Ok [1; 3; 5; 6].
Proof. reflexivity. Qed.

Example frames_1_4_all : frames_to_export 1 4 3 true = Ok [1; 2; 3; 4].
Proof. reflexivity. Qed.

Example frames_reversed : frames_to_export 5 3 1 false = Raise IndexError.
Proof. reflexivity. Qed.

Example frames_zero_step : frames_to_export 1 5 0 false = Raise ValueError.
Proof. reflexivity. Qed.

Example split_examples :
  py_split "_To_" "Walk_To_Run" = ["Walk"; "Run"] /\
  py_split "_To_" "X_To_To_d" = ["X"; "To_d"] /\
  py_split "_To_" "A_To_" = ["A"; ""] /\
  py_split "_To_" "A_To_B_To_C" = ["A"; "B"; "C"] /\
  py_split "_To_" "Idle" = ["Idle"].
Proof. repeat split; reflexivity. Qed.

Example remove_examples :
  py_remove "unit_" "unit_Walk_To_unit_Run" = "Walk_To_Run" /\
  py_remove "ab" "xabababy" = "xy" /\
  py_remove "aa" "aaa" = "a".
Proof. repeat split; reflexivity. Qed.

Example py_int_examples :
  py_int (7 # 2) = 3 /\ py_int (-7 # 2) = -3 /\ py_int (inject_Z 20) = 20.
Proof. repeat split; reflexivity. Qed.

(** ** Properties of [range] *)

Section RangeFacts.
Variables lo step : Z.
Hypothesis step_pos : 0 < step.

Let affine (k : nat) : Z := lo + Z.of_nat k * step.

Lemma affine_seq_lower (a n : nat) :
  Forall (fun x => affine a <= x) (map affine (seq a n)).
Proof.
  apply Forall_forall. intros x Hx. apply list_elem_of_In in Hx.
  apply in_map_iff in Hx as (k & <- & Hk). apply in_seq in Hk.
  unfold affine. nia.
Qed.

Lemma affine_seq_sorted (a n : nat) :
  StronglySorted Z.lt (map affine (seq a n)).
Proof.
  revert a. induction n as [|n IH]; intros a; simpl; constructor.
  - apply IH.
  - eapply Forall_impl; [apply (affine_seq_lower (S a) n) |].
    intros x Hx. simpl in Hx. unfold affine in *. nia.
Qed.

Lemma affine_seq_last (a n : nat) :
  last (map affine (seq a (S n))) = Some (affine (a + n)%nat).
Proof.
  rewrite seq_S, map_app. simpl. apply last_snoc.
Qed.

Lemma affine_seq_elem (n : nat) (x : Z) :
  x ∈ map affine (seq 0 n) <->
  exists k : Z, 0 <= k < Z.of_nat n /\ x = lo + k * step.
Proof.
  rewrite list_elem_of_In, in_map_iff. split.
  - intros (k & <- & Hk). apply in_seq in Hk.
    exists (Z.of_nat k). unfold affine. split; [lia | reflexivity].
  - intros (k & Hk & ->). exists (Z.to_nat k). split.
    + unfold affine. rewrite Z2Nat.id by lia. reflexivity.
    + apply in_seq. lia.
Qed.
End RangeFacts.

Lemma range_len_up (lo hi step : Z) :
  0 < step -> lo < hi -> range_len lo hi step = (hi - lo - 1) / step + 1.
Proof.
  intros Hs Hlt. unfold range_len.
  destruct (Z.ltb_spec 0 step); [|lia].
  destruct (Z.ltb_spec lo hi); [reflexivity | lia].
Qed.

Lemma range_len_pos (lo hi step : Z) :
  0 < step -> lo < hi -> 1 <= range_len lo hi step.
Proof.
  intros Hs Hlt. rewrite range_len_up by assumption.
  assert (0 <= (hi - lo - 1) / step) by (apply Z.div_pos; lia). lia.
Qed.

(** The stepped values are exactly the [start + k*step] that do not pass
    [end]. *)
Lemma stepped_frames_elem (s e step x : Z) :
  s <= e -> 0 < step ->
  x ∈ stepped_frames s e step <->
  exists k : Z, 0 <= k /\ x = s + k * step /\ x <= e.
Proof.
  intros Hse Hs. unfold stepped_frames.
  rewrite affine_seq_elem by assumption.
  rewrite range_len_up by lia.
  replace (e + 1 - s - 1) with (e - s) by lia.
  assert (Hq : 0 <= (e - s) / step) by (apply Z.div_pos; lia).
  rewrite Z2Nat.id by lia.
  split; intros (k & Hk & Hx).
  - exists k. repeat split; [lia | tauto |].
    assert (k * step <= e - s); [|lia].
    transitivity ((e - s) / step * step); [nia |].
    rewrite Z.mul_comm. apply Z.mul_div_le. lia.
  - destruct Hx as [-> Hle]. exists k. split; [|reflexivity].
    split; [lia |].
    assert (k <= (e - s) / step); [|lia].
    apply Z.div_le_lower_bound; lia.
Qed.

Lemma stepped_frames_last (s e step : Z) :
  s <= e -> 0 < step ->
  last (stepped_frames s e step) = Some (s + (e - s) / step * step).
Proof.
  intros Hse Hs. unfold stepped_frames.
  rewrite range_len_up by lia.
  replace (e + 1 - s - 1) with (e - s) by lia.
  assert (Hq : 0 <= (e - s) / step) by (apply Z.div_pos; lia).
  replace (Z.to_nat ((e - s) / step + 1)) with (S (Z.to_nat ((e - s) / step)))
    by lia.
  rewrite affine_seq_last. simpl. rewrite Z2Nat.id by lia. reflexivity.
Qed.

Lemma stepped_frames_head (s e step : Z) :
  s <= e -> 0 < step -> head (stepped_frames s e step) = Some s.
Proof.
  intros Hse Hs. unfold stepped_frames.
  pose proof (range_len_pos s (e + 1) step Hs ltac:(lia)) as Hlen.
  destruct (Z.to_nat (range_len s (e + 1) step)) as [|n] eqn:E; [lia |].
  simpl. f_equal. lia.
Qed.

Lemma stepped_frames_sorted (s e step : Z) :
  0 < step -> StronglySorted Z.lt (stepped_frames s e step).
Proof. intros Hs. apply affine_seq_sorted. assumption. Qed.

Lemma stepped_frames_bound (s e step : Z) :
  s <= e -> 0 < step -> Forall (fun x => x <= e) (stepped_frames s e step).
Proof.
  intros Hse Hs. apply Forall_forall. intros x Hx.
  apply stepped_frames_elem in Hx as (k & _ & _ & Hle); assumption.
Qed.

Lemma sorted_snoc (l : list Z) (x : Z) :
  StronglySorted Z.lt l -> Forall (fun y => y < x) l ->
  StronglySorted Z.lt (l ++ [x]).
Proof.
  induction 1 as [|a l Hl IH Ha]; intros Hx; simpl.
  - repeat constructor.
  - inversion Hx; subst. constructor; [apply IH; assumption |].
    apply Forall_app. split; [assumption | repeat constructor; assumption].
Qed.

Lemma sorted_below_last (l : list Z) (m : Z) :
  StronglySorted Z.lt l -> last l = Some m -> Forall (fun y => y <= m) l.
Proof.
  induction 1 as [|a l Hl IH Ha]; intros Hlast; [constructor |].
  rewrite last_cons in Hlast. destruct (last l) as [y|] eqn:E.
  - inversion Hlast; subst. constructor; [|apply IH; reflexivity].
    assert (Hin : m ∈ l).
    { apply last_Some in E as [l' ->]. set_solver. }
    eapply Forall_forall in Ha; [|exact Hin]. lia.
  - inversion Hlast; subst. apply last_None in E. subst. repeat constructor. lia.
Qed.

Lemma frames_to_export_stepped (s e step : Z) :
  s <= e -> 1 <= step ->
  frames_to_export s e step false =
  Ok (stepped_frames s e step ++
      (if decide (last (stepped_frames s e step) = Some e) then [] else [e])).
Proof.
  intros Hse Hs. unfold frames_to_export, py_range.
  destruct (Z.eqb_spec step 0); [lia |]. simpl.
  fold (stepped_frames s e step).
  unfold py_last. rewrite stepped_frames_last by lia. simpl.
  destruct (Z.eqb_spec (s + (e - s) / step * step) e) as [Heq|Hne]; simpl.
  - rewrite decide_True by (f_equal; exact Heq). rewrite app_nil_r. reflexivity.
  - rewrite decide_False by (intros [=]; contradiction). reflexivity.
Qed.

Lemma frames_to_export_all (s e step : Z) :
  frames_to_export s e step true = Ok (stepped_frames s e 1).
Proof. reflexivity. Qed.

(** Whenever the sampler accepts a clip, its last frame is the clip's end. *)
Lemma sampler_ends (s e step : Z) (all : bool) :
  s <= e -> all = true \/ 1 <= step ->
  exists frames, frames_to_export s e step all = Ok frames /\ last frames = Some e.
Proof.
  intros Hse Hstep. destruct all.
  - exists (stepped_frames s e 1). split; [apply frames_to_export_all |].
    rewrite stepped_frames_last by lia. f_equal. rewrite Z.div_1_r. lia.
  - destruct Hstep as [|Hstep]; [discriminate |].
    eexists. split; [apply frames_to_export_stepped; assumption |].
    destruct (decide _) as [Heq|Hne]; [rewrite app_nil_r; exact Heq | apply last_snoc].
Qed.

(** ** Writing into a numpy array *)

Section Splice.
Context {A : Type}.

Lemma splice_length (idx : nat) (vs buf : list A) :
  (idx + length vs <= length buf)%nat ->
  length (splice idx vs buf) = length buf.
Proof.
  intros Hle. unfold splice.
  rewrite !length_app, length_take, length_drop. lia.
Qed.

Lemma splice_nil (idx : nat) (buf : list A) : splice idx [] buf = buf.
Proof. unfold splice. simpl. rewrite Nat.add_0_r. apply take_drop. Qed.

Lemma splice_splice (idx : nat) (vs ws buf : list A) :
  (idx + length vs + length ws <= length buf)%nat ->
  splice (idx + length vs) ws (splice idx vs buf) = splice idx (vs ++ ws) buf.
Proof.
  intros Hle. unfold splice.
  assert (Hidx : length (take idx buf) = idx) by (rewrite length_take; lia).
  rewrite take_app_ge by lia. rewrite Hidx.
  rewrite take_app_ge by lia.
  replace (idx + length vs - idx - length vs)%nat with 0%nat by lia.
  rewrite take_0, app_nil_r.
  rewrite drop_app_ge by lia. rewrite Hidx.
  rewrite drop_app_ge by lia.
  rewrite drop_drop, length_app, <- !app_assoc.
  do 4 f_equal. lia.
Qed.

Lemma splice_all (vs buf : list A) :
  length vs = length buf -> splice 0 vs buf = vs.
Proof.
  intros Hlen. unfold splice. simpl.
  rewrite drop_ge by lia. apply app_nil_r.
Qed.

Lemma splice_insert (idx : nat) (v : A) (buf : list A) :
  (idx < length buf)%nat -> <[idx := v]> buf = splice idx [v] buf.
Proof.
  intros Hlt. unfold splice. simpl.
  rewrite insert_take_drop by exact Hlt.
  replace (idx + 1)%nat with (S idx) by lia. reflexivity.
Qed.
End Splice.

Section ResultLoops.
Context {A S : Type}.

Lemma for_each_r_app (l1 l2 : list A) (body : A -> S -> result S) (s : S) :
  for_each_r (l1 ++ l2) body s =
  (s' <-- for_each_r l1 body s ;; for_each_r l2 body s').
Proof.
  revert s. induction l1 as [|x l1 IH]; intros s; simpl; [reflexivity |].
  destruct (body x s); simpl; [apply IH | reflexivity].
Qed.
End ResultLoops.

(** A loop whose every iteration writes one chunk at the running index
    writes the concatenation of the chunks. *)
Lemma for_each_r_splice {A B : Type} (chunk : A -> list B)
    (body : A -> list B * nat -> result (list B * nat)) :
  (forall x buf idx,
     (idx + length (chunk x) <= length buf)%nat ->
     body x (buf, idx) = Ok (splice idx (chunk x) buf, (idx + length (chunk x))%nat)) ->
  forall l buf idx,
    (idx + length (flat_map chunk l) <= length buf)%nat ->
    for_each_r l body (buf, idx) =
    Ok (splice idx (flat_map chunk l) buf, (idx + length (flat_map chunk l))%nat).
Proof.
  intros Hbody l. induction l as [|x l IH]; intros buf idx Hle; simpl.
  - rewrite splice_nil, Nat.add_0_r. reflexivity.
  - simpl in Hle. rewrite length_app in Hle.
    rewrite Hbody by lia. simpl.
    rewrite IH by (rewrite splice_length; lia).
    rewrite splice_splice by lia.
    rewrite length_app. do 2 f_equal. lia.
Qed.

Section Packer.
Context `{PoseSource}.

Lemma spec_column_major_length (mat : Matrix) :
  length (spec_column_major mat) = 16%nat.
Proof. reflexivity. Qed.

Lemma spec_frame_length (bones : list Bone) (h : Host) :
  length (spec_frame bones h) = (length bones * 16)%nat.
Proof.
  unfold spec_frame. induction bones as [|b bones IH]; [reflexivity |].
  cbn [flat_map]. rewrite length_app, IH, spec_column_major_length.
  cbn [length]. lia.
Qed.

Lemma spec_pack_length (bones : list Bone) (frames : list Z) (h : Host) :
  length (spec_pack bones frames h) = (length frames * length bones * 16)%nat.
Proof.
  revert h. induction frames as [|f frames IH]; intros h; [reflexivity |].
  cbn [spec_pack]. rewrite length_app, IH, spec_frame_length.
  cbn [length]. lia.
Qed.

Lemma write_cell (mat : Matrix) (col row : nat) (buf : list float32) (idx : nat) :
  (idx + 1 <= length buf)%nat ->
  (buf' <-- np_set buf idx (mat_elem mat row col) ;; Ok (buf', S idx)) =
  Ok (splice idx [to_float32 (mat_elem mat row col)] buf, (idx + 1)%nat).
Proof.
  intros Hle. unfold np_set.
  rewrite decide_True by lia. simpl.
  rewrite splice_insert by lia. do 2 f_equal. lia.
Qed.

(** The sixteen assignments of one matrix fill sixteen consecutive
    positions with the matrix in column-major order. *)
Lemma write_matrix_ok (mat : Matrix) (buf : list float32) (idx : nat) :
  (idx + 16 <= length buf)%nat ->
  write_matrix mat (buf, idx) =
  Ok (splice idx (spec_column_major mat) buf, (idx + 16)%nat).
Proof.
  intros Hle. unfold write_matrix, spec_column_major.
  rewrite (for_each_r_splice
             (fun col => flat_map (fun row => [to_float32 (mat_elem mat row col)])
                                  (seq 0 4))).
  - reflexivity.
  - intros col b i Hi.
    rewrite (for_each_r_splice (fun row => [to_float32 (mat_elem mat row col)])).
    + reflexivity.
    + intros row b' i' Hi'. apply write_cell. exact Hi'.
    + exact Hi.
  - exact Hle.
Qed.

Lemma write_bones_ok (bones : list Bone) (h : Host) (buf : list float32) (idx : nat) :
  (idx + length bones * 16 <= length buf)%nat ->
  for_each_r bones (fun bone st => write_matrix (export_matrix h bone) st) (buf, idx)
  = Ok (splice idx (spec_frame bones h) buf, (idx + length bones * 16)%nat).
Proof.
  intros Hle.
  pose proof (for_each_r_splice
                (fun bone => spec_column_major (export_matrix h bone))
                (fun bone st => write_matrix (export_matrix h bone) st)) as Hs.
  assert (Hbody : forall (x : Bone) (b : list float32) (i : nat),
    (i + length (spec_column_major (export_matrix h x)) <= length b)%nat ->
    write_matrix (export_matrix h x) (b, i) =
    Ok (splice i (spec_column_major (export_matrix h x)) b,
        (i + length (spec_column_major (export_matrix h x)))%nat)).
  { intros x b i Hi. rewrite spec_column_major_length in *.
    apply write_matrix_ok. exact Hi. }
  specialize (Hs Hbody bones buf idx).
  change (flat_map (fun bone => spec_column_major (export_matrix h bone)) bones)
    with (spec_frame bones h) in Hs.
  rewrite spec_frame_length in Hs. apply Hs. exact Hle.
Qed.

Lemma bake_frame_ok (bones : list Bone) (f_idx : nat) (f_num : Z)
    (buf : list float32) (h : Host) :
  (f_idx * length bones * 16 + length bones * 16 <= length buf)%nat ->
  bake_frame bones f_idx f_num buf h =
  (Ok (splice (f_idx * length bones * 16) (spec_frame bones (at_frame f_num h)) buf),
   at_frame f_num h).
Proof.
  intros Hle. unfold bake_frame, bind, frame_set, modify, get, lift, ret. simpl.
  fold (at_frame f_num h).
  rewrite write_bones_ok by exact Hle. reflexivity.
Qed.

Lemma bake_from_ok (bones : list Bone) (frames : list Z) :
  forall (f_idx : nat) (buf : list float32) (h : Host),
  (f_idx * length bones * 16 + length frames * length bones * 16 <= length buf)%nat ->
  bake_from bones f_idx frames buf h =
  (Ok (splice (f_idx * length bones * 16) (spec_pack bones frames h) buf),
   after_frames frames h).
Proof.
  induction frames as [|f frames IH]; intros f_idx buf h Hle; simpl.
  - rewrite splice_nil. reflexivity.
  - simpl in Hle. unfold bind. rewrite bake_frame_ok by lia.
    rewrite IH by (rewrite splice_length; rewrite ?spec_frame_length; lia).
    f_equal. f_equal.
    replace (S f_idx * length bones * 16)%nat
      with (f_idx * length bones * 16 + length (spec_frame bones (at_frame f h)))%nat
      by (rewrite spec_frame_length; lia).
    apply splice_splice.
    rewrite spec_frame_length, spec_pack_length. lia.
Qed.

(** The code's packer computes exactly the specification's packing, and
    never raises. *)
Lemma bake_frames_ok (bones : list Bone) (frames : list Z) (h : Host) :
  bake_frames bones frames h =
  (Ok (spec_pack bones frames h), after_frames frames h).
Proof.
  unfold bake_frames. rewrite bake_from_ok.
  - simpl. rewrite splice_all; [reflexivity |].
    unfold np_zeros. rewrite spec_pack_length, length_replicate. reflexivity.
  - unfold np_zeros. rewrite length_replicate. lia.
Qed.

Lemma foldl_snoc_flat_map {X Y : Type} (g : X -> list Y) (l : list X) (acc : list Y) :
  foldl (fun acc x => acc ++ g x) acc l = acc ++ flat_map g l.
Proof.
  revert acc. induction l as [|x l IH]; intros acc; simpl.
  - rewrite app_nil_r. reflexivity.
  - rewrite IH, app_assoc. reflexivity.
Qed.

Lemma collect_matrices_at_frame_ok (bones : list Bone) (frame : Z) (h : Host) :
  collect_matrices_at_frame bones frame h =
  (Ok (spec_frame bones (at_frame frame h)), at_frame frame h).
Proof.
  unfold collect_matrices_at_frame, bind, frame_set, modify, get, ret. simpl.
  fold (at_frame frame h). f_equal. f_equal.
  generalize (at_frame frame h). intros h'.
  unfold spec_frame.
  assert (Hgen : forall acc,
    map to_float32
      (foldl (fun mats bone =>
         foldl (fun mats col =>
           foldl (fun mats row => mats ++ [mat_elem (export_matrix h' bone) row col])
                 mats (seq 0 4)) mats (seq 0 4)) acc bones)
    = map to_float32 acc ++
      flat_map (fun bone => spec_column_major (export_matrix h' bone)) bones).
  { induction bones as [|b bones IHb]; intros acc.
    - simpl. rewrite app_nil_r. reflexivity.
    - cbn [foldl flat_map]. rewrite IHb. cbn [seq foldl].
      rewrite !map_app, <- !app_assoc. reflexivity. }
  apply (Hgen []).
Qed.
End Packer.

(** ** Running the export monad *)

Section Runs.
Context `{PoseSource}.

Lemma bind_run {A B} (m : M A) (k : A -> M B) (h : Host) (a : A) (h' : Host) :
  m h = (Ok a, h') -> bind m k h = k a h'.
Proof. intros Hm. unfold bind. rewrite Hm. reflexivity. Qed.

Lemma bind_fail {A B} (m : M A) (k : A -> M B) (h : Host) (e : exn) (h' : Host) :
  m h = (Raise e, h') -> bind m k h = (Raise e, h').
Proof. intros Hm. unfold bind. rewrite Hm. reflexivity. Qed.

Lemma steady_refl (h : Host) : steady h h.
Proof. repeat split. Qed.

Lemma steady_trans (h1 h2 h3 : Host) :
  steady h1 h2 -> steady h2 h3 -> steady h1 h3.
Proof. unfold steady. intros (? & ? & ?) (? & ? & ?). repeat split; congruence. Qed.

Lemma steady_log (op : HostOp) (h h' : Host) : steady h h' -> steady h (log op h').
Proof. intros Hs. exact Hs. Qed.

Lemma steady_at_frame (f : Z) (h h' : Host) : steady h h' -> steady h (at_frame f h').
Proof. intros Hs. exact Hs. Qed.

Lemma steady_after_frames (frames : list Z) (h h' : Host) :
  steady h h' -> steady h (after_frames frames h').
Proof.
  revert h'. unfold after_frames.
  induction frames as [|f frames IH]; intros h' Hs; simpl; [exact Hs |].
  apply IH. apply steady_at_frame. exact Hs.
Qed.

Lemma animation_data_after_frames (frames : list Z) (h : Host) :
  animation_data (after_frames frames h) = animation_data h.
Proof.
  revert h. unfold after_frames.
  induction frames as [|f frames IH]; intros h; simpl; [reflexivity |].
  rewrite IH. reflexivity.
Qed.

Lemma ensure_run (h : Host) : ensure_animation_data h = (Ok tt, ensured h).
Proof.
  cbv [ensured bind ensure_animation_data get modify ret].
  destruct (animation_data h); reflexivity.
Qed.

Lemma ensured_has_data (h : Host) : is_Some (animation_data (ensured h)).
Proof. unfold ensured. destruct (animation_data h) eqn:E; simpl; eauto. Qed.

Lemma steady_ensured (h h' : Host) : steady h h' -> steady h (ensured h').
Proof. intros Hs. unfold ensured. destruct (animation_data h'); exact Hs. Qed.

Lemma activate_action (a : ActionRef) (h : Host) :
  animation_data (activate a h) = Some (Some a).
Proof. reflexivity. Qed.

Lemma activate_frame (a : ActionRef) (h : Host) :
  frame_current (activate a h) = frame_current h.
Proof. unfold activate, ensured. destruct (animation_data h); reflexivity. Qed.

Lemma steady_activate (a : ActionRef) (h h' : Host) :
  steady h h' -> steady h (activate a h').
Proof. intros Hs. apply (steady_ensured h h' Hs). Qed.

Lemma set_action_run (a : ActionRef) (h : Host) :
  is_Some (animation_data h) ->
  set_action a h = (Ok tt, log (op_set_action a) (with_animation_data (Some (Some a)) h)).
Proof.
  intros [d Hd]. unfold set_action, bind, get, modify. rewrite Hd. reflexivity.
Qed.

Lemma keyframe_all_run (bones : list Bone) (frame : Z) (h : Host) :
  exists h', keyframe_all bones frame h = (Ok tt, h') /\
             steady h h' /\ animation_data h' = animation_data h.
Proof.
  unfold keyframe_all. revert h.
  induction bones as [|b bones IH]; intros h; simpl.
  - exists h. repeat split.
  - unfold bind at 1. simpl.
    destruct (IH (log (op_keyframe_insert b "scale" frame)
                   (log (op_keyframe_insert b "rotation_quaternion" frame)
                      (log (op_keyframe_insert b "location" frame) h))))
      as (h' & Hrun & Hs & Hd).
    exists h'. split; [exact Hrun |]. split; [exact Hs | exact Hd].
Qed.

(** *** One main clip *)

Lemma export_clip_run (bones : list Bone) (all : bool) (s : Selected)
    (L : Locals) (h : Host) :
  let a := sel_action s in
  let range := clip_range (sel_item s) a in
  let h1 := activate (DataAction a) h in
  export_clip bones all s L h =
  if fst range >? snd range then (Raise (invalid_range a), h1)
  else match frames_to_export (fst range) (snd range) (frame_step (sel_item s)) all with
       | Raise e => (Raise e, h1)
       | Ok frames =>
           (Ok (push L (action_name a)
                     (total_frames L + Z.of_nat (length frames) - 1)
                     (Z.of_nat (length frames))
                     (if all then 1 else frame_step (sel_item s))
                     range
                     (spec_pack bones frames h1)),
            after_frames frames h1)
       end.
Proof.
  intros a range h1. unfold export_clip.
  rewrite (bind_run _ _ _ _ _ (ensure_run h)).
  rewrite (bind_run _ _ _ _ _ (set_action_run _ _ (ensured_has_data h))).
  fold (activate (DataAction a) h). fold h1.
  subst range. subst a. destruct (clip_range (sel_item s) (sel_action s)) as [st en].
  simpl fst. simpl snd.
  destruct (st >? en); [reflexivity |].
  unfold lift. unfold bind at 1.
  destruct (frames_to_export st en (frame_step (sel_item s)) all) as [frames|e];
    [|reflexivity].
  rewrite (bind_run _ _ _ _ _ (bake_frames_ok bones frames h1)). reflexivity.
Qed.

(** *** One transition *)

Lemma actions_new_run (name : string) (h : Host) :
  actions_new name h =
  (Ok (NewAction (length (List.filter is_actions_new (history h))) name),
   log (op_actions_new name) h).
Proof. reflexivity. Qed.

Lemma frame_set_run (f : Z) (h : Host) : frame_set f h = (Ok tt, at_frame f h).
Proof. reflexivity. Qed.

Lemma perform_run (op : HostOp) (h : Host) : perform op h = (Ok tt, log op h).
Proof. reflexivity. Qed.

Lemma mode_set_run (m : Mode) (h : Host) :
  mode_set m h = (Ok tt, log (op_mode_set m) (with_mode m h)).
Proof. reflexivity. Qed.

Ltac run_step :=
  first
    [ rewrite (bind_run _ _ _ _ _ (frame_set_run _ _))
    | rewrite (bind_run _ _ _ _ _ (perform_run _ _))
    | rewrite (bind_run _ _ _ _ _ (mode_set_run _ _))
    | rewrite (bind_run _ _ _ _ _ (actions_new_run _ _))
    | erewrite bind_run by (apply set_action_run; simpl; eauto) ].

Lemma export_transition_cps (ctx : BlenderContext) (src dst : Selected)
    (L : Locals) (h : Host) (Q : result Locals * Host -> Prop) :
  (forall hb, steady h hb -> samples_transition (src, dst) hb ->
     Q (Ok (push L (transition_name src dst) (total_frames L + 9) 10 1 (1, 10)
                 (spec_pack (pose_bones ctx) transition_positions hb)),
        after_frames transition_positions hb)) ->
  Q (export_transition ctx (src, dst) L h).
Proof.
  intros HQ. unfold export_transition.
  run_step.
  rewrite (bind_run _ _ _ _ _ (ensure_run _)).
  set (h1 := ensured _).
  assert (Hd1 : is_Some (animation_data h1)) by apply ensured_has_data.
  assert (Hs1 : steady h h1)
    by (apply steady_ensured; apply steady_log; apply steady_refl).
  erewrite bind_run by (apply set_action_run; exact Hd1).
  do 8 run_step.
  match goal with
  | |- context [bind (keyframe_all ?b ?f) _ ?hx] =>
      destruct (keyframe_all_run b f hx) as (h2 & Hk2 & Hs2 & Hd2)
  end.
  rewrite (bind_run _ _ _ _ _ Hk2).
  simpl in Hd2.
  erewrite bind_run by (apply set_action_run; rewrite Hd2; eauto).
  do 7 run_step.
  match goal with
  | |- context [bind (keyframe_all ?b ?f) _ ?hx] =>
      destruct (keyframe_all_run b f hx) as (h3 & Hk3 & Hs3 & Hd3)
  end.
  rewrite (bind_run _ _ _ _ _ Hk3).
  simpl in Hd3.
  run_step.
  assert (Hrange : forall b : bool,
    py_range 1 (transition_frames + 1) (if b then 1 else 1) = Ok transition_positions)
    by (intros []; reflexivity).
  unfold lift at 1. unfold bind at 1. rewrite Hrange.
  unfold lift at 1. unfold bind at 1.
  change (py_last transition_positions) with (Ok 10 : result Z).
  change (negb (10 =? transition_frames)) with false. cbv iota.
  erewrite bind_run by (apply set_action_run; simpl; rewrite Hd3; eauto).
  match goal with
  | |- context [bind (bake_frames ?b ?fr) _ ?hx] =>
      rewrite (bind_run _ _ _ _ _ (bake_frames_ok b fr hx));
      specialize (HQ hx)
  end.
  unfold ret.
  replace (if multi_export_all_frames ctx then 1 else 1) with 1
    by (destruct (multi_export_all_frames ctx); reflexivity).
  apply HQ.
  - destruct Hs1 as (F1 & P1 & M1), Hs2 as (F2 & P2 & M2), Hs3 as (F3 & P3 & M3).
    simpl in *. repeat split; simpl; congruence.
  - eexists. reflexivity.
Qed.

Lemma export_transition_run (ctx : BlenderContext) (src dst : Selected)
    (L : Locals) (h : Host) :
  exists hb,
    steady h hb /\ samples_transition (src, dst) hb /\
    export_transition ctx (src, dst) L h =
    (Ok (push L (transition_name src dst) (total_frames L + 9) 10 1 (1, 10)
              (spec_pack (pose_bones ctx) transition_positions hb)),
     after_frames transition_positions hb).
Proof.
  apply (export_transition_cps ctx src dst L h
           (fun r => exists hb, steady h hb /\ samples_transition (src, dst) hb /\ r = _)).
  intros hb Hs Ht. exists hb. split; [exact Hs |]. split; [exact Ht | reflexivity].
Qed.

(** *** The ledger of clips *)

Lemma sum_counts_app (a b : list (string * Z)) :
  sum_counts (a ++ b) = sum_counts a + sum_counts b.
Proof.
  unfold sum_counts. induction a as [|[n c] a IH]; simpl; [reflexivity |].
  rewrite IH. lia.
Qed.

Lemma spec_layout_app (from : Z) (a b : list (string * Z)) :
  spec_layout from (a ++ b) =
  spec_layout from a ++ spec_layout (from + sum_counts a) b.
Proof.
  revert from. induction a as [|[n c] a IH]; intros from; simpl.
  - rewrite Z.add_0_r. reflexivity.
  - rewrite IH. do 3 f_equal. unfold sum_counts. simpl. lia.
Qed.

Lemma push_locals_of (bones : list Bone) (es : list Entry) (e : Entry) :
  push (locals_of bones es) (e_name e)
       (total_frames (locals_of bones es) + e_count e - 1)
       (e_count e) (e_step e) (e_range e) (e_chunk bones e)
  = locals_of bones (es ++ [e]).
Proof.
  unfold push, locals_of. simpl.
  rewrite !map_app, sum_counts_app, spec_layout_app. simpl.
  unfold sum_counts at 2. simpl.
  rewrite Z.add_0_r, !Z.add_0_l. reflexivity.
Qed.

Lemma valid_clip_frames (all : bool) (s : Selected) :
  valid_clip all s ->
  let range := clip_range (sel_item s) (sel_action s) in
  frames_to_export (fst range) (snd range) (frame_step (sel_item s)) all
  = Ok (clip_frames all s).
Proof.
  intros [Hle Hstep] range. unfold clip_frames. fold range.
  destruct all.
  - rewrite frames_to_export_all. reflexivity.
  - destruct Hstep as [Habs|Hstep]; [discriminate |].
    rewrite frames_to_export_stepped by assumption. reflexivity.
Qed.

Lemma for_each_app {A S} (l1 l2 : list A) (body : A -> S -> M S) (s : S) (h : Host) :
  for_each (l1 ++ l2) body s h =
  match for_each l1 body s h with
  | (Ok s', h') => for_each l2 body s' h'
  | (Raise e, h') => (Raise e, h')
  end.
Proof.
  revert s h. induction l1 as [|x l1 IH]; intros s h; simpl; [reflexivity |].
  unfold bind. destruct (body x s h) as [[s'|e] h']; [apply IH | reflexivity].
Qed.

Lemma export_clip_valid (bones : list Bone) (all : bool) (s : Selected)
    (es : list Entry) (h : Host) :
  valid_clip all s ->
  export_clip bones all s (locals_of bones es) h =
  (Ok (locals_of bones (es ++ [clip_entry all s (activate (DataAction (sel_action s)) h)])),
   after_frames (clip_frames all s) (activate (DataAction (sel_action s)) h)).
Proof.
  intros Hv. rewrite export_clip_run.
  pose proof (valid_clip_frames all s Hv) as Hf. cbv zeta in Hf.
  destruct Hv as [Hle _].
  destruct (Z.gtb_spec (fst (clip_range (sel_item s) (sel_action s)))
                       (snd (clip_range (sel_item s) (sel_action s)))); [lia |].
  rewrite Hf. f_equal. f_equal.
  apply (push_locals_of bones es
           (clip_entry all s (activate (DataAction (sel_action s)) h))).
Qed.

Lemma export_clip_invalid (bones : list Bone) (all : bool) (s : Selected)
    (L : Locals) (h : Host) :
  snd (clip_range (sel_item s) (sel_action s)) <
  fst (clip_range (sel_item s) (sel_action s)) ->
  export_clip bones all s L h =
  (Raise (invalid_range (sel_action s)), activate (DataAction (sel_action s)) h).
Proof.
  intros Hlt. rewrite export_clip_run.
  destruct (Z.gtb_spec (fst (clip_range (sel_item s) (sel_action s)))
                       (snd (clip_range (sel_item s) (sel_action s)))); [|lia].
  reflexivity.
Qed.

Lemma clips_loop (bones : list Bone) (all : bool) (sel : list Selected) :
  Forall (valid_clip all) sel ->
  forall (es : list Entry) (h : Host),
  exists (hosts : list Host) (h' : Host),
    length hosts = length sel /\
    Forall2 samples_action sel hosts /\
    steady h h' /\
    (sel <> [] -> current_action h' = (fun s => DataAction (sel_action s)) <$> last sel) /\
    for_each sel (export_clip bones all) (locals_of bones es) h =
    (Ok (locals_of bones (es ++ zip_with (clip_entry all) sel hosts)), h').
Proof.
  induction 1 as [|s sel Hv Hsel IH]; intros es h.
  - exists [], h. simpl. rewrite app_nil_r.
    repeat split; [constructor | congruence].
  - destruct (IH (es ++ [clip_entry all s (activate (DataAction (sel_action s)) h)])
                 (after_frames (clip_frames all s)
                    (activate (DataAction (sel_action s)) h)))
      as (hosts & h' & Hlen & Hact & Hs & Hcur & Hrun).
    exists (activate (DataAction (sel_action s)) h :: hosts), h'.
    split; [simpl; congruence |].
    split; [constructor; [reflexivity | exact Hact] |].
    split.
    { eapply steady_trans; [|exact Hs].
      apply steady_after_frames, steady_activate, steady_refl. }
    split.
    { intros _. destruct sel as [|s2 sel].
      - simpl in Hrun. inversion Hrun; subst h'.
        unfold current_action. rewrite animation_data_after_frames. reflexivity.
      - rewrite Hcur by discriminate. rewrite last_cons_cons. reflexivity. }
    simpl. unfold bind. rewrite export_clip_valid by exact Hv.
    rewrite Hrun. rewrite <- app_assoc. reflexivity.
Qed.

Lemma clips_loop_fail (bones : list Bone) (all : bool)
    (good : list Selected) (bad : Selected) (rest : list Selected)
    (es : list Entry) (h : Host) :
  Forall (valid_clip all) good ->
  snd (clip_range (sel_item bad) (sel_action bad)) <
  fst (clip_range (sel_item bad) (sel_action bad)) ->
  exists h',
    steady h h' /\
    for_each (good ++ bad :: rest) (export_clip bones all) (locals_of bones es) h =
    (Raise (invalid_range (sel_action bad)), h').
Proof.
  intros Hgood Hbad.
  destruct (clips_loop bones all good Hgood es h)
    as (hosts & h1 & _ & _ & Hs & _ & Hrun).
  exists (activate (DataAction (sel_action bad)) h1). split.
  - apply steady_activate. exact Hs.
  - rewrite for_each_app, Hrun. simpl. unfold bind.
    rewrite export_clip_invalid by exact Hbad. reflexivity.
Qed.

Lemma push_transition (bones : list Bone) (es : list Entry)
    (src dst : Selected) (hb : Host) :
  push (locals_of bones es) (transition_name src dst)
       (total_frames (locals_of bones es) + 9) 10 1 (1, 10)
       (spec_pack bones transition_positions hb)
  = locals_of bones (es ++ [transition_entry (src, dst) hb]).
Proof.
  rewrite <- push_locals_of. unfold push.
  change (e_count (transition_entry (src, dst) hb)) with 10.
  replace (total_frames (locals_of bones es) + 10 - 1)
    with (total_frames (locals_of bones es) + 9) by lia.
  reflexivity.
Qed.

Lemma transitions_loop (ctx : BlenderContext) (pairs : list (Selected * Selected)) :
  forall (es : list Entry) (h : Host),
  exists (hosts : list Host) (h' : Host),
    length hosts = length pairs /\
    Forall2 samples_transition pairs hosts /\
    steady h h' /\
    for_each pairs (export_transition ctx) (locals_of (pose_bones ctx) es) h =
    (Ok (locals_of (pose_bones ctx) (es ++ zip_with transition_entry pairs hosts)), h').
Proof.
  induction pairs as [|[src dst] pairs IH]; intros es h.
  - exists [], h. simpl. rewrite app_nil_r. repeat split. constructor.
  - destruct (export_transition_run ctx src dst (locals_of (pose_bones ctx) es) h)
      as (hb & Hsb & Htb & Hrun1).
    destruct (IH (es ++ [transition_entry (src, dst) hb])
                 (after_frames transition_positions hb))
      as (hosts & h' & Hlen & Hact & Hs & Hrun).
    exists (hb :: hosts), h'.
    split; [simpl; congruence |].
    split; [constructor; assumption |].
    split.
    { eapply steady_trans; [|exact Hs]. apply steady_after_frames. exact Hsb. }
    cbn [for_each]. unfold bind at 1. rewrite Hrun1.
    rewrite push_transition, Hrun, <- app_assoc. reflexivity.
Qed.

Lemma restore_action_run (o : option ActionRef) (h : Host) :
  exists h', restore_action o h = (Ok tt, h') /\ steady h h' /\
             frame_current h' = frame_current h.
Proof.
  unfold restore_action, bind, get.
  destruct (animation_data h) as [d|] eqn:Hd; [destruct o as [a|] |].
  - rewrite set_action_run by (rewrite Hd; eauto).
    eexists. split; [reflexivity |]. split; [exact (steady_refl h) | reflexivity].
  - exists h. repeat split.
  - exists h. destruct o; repeat split.
Qed.

(** *** The assembly phase as a whole *)

(** With an armature selected and every included clip valid, the assembly
    phase returns, and its loop variables are those of the rest pose, the
    main clips in selection order and the transitions in generation
    order. *)
Lemma assemble_run (ctx : BlenderContext) (unit_name : string) (all : bool) (h : Host) :
  is_armature ctx ->
  animations_to_export ctx <> [] ->
  Forall (valid_clip all) (animations_to_export ctx) ->
  exists (clip_hosts tr_hosts : list Host) (A : Assembly) (h' : Host),
    assemble ctx unit_name all h = (Ok A, h') /\
    steady h h' /\
    length clip_hosts = length (animations_to_export ctx) /\
    length tr_hosts = length (transitions (animations_to_export ctx)) /\
    Forall2 samples_action (animations_to_export ctx) clip_hosts /\
    Forall2 samples_transition (transitions (animations_to_export ctx)) tr_hosts /\
    locals A = locals_of (pose_bones ctx)
      (rest_entry ctx unit_name h ::
       zip_with (clip_entry all) (animations_to_export ctx) clip_hosts ++
       zip_with transition_entry (transitions (animations_to_export ctx)) tr_hosts) /\
    combined_data A = concat (all_matrix_data (locals A)) /\
    original_frame A = frame_current h /\
    original_action A =
      (fun s => DataAction (sel_action s)) <$> last (animations_to_export ctx).
Proof.
  intros Harm Hne Hvalid. unfold assemble.
  rewrite bool_decide_eq_true_2 by exact Harm. cbv [negb].
  destruct (animations_to_export ctx) as [|s0 sel0] eqn:Esel; [congruence |].
  rewrite <- Esel in *. clear Hne.
  unfold bind at 1. unfold get at 1.
  rewrite (bind_run _ _ _ _ _ (collect_matrices_at_frame_ok _ _ _)).
  fold (rest_frame ctx).
  assert (Hrest : forall hx,
    {| all_matrix_data := [spec_frame (pose_bones ctx) (at_frame (rest_frame ctx) hx)];
       frame_counts := [1];
       frame_steps := [1];
       animation_ranges := [(rest_frame ctx, rest_frame ctx)];
       total_frames := 1;
       animation_helpers :=
         [{| clip_name := unit_name +:+ "Rest"; start_idx := 0; end_idx := 0 |}] |}
    = locals_of (pose_bones ctx) [rest_entry ctx unit_name hx]).
  { intros hx. unfold locals_of, e_chunk. simpl. rewrite app_nil_r. reflexivity. }
  rewrite Hrest.
  destruct (clips_loop (pose_bones ctx) all (animations_to_export ctx) Hvalid
              [rest_entry ctx unit_name h] (at_frame (rest_frame ctx) h))
    as (clip_hosts & h1 & Hlen1 & Hact1 & Hs1 & Hcur & Hrun1).
  rewrite (bind_run _ _ _ _ _ Hrun1).
  unfold bind at 1. unfold get at 1.
  destruct (transitions_loop ctx (transitions (animations_to_export ctx))
              ([rest_entry ctx unit_name h] ++
               zip_with (clip_entry all) (animations_to_export ctx) clip_hosts) h1)
    as (tr_hosts & h2 & Hlen2 & Hact2 & Hs2 & Hrun2).
  rewrite (bind_run _ _ _ _ _ Hrun2).
  destruct (restore_action_run (current_action h1) h2) as (h3 & Hrun3 & Hs3 & _).
  rewrite (bind_run _ _ _ _ _ Hrun3).
  exists clip_hosts, tr_hosts. eexists. exists h3.
  split; [reflexivity |].
  split.
  { eapply steady_trans; [|exact Hs3]. eapply steady_trans; [|exact Hs2].
    eapply steady_trans; [|exact Hs1]. apply steady_at_frame, steady_refl. }
  repeat split; try assumption.
  simpl. apply Hcur. rewrite Esel. discriminate.
Qed.

Lemma assemble_invalid (ctx : BlenderContext) (unit_name : string) (all : bool)
    (h : Host) (good : list Selected) (bad : Selected) (rest : list Selected) :
  is_armature ctx ->
  animations_to_export ctx = good ++ bad :: rest ->
  Forall (valid_clip all) good ->
  snd (clip_range (sel_item bad) (sel_action bad)) <
  fst (clip_range (sel_item bad) (sel_action bad)) ->
  exists h',
    assemble ctx unit_name all h = (Raise (invalid_range (sel_action bad)), h') /\
    steady h h'.
Proof.
  intros Harm Esel Hgood Hbad. unfold assemble.
  rewrite bool_decide_eq_true_2 by exact Harm. cbv [negb].
  destruct (animations_to_export ctx) as [|s0 sel0] eqn:E0.
  { destruct good; discriminate. }
  rewrite Esel.
  unfold bind at 1. unfold get at 1.
  rewrite (bind_run _ _ _ _ _ (collect_matrices_at_frame_ok _ _ _)).
  fold (rest_frame ctx).
  change {| all_matrix_data := [spec_frame (pose_bones ctx) (at_frame (rest_frame ctx) h)];
            frame_counts := [1];
            frame_steps := [1];
            animation_ranges := [(rest_frame ctx, rest_frame ctx)];
            total_frames := 1;
            animation_helpers :=
              [{| clip_name := unit_name +:+ "Rest"; start_idx := 0; end_idx := 0 |}] |}
    with (push (locals_of (pose_bones ctx) []) (unit_name +:+ "Rest") 0 1 1
            (rest_frame ctx, rest_frame ctx)
            (spec_frame (pose_bones ctx) (at_frame (rest_frame ctx) h))).
  assert (Hrest :
    push (locals_of (pose_bones ctx) []) (unit_name +:+ "Rest") 0 1 1
         (rest_frame ctx, rest_frame ctx)
         (spec_frame (pose_bones ctx) (at_frame (rest_frame ctx) h))
    = locals_of (pose_bones ctx) [rest_entry ctx unit_name h]).
  { unfold locals_of, push, e_chunk. simpl. rewrite app_nil_r. reflexivity. }
  rewrite Hrest.
  destruct (clips_loop_fail (pose_bones ctx) all good bad rest
              [rest_entry ctx unit_name h] (at_frame (rest_frame ctx) h)
              Hgood Hbad) as (h1 & Hs1 & Hrun1).
  rewrite (bind_fail _ _ _ _ _ Hrun1).
  exists h1. split; [reflexivity |].
  eapply steady_trans; [|exact Hs1]. apply steady_at_frame, steady_refl.
Qed.
End Runs.

(** ** Clip records laid out in creation order *)

Lemma spec_layout_length (from : Z) (clips : list (string * Z)) :
  length (spec_layout from clips) = length clips.
Proof.
  revert from. induction clips as [|[n c] clips IH]; intros from; simpl;
    [reflexivity | rewrite IH; reflexivity].
Qed.

Lemma spec_layout_names (from : Z) (clips : list (string * Z)) :
  map clip_name (spec_layout from clips) = map fst clips.
Proof.
  revert from. induction clips as [|[n c] clips IH]; intros from; simpl;
    [reflexivity | rewrite IH; reflexivity].
Qed.

Lemma spec_layout_frames (from : Z) (clips : list (string * Z)) :
  map record_frames (spec_layout from clips) = map snd clips.
Proof.
  revert from. induction clips as [|[n c] clips IH]; intros from; simpl;
    [reflexivity |].
  rewrite IH. f_equal. unfold record_frames. simpl. lia.
Qed.

Lemma spec_layout_sum (from : Z) (clips : list (string * Z)) :
  sum_record_frames (spec_layout from clips) = sum_counts clips.
Proof.
  revert from. unfold sum_record_frames, sum_counts.
  induction clips as [|[n c] clips IH]; intros from; simpl; [reflexivity |].
  rewrite IH. unfold record_frames. simpl. lia.
Qed.

Lemma spec_layout_head (from : Z) (clips : list (string * Z)) (r : ClipRecord) :
  head (spec_layout from clips) = Some r -> start_idx r = from.
Proof.
  destruct clips as [|[n c] clips]; simpl; [discriminate |].
  intros [= <-]. reflexivity.
Qed.

(** Consecutive records are adjacent: no gap, no overlap. *)
Lemma spec_layout_adjacent (from : Z) (clips : list (string * Z))
    (i : nat) (r r' : ClipRecord) :
  spec_layout from clips !! i = Some r ->
  spec_layout from clips !! S i = Some r' ->
  end_idx r + 1 = start_idx r'.
Proof.
  revert from i. induction clips as [|[n c] clips IH]; intros from i; simpl;
    [discriminate |].
  destruct i as [|i]; simpl.
  - intros [= <-] Hnext. simpl.
    assert (Hh : head (spec_layout (from + c) clips) = Some r')
      by (destruct (spec_layout (from + c) clips); simpl in *; congruence).
    apply spec_layout_head in Hh. lia.
  - apply IH.
Qed.

Lemma spec_layout_last (from : Z) (clips : list (string * Z)) (r : ClipRecord) :
  last (spec_layout from clips) = Some r -> end_idx r = from + sum_counts clips - 1.
Proof.
  revert from. induction clips as [|[n c] clips IH]; intros from; simpl;
    [discriminate |].
  rewrite last_cons. destruct (last (spec_layout (from + c) clips)) as [r1|] eqn:E.
  - intros [= <-]. rewrite (IH _ E). unfold sum_counts. simpl. lia.
  - intros [= <-]. apply last_None in E.
    destruct clips as [|[n2 c2] clips]; [|discriminate].
    unfold sum_counts. simpl. lia.
Qed.

Lemma spec_layout_ordered (from : Z) (clips : list (string * Z)) :
  Forall (fun c => 1 <= snd c) clips ->
  Forall (fun r => start_idx r <= end_idx r) (spec_layout from clips).
Proof.
  intros Hc. revert from.
  induction Hc as [|[n c] clips Hle Hc IH]; intros from; simpl; constructor.
  - simpl in *. lia.
  - apply IH.
Qed.

Lemma lookup_map {A B} (f : A -> B) (l : list A) (i : nat) :
  map f l !! i = f <$> (l !! i).
Proof.
  revert i. induction l as [|x l IH]; intros [|i]; simpl; try reflexivity.
  apply IH.
Qed.

Lemma map_drop {A B} (f : A -> B) (n : nat) (l : list A) :
  drop n (map f l) = map f (drop n l).
Proof.
  revert n. induction l as [|x l IH]; intros [|n]; simpl; try reflexivity.
  apply IH.
Qed.

(** ** Ordered pairs of distinct clips *)

Section Pairs.
Context {A B : Type} (key : A -> nat) (f : A -> A -> B).

Lemma others_length_in (a : A) (l : list A) :
  NoDup (map key l) -> In a l ->
  S (length (flat_map (fun b => if negb (key a =? key b)%nat then [f a b] else []) l))
  = length l.
Proof.
  induction l as [|b l IH]; intros Hnd Hin; [destruct Hin |].
  simpl in Hnd. apply NoDup_cons in Hnd as [Hb Hnd]. simpl.
  rewrite length_app.
  destruct (Nat.eqb_spec (key a) (key b)) as [Heq|Hne]; simpl.
  - f_equal.
    assert (Hout : ~ In (key a) (map key l))
      by (rewrite Heq; intros Hx; apply Hb, list_elem_of_In; exact Hx).
    clear IH Hin Hnd Hb Heq.
    induction l as [|c l IHl]; simpl; [reflexivity |].
    rewrite length_app. simpl in Hout.
    destruct (Nat.eqb_spec (key a) (key c));
      [exfalso; apply Hout; left; congruence |]. simpl.
    rewrite IHl by tauto. reflexivity.
  - destruct Hin as [->|Hin]; [congruence |].
    rewrite IH by assumption. reflexivity.
Qed.

Lemma pairs_of_length (l1 l2 : list A) :
  NoDup (map key l2) -> (forall a, In a l1 -> In a l2) ->
  length (pairs_of key f l1 l2) = (length l1 * (length l2 - 1))%nat.
Proof.
  intros Hnd Hsub. unfold pairs_of.
  induction l1 as [|a l1 IH]; simpl; [reflexivity |].
  rewrite length_app, IH by (intros; apply Hsub; right; assumption).
  pose proof (others_length_in a l2 Hnd (Hsub a (or_introl eq_refl))). lia.
Qed.

Lemma pairs_of_in (l1 l2 : list A) (y : B) :
  In y (pairs_of key f l1 l2) <->
  exists a b, In a l1 /\ In b l2 /\ key a <> key b /\ y = f a b.
Proof.
  unfold pairs_of. rewrite in_flat_map. split.
  - intros (a & Ha & Hy). apply in_flat_map in Hy as (b & Hb & Hy).
    destruct (Nat.eqb_spec (key a) (key b)); simpl in Hy; [destruct Hy |].
    destruct Hy as [<-|[]]. exists a, b. tauto.
  - intros (a & b & Ha & Hb & Hne & ->). exists a. split; [exact Ha |].
    apply in_flat_map. exists b. split; [exact Hb |].
    destruct (Nat.eqb_spec (key a) (key b)); [contradiction | left; reflexivity].
Qed.
End Pairs.

Lemma pairs_of_keys_NoDup (l1 l2 : list nat) :
  NoDup l1 -> NoDup l2 -> NoDup (pairs_of (fun k => k) pair l1 l2).
Proof.
  intros H1 H2. unfold pairs_of.
  induction H1 as [|a l1 Ha H1 IH]; simpl; [constructor |].
  apply NoDup_app. split; [|split].
  - clear -H2. induction H2 as [|b l2 Hb H2 IH]; simpl; [constructor |].
    destruct (Nat.eqb_spec a b); simpl; [exact IH |].
    constructor; [|exact IH].
    intros Hin. apply list_elem_of_In, in_flat_map in Hin as (c & Hc & Hin).
    destruct (Nat.eqb_spec a c); simpl in Hin; [destruct Hin |].
    destruct Hin as [[= ->]|[]]. apply Hb, list_elem_of_In. exact Hc.
  - intros y Hy Hy'.
    apply list_elem_of_In, in_flat_map in Hy as (b & Hb & Hy).
    destruct (Nat.eqb_spec a b); simpl in Hy; [destruct Hy |].
    destruct Hy as [<-|[]].
    apply list_elem_of_In, (pairs_of_in (fun k => k) pair) in Hy'
      as (a' & b' & Ha' & _ & _ & [= -> ->]).
    apply Ha, list_elem_of_In. exact Ha'.
  - exact IH.
Qed.

Lemma pairs_of_map {A B C : Type} (key : A -> nat) (f : A -> A -> B) (g : B -> C)
    (l1 l2 : list A) :
  map g (pairs_of key f l1 l2) = pairs_of key (fun a b => g (f a b)) l1 l2.
Proof.
  unfold pairs_of. induction l1 as [|a l1 IH]; simpl; [reflexivity |].
  rewrite map_app, IH. f_equal.
  clear. induction l2 as [|b l2 IH]; simpl; [reflexivity |].
  rewrite map_app, IH. destruct (negb (key a =? key b)%nat); reflexivity.
Qed.

Lemma pairs_of_keys {A B : Type} (key : A -> nat) (f : nat -> nat -> B)
    (l1 l2 : list A) :
  pairs_of key (fun a b => f (key a) (key b)) l1 l2 =
  pairs_of (fun k => k) f (map key l1) (map key l2).
Proof.
  unfold pairs_of. induction l1 as [|a l1 IH]; simpl; [reflexivity |].
  rewrite IH. f_equal.
  clear. induction l2 as [|b l2 IH]; simpl; [reflexivity |].
  rewrite IH. reflexivity.
Qed.

(** ** Python dicts *)

Lemma dict_get_set_eq {V} (k : string) (v : V) (d : pydict V) :
  dict_get k (dict_set k v d) = Some v.
Proof.
  induction d as [|[k' v'] d IH]; simpl.
  - rewrite String.eqb_refl. reflexivity.
  - destruct (String.eqb_spec k k') as [->|Hne]; simpl.
    + rewrite String.eqb_refl. reflexivity.
    + destruct (String.eqb_spec k k'); [contradiction | exact IH].
Qed.

Lemma dict_get_set_ne {V} (k k' : string) (v : V) (d : pydict V) :
  k <> k' -> dict_get k' (dict_set k v d) = dict_get k' d.
Proof.
  intros Hne. induction d as [|[k2 v2] d IH]; simpl.
  - destruct (String.eqb_spec k' k); [congruence | reflexivity].
  - destruct (String.eqb_spec k k2) as [->|Hne2]; simpl.
    + destruct (String.eqb_spec k' k2); [congruence | reflexivity].
    + destruct (String.eqb_spec k' k2); [reflexivity | exact IH].
Qed.

(** ** The adjacency map: the last record that parses to a pair wins *)

Lemma adjacency_add (unit_name : string) (m : pydict (pydict string))
    (tr : ClipRecord) (src dst : string) :
  adjacency (add_transition unit_name m tr) src dst =
  if decide (parses_to unit_name src dst tr) then Some (clip_name tr)
  else adjacency m src dst.
Proof.
  unfold add_transition.
  destruct (decide (parses_to unit_name src dst tr)) as [Hp|Hn]; unfold parses_to in *.
  - rewrite Hp. unfold adjacency. rewrite dict_get_set_eq, dict_get_set_eq.
    reflexivity.
  - destruct (split_transition unit_name (clip_name tr)) as [|a [|b [|c l]]];
      try reflexivity.
    unfold adjacency.
    destruct (String.string_dec a src) as [->|Ha].
    + rewrite dict_get_set_eq.
      destruct (String.string_dec b dst) as [->|Hb]; [contradiction |].
      rewrite dict_get_set_ne by exact Hb.
      destruct (dict_get src m); reflexivity.
    + rewrite dict_get_set_ne by exact Ha. reflexivity.
Qed.

Lemma adjacency_fold (unit_name : string) (trs : list ClipRecord)
    (m : pydict (pydict string)) (src dst : string) :
  adjacency (foldl (add_transition unit_name) m trs) src dst =
  match last (List.filter (fun tr => bool_decide (parses_to unit_name src dst tr)) trs) with
  | Some tr => Some (clip_name tr)
  | None => adjacency m src dst
  end.
Proof.
  revert m. induction trs as [|tr trs IH]; intros m; simpl; [reflexivity |].
  rewrite IH, adjacency_add.
  destruct (decide (parses_to unit_name src dst tr)) as [Hp|Hn].
  - rewrite bool_decide_eq_true_2 by exact Hp. rewrite last_cons.
    destruct (last _); reflexivity.
  - rewrite bool_decide_eq_false_2 by exact Hn. reflexivity.
Qed.

Lemma adjacency_build (unit_name : string) (trs : list ClipRecord) (src dst : string) :
  adjacency (build_trans_map unit_name trs) src dst =
  clip_name <$>
    last (List.filter (fun tr => bool_decide (parses_to unit_name src dst tr)) trs).
Proof.
  unfold build_trans_map. rewrite adjacency_fold.
  destruct (last _); reflexivity.
Qed.

Lemma contains_separator (a b : string) :
  py_contains "_To_" (a +:+ "_To_" +:+ b) = true.
Proof.
  induction a as [|c a IH]; simpl.
  - destruct b; reflexivity.
  - rewrite IH. apply orb_true_r.
Qed.

(** ** The selection and its transitions *)

Section Selection.
Context `{PoseSource}.

Arguments select : simpl never.

Lemma select_pos (p : nat * AnimationListItem) (s : Selected) :
  select p = Some s -> sel_pos s = fst p.
Proof.
  destruct p as [pos item]. unfold select. simpl.
  destruct (include item); [|discriminate].
  destruct (item_action item); [|discriminate].
  intros [= <-]. reflexivity.
Qed.

Lemma selected_positions_from (l : list AnimationListItem) (k : nat) :
  Forall (fun p => (k <= p)%nat)
         (map sel_pos (omap select (imap (fun i x => ((k + i)%nat, x)) l))) /\
  NoDup (map sel_pos (omap select (imap (fun i x => ((k + i)%nat, x)) l))).
Proof.
  revert k. induction l as [|x l IH]; intros k; simpl.
  - split; constructor.
  - assert (Hshift :
      imap ((fun i x0 => ((k + i)%nat, x0)) ∘ S) l =
      imap (fun i x0 => ((S k + i)%nat, x0)) l).
    { apply imap_ext. intros i y _. simpl. f_equal. lia. }
    rewrite Hshift. destruct (IH (S k)) as [Hge Hnd].
    assert (Hge' : Forall (fun p => (k <= p)%nat)
              (map sel_pos (omap select
                 (imap (fun i x0 => ((S k + i)%nat, x0)) l)))).
    { eapply Forall_impl; [exact Hge |]. simpl. intros; lia. }
    destruct (select ((k + 0)%nat, x)) as [s|] eqn:Es; simpl.
    + apply select_pos in Es. simpl in Es. split.
      * constructor; [lia | exact Hge'].
      * constructor; [|exact Hnd].
        intros Hin. eapply Forall_forall in Hge; [|exact Hin]. lia.
    + split; assumption.
Qed.

(** Distinct elements of [animations_to_export] sit at distinct
    positions of [scene.animation_list]. *)
Lemma selected_positions_NoDup (ctx : BlenderContext) :
  NoDup (map sel_pos (animations_to_export ctx)).
Proof.
  unfold animations_to_export.
  replace (imap pair (animation_list ctx))
    with (imap (fun i x => ((0 + i)%nat, x)) (animation_list ctx))
    by (apply imap_ext; reflexivity).
  apply (selected_positions_from (animation_list ctx) 0).
Qed.

Lemma transitions_pairs_of (sel : list Selected) :
  transitions sel = pairs_of sel_pos pair sel sel.
Proof. reflexivity. Qed.

Lemma transitions_length (ctx : BlenderContext) :
  length (transitions (animations_to_export ctx)) =
  (length (animations_to_export ctx) * (length (animations_to_export ctx) - 1))%nat.
Proof.
  rewrite transitions_pairs_of. apply pairs_of_length.
  - apply selected_positions_NoDup.
  - auto.
Qed.

Lemma transitions_in (sel : list Selected) (src dst : Selected) :
  In (src, dst) (transitions sel) <->
  In src sel /\ In dst sel /\ sel_pos src <> sel_pos dst.
Proof.
  rewrite transitions_pairs_of, pairs_of_in. split.
  - intros (a & b & Ha & Hb & Hne & [= -> ->]). tauto.
  - intros (Ha & Hb & Hne). exists src, dst. tauto.
Qed.

Lemma transitions_NoDup (ctx : BlenderContext) :
  NoDup (map (fun p => (sel_pos (fst p), sel_pos (snd p)))
             (transitions (animations_to_export ctx))).
Proof.
  rewrite transitions_pairs_of, pairs_of_map. simpl.
  rewrite (pairs_of_keys sel_pos pair).
  apply pairs_of_keys_NoDup; apply selected_positions_NoDup.
Qed.

(** *** What a list of entries says about the loop variables *)

Lemma map_zip_with_l {A B C D} (f : A -> B -> C) (g : C -> D) (g' : A -> D)
    (l : list A) (k : list B) :
  (forall a b, g (f a b) = g' a) -> length k = length l ->
  map g (zip_with f l k) = map g' l.
Proof.
  intros Hg. revert k. induction l as [|a l IH]; intros [|b k] Hlen;
    simpl in *; try discriminate; [reflexivity |].
  rewrite Hg, IH by congruence. reflexivity.
Qed.

Lemma Forall_zip_with_l {A B C} (f : A -> B -> C) (P : C -> Prop)
    (l : list A) (k : list B) :
  (forall a b, In a l -> P (f a b)) -> Forall P (zip_with f l k).
Proof.
  revert k. induction l as [|a l IH]; intros [|b k] HP; simpl; constructor.
  - apply HP. left. reflexivity.
  - apply IH. intros a' b' Hin. apply HP. right. exact Hin.
Qed.

Lemma locals_of_names (bones : list Bone) (es : list Entry) :
  map clip_name (animation_helpers (locals_of bones es)) = map e_name es.
Proof. simpl. rewrite spec_layout_names, map_map. reflexivity. Qed.

Lemma locals_of_record_frames (bones : list Bone) (es : list Entry) :
  map record_frames (animation_helpers (locals_of bones es)) = map e_count es.
Proof. simpl. rewrite spec_layout_frames, map_map. reflexivity. Qed.

Lemma locals_of_total (bones : list Bone) (es : list Entry) :
  total_frames (locals_of bones es) =
  sum_record_frames (animation_helpers (locals_of bones es)).
Proof. simpl. rewrite spec_layout_sum. reflexivity. Qed.

Lemma e_chunk_length (bones : list Bone) (e : Entry) :
  Z.of_nat (length (e_chunk bones e)) = e_count e * Z.of_nat (length bones) * 16.
Proof. unfold e_chunk, e_count. rewrite spec_pack_length. lia. Qed.

Lemma locals_of_chunks (bones : list Bone) (es : list Entry) :
  map (fun chunk => Z.of_nat (length chunk)) (all_matrix_data (locals_of bones es)) =
  map (fun r => record_frames r * Z.of_nat (length bones) * 16)
      (animation_helpers (locals_of bones es)).
Proof.
  rewrite <- (map_map record_frames (fun c => c * Z.of_nat (length bones) * 16)).
  rewrite locals_of_record_frames. simpl. rewrite !map_map.
  apply map_ext. intros e. apply e_chunk_length.
Qed.

Lemma locals_of_payload (bones : list Bone) (es : list Entry) :
  Z.of_nat (length (concat (all_matrix_data (locals_of bones es)))) =
  total_frames (locals_of bones es) * Z.of_nat (length bones) * 16.
Proof.
  simpl. unfold sum_counts.
  induction es as [|e es IH]; simpl; [reflexivity |].
  rewrite length_app, Nat2Z.inj_add, IH, e_chunk_length. ring.
Qed.

Lemma clip_frames_nonempty (all : bool) (s : Selected) :
  valid_clip all s -> (1 <= length (clip_frames all s))%nat.
Proof.
  intros Hv. pose proof (valid_clip_frames all s Hv) as Hf. cbv zeta in Hf.
  destruct Hv as [Hle Hstep].
  destruct (clip_frames all s) as [|f fs]; [|simpl; lia].
  exfalso. destruct all.
  - rewrite frames_to_export_all in Hf. inversion Hf as [Hs].
    pose proof (stepped_frames_head _ _ 1 Hle ltac:(lia)) as Hh.
    rewrite Hs in Hh. discriminate.
  - destruct Hstep as [|Hstep]; [discriminate |].
    rewrite frames_to_export_stepped in Hf by assumption.
    inversion Hf as [Hs]. apply app_eq_nil in Hs as [Hs _].
    pose proof (stepped_frames_head _ _ (frame_step (sel_item s)) Hle ltac:(lia))
      as Hh.
    rewrite Hs in Hh. discriminate.
Qed.

(** Entries after the rest pose and the [n] main clips. *)
Lemma drop_entries {X} (g : Entry -> X) (e0 : Entry) (es1 es2 : list Entry) (n : nat) :
  length es1 = n ->
  drop (1 + n) (map g (e0 :: es1 ++ es2)) = map g es2.
Proof.
  intros <-. simpl. rewrite map_app.
  rewrite <- (length_map g es1). apply drop_app_length.
Qed.
End Selection.

(** ** Where each element of the buffer sits *)

Section PackerIndex.
Context `{PoseSource}.

Lemma spec_column_major_lookup (mat : Matrix) (col row : nat) :
  (col < 4)%nat -> (row < 4)%nat ->
  spec_column_major mat !! (4 * col + row)%nat = Some (to_float32 (mat_elem mat row col)).
Proof.
  intros Hc Hr.
  destruct col as [|[|[|[|col]]]]; try lia;
    destruct row as [|[|[|[|row]]]]; try lia; reflexivity.
Qed.

Lemma spec_frame_lookup (bones : list Bone) (h : Host) (b : nat) (bone : Bone) (j : nat) :
  bones !! b = Some bone -> (j < 16)%nat ->
  spec_frame bones h !! (b * 16 + j)%nat =
  spec_column_major (export_matrix h bone) !! j.
Proof.
  revert b. induction bones as [|x bones IH]; intros b Hb Hj; [discriminate |].
  change (spec_frame (x :: bones) h)
    with (spec_column_major (export_matrix h x) ++ spec_frame bones h).
  destruct b as [|b]; simpl in Hb.
  - inversion Hb; subst. apply lookup_app_l.
    rewrite spec_column_major_length. lia.
  - rewrite lookup_app_r by (rewrite spec_column_major_length; lia).
    rewrite spec_column_major_length.
    replace (S b * 16 + j - 16)%nat with (b * 16 + j)%nat by lia.
    apply IH; assumption.
Qed.

Lemma spec_pack_lookup (bones : list Bone) (frames : list Z) (h : Host)
    (i : nat) (f : Z) (j : nat) :
  frames !! i = Some f -> (j < length bones * 16)%nat ->
  spec_pack bones frames h !! (i * (length bones * 16) + j)%nat =
  spec_frame bones (sampling_host frames i h) !! j.
Proof.
  revert h i. induction frames as [|x frames IH]; intros h i Hi Hj; [discriminate |].
  cbn [spec_pack]. destruct i as [|i]; simpl in Hi.
  - apply lookup_app_l. rewrite spec_frame_length. lia.
  - rewrite lookup_app_r by (rewrite spec_frame_length; lia).
    rewrite spec_frame_length.
    replace (S i * (length bones * 16) + j - length bones * 16)%nat
      with (i * (length bones * 16) + j)%nat by lia.
    rewrite IH by assumption. reflexivity.
Qed.

Lemma sampling_host_frame (frames : list Z) (i : nat) (f : Z) (h : Host) :
  frames !! i = Some f -> frame_current (sampling_host frames i h) = f.
Proof.
  revert h i. induction frames as [|x frames IH]; intros h i Hi; [discriminate |].
  destruct i as [|i]; simpl in Hi.
  - inversion Hi; subst. reflexivity.
  - apply (IH (at_frame x h) i Hi).
Qed.

Lemma sampling_host_call (frames : list Z) (i : nat) (f : Z) (h : Host) :
  frames !! i = Some f -> head (history (sampling_host frames i h)) = Some (op_frame_set f).
Proof.
  revert h i. induction frames as [|x frames IH]; intros h i Hi; [discriminate |].
  destruct i as [|i]; simpl in Hi.
  - inversion Hi; subst. reflexivity.
  - apply (IH (at_frame x h) i Hi).
Qed.
End PackerIndex.

(** ** Strings *)

Lemma append_length (s t : string) :
  String.length (s +:+ t) = (String.length s + String.length t)%nat.
Proof. induction s as [|c s IH]; simpl; [reflexivity | rewrite IH; reflexivity]. Qed.

Lemma append_ne_self (s t : string) : t <> "" -> s +:+ t <> s.
Proof.
  intros Ht Heq. apply (f_equal String.length) in Heq.
  rewrite append_length in Heq. destruct t; [congruence | simpl in Heq; lia].
Qed.

Lemma append_inj_r (s t t' : string) : s +:+ t = s +:+ t' -> t = t'.
Proof. induction s as [|c s IH]; simpl; [auto | intros [= Heq]; auto]. Qed.

(** ** The export phase and the entry point *)

Section Entry.
Context `{PoseSource}.

Lemma write_file_run (f : File) (h : Host) :
  write_file f h = (Ok tt, with_files (files h ++ [f]) h).
Proof. reflexivity. Qed.

Lemma set_property_run (key : string) (v : IdProp) (h : Host) :
  set_property key v h =
  (Ok tt, with_id_properties (<[key := v]> (id_properties h)) h).
Proof. reflexivity. Qed.

Lemma del_property_run (key : string) (h : Host) :
  del_property key h = (Ok tt, with_id_properties (delete key (id_properties h)) h).
Proof. reflexivity. Qed.

(** "Restore original state", lines 502-508. *)
Lemma restore_state_run {A} (f : Z) (o : option ActionRef) (a : A) (h : Host) :
  exists h',
    bind (frame_set f) (fun _ =>
      bind (restore_action o) (fun _ =>
        bind (mode_set OBJECT) (fun _ => ret a))) h = (Ok a, h') /\
    files h' = files h /\ id_properties h' = id_properties h /\
    messages h' = messages h /\ frame_current h' = f.
Proof.
  rewrite (bind_run _ _ _ _ _ (frame_set_run f h)).
  destruct (restore_action_run o (at_frame f h)) as (h1 & Hrun & Hs & Hf).
  rewrite (bind_run _ _ _ _ _ Hrun).
  rewrite (bind_run _ _ _ _ _ (mode_set_run _ _)).
  eexists. split; [reflexivity |].
  destruct Hs as (F & P & Ms). simpl. auto.
Qed.

(** Once the assembly has returned, the rest of the [try] block either
    stops at the unsaved-file check or runs to the end. *)
Lemma export_after_assemble (ctx : BlenderContext) (unit_name : string)
    (export_method : ExportMethod) (property_name : string) (all : bool)
    (h : Host) (A : Assembly) (h1 : Host) :
  assemble ctx unit_name all h = (Ok A, h1) ->
  (export_method = BIN /\ filepath ctx = "" /\
   export_multiple_body ctx unit_name export_method property_name all h
   = (Raise unsaved_error, h1))
  \/
  (exists msg h',
     export_multiple_body ctx unit_name export_method property_name all h
     = (Ok msg, h') /\
     frame_current h' = original_frame A /\
     messages h' = messages h1 /\
     match export_method with
     | BIN => filepath ctx <> "" /\
              files h' = files h1 ++ written_files ctx unit_name A /\
              id_properties h' = id_properties h1
     | PROPERTY => files h' = files h1 /\
                   id_properties h' =
                   stored_properties ctx property_name A (id_properties h1)
     end).
Proof.
  intros Hasm. unfold export_multiple_body.
  rewrite (bind_run _ _ _ _ _ Hasm).
  destruct export_method.
  - unfold export_bin. cbv zeta.
    destruct (String.eqb_spec (filepath ctx) "") as [Hempty|Hsaved].
    + left. split; [reflexivity |]. split; [exact Hempty | reflexivity].
    + right.
      assert (Hbin : forall k : Message -> M Message,
        bind (bind (perform (op_makedirs (filepath ctx))) (fun _ =>
                bind (write_file (BinFile ((unit_name +:+ "_animations") +:+ ".bin")
                                          (combined_data A))) (fun _ =>
                bind (write_file (JsFile ((unit_name +:+ "_animations") +:+ ".js")
                                         (descriptor ctx unit_name (locals A)))) (fun _ =>
                ret (msg_exported
                       (Z.of_nat (length (animation_helpers (locals A))))
                       (total_frames (locals A))
                       (Z.of_nat (length (pose_bones ctx)))))))) k h1
        = k (msg_exported
               (Z.of_nat (length (animation_helpers (locals A))))
               (total_frames (locals A))
               (Z.of_nat (length (pose_bones ctx))))
            (with_files (files h1 ++ written_files ctx unit_name A)
                        (log (op_makedirs (filepath ctx)) h1))).
      { intros k. unfold bind, perform, write_file, modify, ret, written_files.
        simpl. rewrite <- app_assoc. reflexivity. }
      destruct (restore_state_run (original_frame A) (original_action A)
                  (msg_exported
                     (Z.of_nat (length (animation_helpers (locals A))))
                     (total_frames (locals A))
                     (Z.of_nat (length (pose_bones ctx))))
                  (with_files (files h1 ++ written_files ctx unit_name A)
                              (log (op_makedirs (filepath ctx)) h1)))
        as (h' & Hrun & F & P & Ms & Hf).
      eexists _, h'. split; [rewrite Hbin; exact Hrun |].
      simpl in F, P, Ms. auto.
  - right. unfold export_property. cbv zeta.
    assert (Hprop : forall k : Message -> M Message,
      bind (bind (del_property property_name) (fun _ =>
              bind (set_property property_name (prop_floats (combined_data A))) (fun _ =>
              bind (set_property (property_name +:+ "_totalFrames")
                                 (prop_int (total_frames (locals A)))) (fun _ =>
              bind (set_property (property_name +:+ "_numBones")
                                 (prop_int (Z.of_nat (length (pose_bones ctx))))) (fun _ =>
              bind (set_property (property_name +:+ "_animationCount")
                                 (prop_int (Z.of_nat (length (animation_helpers (locals A)))))) (fun _ =>
              bind (set_property (property_name +:+ "_frameSteps")
                                 (prop_str_of_ints (frame_steps (locals A)))) (fun _ =>
              ret (msg_stored
                     (Z.of_nat (length (animation_helpers (locals A))))
                     (total_frames (locals A))
                     (Z.of_nat (length (pose_bones ctx)))
                     property_name)))))))) k h1
      = k (msg_stored
             (Z.of_nat (length (animation_helpers (locals A))))
             (total_frames (locals A))
             (Z.of_nat (length (pose_bones ctx)))
             property_name)
          (with_id_properties
             (stored_properties ctx property_name A (id_properties h1)) h1)).
    { intros k. reflexivity. }
    destruct (restore_state_run (original_frame A) (original_action A)
                (msg_stored
                   (Z.of_nat (length (animation_helpers (locals A))))
                   (total_frames (locals A))
                   (Z.of_nat (length (pose_bones ctx)))
                   property_name)
                (with_id_properties
                   (stored_properties ctx property_name A (id_properties h1)) h1))
      as (h' & Hrun & F & P & Ms & Hf).
    eexists _, h'. split; [rewrite Hprop; exact Hrun |].
    simpl in F, P, Ms. auto.
Qed.
End Entry.

(** ** How an export can end *)

Lemma frames_to_export_errors (s e step : Z) (all : bool) (x : exn) :
  frames_to_export s e step all = Raise x -> x = ValueError \/ x = IndexError.
Proof.
  unfold frames_to_export, py_range, py_last. destruct all.
  - simpl. discriminate.
  - destruct (step =? 0); simpl; [intros [= <-]; auto |].
    destruct (last _); simpl.
    + destruct (negb _); discriminate.
    + intros [= <-]. auto.
Qed.

Section Outcomes.
Context `{PoseSource}.

(** Run the first command of a chain when it is made of plain host calls. *)
Ltac run_block :=
  match goal with
  | |- context [bind ?m ?k ?hx] =>
      let r := eval cbv [bind perform write_file set_property del_property
                         frame_set mode_set modify ret get lift raise] in (m hx) in
      lazymatch r with
      | (Ok ?a, ?h') => rewrite (bind_run m k hx a h' eq_refl)
      | (Raise ?e, ?h') => rewrite (bind_fail m k hx e h' eq_refl)
      end
  end.

Lemma first_invalid (all : bool) (sel : list Selected) :
  Forall (usable_step all) sel ->
  Forall (valid_clip all) sel \/
  exists good bad rest,
    sel = good ++ bad :: rest /\ Forall (valid_clip all) good /\ reversed bad.
Proof.
  induction 1 as [|s sel Hstep Hsteps IH]; [left; constructor |].
  destruct (Z_lt_dec (snd (clip_range (sel_item s) (sel_action s)))
                     (fst (clip_range (sel_item s) (sel_action s)))) as [Hrev|Hok].
  - right. exists [], s, sel. repeat split; [constructor | exact Hrev].
  - assert (Hv : valid_clip all s) by (split; [lia | exact Hstep]).
    destruct IH as [Hall|(good & bad & rest & -> & Hgood & Hbad)].
    + left. constructor; assumption.
    + right. exists (s :: good), bad, rest.
      repeat split; [constructor; assumption | exact Hbad].
Qed.

Lemma valid_not_reversed (all : bool) (s : Selected) :
  valid_clip all s -> ~ reversed s.
Proof. intros [Hle _] Hrev. unfold reversed in Hrev. lia. Qed.

Lemma assemble_no_selection (ctx : BlenderContext) (unit_name : string)
    (all : bool) (h : Host) :
  is_armature ctx -> animations_to_export ctx = [] ->
  assemble ctx unit_name all h = (Raise no_selection_error, h).
Proof.
  intros Harm Hsel. unfold assemble.
  rewrite bool_decide_eq_true_2 by exact Harm. rewrite Hsel. reflexivity.
Qed.

Lemma export_multiple_outcome (ctx : BlenderContext) (unit_name : string)
    (export_method : ExportMethod) (property_name : string) (all : bool)
    (h : Host) :
  is_armature ctx ->
  Forall (usable_step all) (animations_to_export ctx) ->
  multi_outcome ctx all h
    (export_multiple_animations ctx unit_name export_method property_name all h).
Proof.
  intros Harm Hsteps.
  unfold export_multiple_animations, run_export, export_multiple_body.
  destruct (animations_to_export ctx) as [|s0 sel0] eqn:Esel.
  { rewrite (bind_fail _ _ _ _ _ (assemble_no_selection ctx unit_name all h Harm Esel)).
    apply outcome_no_selection. exact Esel. }
  rewrite <- Esel in *.
  destruct (first_invalid all _ Hsteps) as [Hvalid|(good & bad & rest & E & Hgood & Hbad)].
  - assert (Hne : animations_to_export ctx <> []) by (rewrite Esel; discriminate).
    destruct (assemble_run ctx unit_name all h Harm Hne Hvalid)
      as (clip_hosts & tr_hosts & A & h1 & Hrun & Hs1 & _).
    destruct (export_after_assemble ctx unit_name export_method property_name all
                h A h1 Hrun) as [(_ & _ & Hbody)|(msg & h2 & Hbody & _)];
      unfold export_multiple_body in Hbody; rewrite Hbody.
    + apply outcome_unsaved; assumption.
    + apply outcome_finished. exact Hvalid.
  - destruct (assemble_invalid ctx unit_name all h good bad rest Harm E Hgood Hbad)
      as (h1 & Hrun & Hs1).
    rewrite (bind_fail _ _ _ _ _ Hrun).
    eapply outcome_reversed; eassumption.
Qed.

(** *** The single-animation export *)

(** With an armature, a usable name and a range, the single export comes
    down to its sampling part. *)
Lemma export_single_prefix (ctx : BlenderContext) (animation_name : string)
    (use_custom_name : bool) (start_frame end_frame : option Z) (frame_step : Z)
    (all use_full : bool) (export_method : ExportMethod) (property_name : string)
    (h : Host) (name : string) (s e : Z) :
  is_armature ctx ->
  single_name h animation_name use_custom_name = Some name ->
  single_range ctx h start_frame end_frame use_full = Some (s, e) ->
  export_single_body ctx animation_name use_custom_name start_frame end_frame
    frame_step all use_full export_method property_name h
  = export_single_frames ctx name s e frame_step all export_method property_name h.
Proof.
  intros Harm Hname Hrange. unfold export_single_body.
  rewrite bool_decide_eq_true_2 by exact Harm.
  change (negb true) with false. cbv iota.
  unfold bind at 1. unfold get at 1.
  unfold single_name in Hname. unfold single_range in Hrange.
  cbv zeta in Hname.
  unfold bind at 1.
  destruct (negb use_custom_name && negb (String.eqb _ "")).
  - inversion Hname; subst. unfold ret at 1. unfold bind at 1.
    destruct use_full.
    + destruct (current_action h); [|discriminate].
      inversion Hrange; subst. reflexivity.
    + inversion Hrange; subst. reflexivity.
  - destruct (String.eqb animation_name ""); [discriminate |].
    inversion Hname; subst. unfold ret at 1. unfold bind at 1.
    destruct use_full.
    + destruct (current_action h); [|discriminate].
      inversion Hrange; subst. reflexivity.
    + inversion Hrange; subst. reflexivity.
Qed.

Lemma export_single_frames_reversed (ctx : BlenderContext) (name : string)
    (s e step : Z) (all : bool) (export_method : ExportMethod)
    (property_name : string) (h : Host) :
  e < s ->
  export_single_frames ctx name s e step all export_method property_name h
  = (Raise single_range_error, h).
Proof.
  intros Hrev. unfold export_single_frames.
  destruct (Z.gtb_spec s e); [reflexivity | lia].
Qed.

(** In range order, the single export ends where the sampler or the
    unsaved-file check stops it, or writes the packed frames. *)
Lemma export_single_frames_run (ctx : BlenderContext) (name : string)
    (s e step : Z) (all : bool) (export_method : ExportMethod)
    (property_name : string) (h : Host) :
  s <= e ->
  match frames_to_export s e step all with
  | Raise x =>
      export_single_frames ctx name s e step all export_method property_name h
      = (Raise x, h)
  | Ok frames =>
      (export_method = BIN /\ filepath ctx = "" /\
       export_single_frames ctx name s e step all export_method property_name h
       = (Raise unsaved_error, after_frames frames h))
      \/
      (exists h',
         export_single_frames ctx name s e step all export_method property_name h
         = (Ok (msg_single (Z.of_nat (length frames))
                           (Z.of_nat (length (pose_bones ctx)))), h') /\
         frame_current h' = frame_current h /\
         messages h' = messages h /\
         match export_method with
         | BIN =>
             filepath ctx <> "" /\
             exists d,
               files h' = files h ++
                 [BinFile (single_base_filename name s e step all frames +:+ ".bin")
                          (spec_pack (pose_bones ctx) frames h);
                  SingleJsFile (single_base_filename name s e step all frames +:+ ".js") d] /\
               sd_numFrames d = Z.of_nat (length frames) /\
               sd_numBones d = Z.of_nat (length (pose_bones ctx))
         | PROPERTY =>
             files h' = files h /\
             id_properties h' =
             <[property_name +:+ "_numBones" :=
                 prop_int (Z.of_nat (length (pose_bones ctx)))]>
             (<[property_name +:+ "_numFrames" := prop_int (Z.of_nat (length frames))]>
             (<[property_name := prop_floats (spec_pack (pose_bones ctx) frames h)]>
             (delete property_name (id_properties h))))
         end)
  end.
Proof.
  intros Hle. unfold export_single_frames.
  destruct (Z.gtb_spec s e); [lia |].
  run_block. cbv zeta.
  destruct (frames_to_export s e step all) as [frames|x]; [|reflexivity].
  run_block.
  rewrite (bind_run _ _ _ _ _ (bake_frames_ok _ _ _)).
  assert (Hsteady : steady h (after_frames frames h))
    by apply steady_after_frames, steady_refl.
  destruct Hsteady as (F & P & Ms).
  destruct export_method.
  - destruct (String.eqb_spec (filepath ctx) "") as [Hempty|Hsaved].
    + left. split; [reflexivity |]. split; [exact Hempty | reflexivity].
    + right. do 3 run_block. eexists. split; [reflexivity |]. simpl.
      split; [reflexivity |]. split; [exact Ms |].
      split; [exact Hsaved |]. eexists. split.
      * rewrite F, <- app_assoc. reflexivity.
      * split; reflexivity.
  - right. do 3 run_block. eexists. split; [reflexivity |]. simpl.
    split; [reflexivity |]. split; [exact Ms |]. split; [exact F |].
    rewrite P. reflexivity.
Qed.
End Outcomes.

(** * The claims *)

(** ** C1: the Frame Sampler *)

(** C1. For every clip with start <= end and step >= 1 the sampler returns a
    strictly increasing sequence that begins with start and ends with end.
    With export_all_frames it is every integer of [start, end], whatever the
    step; otherwise it is start, start+step, start+2*step, ... up to end,
    followed by end exactly when the last stepped value is not end. *)
Theorem C1_frame_sampler (start_frame end_frame frame_step : Z)
    (export_all_frames : bool) :
  start_frame <= end_frame -> 1 <= frame_step ->
  exists frames,
    frames_to_export start_frame end_frame frame_step export_all_frames = Ok frames /\
    StronglySorted Z.lt frames /\
    head frames = Some start_frame /\
    last frames = Some end_frame /\
    (export_all_frames = true ->
       forall x, x ∈ frames <-> start_frame <= x <= end_frame) /\
    (export_all_frames = false ->
       exists stepped,
         (forall x, x ∈ stepped <->
            exists k, 0 <= k /\ x = start_frame + k * frame_step /\ x <= end_frame) /\
         frames = stepped ++
           (if decide (last stepped = Some end_frame) then [] else [end_frame])).
Proof.
  intros Hse Hstep. destruct export_all_frames.
  - exists (stepped_frames start_frame end_frame 1).
    split; [apply frames_to_export_all |].
    split; [apply stepped_frames_sorted; lia |].
    split; [apply stepped_frames_head; lia |].
    split.
    { rewrite stepped_frames_last by lia. f_equal.
      rewrite Z.div_1_r. lia. }
    split; [|discriminate].
    intros _ x. rewrite stepped_frames_elem by lia. split.
    + intros (k & Hk & -> & Hle). lia.
    + intros Hx. exists (x - start_frame). lia.
  - exists (stepped_frames start_frame end_frame frame_step ++
            (if decide (last (stepped_frames start_frame end_frame frame_step)
                        = Some end_frame) then [] else [end_frame])).
    split; [apply frames_to_export_stepped; assumption |].
    pose proof (stepped_frames_sorted start_frame end_frame frame_step ltac:(lia))
      as Hsorted.
    pose proof (stepped_frames_head start_frame end_frame frame_step Hse ltac:(lia))
      as Hhead.
    pose proof (stepped_frames_last start_frame end_frame frame_step Hse ltac:(lia))
      as Hlast.
    pose proof (stepped_frames_bound start_frame end_frame frame_step Hse ltac:(lia))
      as Hbound.
    split; [|split; [|split; [|split]]].
    + destruct (decide _) as [Heq|Hne]; [rewrite app_nil_r; exact Hsorted |].
      apply sorted_snoc; [exact Hsorted |].
      pose proof (sorted_below_last _ _ Hsorted Hlast) as Hbelow.
      assert (Hlt : start_frame + (end_frame - start_frame) / frame_step * frame_step
                    < end_frame).
      { assert (Hlast_le : start_frame +
                  (end_frame - start_frame) / frame_step * frame_step <= end_frame).
        { pose proof (Z.mul_div_le (end_frame - start_frame) frame_step ltac:(lia)).
          lia. }
        destruct (Z.eq_dec (start_frame +
                    (end_frame - start_frame) / frame_step * frame_step) end_frame)
          as [Heq|Hneq]; [|lia].
        exfalso. apply Hne. rewrite Hlast. f_equal. exact Heq. }
      eapply Forall_impl; [exact Hbelow |]. simpl. intros; lia.
    + destruct (stepped_frames start_frame end_frame frame_step) as [|f fs];
        [discriminate | exact Hhead].
    + destruct (decide _) as [Heq|Hne]; [rewrite app_nil_r; exact Heq |].
      apply last_snoc.
    + discriminate.
    + intros _. exists (stepped_frames start_frame end_frame frame_step).
      split; [|reflexivity].
      intros x. apply stepped_frames_elem; lia.
Qed.

Lemma C1_frame_sampler_witness :
  1 <= 6 /\ 1 <= 2 /\
  exists frames, frames_to_export 1 6 2 false = Ok frames /\ last frames = Some 6.
Proof.
  split; [lia |]. split; [lia |].
  destruct (C1_frame_sampler 1 6 2 false ltac:(lia) ltac:(lia))
    as (frames & Hrun & _ & _ & Hlast & _).
  exists frames. split; [exact Hrun | exact Hlast].
Defined.

Section MultiExportClaims.
Context `{PoseSource}.

(** ** C6: the Matrix Packer *)

(** C6. For every sampled frame and every bone in the fixed bone order,
    the packer writes the 16 elements of
    transform * world_matrix * bone_local_matrix, columns outer and rows
    inner, frames concatenated in sampling order: the indexed writes of the
    code produce exactly the specification's packing, and the element for
    frame position i, bone b, column col, row row sits at
    (i * num_bones + b) * 16 + 4 * col + row.  The matrices of frame
    position i are read right after the call scene.frame_set(f) for the
    i-th frame f, which leaves the scene at f when the host accepts f. *)
Theorem C6_matrix_packer (bones : list Bone) (frames : list Z) (h : Host) :
  bake_frames bones frames h = (Ok (spec_pack bones frames h), after_frames frames h) /\
  (forall frame,
     collect_matrices_at_frame bones frame h =
     (Ok (spec_pack bones [frame] h), at_frame frame h)) /\
  (forall (i : nat) (f : Z) (b : nat) (bone : Bone) (col row : nat),
     frames !! i = Some f -> bones !! b = Some bone ->
     (col < 4)%nat -> (row < 4)%nat ->
     let hx := sampling_host frames i h in
     head (history hx) = Some (op_frame_set f) /\
     (host_frame f -> frame_current hx = f) /\
     spec_pack bones frames h !! ((i * length bones + b) * 16 + (4 * col + row))%nat =
     Some (to_float32
             (mat_elem (BLENDER_TO_THREE @ matrix_world hx @ bone_matrix hx bone)%mat
                       row col))).
Proof.
  split; [apply bake_frames_ok |]. split.
  - intros frame. rewrite collect_matrices_at_frame_ok.
    cbn [spec_pack]. rewrite app_nil_r. reflexivity.
  - intros i f b bone col row Hi Hb Hcol Hrow hx.
    split; [apply (sampling_host_call frames i f h Hi) |].
    split; [intros _; apply (sampling_host_frame frames i f h Hi) |].
    assert (Hb_lt : (b < length bones)%nat) by (eapply lookup_lt_Some; exact Hb).
    replace ((i * length bones + b) * 16 + (4 * col + row))%nat
      with (i * (length bones * 16) + (b * 16 + (4 * col + row)))%nat by lia.
    rewrite (spec_pack_lookup bones frames h i f) by (assumption || lia).
    rewrite (spec_frame_lookup bones _ b bone) by (assumption || lia).
    apply spec_column_major_lookup; assumption.
Qed.

(** ** C9: the rest pose *)

(** C9. In every multi-export the rest-pose record is the first record,
    covers exactly [0, 0], has frame count 1 and step 1, and is sampled at
    scene frame 0 when the scene's start frame is <= 0, else at frame 1. *)
Theorem C9_rest_pose (ctx : BlenderContext) (unit_name : string) (all : bool)
    (h : Host) :
  is_armature ctx ->
  animations_to_export ctx <> [] ->
  Forall (valid_clip all) (animations_to_export ctx) ->
  exists A h',
    assemble ctx unit_name all h = (Ok A, h') /\
    let L := locals A in
    let rest_frame := if frame_start ctx <=? 0 then 0 else 1 in
    head (animation_helpers L) =
      Some {| clip_name := unit_name +:+ "Rest"; start_idx := 0; end_idx := 0 |} /\
    head (frame_counts L) = Some 1 /\
    head (frame_steps L) = Some 1 /\
    head (animation_ranges L) = Some (rest_frame, rest_frame) /\
    head (all_matrix_data L) =
      Some (spec_frame (pose_bones ctx) (at_frame rest_frame h)) /\
    frame_current (at_frame rest_frame h) = rest_frame.
Proof.
  intros Harm Hne Hvalid.
  destruct (assemble_run ctx unit_name all h Harm Hne Hvalid)
    as (clip_hosts & tr_hosts & A & h' & Hrun & _ & _ & _ & _ & _ & HL & _).
  exists A, h'. split; [exact Hrun |]. cbv zeta. rewrite HL.
  repeat split. simpl. unfold e_chunk. simpl. rewrite app_nil_r. reflexivity.
Qed.
End MultiExportClaims.

Section RegistryClaims.
Context `{PoseSource}.

(** ** C2: transitions *)

(** C2. For every multi-export with n included clips, one transition is
    made for each ordered pair of distinct included clips and no pair is
    skipped: n*(n-1) transitions.  Each contributes one Clip Record and 10
    frame positions to the buffer, so there are 1 + n + n*(n-1) records;
    for n = 2 that is 2 transitions and 5 records. *)
Theorem C2_transitions (ctx : BlenderContext) (unit_name : string) (all : bool)
    (h : Host) :
  is_armature ctx ->
  animations_to_export ctx <> [] ->
  Forall (valid_clip all) (animations_to_export ctx) ->
  let sel := animations_to_export ctx in
  let n := length sel in
  exists A h',
    assemble ctx unit_name all h = (Ok A, h') /\
    let L := locals A in
    length (transitions sel) = (n * (n - 1))%nat /\
    (forall src dst,
       In (src, dst) (transitions sel) <->
       In src sel /\ In dst sel /\ sel_pos src <> sel_pos dst) /\
    NoDup (map (fun p => (sel_pos (fst p), sel_pos (snd p))) (transitions sel)) /\
    length (animation_helpers L) = (1 + n + n * (n - 1))%nat /\
    map clip_name (drop (1 + n) (animation_helpers L)) =
      map (fun p => transition_name (fst p) (snd p)) (transitions sel) /\
    Forall (fun r => record_frames r = 10) (drop (1 + n) (animation_helpers L)) /\
    Forall (fun c => c = 10) (drop (1 + n) (frame_counts L)) /\
    Forall (fun chunk => length chunk = (10 * length (pose_bones ctx) * 16)%nat)
           (drop (1 + n) (all_matrix_data L)) /\
    (n = 2%nat ->
     length (transitions sel) = 2%nat /\ length (animation_helpers L) = 5%nat).
Proof.
  intros Harm Hne Hvalid sel n.
  destruct (assemble_run ctx unit_name all h Harm Hne Hvalid)
    as (clip_hosts & tr_hosts & A & h' & Hrun & _ & Hlen1 & Hlen2 & _ & _ & HL & _).
  fold sel in Hlen1, Hlen2, HL. fold n in Hlen1.
  exists A, h'. split; [exact Hrun |]. cbv zeta.
  pose proof (transitions_length ctx) as Hcount. fold sel in Hcount. fold n in Hcount.
  assert (Hz1 : length (zip_with (clip_entry all) sel clip_hosts) = n)
    by (rewrite length_zip_with; lia).
  assert (Hz2 : length (zip_with transition_entry (transitions sel) tr_hosts)
                = (n * (n - 1))%nat)
    by (rewrite length_zip_with; lia).
  assert (Hhelpers : length (animation_helpers (locals A)) = (1 + n + n * (n - 1))%nat).
  { rewrite HL. cbn [locals_of animation_helpers].
    rewrite spec_layout_length, length_map. cbn [length].
    rewrite length_app, Hz1, Hz2. lia. }
  split; [exact Hcount |].
  split; [intros src dst; apply transitions_in |].
  split; [apply transitions_NoDup |].
  split; [exact Hhelpers |].
  assert (Hrecords :
    map record_frames (drop (1 + n) (animation_helpers (locals A))) =
    map e_count (zip_with transition_entry (transitions sel) tr_hosts)).
  { rewrite <- map_drop, HL, locals_of_record_frames.
    apply drop_entries. exact Hz1. }
  split.
  { rewrite <- map_drop, HL, locals_of_names.
    rewrite (drop_entries e_name _ _ _ n Hz1).
    apply map_zip_with_l; [reflexivity | exact Hlen2]. }
  split.
  { apply Forall_forall. intros r Hr.
    assert (Hin : In (record_frames r)
              (map record_frames (drop (1 + n) (animation_helpers (locals A)))))
      by (apply in_map, list_elem_of_In; exact Hr).
    rewrite Hrecords in Hin. apply in_map_iff in Hin as (e & <- & He).
    apply list_elem_of_In, elem_of_lookup_zip_with in He
      as (i & p & hx & -> & _ & _). reflexivity. }
  split.
  { rewrite HL. cbn [locals_of frame_counts].
    rewrite (drop_entries e_count _ _ _ n Hz1).
    apply Forall_forall. intros c Hc.
    apply list_elem_of_In, in_map_iff in Hc as (e & <- & He).
    apply list_elem_of_In, elem_of_lookup_zip_with in He
      as (i & p & hx & -> & _ & _). reflexivity. }
  split.
  { rewrite HL. cbn [locals_of all_matrix_data].
    rewrite (drop_entries (e_chunk (pose_bones ctx)) _ _ _ n Hz1).
    apply Forall_forall. intros c Hc.
    apply list_elem_of_In, in_map_iff in Hc as (e & <- & He).
    apply list_elem_of_In, elem_of_lookup_zip_with in He
      as (i & p & hx & -> & _ & _).
    unfold e_chunk. rewrite spec_pack_length. reflexivity. }
  intros Hn. rewrite Hcount, Hhelpers, Hn. split; reflexivity.
Qed.

(** ** C3: the records partition the buffer *)

(** C3. In every multi-export the inclusive index ranges of the Clip
    Records partition the combined buffer with no gap and no overlap, in
    creation order (rest pose, main clips in selection order, transitions
    in generation order): the first record starts at 0, each record ends
    just before the next one starts, and the descriptor's totalFrames is
    the sum of (end_index - start_index + 1) over the records. *)
Theorem C3_records_partition (ctx : BlenderContext) (unit_name : string)
    (all : bool) (h : Host) :
  is_armature ctx ->
  animations_to_export ctx <> [] ->
  Forall (valid_clip all) (animations_to_export ctx) ->
  let sel := animations_to_export ctx in
  exists A h',
    assemble ctx unit_name all h = (Ok A, h') /\
    let L := locals A in
    let rs := animation_helpers L in
    (exists r0, head rs = Some r0 /\ start_idx r0 = 0) /\
    (forall i r r',
       rs !! i = Some r -> rs !! S i = Some r' -> end_idx r + 1 = start_idx r') /\
    Forall (fun r => start_idx r <= end_idx r) rs /\
    (exists r1, last rs = Some r1 /\ end_idx r1 = total_frames L - 1) /\
    total_frames L = sum_record_frames rs /\
    totalFrames (descriptor ctx unit_name L) = sum_record_frames rs /\
    map clip_name rs =
      (unit_name +:+ "Rest") ::
      map (fun s => action_name (sel_action s)) sel ++
      map (fun p => transition_name (fst p) (snd p)) (transitions sel) /\
    map (fun chunk => Z.of_nat (length chunk)) (all_matrix_data L) =
      map (fun r => record_frames r * Z.of_nat (length (pose_bones ctx)) * 16) rs /\
    combined_data A = concat (all_matrix_data L) /\
    Z.of_nat (length (combined_data A)) =
      total_frames L * Z.of_nat (length (pose_bones ctx)) * 16.
Proof.
  intros Harm Hne Hvalid sel.
  destruct (assemble_run ctx unit_name all h Harm Hne Hvalid)
    as (clip_hosts & tr_hosts & A & h' & Hrun & _ & Hlen1 & Hlen2 & _ & _ & HL
        & Hdata & _).
  fold sel in Hlen1, Hlen2, HL.
  exists A, h'. split; [exact Hrun |]. cbv zeta.
  rewrite Hdata, HL.
  set (es := rest_entry ctx unit_name h ::
             zip_with (clip_entry all) sel clip_hosts ++
             zip_with transition_entry (transitions sel) tr_hosts).
  assert (Hcounts : Forall (fun c : string * Z => 1 <= snd c)
                           (map (fun e => (e_name e, e_count e)) es)).
  { apply Forall_forall. intros c Hc.
    apply list_elem_of_In, in_map_iff in Hc as (e & <- & He). simpl.
    destruct He as [<-|He]; [reflexivity |].
    apply in_app_or in He as [He|He].
    - apply list_elem_of_In, elem_of_lookup_zip_with in He
        as (i & s & hx & -> & Hs & _).
      unfold e_count. simpl.
      assert (Hv : valid_clip all s).
      { eapply Forall_forall in Hvalid; [exact Hvalid |].
        eapply list_elem_of_lookup_2. exact Hs. }
      pose proof (clip_frames_nonempty all s Hv). lia.
    - apply list_elem_of_In, elem_of_lookup_zip_with in He
        as (i & p & hx & -> & _ & _). unfold e_count. simpl. lia. }
  split.
  { eexists. split; [reflexivity | reflexivity]. }
  split; [intros i r r'; apply spec_layout_adjacent |].
  split; [apply spec_layout_ordered; exact Hcounts |].
  split.
  { destruct (last (animation_helpers (locals_of (pose_bones ctx) es))) as [r1|] eqn:E.
    - exists r1. split; [reflexivity |].
      apply spec_layout_last in E. rewrite E. simpl. lia.
    - apply last_None in E. discriminate. }
  split; [apply locals_of_total |].
  split; [apply locals_of_total |].
  split.
  { rewrite locals_of_names. subst es. cbn [map]. rewrite map_app. f_equal. f_equal.
    - apply map_zip_with_l; [reflexivity | exact Hlen1].
    - apply map_zip_with_l; [reflexivity | exact Hlen2]. }
  split; [apply locals_of_chunks |].
  split; [reflexivity |].
  apply locals_of_payload.
Qed.
End RegistryClaims.

Section FailureClaims.
Context `{PoseSource}.

(** ** C8: the range check *)

(** C8. The export of a clip fails with the range error ("Start frame
    cannot be after end frame"), reports the failure and writes nothing,
    exactly when the clip's start frame is greater than its end frame.
    This holds for one iteration of the main-clip loop, for the whole
    multi-export (with an armature selected and usable steps) and for the
    single export (with an armature, a usable name and a range); a
    transition always gets the range (1, 10), whose start is not after its
    end, and its synthesis never fails. *)
Theorem C8_invalid_range (ctx : BlenderContext) (unit_name : string)
    (export_method : ExportMethod) (property_name : string) (all : bool) :
  (forall bones s L hx,
     (exists h', export_clip bones all s L hx
                 = (Raise (invalid_range (sel_action s)), h'))
     <-> reversed s) /\
  (forall p L hx,
     exists L' h',
       export_transition ctx p L hx = (Ok L', h') /\
       animation_ranges L' = animation_ranges L ++ [(1, 10)]) /\
  (forall h,
     is_armature ctx ->
     Forall (usable_step all) (animations_to_export ctx) ->
     ((exists bad, In bad (animations_to_export ctx) /\ reversed bad) <->
      (exists a h',
         export_multiple_animations ctx unit_name export_method property_name all h
         = (CANCELLED, h') /\
         messages h' = messages h ++ [(true, msg_failed (invalid_range a))])) /\
     (forall a h',
        export_multiple_animations ctx unit_name export_method property_name all h
        = (CANCELLED, h') ->
        messages h' = messages h ++ [(true, msg_failed (invalid_range a))] ->
        files h' = files h /\ id_properties h' = id_properties h)) /\
  (forall h animation_name use_custom_name start_frame end_frame frame_step
          use_full name s e,
     is_armature ctx ->
     single_name h animation_name use_custom_name = Some name ->
     single_range ctx h start_frame end_frame use_full = Some (s, e) ->
     ((exists h',
         export_animation_frames_raw ctx animation_name use_custom_name
           start_frame end_frame frame_step all use_full export_method
           property_name h = (CANCELLED, h') /\
         messages h' = messages h ++ [(true, msg_failed single_range_error)])
      <-> e < s) /\
     (e < s ->
      export_animation_frames_raw ctx animation_name use_custom_name
        start_frame end_frame frame_step all use_full export_method
        property_name h
      = (CANCELLED, show_message true (msg_failed single_range_error) h))).
Proof.
  split; [|split; [|split]].
  - intros bones s L hx. split.
    + intros (h' & Hrun). rewrite export_clip_run in Hrun. cbv zeta in Hrun.
      unfold reversed.
      destruct (Z.gtb_spec (fst (clip_range (sel_item s) (sel_action s)))
                           (snd (clip_range (sel_item s) (sel_action s))));
        [lia |].
      exfalso.
      destruct (frames_to_export _ _ _ _) as [frames|x] eqn:E; [discriminate |].
      apply frames_to_export_errors in E.
      inversion Hrun as [[Hx Hh]]. destruct E; subst x; discriminate.
    + intros Hrev. eexists. apply export_clip_invalid. exact Hrev.
  - intros [src dst] L hx.
    destruct (export_transition_run ctx src dst L hx) as (hb & _ & _ & Hrun).
    eexists _, _. split; [exact Hrun | reflexivity].
  - intros h Harm Hsteps.
    pose proof (export_multiple_outcome ctx unit_name export_method property_name
                  all h Harm Hsteps) as Hout.
    split; [split |].
    + intros (bad & Hin & Hrev).
      inversion Hout as [Hsel Hres | good bad0 rest h1 Hsel Hgood Hbad Hs Hres
                        | h1 Hvalid Hs Hres | msg h1 Hvalid Hres].
      * rewrite Hsel in Hin. destruct Hin.
      * exists (sel_action bad0), (show_message true
                  (msg_failed (invalid_range (sel_action bad0))) h1).
        split; [reflexivity |].
        destruct Hs as (_ & _ & Ms). simpl. rewrite Ms. reflexivity.
      * exfalso. eapply valid_not_reversed; [|exact Hrev].
        eapply Forall_forall; [exact Hvalid | apply list_elem_of_In; exact Hin].
      * exfalso. eapply valid_not_reversed; [|exact Hrev].
        eapply Forall_forall; [exact Hvalid | apply list_elem_of_In; exact Hin].
    + intros (a & h' & Hrun & Hmsg). rewrite Hrun in Hout.
      inversion Hout as [Hsel Hres | good bad0 rest h1 Hsel Hgood Hbad Hs Hres
                        | h1 Hvalid Hs Hres | ]; subst h'.
      * simpl in Hmsg. apply app_inv_head in Hmsg. discriminate.
      * exists bad0. split; [|exact Hbad].
        rewrite Hsel. apply in_or_app. right. left. reflexivity.
      * destruct Hs as (_ & _ & Ms). simpl in Hmsg. rewrite Ms in Hmsg.
        apply app_inv_head in Hmsg. discriminate.
    + intros a h' Hrun Hmsg. rewrite Hrun in Hout.
      inversion Hout as [Hsel Hres | good bad0 rest h1 Hsel Hgood Hbad Hs Hres
                        | h1 Hvalid Hs Hres | ]; subst h'.
      * split; reflexivity.
      * destruct Hs as (F & P & _). split; assumption.
      * destruct Hs as (F & P & _). split; assumption.
  - intros h animation_name use_custom_name start_frame end_frame frame_step
           use_full name s e Harm Hname Hrange.
    unfold export_animation_frames_raw, run_export.
    rewrite (export_single_prefix ctx animation_name use_custom_name start_frame
               end_frame frame_step all use_full export_method property_name
               h name s e Harm Hname Hrange).
    split; [split |].
    + intros (h' & Hrun & Hmsg).
      destruct (Z_lt_dec e s) as [Hrev|Hle]; [exact Hrev | exfalso].
      pose proof (export_single_frames_run ctx name s e frame_step all
                    export_method property_name h ltac:(lia)) as Hcases.
      destruct (frames_to_export s e frame_step all) as [frames|x] eqn:E.
      * destruct Hcases as [(_ & _ & Hbody)|(h2 & Hbody & _)];
          rewrite Hbody in Hrun; [|discriminate].
        inversion Hrun; subst h'. simpl in Hmsg.
        pose proof (steady_after_frames frames h h (steady_refl h)) as (_ & _ & Ms).
        rewrite Ms in Hmsg. apply app_inv_head in Hmsg. discriminate.
      * rewrite Hcases in Hrun. inversion Hrun; subst h'. simpl in Hmsg.
        apply app_inv_head in Hmsg. apply frames_to_export_errors in E.
        destruct E; subst x; discriminate.
    + intros Hrev. rewrite export_single_frames_reversed by exact Hrev.
      eexists. split; reflexivity.
    + intros Hrev. rewrite export_single_frames_reversed by exact Hrev.
      reflexivity.
Qed.

(** ** C5: the adjacency map *)

(** C5 (amended). Every transition has a Clip Record, whether or not its
    name parses.  The adjacency map is keyed by the two parts into which a
    transition record's name splits on "_To_" once every occurrence of
    unit_name + "_" has been removed from it: a record whose name does not
    split into exactly two parts adds no entry, every entry comes from a
    record that splits into its two keys, and the entry under (a, b) holds
    the name of the last record that splits into (a, b).  When every
    transition name splits back into the names of its two clips, the map
    contains src -> {dst -> src_To_dst} for every included ordered pair of
    distinct clips. *)
Theorem C5_adjacency_map (ctx : BlenderContext) (unit_name : string) (all : bool)
    (h : Host) :
  is_armature ctx ->
  animations_to_export ctx <> [] ->
  Forall (valid_clip all) (animations_to_export ctx) ->
  let sel := animations_to_export ctx in
  exists A h',
    assemble ctx unit_name all h = (Ok A, h') /\
    let records := animation_helpers (locals A) in
    let trans_map := build_trans_map unit_name (transition_records records) in
    (forall src dst,
       In (src, dst) (transitions sel) ->
       exists r, In r (transition_records records) /\
                 clip_name r = transition_name src dst) /\
    (forall a b t,
       adjacency trans_map a b = Some t ->
       exists r, In r (transition_records records) /\ clip_name r = t /\
                 split_transition unit_name t = [a; b]) /\
    (forall a b,
       adjacency trans_map a b =
       clip_name <$>
         last (List.filter (fun r => bool_decide (parses_to unit_name a b r))
                           (transition_records records))) /\
    (forall r a b,
       In r (transition_records records) ->
       split_transition unit_name (clip_name r) = [a; b] ->
       exists t, adjacency trans_map a b = Some t /\
                 split_transition unit_name t = [a; b]) /\
    ((forall s d,
        In (s, d) (transitions sel) ->
        split_transition unit_name (transition_name s d) =
        [action_name (sel_action s); action_name (sel_action d)]) ->
     forall src dst,
       In (src, dst) (transitions sel) ->
       adjacency trans_map (action_name (sel_action src)) (action_name (sel_action dst))
       = Some (transition_name src dst)).
Proof.
  intros Harm Hne Hvalid sel.
  destruct (assemble_run ctx unit_name all h Harm Hne Hvalid)
    as (clip_hosts & tr_hosts & A & h' & Hrun & _ & Hlen1 & Hlen2 & _ & _ & HL & _).
  fold sel in Hlen1, Hlen2, HL.
  exists A, h'. split; [exact Hrun |]. cbv zeta.
  (* the records: rest and main clips, then the transitions *)
  set (es1 := rest_entry ctx unit_name h :: zip_with (clip_entry all) sel clip_hosts).
  set (es2 := zip_with transition_entry (transitions sel) tr_hosts).
  set (named := fun e : Entry => (e_name e, e_count e)).
  set (R1 := spec_layout 0 (map named es1)).
  set (R2 := spec_layout (0 + sum_counts (map named es1)) (map named es2)).
  assert (Hrecords : animation_helpers (locals A) = R1 ++ R2).
  { rewrite HL. cbn [locals_of animation_helpers].
    change (rest_entry ctx unit_name h ::
            zip_with (clip_entry all) sel clip_hosts ++
            zip_with transition_entry (transitions sel) tr_hosts)
      with (es1 ++ es2).
    rewrite map_app. apply spec_layout_app. }
  assert (Hnames2 : map clip_name R2 =
                    map (fun p => transition_name (fst p) (snd p)) (transitions sel)).
  { unfold R2. rewrite spec_layout_names, map_map. simpl.
    apply map_zip_with_l; [reflexivity | exact Hlen2]. }
  assert (Hfrom2 : forall r, In r R2 ->
            exists s d, In (s, d) (transitions sel) /\
                        clip_name r = transition_name s d).
  { intros r Hr. apply (in_map clip_name) in Hr. rewrite Hnames2 in Hr.
    apply in_map_iff in Hr as ([s d] & Hn & Hin). exists s, d. split; auto. }
  assert (Hto2 : forall s d, In (s, d) (transitions sel) ->
            exists r, In r R2 /\ clip_name r = transition_name s d).
  { intros s d Hin.
    assert (Hn : In (transition_name s d) (map clip_name R2)).
    { rewrite Hnames2. apply in_map_iff. exists (s, d). split; auto. }
    apply in_map_iff in Hn as (r & Hr & Hin'). exists r. split; auto. }
  assert (Hfilter2 : List.filter is_transition_record R2 = R2).
  { apply forallb_filter_id. apply forallb_forall. intros r Hr.
    destruct (Hfrom2 r Hr) as (s & d & _ & Hn).
    unfold is_transition_record. rewrite Hn. apply contains_separator. }
  assert (Htrs : transition_records (animation_helpers (locals A)) =
                 List.filter is_transition_record R1 ++ R2).
  { unfold transition_records. rewrite Hrecords, List.filter_app, Hfilter2.
    reflexivity. }
  assert (Hlookup : forall a b,
    adjacency (build_trans_map unit_name
                 (transition_records (animation_helpers (locals A)))) a b =
    clip_name <$>
      last (List.filter (fun r => bool_decide (parses_to unit_name a b r))
                        (transition_records (animation_helpers (locals A)))))
    by (intros; apply adjacency_build).
  assert (Hlast_in : forall (l : list ClipRecord) r, last l = Some r -> In r l).
  { intros l r Hl. apply last_Some in Hl as [l' ->].
    apply in_or_app. right. left. reflexivity. }
  split; [|split; [|split; [|split]]].
  - intros src dst Hin. destruct (Hto2 src dst Hin) as (r & Hr & Hn).
    exists r. split; [|exact Hn]. rewrite Htrs. apply in_or_app. right. exact Hr.
  - intros a b t Ht. rewrite Hlookup in Ht.
    destruct (last _) as [r|] eqn:El; [|discriminate].
    inversion Ht; subst t. apply Hlast_in, filter_In in El as [Hr Hp].
    apply bool_decide_eq_true in Hp. exists r. repeat split; assumption.
  - exact Hlookup.
  - intros r a b Hr Hsplit. rewrite Hlookup.
    destruct (last _) as [r'|] eqn:El.
    + apply Hlast_in, filter_In in El as [_ Hp]. apply bool_decide_eq_true in Hp.
      exists (clip_name r'). split; [reflexivity | exact Hp].
    + exfalso. apply last_None in El.
      assert (Hin : In r (List.filter
                    (fun r => bool_decide (parses_to unit_name a b r))
                    (transition_records (animation_helpers (locals A))))).
      { apply filter_In. split; [exact Hr |].
        apply bool_decide_eq_true. exact Hsplit. }
      rewrite El in Hin. destruct Hin.
  - intros Hback src dst Hin. rewrite Hlookup, Htrs, List.filter_app, last_app.
    destruct (Hto2 src dst Hin) as (r & Hr & Hn).
    destruct (last (List.filter _ R2)) as [r'|] eqn:El.
    + apply Hlast_in, filter_In in El as [Hr' Hp]. apply bool_decide_eq_true in Hp.
      destruct (Hfrom2 r' Hr') as (s & d & Hsd & Hn').
      unfold parses_to in Hp. rewrite Hn', (Hback s d Hsd) in Hp.
      inversion Hp as [[Hs Hd]]. simpl. f_equal.
      rewrite Hn'. unfold transition_name. rewrite Hs, Hd. reflexivity.
    + exfalso. apply last_None in El.
      assert (Hin' : In r (List.filter
                     (fun r => bool_decide
                        (parses_to unit_name (action_name (sel_action src))
                                   (action_name (sel_action dst)) r)) R2)).
      { apply filter_In. split; [exact Hr |].
        apply bool_decide_eq_true. unfold parses_to.
        rewrite Hn. apply Hback. exact Hin. }
      rewrite El in Hin'. destruct Hin'.
Qed.
End FailureClaims.

(** * The claims at a concrete host *)

#[local] Existing Instance Fixture.ZNumerics.
#[local] Existing Instance Fixture.ZPose.

(** The clips of a concrete selection are valid. *)
Ltac clips_ok :=
  match goal with
  | |- Forall ?P ?l => let l' := eval vm_compute in l in change (Forall P l')
  end;
  repeat first
    [ apply List.Forall_nil
    | apply List.Forall_cons;
      [ split;
        [ vm_compute; intros E; discriminate E
        | first [ left; reflexivity | right; vm_compute; intros E; discriminate E ] ]
      | ] ].

(** The steps of a concrete selection are usable. *)
Ltac steps_ok :=
  match goal with
  | |- Forall ?P ?l => let l' := eval vm_compute in l in change (Forall P l')
  end;
  repeat first
    [ apply List.Forall_nil
    | apply List.Forall_cons;
      [ first [ left; reflexivity | right; vm_compute; intros E; discriminate E ] | ] ].

(** ** C4: what a failed run leaves behind *)

(** C4. A multi-export whose only clip has start frame 5 and end frame 3
    is cancelled after the rest pose was sampled at frame 1 and the clip's
    action was made active.  The host it returns is still at frame 1, not at
    the original frame 7, and its active action is the clip's action Walk,
    not the original action Idle: the failing run restores neither. *)
Theorem C4_failure_restores_nothing :
  fst (export_multiple_animations Fixture.reversed_walk "unit" BIN
         "animation_matrices" false Fixture.host0) = CANCELLED /\
  messages (snd (export_multiple_animations Fixture.reversed_walk "unit" BIN
                   "animation_matrices" false Fixture.host0))
    = [(true, msg_failed (invalid_range Fixture.Walk))] /\
  frame_current Fixture.host0 = 7 /\
  frame_current (snd (export_multiple_animations Fixture.reversed_walk "unit" BIN
                        "animation_matrices" false Fixture.host0)) = 1 /\
  current_action Fixture.host0 = Some (DataAction Fixture.Idle) /\
  current_action (snd (export_multiple_animations Fixture.reversed_walk "unit" BIN
                         "animation_matrices" false Fixture.host0))
    = Some (DataAction Fixture.Walk).
Proof.
  vm_compute. repeat split.
Qed.

(** The single export behaves alike when the output cannot be written: the
    sampling has moved the current frame to the last exported frame and the
    handler leaves it there. *)
Example single_export_failure_keeps_frame :
  fst (export_animation_frames_raw Fixture.unsaved "clip" true (Some 1) (Some 3) 1
         false false BIN "animation_matrices" Fixture.host0) = CANCELLED /\
  messages (snd (export_animation_frames_raw Fixture.unsaved "clip" true (Some 1)
                   (Some 3) 1 false false BIN "animation_matrices" Fixture.host0))
    = [(true, msg_failed unsaved_error)] /\
  frame_current (snd (export_animation_frames_raw Fixture.unsaved "clip" true (Some 1)
                        (Some 3) 1 false false BIN "animation_matrices" Fixture.host0))
    = 3.
Proof.
  vm_compute. repeat split.
Qed.

(** A run that succeeds restores the frame, and the action that was active
    when the main clips were done (line 306), which is the last main clip's
    action and not the action that was active at the start. *)
Example success_restores_last_clip_action :
  fst (export_multiple_animations Fixture.walk_run "unit" BIN "animation_matrices"
         false Fixture.host0) = FINISHED /\
  frame_current (snd (export_multiple_animations Fixture.walk_run "unit" BIN
                        "animation_matrices" false Fixture.host0)) = 7 /\
  current_action (snd (export_multiple_animations Fixture.walk_run "unit" BIN
                         "animation_matrices" false Fixture.host0))
    = Some (DataAction Fixture.Run).
Proof.
  vm_compute. repeat split.
Qed.

(** ** C5: a transition that parses to other keys *)

(** C5, counterexample. The unit is "u" and the two included clips are
    named "u_A" and "A".  The transition from "u_A" to "A" is named
    "u_A_To_A"; it has a Clip Record, and its name splits into exactly two
    parts once "u_" is removed, namely "A" and "A".  Yet no entry of the
    adjacency map holds this transition: in particular there is none under
    source "u_A" and destination "A". *)
Lemma C5_counterexample :
  exists records,
    assembled_records Fixture.prefixed_names "u" false Fixture.host0 = Some records /\
    map (fun p => transition_name (fst p) (snd p))
        (transitions (animations_to_export Fixture.prefixed_names))
      = ["u_A_To_A"; "A_To_u_A"] /\
    In "u_A_To_A" (map clip_name records) /\
    split_transition "u" "u_A_To_A" = ["A"; "A"] /\
    build_trans_map "u" (transition_records records) = [("A", [("A", "A_To_u_A")])] /\
    adjacency (build_trans_map "u" (transition_records records)) "u_A" "A" = None /\
    (forall src dst,
       adjacency (build_trans_map "u" (transition_records records)) src dst
       <> Some "u_A_To_A").
Proof.
  exists [ {| clip_name := "uRest"; start_idx := 0; end_idx := 0 |};
           {| clip_name := "u_A"; start_idx := 1; end_idx := 2 |};
           {| clip_name := "A"; start_idx := 3; end_idx := 4 |};
           {| clip_name := "u_A_To_A"; start_idx := 5; end_idx := 14 |};
           {| clip_name := "A_To_u_A"; start_idx := 15; end_idx := 24 |} ].
  split; [vm_compute; reflexivity |].
  split; [vm_compute; reflexivity |].
  split; [simpl; tauto |].
  split; [vm_compute; reflexivity |].
  assert (Hmap : build_trans_map "u" (transition_records
            [ {| clip_name := "uRest"; start_idx := 0; end_idx := 0 |};
              {| clip_name := "u_A"; start_idx := 1; end_idx := 2 |};
              {| clip_name := "A"; start_idx := 3; end_idx := 4 |};
              {| clip_name := "u_A_To_A"; start_idx := 5; end_idx := 14 |};
              {| clip_name := "A_To_u_A"; start_idx := 15; end_idx := 24 |} ])
          = [("A", [("A", "A_To_u_A")])])
    by (vm_compute; reflexivity).
  rewrite Hmap.
  split; [reflexivity |].
  split; [reflexivity |].
  intros src dst. unfold adjacency. cbn [dict_get].
  destruct (String.eqb src "A"); cbn [dict_get]; [|discriminate].
  destruct (String.eqb dst "A"); discriminate.
Qed.

(** ** The claims instantiated *)

Lemma C2_transitions_witness :
  is_armature Fixture.walk_run /\
  animations_to_export Fixture.walk_run <> [] /\
  Forall (valid_clip false) (animations_to_export Fixture.walk_run) /\
  exists A h',
    assemble Fixture.walk_run "unit" false Fixture.host0 = (Ok A, h') /\
    length (transitions (animations_to_export Fixture.walk_run)) = 2%nat /\
    length (animation_helpers (locals A)) = 5%nat.
Proof.
  assert (Harm : is_armature Fixture.walk_run) by reflexivity.
  assert (Hne : animations_to_export Fixture.walk_run <> [])
    by (vm_compute; intros E; discriminate E).
  assert (Hvalid : Forall (valid_clip false) (animations_to_export Fixture.walk_run))
    by clips_ok.
  split; [exact Harm |]. split; [exact Hne |]. split; [exact Hvalid |].
  destruct (C2_transitions Fixture.walk_run "unit" false Fixture.host0 Harm Hne Hvalid)
    as (A & h' & Hrun & _ & _ & _ & _ & _ & _ & _ & _ & Htwo).
  exists A, h'. split; [exact Hrun |]. apply Htwo. reflexivity.
Defined.

Lemma C3_records_partition_witness :
  is_armature Fixture.stepped_walk_run /\
  animations_to_export Fixture.stepped_walk_run <> [] /\
  Forall (valid_clip false) (animations_to_export Fixture.stepped_walk_run) /\
  exists A h',
    assemble Fixture.stepped_walk_run "unit" false Fixture.host0 = (Ok A, h') /\
    (forall i r r',
       animation_helpers (locals A) !! i = Some r ->
       animation_helpers (locals A) !! S i = Some r' ->
       end_idx r + 1 = start_idx r') /\
    total_frames (locals A) = sum_record_frames (animation_helpers (locals A)) /\
    map clip_name (animation_helpers (locals A)) =
      ["unitRest"; "Walk"; "Run"; "Walk_To_Run"; "Run_To_Walk"].
Proof.
  assert (Harm : is_armature Fixture.stepped_walk_run) by reflexivity.
  assert (Hne : animations_to_export Fixture.stepped_walk_run <> [])
    by (vm_compute; intros E; discriminate E).
  assert (Hvalid : Forall (valid_clip false)
                           (animations_to_export Fixture.stepped_walk_run))
    by clips_ok.
  split; [exact Harm |]. split; [exact Hne |]. split; [exact Hvalid |].
  destruct (C3_records_partition Fixture.stepped_walk_run "unit" false Fixture.host0
              Harm Hne Hvalid)
    as (A & h' & Hrun & _ & Hadj & _ & _ & Htotal & _ & Hnames & _).
  exists A, h'. split; [exact Hrun |]. split; [exact Hadj |].
  split; [exact Htotal | exact Hnames].
Defined.

Lemma C5_adjacency_map_witness :
  is_armature Fixture.walk_run /\
  animations_to_export Fixture.walk_run <> [] /\
  Forall (valid_clip false) (animations_to_export Fixture.walk_run) /\
  exists A h',
    assemble Fixture.walk_run "unit" false Fixture.host0 = (Ok A, h') /\
    adjacency (build_trans_map "unit"
                 (transition_records (animation_helpers (locals A))))
              "Walk" "Run" = Some "Walk_To_Run" /\
    adjacency (build_trans_map "unit"
                 (transition_records (animation_helpers (locals A))))
              "Run" "Walk" = Some "Run_To_Walk".
Proof.
  assert (Harm : is_armature Fixture.walk_run) by reflexivity.
  assert (Hne : animations_to_export Fixture.walk_run <> [])
    by (vm_compute; intros E; discriminate E).
  assert (Hvalid : Forall (valid_clip false) (animations_to_export Fixture.walk_run))
    by clips_ok.
  split; [exact Harm |]. split; [exact Hne |]. split; [exact Hvalid |].
  destruct (C5_adjacency_map Fixture.walk_run "unit" false Fixture.host0 Harm Hne Hvalid)
    as (A & h' & Hrun & _ & _ & _ & _ & Hentries).
  exists A, h'. split; [exact Hrun |].
  assert (Hback : forall s d,
            In (s, d) (transitions (animations_to_export Fixture.walk_run)) ->
            split_transition "unit" (transition_name s d) =
            [action_name (sel_action s); action_name (sel_action d)]).
  { intros s d Hin. simpl in Hin.
    destruct Hin as [E|[E|[]]]; inversion E; subst; reflexivity. }
  split.
  - apply (Hentries Hback Fixture.walk_clip Fixture.run_clip).
    simpl. left. reflexivity.
  - apply (Hentries Hback Fixture.run_clip Fixture.walk_clip).
    simpl. right. left. reflexivity.
Defined.

Lemma C6_matrix_packer_witness :
  [1; 3] !! 1%nat = Some 3 /\
  Fixture.skeleton !! 1%nat = Some {| bone_name := "arm" |} /\
  (3 < 4)%nat /\ (0 < 4)%nat /\ host_frame 3 /\
  bake_frames Fixture.skeleton [1; 3] Fixture.host0 =
    (Ok (spec_pack Fixture.skeleton [1; 3] Fixture.host0),
     after_frames [1; 3] Fixture.host0) /\
  frame_current (sampling_host [1; 3] 1 Fixture.host0) = 3 /\
  spec_pack Fixture.skeleton [1; 3] Fixture.host0 !! 60%nat = Some 3.
Proof.
  destruct (C6_matrix_packer Fixture.skeleton [1; 3] Fixture.host0) as (Hrun & _ & Hat).
  split; [reflexivity |]. split; [reflexivity |].
  assert (Hf : host_frame 3) by (unfold host_frame, MAXFRAME; lia).
  split; [lia |]. split; [lia |]. split; [exact Hf |]. split; [exact Hrun |].
  destruct (Hat 1%nat 3 1%nat {| bone_name := "arm" |} 3%nat 0%nat
              eq_refl eq_refl ltac:(lia) ltac:(lia)) as (_ & Hframe & Hval).
  split; [exact (Hframe Hf) | exact Hval].
Defined.

Lemma C8_invalid_range_witness :
  is_armature Fixture.reversed_walk /\
  Forall (usable_step false) (animations_to_export Fixture.reversed_walk) /\
  exists a h',
    export_multiple_animations Fixture.reversed_walk "unit" BIN
      "animation_matrices" false Fixture.host0 = (CANCELLED, h') /\
    messages h' = messages Fixture.host0 ++ [(true, msg_failed (invalid_range a))].
Proof.
  assert (Harm : is_armature Fixture.reversed_walk) by reflexivity.
  assert (Hsteps : Forall (usable_step false)
                           (animations_to_export Fixture.reversed_walk))
    by steps_ok.
  split; [exact Harm |]. split; [exact Hsteps |].
  destruct (C8_invalid_range Fixture.reversed_walk "unit" BIN "animation_matrices" false)
    as (_ & _ & Hmulti & _).
  destruct (Hmulti Fixture.host0 Harm Hsteps) as [[Hfail _] _].
  apply Hfail.
  exists Fixture.reversed_clip.
  split; [simpl; left; reflexivity | vm_compute; reflexivity].
Defined.

Lemma C9_rest_pose_witness :
  is_armature Fixture.only_walk /\
  animations_to_export Fixture.only_walk <> [] /\
  Forall (valid_clip false) (animations_to_export Fixture.only_walk) /\
  exists A h',
    assemble Fixture.only_walk "unit" false Fixture.host0 = (Ok A, h') /\
    head (animation_helpers (locals A)) =
      Some {| clip_name := "unitRest"; start_idx := 0; end_idx := 0 |} /\
    head (animation_ranges (locals A)) = Some (1, 1).
Proof.
  assert (Harm : is_armature Fixture.only_walk) by reflexivity.
  assert (Hne : animations_to_export Fixture.only_walk <> [])
    by (vm_compute; intros E; discriminate E).
  assert (Hvalid : Forall (valid_clip false) (animations_to_export Fixture.only_walk))
    by clips_ok.
  split; [exact Harm |]. split; [exact Hne |]. split; [exact Hvalid |].
  destruct (C9_rest_pose Fixture.only_walk "unit" false Fixture.host0 Harm Hne Hvalid)
    as (A & h' & Hrun & Hhead & _ & _ & Hrange & _).
  exists A, h'. split; [exact Hrun |]. split; [exact Hhead | exact Hrange].
Defined.

(** * Further properties of the code *)

(** ** Python strings: [in], [replace] and [split] *)

Lemma append_cons (c : ascii) (s t : string) :
  String c s +:+ t = String c (s +:+ t).
Proof. reflexivity. Qed.

Lemma append_nil_r (s : string) : s +:+ "" = s.
Proof.
  induction s as [|c s IH]; [reflexivity |].
  rewrite append_cons, IH. reflexivity.
Qed.

Lemma append_assoc (s t u : string) : (s +:+ t) +:+ u = s +:+ (t +:+ u).
Proof.
  induction s as [|c s IH]; [reflexivity |].
  rewrite !append_cons, IH. reflexivity.
Qed.

Lemma prefix_nil (s : string) : String.prefix "" s = true.
Proof. destruct s; reflexivity. Qed.

Lemma prefix_append (a r : string) : String.prefix a (a +:+ r) = true.
Proof.
  induction a as [|c a IH]; [apply prefix_nil |].
  rewrite append_cons. simpl.
  destruct (ascii_dec c c); [exact IH | congruence].
Qed.

Lemma prefix_split (a b : string) :
  String.prefix a b = true -> exists r, b = a +:+ r.
Proof.
  revert b. induction a as [|c a IH]; intros b Hp.
  - exists b. reflexivity.
  - destruct b as [|d b]; simpl in Hp; [discriminate |].
    destruct (ascii_dec c d) as [->|]; [|discriminate].
    destruct (IH b Hp) as [r ->]. exists r. reflexivity.
Qed.

(** Whether [a] starts [x +:+ y] is settled by [x] when [x] is long
    enough. *)
Lemma prefix_long (a x y : string) :
  (String.length a <= String.length x)%nat ->
  String.prefix a (x +:+ y) = String.prefix a x.
Proof.
  revert x. induction a as [|c a IH]; intros x Hlen.
  - rewrite !prefix_nil. reflexivity.
  - destruct x as [|d x]; simpl in Hlen; [lia |].
    rewrite append_cons. simpl.
    destruct (ascii_dec c d); [apply IH; lia | reflexivity].
Qed.

Lemma contains_cons (sub : string) (c : ascii) (s : string) :
  py_contains sub (String c s) = false ->
  String.prefix sub (String c s) = false /\ py_contains sub s = false.
Proof.
  cbn [py_contains]. intros Hc. apply orb_false_elim in Hc. exact Hc.
Qed.

(** Skipping the rest of an occurrence. *)
Lemma split_go_skip (sep p cur s : string) :
  split_go sep (String.length p) cur (p +:+ s) = split_go sep 0 cur s.
Proof.
  induction p as [|c p IH]; [reflexivity |].
  rewrite append_cons. simpl. exact IH.
Qed.

Lemma split_go_no_occurrence (sep cur s : string) :
  py_contains sep s = false -> split_go sep 0 cur s = [cur +:+ s].
Proof.
  revert cur. induction s as [|c s IH]; intros cur Hc.
  - simpl. rewrite append_nil_r. reflexivity.
  - apply contains_cons in Hc as [Hp Hs]. cbn [split_go]. rewrite Hp.
    rewrite IH by exact Hs. rewrite append_assoc. reflexivity.
Qed.

(** At an occurrence of the separator the current piece is closed. *)
Lemma split_go_at_sep (sep cur b : string) :
  sep <> "" ->
  split_go sep 0 cur (sep +:+ b) = cur :: split_go sep 0 "" b.
Proof.
  intros Hsep. destruct sep as [|c0 t]; [congruence |].
  rewrite append_cons. cbn [split_go]. rewrite <- append_cons, prefix_append.
  cbn [String.length]. rewrite Nat.sub_succ, Nat.sub_0_r.
  rewrite split_go_skip. reflexivity.
Qed.

(** One occurrence of the separator, and none that starts before it or
    follows it: two pieces. *)
Lemma split_go_once (sep' : string) (c : ascii) (a b cur : string) :
  py_contains (sep' +:+ String c "") (a +:+ sep') = false ->
  py_contains (sep' +:+ String c "") b = false ->
  split_go (sep' +:+ String c "") 0 cur (a +:+ (sep' +:+ String c "") +:+ b)
  = [cur +:+ a; b].
Proof.
  intros Ha Hb. revert cur Ha. induction a as [|x a IH]; intros cur Ha.
  - rewrite append_nil_r. change ("" +:+ (sep' +:+ String c "") +:+ b)
      with ((sep' +:+ String c "") +:+ b).
    rewrite split_go_at_sep by (destruct sep'; discriminate).
    rewrite split_go_no_occurrence by exact Hb. reflexivity.
  - rewrite append_cons in Ha. apply contains_cons in Ha as [Hp Ha].
    rewrite append_cons. cbn [split_go].
    assert (Hp' : String.prefix (sep' +:+ String c "")
                    (String x (a +:+ (sep' +:+ String c "") +:+ b)) = false).
    { rewrite <- Hp.
      replace (String x (a +:+ (sep' +:+ String c "") +:+ b))
        with (String x (a +:+ sep') +:+ (String c "" +:+ b)).
      - apply prefix_long. cbn [String.length].
        rewrite !append_length. simpl. lia.
      - rewrite append_cons. f_equal. rewrite !append_assoc. reflexivity. }
    rewrite Hp'. rewrite IH by exact Ha.
    rewrite append_assoc. reflexivity.
Qed.

Lemma replace_go_no_occurrence (old s : string) :
  py_contains old s = false -> replace_go old 0 s = s.
Proof.
  induction s as [|c s IH]; intros Hc; [reflexivity |].
  apply contains_cons in Hc as [Hp Hs]. cbn [replace_go]. rewrite Hp.
  rewrite IH by exact Hs. reflexivity.
Qed.

Lemma split_go_nonempty (sep : string) (skip : nat) (cur s : string) :
  split_go sep skip cur s <> [].
Proof.
  revert skip cur. induction s as [|c s IH]; intros skip cur; [discriminate |].
  cbn [split_go]. destruct skip; [|apply IH].
  destruct (String.prefix sep (String c s)); [discriminate | apply IH].
Qed.

Lemma py_join_cons (sep x : string) (l : list string) :
  l <> [] -> py_join sep (x :: l) = x +:+ sep +:+ py_join sep l.
Proof. destruct l; [congruence | reflexivity]. Qed.

(** Joining the pieces with the separator gives the string back. *)
Lemma join_split_go (sep : string) :
  sep <> "" ->
  forall (n : nat) (s cur : string),
    (String.length s <= n)%nat ->
    py_join sep (split_go sep 0 cur s) = cur +:+ s.
Proof.
  intros Hsep. induction n as [|n IH]; intros s cur Hlen.
  - destruct s; [|simpl in Hlen; lia]. simpl. rewrite append_nil_r. reflexivity.
  - destruct s as [|c s]; [simpl; rewrite append_nil_r; reflexivity |].
    simpl in Hlen.
    destruct (String.prefix sep (String c s)) eqn:Hp.
    + apply prefix_split in Hp as [r Hr]. rewrite Hr.
      rewrite split_go_at_sep by exact Hsep.
      rewrite py_join_cons by apply split_go_nonempty.
      rewrite IH.
      * reflexivity.
      * apply (f_equal String.length) in Hr. rewrite append_length in Hr.
        simpl in Hr. destruct sep; [congruence |]. simpl in Hr. lia.
    + cbn [split_go]. rewrite Hp. rewrite IH by lia.
      rewrite append_assoc. reflexivity.
Qed.

Lemma join_split (sep s : string) :
  sep <> "" -> py_join sep (py_split sep s) = s.
Proof.
  intros Hsep. unfold py_split.
  rewrite (join_split_go sep Hsep (String.length s)) by lia. reflexivity.
Qed.

(** ** The sampler on every step *)

Lemma frames_to_export_zero_step (s e : Z) :
  frames_to_export s e 0 false = Raise ValueError.
Proof. reflexivity. Qed.

Lemma frames_to_export_negative_step (s e step : Z) :
  s <= e -> step < 0 -> frames_to_export s e step false = Raise IndexError.
Proof.
  intros Hse Hneg. unfold frames_to_export, py_range, range_len.
  destruct (Z.eqb_spec step 0); [lia |].
  destruct (Z.ltb_spec 0 step); [lia |].
  destruct (Z.ltb_spec (e + 1) s); [lia |].
  reflexivity.
Qed.

(** X1. For a range in order (start <= end) the sampler returns a sequence
    exactly when every frame is exported or the step is at least 1.  With a
    step of 0 it raises ValueError (range() refuses a zero step), with a
    negative step it raises IndexError (the range is empty and its last
    element is read), and it raises nothing else. *)
Theorem sampler_outcomes (start_frame end_frame frame_step : Z)
    (export_all_frames : bool) :
  start_frame <= end_frame ->
  ((exists frames,
      frames_to_export start_frame end_frame frame_step export_all_frames = Ok frames)
   <-> export_all_frames = true \/ 1 <= frame_step) /\
  (frames_to_export start_frame end_frame frame_step export_all_frames
     = Raise ValueError
   <-> export_all_frames = false /\ frame_step = 0) /\
  (frames_to_export start_frame end_frame frame_step export_all_frames
     = Raise IndexError
   <-> export_all_frames = false /\ frame_step < 0) /\
  (forall msg,
     frames_to_export start_frame end_frame frame_step export_all_frames
     <> Raise (Exception msg)) /\
  frames_to_export start_frame end_frame frame_step export_all_frames
    <> Raise AttributeError.
Proof.
  intros Hse.
  destruct export_all_frames.
  - rewrite frames_to_export_all.
    split; [split; [auto | eauto] |].
    split; [split; [discriminate | intros [E _]; discriminate] |].
    split; [split; [discriminate | intros [E _]; discriminate] |].
    split; [intros msg |]; discriminate.
  - destruct (Z_lt_dec frame_step 0) as [Hneg|Hnn].
    + rewrite (frames_to_export_negative_step _ _ _ Hse Hneg).
      split; [split; [intros [? ?]; discriminate | intros [|]; [discriminate | lia]] |].
      split; [split; [discriminate | intros [_ ?]; lia] |].
      split; [split; [auto | reflexivity] |].
      split; [intros msg |]; discriminate.
    + destruct (Z.eq_dec frame_step 0) as [->|Hnz].
      * rewrite frames_to_export_zero_step.
        split; [split; [intros [? ?]; discriminate | intros [|]; [discriminate | lia]] |].
        split; [split; [auto | reflexivity] |].
        split; [split; [discriminate | intros [_ ?]; lia] |].
        split; [intros msg |]; discriminate.
      * rewrite (frames_to_export_stepped start_frame end_frame frame_step Hse)
          by lia.
        split; [split; [intros _; right; lia | eauto] |].
        split; [split; [discriminate | intros [_ ?]; lia] |].
        split; [split; [discriminate | intros [_ ?]; lia] |].
        split; [intros msg |]; discriminate.
Qed.

Lemma sampler_outcomes_witness :
  1 <= 5 /\
  frames_to_export 1 5 0 false = Raise ValueError /\
  frames_to_export 1 5 (-2) false = Raise IndexError /\
  exists frames, frames_to_export 1 5 2 false = Ok frames.
Proof.
  assert (Hle : 1 <= 5) by lia.
  split; [exact Hle |].
  split.
  { destruct (sampler_outcomes 1 5 0 false Hle) as (_ & [_ Hzero] & _).
    apply Hzero. split; reflexivity. }
  split.
  { destruct (sampler_outcomes 1 5 (-2) false Hle) as (_ & _ & [_ Hneg] & _).
    apply Hneg. split; [reflexivity | lia]. }
  destruct (sampler_outcomes 1 5 2 false Hle) as ([_ Hok] & _).
  apply Hok. right. lia.
Defined.

(** ** Transition names and what the adjacency code reads from them *)

(** X2. A transition is named src + "_To_" + dst (line 311) and read back
    by removing unit_name + "_" and splitting on "_To_" (line 445).  The two
    names come back when the transition name holds no unit_name + "_", no
    "_To_" starts inside src (not even one that ends in the separator),
    and dst holds no "_To_". *)
Theorem transition_name_parses (unit_name : string) (src dst : Selected) :
  py_contains (unit_name +:+ "_") (transition_name src dst) = false ->
  py_contains "_To_" (action_name (sel_action src) +:+ "_To") = false ->
  py_contains "_To_" (action_name (sel_action dst)) = false ->
  split_transition unit_name (transition_name src dst) =
    [action_name (sel_action src); action_name (sel_action dst)].
Proof.
  intros Hunit Hsrc Hdst. unfold split_transition, py_remove, py_split.
  rewrite replace_go_no_occurrence by exact Hunit.
  unfold transition_name.
  exact (split_go_once "_To" "_" (action_name (sel_action src))
           (action_name (sel_action dst)) "" Hsrc Hdst).
Qed.

Lemma transition_name_parses_witness :
  py_contains ("unit" +:+ "_")
    (transition_name Fixture.walk_clip Fixture.run_clip) = false /\
  py_contains "_To_" (action_name (sel_action Fixture.walk_clip) +:+ "_To") = false /\
  py_contains "_To_" (action_name (sel_action Fixture.run_clip)) = false /\
  split_transition "unit" (transition_name Fixture.walk_clip Fixture.run_clip)
    = ["Walk"; "Run"].
Proof.
  assert (H1 : py_contains ("unit" +:+ "_")
                 (transition_name Fixture.walk_clip Fixture.run_clip) = false)
    by reflexivity.
  assert (H2 : py_contains "_To_"
                 (action_name (sel_action Fixture.walk_clip) +:+ "_To") = false)
    by reflexivity.
  assert (H3 : py_contains "_To_" (action_name (sel_action Fixture.run_clip)) = false)
    by reflexivity.
  split; [exact H1 |]. split; [exact H2 |]. split; [exact H3 |].
  exact (transition_name_parses "unit" Fixture.walk_clip Fixture.run_clip H1 H2 H3).
Defined.

(** ** The host through a multi-export *)

Section ExportFacts.
Context `{PoseSource}.

(** Run the first command of a chain when it is made of plain host calls. *)
Ltac run_calls :=
  match goal with
  | |- context [bind ?m ?k ?hx] =>
      let r := eval cbv [bind perform write_file set_property del_property
                         frame_set mode_set modify ret get lift raise] in (m hx) in
      lazymatch r with
      | (Ok ?a, ?h') => rewrite (bind_run m k hx a h' eq_refl)
      | (Raise ?e, ?h') => rewrite (bind_fail m k hx e h' eq_refl)
      end
  end.

Lemma after_frames_last (frames : list Z) (h : Host) (f : Z) :
  last frames = Some f -> frame_current (after_frames frames h) = f.
Proof.
  intros Hl. apply last_Some in Hl as [l ->].
  unfold after_frames. rewrite foldl_app. reflexivity.
Qed.

Lemma mode_after_frames (frames : list Z) (h : Host) :
  mode (after_frames frames h) = mode h.
Proof.
  revert h. unfold after_frames.
  induction frames as [|f frames IH]; intros h; simpl; [reflexivity |].
  rewrite IH. reflexivity.
Qed.

Lemma new_actions_after_frames (frames : list Z) (h : Host) :
  new_actions (after_frames frames h) = new_actions h.
Proof.
  revert h. unfold after_frames.
  induction frames as [|f frames IH]; intros h; simpl; [reflexivity |].
  rewrite IH. reflexivity.
Qed.

Lemma mode_ensured (h : Host) : mode (ensured h) = mode h.
Proof. unfold ensured. destruct (animation_data h); reflexivity. Qed.

Lemma new_actions_ensured (h : Host) : new_actions (ensured h) = new_actions h.
Proof. unfold ensured. destruct (animation_data h); reflexivity. Qed.

Lemma frame_ensured (h : Host) : frame_current (ensured h) = frame_current h.
Proof. unfold ensured. destruct (animation_data h); reflexivity. Qed.

Lemma mode_activate (a : ActionRef) (h : Host) : mode (activate a h) = mode h.
Proof. apply mode_ensured. Qed.

Lemma new_actions_activate (a : ActionRef) (h : Host) :
  new_actions (activate a h) = new_actions h.
Proof. apply new_actions_ensured. Qed.

(** *** Main clips *)

Lemma after_clips_snoc (all : bool) (sel : list Selected) (s : Selected) (h : Host) :
  after_clips all (sel ++ [s]) h = after_clip all s (after_clips all sel h).
Proof. unfold after_clips. rewrite foldl_app. reflexivity. Qed.

Lemma steady_after_clips (all : bool) (sel : list Selected) (h : Host) :
  steady h (after_clips all sel h).
Proof.
  induction sel as [|s sel IH] using rev_ind; [apply steady_refl |].
  rewrite after_clips_snoc.
  apply steady_after_frames, steady_activate. exact IH.
Qed.

Lemma mode_after_clips (all : bool) (sel : list Selected) (h : Host) :
  mode (after_clips all sel h) = mode h.
Proof.
  induction sel as [|s sel IH] using rev_ind; [reflexivity |].
  rewrite after_clips_snoc. unfold after_clip.
  rewrite mode_after_frames, mode_activate. exact IH.
Qed.

Lemma new_actions_after_clips (all : bool) (sel : list Selected) (h : Host) :
  new_actions (after_clips all sel h) = new_actions h.
Proof.
  induction sel as [|s sel IH] using rev_ind; [reflexivity |].
  rewrite after_clips_snoc. unfold after_clip.
  rewrite new_actions_after_frames, new_actions_activate. exact IH.
Qed.

(** After the main clips the last clip's action is active and the scene
    is at the last clip's end frame. *)
Lemma after_clips_last (all : bool) (sel : list Selected) (s : Selected) (h : Host) :
  last sel = Some s ->
  animation_data (after_clips all sel h) = Some (Some (DataAction (sel_action s))) /\
  (valid_clip all s ->
   frame_current (after_clips all sel h) = snd (clip_range (sel_item s) (sel_action s))).
Proof.
  intros Hl. apply last_Some in Hl as [l ->].
  rewrite after_clips_snoc. unfold after_clip. split.
  - apply animation_data_after_frames.
  - intros [Hle Hstep].
    destruct (sampler_ends _ _ _ _ Hle Hstep) as (frames & Hf & Hlast).
    unfold clip_frames. rewrite Hf.
    apply (after_frames_last frames _ _ Hlast).
Qed.

(** A clip that is exported is a valid one. *)
Lemma export_clip_ok_valid (bones : list Bone) (all : bool) (s : Selected)
    (L L' : Locals) (h h' : Host) :
  export_clip bones all s L h = (Ok L', h') -> valid_clip all s.
Proof.
  rewrite export_clip_run. cbv zeta.
  destruct (Z.gtb_spec (fst (clip_range (sel_item s) (sel_action s)))
                       (snd (clip_range (sel_item s) (sel_action s))));
    [discriminate |].
  destruct (frames_to_export _ _ _ _) as [frames|e] eqn:E; [|discriminate].
  intros _. split; [assumption |].
  destruct all; [left; reflexivity | right].
  destruct (Z_lt_dec (frame_step (sel_item s)) 1) as [Hbad|]; [exfalso | lia].
  destruct (Z.eq_dec (frame_step (sel_item s)) 0) as [Hz|Hnz].
  - rewrite Hz, frames_to_export_zero_step in E. discriminate.
  - rewrite frames_to_export_negative_step in E by lia. discriminate.
Qed.

(** A clip that is not valid stops the run, with the range error when its
    range is reversed and with the sampler's error otherwise. *)
Lemma export_clip_not_valid (bones : list Bone) (all : bool) (s : Selected)
    (L : Locals) (h : Host) :
  ~ valid_clip all s ->
  export_clip bones all s L h =
  (Raise (clip_error s), activate (DataAction (sel_action s)) h).
Proof.
  intros Hnv. rewrite export_clip_run. cbv zeta. unfold clip_error, reversed.
  destruct (decide _) as [Hrev|Hok];
    destruct (Z.gtb_spec (fst (clip_range (sel_item s) (sel_action s)))
                         (snd (clip_range (sel_item s) (sel_action s))));
    try lia; [reflexivity |].
  assert (Hstep : all = false /\ frame_step (sel_item s) < 1).
  { destruct all.
    - exfalso. apply Hnv. split; [lia | left; reflexivity].
    - split; [reflexivity |].
      destruct (Z_lt_dec (frame_step (sel_item s)) 1); [assumption |].
      exfalso. apply Hnv. split; [lia | right; lia]. }
  destruct Hstep as [-> Hstep].
  destruct (decide (frame_step (sel_item s) = 0)) as [Hz|Hnz].
  - rewrite Hz, frames_to_export_zero_step. reflexivity.
  - rewrite frames_to_export_negative_step by lia. reflexivity.
Qed.

Lemma valid_clip_dec (all : bool) (s : Selected) :
  {valid_clip all s} + {~ valid_clip all s}.
Proof.
  unfold valid_clip. cbv zeta.
  destruct (Z_le_dec (fst (clip_range (sel_item s) (sel_action s)))
                     (snd (clip_range (sel_item s) (sel_action s))));
    [|right; tauto].
  destruct all; [left; auto |].
  destruct (Z_le_dec 1 (frame_step (sel_item s))); [left; auto |].
  right. intros [_ [|]]; [discriminate | contradiction].
Qed.

(** A selection is valid throughout, or has a first clip that is not. *)
Lemma first_not_valid (all : bool) (sel : list Selected) :
  Forall (valid_clip all) sel \/
  exists good bad rest,
    sel = good ++ bad :: rest /\ Forall (valid_clip all) good /\ ~ valid_clip all bad.
Proof.
  induction sel as [|s sel IH]; [left; constructor |].
  destruct (valid_clip_dec all s) as [Hv|Hnv].
  - destruct IH as [Hall|(good & bad & rest & -> & Hgood & Hbad)].
    + left. constructor; assumption.
    + right. exists (s :: good), bad, rest.
      repeat split; [constructor; assumption | exact Hbad].
  - right. exists [], s, sel. repeat split; [constructor | exact Hnv].
Qed.

(** The host after a run of valid clips. *)
Lemma clips_loop_host (bones : list Bone) (all : bool) (sel : list Selected) :
  Forall (valid_clip all) sel ->
  forall (es : list Entry) (h : Host),
  exists L,
    for_each sel (export_clip bones all) (locals_of bones es) h
    = (Ok L, after_clips all sel h).
Proof.
  induction 1 as [|s sel Hv Hsel IH]; intros es h.
  - eexists. reflexivity.
  - cbn [for_each]. unfold bind at 1. rewrite export_clip_valid by exact Hv.
    apply IH.
Qed.

Lemma clips_loop_stops (bones : list Bone) (all : bool)
    (good : list Selected) (bad : Selected) (rest : list Selected)
    (es : list Entry) (h : Host) :
  Forall (valid_clip all) good ->
  ~ valid_clip all bad ->
  for_each (good ++ bad :: rest) (export_clip bones all) (locals_of bones es) h =
  (Raise (clip_error bad),
   activate (DataAction (sel_action bad)) (after_clips all good h)).
Proof.
  intros Hgood Hbad. rewrite for_each_app.
  destruct (clips_loop bones all good Hgood es h)
    as (hosts & h1 & _ & _ & _ & _ & Hrun).
  destruct (clips_loop_host bones all good Hgood es h) as (L & Hhost).
  rewrite Hrun in Hhost. inversion Hhost; subst h1. rewrite Hrun.
  cbn [for_each]. unfold bind.
  rewrite export_clip_not_valid by exact Hbad. reflexivity.
Qed.
End ExportFacts.

Section TransitionFacts.
Context `{PoseSource}.

Ltac run_host_step :=
  first
    [ rewrite (bind_run _ _ _ _ _ (frame_set_run _ _))
    | rewrite (bind_run _ _ _ _ _ (perform_run _ _))
    | rewrite (bind_run _ _ _ _ _ (mode_set_run _ _))
    | rewrite (bind_run _ _ _ _ _ (actions_new_run _ _))
    | erewrite bind_run by (apply set_action_run; simpl; eauto) ].

Lemma keyframe_all_state (bones : list Bone) (frame : Z) (h : Host) :
  exists h', keyframe_all bones frame h = (Ok tt, h') /\
             steady h h' /\ animation_data h' = animation_data h /\
             mode h' = mode h /\ new_actions h' = new_actions h.
Proof.
  unfold keyframe_all. revert h.
  induction bones as [|b bones IH]; intros h; simpl.
  - exists h. repeat split.
  - unfold bind at 1. simpl.
    destruct (IH (log (op_keyframe_insert b "scale" frame)
                   (log (op_keyframe_insert b "rotation_quaternion" frame)
                      (log (op_keyframe_insert b "location" frame) h))))
      as (h' & Hrun & Hs & Hd & Hm & Hn).
    exists h'. split; [exact Hrun |]. split; [exact Hs |].
    split; [exact Hd |]. split; [exact Hm | exact Hn].
Qed.

(** One transition: it always returns; it has made one new action, which
    is the active one while the ten frames are sampled, in pose mode. *)
Lemma export_transition_state (ctx : BlenderContext) (src dst : Selected)
    (L : Locals) (h : Host) :
  exists L' hb,
    export_transition ctx (src, dst) L h
      = (Ok L', after_frames transition_positions hb) /\
    steady h hb /\
    samples_transition (src, dst) hb /\
    mode hb = POSE /\
    new_actions hb = S (new_actions h).
Proof.
  unfold export_transition.
  run_host_step.
  rewrite (bind_run _ _ _ _ _ (ensure_run _)).
  set (h1 := ensured _).
  assert (Hd1 : is_Some (animation_data h1)) by apply ensured_has_data.
  assert (Hs1 : steady h h1)
    by (apply steady_ensured; apply steady_log; apply steady_refl).
  assert (Hn1 : new_actions h1 = S (new_actions h))
    by (unfold h1; rewrite new_actions_ensured; reflexivity).
  erewrite bind_run by (apply set_action_run; exact Hd1).
  do 8 run_host_step.
  match goal with
  | |- context [bind (keyframe_all ?b ?f) _ ?hx] =>
      destruct (keyframe_all_state b f hx) as (h2 & Hk2 & Hs2 & Hd2 & Hm2 & Hn2)
  end.
  rewrite (bind_run _ _ _ _ _ Hk2).
  simpl in Hd2, Hm2.
  change (new_actions h2 = new_actions h1) in Hn2.
  erewrite bind_run by (apply set_action_run; rewrite Hd2; eauto).
  do 7 run_host_step.
  match goal with
  | |- context [bind (keyframe_all ?b ?f) _ ?hx] =>
      destruct (keyframe_all_state b f hx) as (h3 & Hk3 & Hs3 & Hd3 & Hm3 & Hn3)
  end.
  rewrite (bind_run _ _ _ _ _ Hk3).
  simpl in Hd3, Hm3.
  change (new_actions h3 = new_actions h2) in Hn3.
  run_host_step.
  assert (Hrange : forall b : bool,
    py_range 1 (transition_frames + 1) (if b then 1 else 1) = Ok transition_positions)
    by (intros []; reflexivity).
  unfold lift at 1. unfold bind at 1. rewrite Hrange.
  unfold lift at 1. unfold bind at 1.
  change (py_last transition_positions) with (Ok 10 : result Z).
  change (negb (10 =? transition_frames)) with false. cbv iota.
  erewrite bind_run by (apply set_action_run; simpl; rewrite Hd3; eauto).
  match goal with
  | |- context [bind (bake_frames ?b ?fr) _ ?hx] =>
      rewrite (bind_run _ _ _ _ _ (bake_frames_ok b fr hx));
      exists
        {| all_matrix_data := all_matrix_data L ++ [spec_pack b fr hx];
           frame_counts := frame_counts L ++ [Z.of_nat (length fr)];
           frame_steps := frame_steps L ++
             [if multi_export_all_frames ctx then 1 else 1];
           animation_ranges := animation_ranges L ++ [(1, transition_frames)];
           total_frames := total_frames L + Z.of_nat (length fr);
           animation_helpers := animation_helpers L ++
             [{| clip_name := transition_name src dst;
                 start_idx := total_frames L;
                 end_idx := total_frames L + 9 |}] |}, hx
  end.
  split; [reflexivity |].
  split.
  { destruct Hs1 as (F1 & P1 & M1), Hs2 as (F2 & P2 & M2), Hs3 as (F3 & P3 & M3).
    simpl in *. repeat split; simpl; congruence. }
  split; [eexists; reflexivity |].
  split.
  - simpl. rewrite Hm3, Hm2. reflexivity.
  - change (new_actions h3 = S (new_actions h)). congruence.
Qed.

(** The transitions, whatever the loop variables are: the loop returns. *)
Lemma transitions_loop_state (ctx : BlenderContext)
    (pairs : list (Selected * Selected)) :
  forall (L : Locals) (h : Host),
  exists L' h',
    for_each pairs (export_transition ctx) L h = (Ok L', h') /\
    steady h h' /\
    new_actions h' = (new_actions h + length pairs)%nat /\
    (pairs = [] -> h' = h) /\
    (pairs <> [] ->
       mode h' = POSE /\ frame_current h' = 10 /\
       exists serial name, animation_data h' = Some (Some (NewAction serial name))).
Proof.
  induction pairs as [|[src dst] pairs IH]; intros L h.
  - exists L, h. split; [reflexivity |]. split; [apply steady_refl |].
    split; [simpl; lia |]. split; [reflexivity | congruence].
  - destruct (export_transition_state ctx src dst L h)
      as (L1 & hb & Hrun1 & Hsb & (serial & Hact) & Hmode & Hnew).
    destruct (IH L1 (after_frames transition_positions hb))
      as (L' & h' & Hrun & Hs & Hn & Hnil & Hcons).
    exists L', h'. cbn [for_each]. unfold bind at 1. rewrite Hrun1.
    split; [exact Hrun |].
    split.
    { eapply steady_trans; [|exact Hs]. apply steady_after_frames. exact Hsb. }
    split.
    { rewrite Hn, new_actions_after_frames, Hnew. simpl. lia. }
    split; [discriminate |].
    intros _. destruct pairs as [|p pairs].
    + rewrite (Hnil eq_refl).
      split; [rewrite mode_after_frames; exact Hmode |].
      split; [apply after_frames_last; reflexivity |].
      eexists _, _. rewrite animation_data_after_frames. exact Hact.
    + apply Hcons. discriminate.
Qed.

(** [restore_action] with an action to restore and animation data to put
    it in. *)
Lemma restore_action_some (a : ActionRef) (h : Host) :
  is_Some (animation_data h) ->
  restore_action (Some a) h =
  (Ok tt, log (op_set_action a) (with_animation_data (Some (Some a)) h)).
Proof.
  intros [d Hd]. unfold restore_action, bind, get. rewrite Hd.
  apply set_action_run. rewrite Hd. eauto.
Qed.
End TransitionFacts.

(** ** The assembly phase, case by case *)

Section AssemblyFacts.
Context `{PoseSource}.

Ltac run_calls :=
  match goal with
  | |- context [bind ?m ?k ?hx] =>
      let r := eval cbv [bind perform write_file set_property del_property
                         frame_set mode_set modify ret get lift raise] in (m hx) in
      lazymatch r with
      | (Ok ?a, ?h') => rewrite (bind_run m k hx a h' eq_refl)
      | (Raise ?e, ?h') => rewrite (bind_fail m k hx e h' eq_refl)
      end
  end.

Lemma assemble_not_armature (ctx : BlenderContext) (unit_name : string)
    (all : bool) (h : Host) :
  ~ is_armature ctx ->
  assemble ctx unit_name all h = (Raise not_armature_error, h).
Proof.
  intros Hna. unfold assemble.
  rewrite bool_decide_eq_false_2 by exact Hna. reflexivity.
Qed.

Lemma rest_locals (ctx : BlenderContext) (unit_name : string) (h : Host) :
  {| all_matrix_data := [spec_frame (pose_bones ctx) (at_frame (rest_frame ctx) h)];
     frame_counts := [1];
     frame_steps := [1];
     animation_ranges := [(rest_frame ctx, rest_frame ctx)];
     total_frames := 1;
     animation_helpers :=
       [{| clip_name := unit_name +:+ "Rest"; start_idx := 0; end_idx := 0 |}] |}
  = locals_of (pose_bones ctx) [rest_entry ctx unit_name h].
Proof. unfold locals_of, e_chunk. simpl. rewrite app_nil_r. reflexivity. Qed.

(** The first clip that is not valid stops the assembly; the host stays
    as the clips before it and the activation of its action left it. *)
Lemma assemble_stops (ctx : BlenderContext) (unit_name : string) (all : bool)
    (h : Host) (good : list Selected) (bad : Selected) (rest : list Selected) :
  is_armature ctx ->
  animations_to_export ctx = good ++ bad :: rest ->
  Forall (valid_clip all) good ->
  ~ valid_clip all bad ->
  assemble ctx unit_name all h =
  (Raise (clip_error bad),
   activate (DataAction (sel_action bad))
     (after_clips all good (at_frame (rest_frame ctx) h))).
Proof.
  intros Harm Esel Hgood Hbad. unfold assemble.
  rewrite bool_decide_eq_true_2 by exact Harm. cbv [negb].
  destruct (animations_to_export ctx) as [|s0 sel0] eqn:E0.
  { destruct good; discriminate. }
  rewrite Esel.
  unfold bind at 1. unfold get at 1.
  rewrite (bind_run _ _ _ _ _ (collect_matrices_at_frame_ok _ _ _)).
  fold (rest_frame ctx). rewrite rest_locals.
  rewrite (bind_fail _ _ _ _ _
             (clips_loop_stops (pose_bones ctx) all good bad rest
                [rest_entry ctx unit_name h] (at_frame (rest_frame ctx) h)
                Hgood Hbad)).
  reflexivity.
Qed.

(** The host that a successful assembly leaves. *)
Lemma assemble_ok_state (ctx : BlenderContext) (unit_name : string) (all : bool)
    (h : Host) :
  is_armature ctx ->
  animations_to_export ctx <> [] ->
  Forall (valid_clip all) (animations_to_export ctx) ->
  exists (A : Assembly) (h1 : Host) (final : Selected),
    assemble ctx unit_name all h = (Ok A, h1) /\
    last (animations_to_export ctx) = Some final /\
    original_frame A = frame_current h /\
    original_action A = Some (DataAction (sel_action final)) /\
    animation_data h1 = Some (Some (DataAction (sel_action final))) /\
    new_actions h1 =
      (new_actions h + length (transitions (animations_to_export ctx)))%nat /\
    (transitions (animations_to_export ctx) = [] ->
       mode h1 = mode h /\
       frame_current h1 =
         snd (clip_range (sel_item final) (sel_action final))) /\
    (transitions (animations_to_export ctx) <> [] ->
       mode h1 = POSE /\ frame_current h1 = 10).
Proof.
  intros Harm Hne Hvalid.
  destruct (last (animations_to_export ctx)) as [final|] eqn:Hlast;
    [|apply last_None in Hlast; contradiction].
  assert (Hfinal : valid_clip all final).
  { eapply Forall_forall; [exact Hvalid |].
    apply last_Some in Hlast as [l ->]. apply elem_of_app. right. left. }
  unfold assemble.
  rewrite bool_decide_eq_true_2 by exact Harm. cbv [negb].
  destruct (animations_to_export ctx) as [|s0 sel0] eqn:Esel; [congruence |].
  rewrite <- Esel in *. clear Hne.
  unfold bind at 1. unfold get at 1.
  rewrite (bind_run _ _ _ _ _ (collect_matrices_at_frame_ok _ _ _)).
  fold (rest_frame ctx). rewrite rest_locals.
  destruct (clips_loop_host (pose_bones ctx) all (animations_to_export ctx) Hvalid
              [rest_entry ctx unit_name h] (at_frame (rest_frame ctx) h))
    as (L1 & Hrun1).
  rewrite (bind_run _ _ _ _ _ Hrun1).
  unfold bind at 1. unfold get at 1.
  set (h1 := after_clips all (animations_to_export ctx) (at_frame (rest_frame ctx) h)).
  destruct (after_clips_last all (animations_to_export ctx) final
              (at_frame (rest_frame ctx) h) Hlast) as [Hact1 Hframe1].
  fold h1 in Hact1, Hframe1.
  assert (Hcur : current_action h1 = Some (DataAction (sel_action final)))
    by (unfold current_action; rewrite Hact1; reflexivity).
  destruct (transitions_loop_state ctx (transitions (animations_to_export ctx)) L1 h1)
    as (L2 & h2 & Hrun2 & Hs2 & Hn2 & Hnil & Hcons).
  rewrite (bind_run _ _ _ _ _ Hrun2).
  assert (Hd2 : is_Some (animation_data h2)).
  { destruct (transitions (animations_to_export ctx)) as [|p ps] eqn:Etr.
    - rewrite (Hnil eq_refl), Hact1. eauto.
    - destruct (Hcons ltac:(discriminate)) as (_ & _ & serial & name & Hd).
      rewrite Hd. eauto. }
  rewrite Hcur.
  rewrite (bind_run _ _ _ _ _ (restore_action_some _ _ Hd2)).
  eexists _, _, final. split; [reflexivity |].
  split; [reflexivity |].
  split; [reflexivity |].
  split; [reflexivity |].
  split; [reflexivity |].
  split.
  { change (new_actions h2 =
            (new_actions h + length (transitions (animations_to_export ctx)))%nat).
    rewrite Hn2. unfold h1. rewrite new_actions_after_clips. reflexivity. }
  split.
  - intros Etr. rewrite (Hnil Etr). simpl. split.
    + unfold h1. rewrite mode_after_clips. reflexivity.
    + apply Hframe1. exact Hfinal.
  - intros Etr. destruct (Hcons Etr) as (Hm & Hf & _). simpl. split; assumption.
Qed.

(** The export phase on the host that the assembly leaves. *)
Lemma export_phase_state (ctx : BlenderContext) (unit_name : string)
    (export_method : ExportMethod) (property_name : string) (all : bool)
    (h : Host) (A : Assembly) (h1 : Host) (a : ActionRef) :
  assemble ctx unit_name all h = (Ok A, h1) ->
  original_action A = Some a ->
  is_Some (animation_data h1) ->
  (export_method = BIN -> filepath ctx <> "") ->
  exists msg h2,
    export_multiple_body ctx unit_name export_method property_name all h
      = (Ok msg, h2) /\
    frame_current h2 = original_frame A /\
    mode h2 = OBJECT /\
    animation_data h2 = Some (Some a) /\
    new_actions h2 = new_actions h1 /\
    messages h2 = messages h1 /\
    match export_method with
    | BIN => files h2 = files h1 ++ written_files ctx unit_name A /\
             id_properties h2 = id_properties h1
    | PROPERTY => files h2 = files h1 /\
                  id_properties h2 =
                  stored_properties ctx property_name A (id_properties h1)
    end.
Proof.
  intros Hasm Horig Hd Hsaved. unfold export_multiple_body.
  rewrite (bind_run _ _ _ _ _ Hasm). rewrite Horig.
  destruct export_method.
  - unfold export_bin. cbv zeta.
    destruct (String.eqb_spec (filepath ctx) "") as [Hempty|_].
    { exfalso. apply (Hsaved eq_refl). exact Hempty. }
    do 2 run_calls.
    erewrite bind_run by (apply restore_action_some; exact Hd).
    run_calls.
    eexists _, _. split; [reflexivity |]. simpl.
    repeat split. unfold written_files. rewrite <- app_assoc. reflexivity.
  - unfold export_property. cbv zeta.
    do 2 run_calls.
    erewrite bind_run by (apply restore_action_some; exact Hd).
    run_calls.
    eexists _, _. split; [reflexivity |]. simpl.
    repeat split.
Qed.
End AssemblyFacts.

(** ** The multi-export entry point, case by case *)

Section MultiExportCases.
Context `{PoseSource}.

Lemma multi_not_armature (ctx : BlenderContext) (unit_name : string)
    (export_method : ExportMethod) (property_name : string) (all : bool)
    (h : Host) :
  ~ is_armature ctx ->
  export_multiple_animations ctx unit_name export_method property_name all h
  = (CANCELLED, show_message true (msg_failed not_armature_error) h).
Proof.
  intros Hna. unfold export_multiple_animations, run_export, export_multiple_body.
  rewrite (bind_fail _ _ _ _ _ (assemble_not_armature ctx unit_name all h Hna)).
  reflexivity.
Qed.

Lemma multi_no_selection (ctx : BlenderContext) (unit_name : string)
    (export_method : ExportMethod) (property_name : string) (all : bool)
    (h : Host) :
  is_armature ctx -> animations_to_export ctx = [] ->
  export_multiple_animations ctx unit_name export_method property_name all h
  = (CANCELLED, show_message true (msg_failed no_selection_error) h).
Proof.
  intros Harm Hsel. unfold export_multiple_animations, run_export, export_multiple_body.
  rewrite (bind_fail _ _ _ _ _ (assemble_no_selection ctx unit_name all h Harm Hsel)).
  reflexivity.
Qed.

Lemma multi_clip_error (ctx : BlenderContext) (unit_name : string)
    (export_method : ExportMethod) (property_name : string) (all : bool)
    (h : Host) (good : list Selected) (bad : Selected) (rest : list Selected) :
  is_armature ctx ->
  animations_to_export ctx = good ++ bad :: rest ->
  Forall (valid_clip all) good ->
  ~ valid_clip all bad ->
  export_multiple_animations ctx unit_name export_method property_name all h
  = (CANCELLED,
     show_message true (msg_failed (clip_error bad))
       (activate (DataAction (sel_action bad))
          (after_clips all good (at_frame (rest_frame ctx) h)))).
Proof.
  intros Harm Hsel Hgood Hbad.
  unfold export_multiple_animations, run_export, export_multiple_body.
  rewrite (bind_fail _ _ _ _ _
             (assemble_stops ctx unit_name all h good bad rest Harm Hsel Hgood Hbad)).
  reflexivity.
Qed.

Lemma multi_unsaved (ctx : BlenderContext) (unit_name : string)
    (property_name : string) (all : bool) (h : Host) :
  is_armature ctx ->
  animations_to_export ctx <> [] ->
  Forall (valid_clip all) (animations_to_export ctx) ->
  filepath ctx = "" ->
  exists (A : Assembly) (h1 : Host) (final : Selected),
    assemble ctx unit_name all h = (Ok A, h1) /\
    export_multiple_animations ctx unit_name BIN property_name all h
    = (CANCELLED, show_message true (msg_failed unsaved_error) h1) /\
    steady h h1 /\
    last (animations_to_export ctx) = Some final /\
    animation_data h1 = Some (Some (DataAction (sel_action final))) /\
    new_actions h1 =
      (new_actions h + length (transitions (animations_to_export ctx)))%nat /\
    (transitions (animations_to_export ctx) = [] ->
       mode h1 = mode h /\
       frame_current h1 = snd (clip_range (sel_item final) (sel_action final))) /\
    (transitions (animations_to_export ctx) <> [] ->
       mode h1 = POSE /\ frame_current h1 = 10).
Proof.
  intros Harm Hne Hvalid Hempty.
  destruct (assemble_ok_state ctx unit_name all h Harm Hne Hvalid)
    as (A & h1 & final & Hasm & Hlast & _ & _ & Hd & Hn & Hnil & Hcons).
  destruct (assemble_run ctx unit_name all h Harm Hne Hvalid)
    as (_ & _ & A' & h1' & Hasm' & Hs & _).
  rewrite Hasm in Hasm'. inversion Hasm'; subst A' h1'.
  exists A, h1, final. split; [exact Hasm |].
  split.
  { destruct (export_after_assemble ctx unit_name BIN property_name all h A h1 Hasm)
      as [(_ & _ & Hbody)|(msg & h2 & _ & _ & _ & Hsaved & _)].
    - unfold export_multiple_animations, run_export. rewrite Hbody. reflexivity.
    - contradiction. }
  split; [exact Hs |]. split; [exact Hlast |]. split; [exact Hd |].
  split; [exact Hn |]. split; assumption.
Qed.

Lemma multi_finished (ctx : BlenderContext) (unit_name : string)
    (export_method : ExportMethod) (property_name : string) (all : bool)
    (h : Host) :
  is_armature ctx ->
  animations_to_export ctx <> [] ->
  Forall (valid_clip all) (animations_to_export ctx) ->
  (export_method = BIN -> filepath ctx <> "") ->
  exists (clip_hosts tr_hosts : list Host) (A : Assembly) (h1 : Host)
         (msg : Message) (h2 : Host) (final : Selected),
    assemble ctx unit_name all h = (Ok A, h1) /\
    export_multiple_animations ctx unit_name export_method property_name all h
    = (FINISHED, show_message false msg h2) /\
    length clip_hosts = length (animations_to_export ctx) /\
    length tr_hosts = length (transitions (animations_to_export ctx)) /\
    locals A = locals_of (pose_bones ctx)
      (rest_entry ctx unit_name h ::
       zip_with (clip_entry all) (animations_to_export ctx) clip_hosts ++
       zip_with transition_entry (transitions (animations_to_export ctx)) tr_hosts) /\
    combined_data A = concat (all_matrix_data (locals A)) /\
    last (animations_to_export ctx) = Some final /\
    frame_current h2 = frame_current h /\
    mode h2 = OBJECT /\
    animation_data h2 = Some (Some (DataAction (sel_action final))) /\
    new_actions h2 =
      (new_actions h + length (transitions (animations_to_export ctx)))%nat /\
    messages h2 = messages h /\
    match export_method with
    | BIN => files h2 = files h ++ written_files ctx unit_name A /\
             id_properties h2 = id_properties h
    | PROPERTY => files h2 = files h /\
                  id_properties h2 =
                  stored_properties ctx property_name A (id_properties h)
    end.
Proof.
  intros Harm Hne Hvalid Hsaved.
  destruct (assemble_ok_state ctx unit_name all h Harm Hne Hvalid)
    as (A & h1 & final & Hasm & Hlast & Hof & Hoa & Hd & Hn & _).
  destruct (assemble_run ctx unit_name all h Harm Hne Hvalid)
    as (clip_hosts & tr_hosts & A' & h1' & Hasm' & Hs & Hl1 & Hl2 & _ & _ & HL
        & Hdata & _).
  rewrite Hasm in Hasm'. inversion Hasm'; subst A' h1'.
  destruct (export_phase_state ctx unit_name export_method property_name all h A h1
              (DataAction (sel_action final)) Hasm Hoa
              ltac:(rewrite Hd; eauto) Hsaved)
    as (msg & h2 & Hbody & Hf & Hm & Hd2 & Hn2 & Hmsg & Hout).
  exists clip_hosts, tr_hosts, A, h1, msg, h2, final.
  split; [exact Hasm |].
  split.
  { unfold export_multiple_animations, run_export. rewrite Hbody. reflexivity. }
  destruct Hs as (F & P & Ms).
  repeat (split; [first [assumption | congruence] |]).
  destruct export_method; destruct Hout as [Hfiles Hprops];
    split; congruence.
Qed.

(** Every multi-export is in exactly one of five cases. *)
Lemma multi_export_cases (ctx : BlenderContext) (unit_name : string)
    (export_method : ExportMethod) (property_name : string) (all : bool)
    (h : Host) :
  ~ is_armature ctx \/
  (is_armature ctx /\ animations_to_export ctx = []) \/
  (is_armature ctx /\
   exists good bad rest,
     animations_to_export ctx = good ++ bad :: rest /\
     Forall (valid_clip all) good /\ ~ valid_clip all bad) \/
  (is_armature ctx /\ animations_to_export ctx <> [] /\
   Forall (valid_clip all) (animations_to_export ctx) /\
   export_method = BIN /\ filepath ctx = "") \/
  (is_armature ctx /\ animations_to_export ctx <> [] /\
   Forall (valid_clip all) (animations_to_export ctx) /\
   (export_method = BIN -> filepath ctx <> "")).
Proof.
  destruct (decide (object_type ctx = Some "ARMATURE")) as [Harm|Hna];
    [|left; exact Hna].
  right.
  destruct (animations_to_export ctx) as [|s0 sel0] eqn:Esel;
    [left; split; [exact Harm | reflexivity] |].
  right. rewrite <- Esel.
  assert (Hne : animations_to_export ctx <> []) by (rewrite Esel; discriminate).
  destruct (first_not_valid all (animations_to_export ctx))
    as [Hvalid|Hstop]; [|left; split; [exact Harm | exact Hstop]].
  right.
  destruct export_method.
  - destruct (String.string_dec (filepath ctx) "") as [Hempty|Hsaved].
    + left. repeat split; assumption.
    + right. repeat split; try assumption. intros _. exact Hsaved.
  - right. repeat split; try assumption. discriminate.
Qed.
End MultiExportCases.

Section MultiExportProperties.
Context `{PoseSource}.

Lemma frame_show_message (b : bool) (m : Message) (h : Host) :
  frame_current (show_message b m h) = frame_current h.
Proof. reflexivity. Qed.

Lemma mode_show_message (b : bool) (m : Message) (h : Host) :
  mode (show_message b m h) = mode h.
Proof. reflexivity. Qed.

Lemma new_actions_show_message (b : bool) (m : Message) (h : Host) :
  new_actions (show_message b m h) = new_actions h.
Proof. reflexivity. Qed.

Lemma current_action_show_message (b : bool) (m : Message) (h : Host) :
  current_action (show_message b m h) = current_action h.
Proof. reflexivity. Qed.

(** X3. The checks of a multi-export are made in a fixed order.  The
    export finishes only when an armature is active, at least one included
    item has an action, every such clip is valid (range in order, and a
    step of at least 1 unless every frame is exported) and, for the binary
    method, the blend file was saved.  When one of these checks fails, the
    export is cancelled with the message of the first check that fails:
    armature, then selection, then the first clip that is not valid in
    list order (the range error if its range is reversed, else the
    sampler's ValueError or IndexError), then the unsaved file. *)
Theorem multi_export_decision (ctx : BlenderContext) (unit_name : string)
    (export_method : ExportMethod) (property_name : string) (all : bool)
    (h : Host) :
  (fst (export_multiple_animations ctx unit_name export_method property_name all h)
     = FINISHED
   -> is_armature ctx /\ animations_to_export ctx <> [] /\
      Forall (valid_clip all) (animations_to_export ctx) /\
      (export_method = BIN -> filepath ctx <> "")) /\
  (~ is_armature ctx ->
   export_multiple_animations ctx unit_name export_method property_name all h
   = (CANCELLED, show_message true (msg_failed not_armature_error) h)) /\
  (is_armature ctx -> animations_to_export ctx = [] ->
   export_multiple_animations ctx unit_name export_method property_name all h
   = (CANCELLED, show_message true (msg_failed no_selection_error) h)) /\
  (is_armature ctx ->
   forall good bad rest,
     animations_to_export ctx = good ++ bad :: rest ->
     Forall (valid_clip all) good ->
     ~ valid_clip all bad ->
     fst (export_multiple_animations ctx unit_name export_method property_name all h)
       = CANCELLED /\
     messages
       (snd (export_multiple_animations ctx unit_name export_method property_name
               all h))
       = messages h ++ [(true, msg_failed (clip_error bad))]) /\
  (is_armature ctx ->
   animations_to_export ctx <> [] ->
   Forall (valid_clip all) (animations_to_export ctx) ->
   export_method = BIN -> filepath ctx = "" ->
   fst (export_multiple_animations ctx unit_name export_method property_name all h)
     = CANCELLED /\
   messages
     (snd (export_multiple_animations ctx unit_name export_method property_name
             all h))
     = messages h ++ [(true, msg_failed unsaved_error)]).
Proof.
  split; [|split; [|split; [|split]]].
  - intros Hfin.
    destruct (multi_export_cases ctx unit_name export_method property_name all h)
      as [Hna|[[Harm Hsel]|[[Harm (good & bad & rest & Hsel & Hgood & Hbad)]
         |[(Harm & Hne & Hvalid & Hm & Hempty)|(Harm & Hne & Hvalid & Hsaved)]]]].
    + rewrite multi_not_armature in Hfin by exact Hna. discriminate.
    + rewrite multi_no_selection in Hfin by assumption. discriminate.
    + rewrite (multi_clip_error ctx unit_name export_method property_name all h
                 good bad rest Harm Hsel Hgood Hbad) in Hfin.
      discriminate.
    + subst export_method.
      destruct (multi_unsaved ctx unit_name property_name all h
                  Harm Hne Hvalid Hempty) as (A & h1 & final & _ & Hrun & _).
      rewrite Hrun in Hfin. discriminate.
    + repeat split; assumption.
  - apply multi_not_armature.
  - apply multi_no_selection.
  - intros Harm good bad rest Hsel Hgood Hbad.
    rewrite (multi_clip_error ctx unit_name export_method property_name all h
               good bad rest Harm Hsel Hgood Hbad).
    split; [reflexivity |]. simpl.
    destruct (steady_after_clips all good (at_frame (rest_frame ctx) h))
      as (_ & _ & Ms).
    unfold activate.
    pose proof (steady_ensured _ _
                  (steady_after_clips all good (at_frame (rest_frame ctx) h)))
      as (_ & _ & Ms').
    simpl. rewrite Ms'. reflexivity.
  - intros Harm Hne Hvalid -> Hempty.
    destruct (multi_unsaved ctx unit_name property_name all h
                Harm Hne Hvalid Hempty)
      as (A & h1 & final & _ & Hrun & (_ & _ & Ms) & _).
    rewrite Hrun. split; [reflexivity |]. simpl. rewrite Ms. reflexivity.
Qed.

(** X4. When a clip stops a multi-export, nothing is restored: the clip's
    action stays the active one and the scene stays at the end frame of
    the last clip sampled before it (an end frame that the host accepts),
    or at the rest frame when it is the first clip.  No file or property
    is written, the mode is unchanged and no action was made. *)
Theorem multi_export_clip_failure_state (ctx : BlenderContext)
    (unit_name : string) (export_method : ExportMethod) (property_name : string)
    (all : bool) (h : Host)
    (good : list Selected) (bad : Selected) (rest : list Selected) :
  is_armature ctx ->
  animations_to_export ctx = good ++ bad :: rest ->
  Forall (valid_clip all) good ->
  ~ valid_clip all bad ->
  (forall s, last good = Some s ->
     host_frame (snd (clip_range (sel_item s) (sel_action s)))) ->
  exists h',
    export_multiple_animations ctx unit_name export_method property_name all h
      = (CANCELLED, h') /\
    current_action h' = Some (DataAction (sel_action bad)) /\
    frame_current h' =
      match last good with
      | Some s => snd (clip_range (sel_item s) (sel_action s))
      | None => if frame_start ctx <=? 0 then 0 else 1
      end /\
    mode h' = mode h /\
    new_actions h' = new_actions h /\
    files h' = files h /\
    id_properties h' = id_properties h.
Proof.
  intros Harm Hsel Hgood Hbad _.
  set (h0 := at_frame (rest_frame ctx) h).
  exists (show_message true (msg_failed (clip_error bad))
            (activate (DataAction (sel_action bad)) (after_clips all good h0))).
  split.
  { apply (multi_clip_error ctx unit_name export_method property_name all h
             good bad rest Harm Hsel Hgood Hbad). }
  pose proof (steady_activate (DataAction (sel_action bad)) h
                (after_clips all good h0)
                (steady_after_clips all good h0)) as (F & P & _).
  split; [reflexivity |].
  split.
  { rewrite frame_show_message, activate_frame.
    destruct (last good) as [s|] eqn:Hl.
    - destruct (after_clips_last all good s h0 Hl) as [_ Hf]. apply Hf.
      eapply Forall_forall; [exact Hgood |].
      apply last_Some in Hl as [l ->]. apply elem_of_app. right. left.
    - apply last_None in Hl. subst good. reflexivity. }
  split.
  { rewrite mode_show_message, mode_activate, mode_after_clips. reflexivity. }
  split.
  { rewrite new_actions_show_message, new_actions_activate,
      new_actions_after_clips.
    reflexivity. }
  split; [exact F | exact P].
Qed.

(** X5. A multi-export writes its output only at the end.  When it is
    cancelled, whatever the reason, no file was written and no custom
    property was changed, and one error message was reported.  When it
    finishes, one message was reported and the output is exactly the two
    files of the binary method, with the properties untouched, or only
    property changes, with no file. *)
Theorem multi_export_output_atomic (ctx : BlenderContext) (unit_name : string)
    (export_method : ExportMethod) (property_name : string) (all : bool)
    (h : Host) :
  (fst (export_multiple_animations ctx unit_name export_method property_name all h)
     = CANCELLED ->
   files (snd (export_multiple_animations ctx unit_name export_method
                 property_name all h)) = files h /\
   id_properties (snd (export_multiple_animations ctx unit_name export_method
                         property_name all h)) = id_properties h /\
   exists e,
     messages (snd (export_multiple_animations ctx unit_name export_method
                      property_name all h))
     = messages h ++ [(true, msg_failed e)]) /\
  (fst (export_multiple_animations ctx unit_name export_method property_name all h)
     = FINISHED ->
   (exists msg,
      messages (snd (export_multiple_animations ctx unit_name export_method
                       property_name all h))
      = messages h ++ [(false, msg)]) /\
   match export_method with
   | BIN =>
       id_properties (snd (export_multiple_animations ctx unit_name export_method
                             property_name all h)) = id_properties h /\
       exists data d,
         files (snd (export_multiple_animations ctx unit_name export_method
                       property_name all h))
         = files h ++
           [BinFile ((unit_name +:+ "_animations") +:+ ".bin") data;
            JsFile ((unit_name +:+ "_animations") +:+ ".js") d]
   | PROPERTY =>
       files (snd (export_multiple_animations ctx unit_name export_method
                     property_name all h)) = files h
   end).
Proof.
  destruct (multi_export_cases ctx unit_name export_method property_name all h)
    as [Hna|[[Harm Hsel]|[[Harm (good & bad & rest & Hsel & Hgood & Hbad)]
       |[(Harm & Hne & Hvalid & Hm & Hempty)|(Harm & Hne & Hvalid & Hsaved)]]]].
  - rewrite multi_not_armature by exact Hna.
    split; [intros _ | discriminate].
    split; [reflexivity |]. split; [reflexivity |]. eexists. reflexivity.
  - rewrite multi_no_selection by assumption.
    split; [intros _ | discriminate].
    split; [reflexivity |]. split; [reflexivity |]. eexists. reflexivity.
  - rewrite (multi_clip_error ctx unit_name export_method property_name all h
               good bad rest Harm Hsel Hgood Hbad).
    split; [intros _ | discriminate].
    pose proof (steady_activate (DataAction (sel_action bad)) h _
                  (steady_after_clips all good (at_frame (rest_frame ctx) h)))
      as (F & P & Ms).
    split; [exact F |]. split; [exact P |].
    eexists. simpl. simpl in Ms. rewrite Ms. reflexivity.
  - subst export_method.
    destruct (multi_unsaved ctx unit_name property_name all h
                Harm Hne Hvalid Hempty)
      as (A & h1 & final & _ & Hrun & (F & P & Ms) & _).
    rewrite Hrun. split; [intros _ | discriminate].
    split; [exact F |]. split; [exact P |].
    eexists. simpl. rewrite Ms. reflexivity.
  - destruct (multi_finished ctx unit_name export_method property_name all h
                Harm Hne Hvalid Hsaved)
      as (? & ? & A & h1 & msg & h2 & final & _ & Hrun & _ & _ & _ & _ & _ & _
          & _ & _ & _ & Ms & Hout).
    rewrite Hrun. split; [discriminate | intros _].
    split; [exists msg; simpl; rewrite Ms; reflexivity |].
    destruct export_method; destruct Hout as [Hfiles Hprops].
    + split; [exact Hprops |]. eexists _, _. simpl. rewrite Hfiles. reflexivity.
    + exact Hfiles.
Qed.

(** X6. A multi-export that finishes leaves the scene at the frame it
    started from and the armature in object mode, but the active action is
    the action of the last exported clip, not the action that was active
    before; and the n*(n-1) actions made for the transitions are still
    there. *)
Theorem multi_export_success_state (ctx : BlenderContext) (unit_name : string)
    (export_method : ExportMethod) (property_name : string) (all : bool)
    (h : Host) :
  fst (export_multiple_animations ctx unit_name export_method property_name all h)
    = FINISHED ->
  let h' := snd (export_multiple_animations ctx unit_name export_method
                   property_name all h) in
  let n := length (animations_to_export ctx) in
  frame_current h' = frame_current h /\
  mode h' = OBJECT /\
  (exists final,
     last (animations_to_export ctx) = Some final /\
     current_action h' = Some (DataAction (sel_action final))) /\
  new_actions h' = (new_actions h + n * (n - 1))%nat.
Proof.
  intros Hfin.
  destruct (multi_export_cases ctx unit_name export_method property_name all h)
    as [Hna|[[Harm Hsel]|[[Harm (good & bad & rest & Hsel & Hgood & Hbad)]
       |[(Harm & Hne & Hvalid & Hm & Hempty)|(Harm & Hne & Hvalid & Hsaved)]]]].
  - rewrite multi_not_armature in Hfin by exact Hna. discriminate.
  - rewrite multi_no_selection in Hfin by assumption. discriminate.
  - rewrite (multi_clip_error ctx unit_name export_method property_name all h
               good bad rest Harm Hsel Hgood Hbad) in Hfin.
    discriminate.
  - subst export_method.
    destruct (multi_unsaved ctx unit_name property_name all h
                Harm Hne Hvalid Hempty) as (A & h1 & final & _ & Hrun & _).
    rewrite Hrun in Hfin. discriminate.
  - destruct (multi_finished ctx unit_name export_method property_name all h
                Harm Hne Hvalid Hsaved)
      as (? & ? & A & h1 & msg & h2 & final & _ & Hrun & _ & _ & _ & _ & Hlast
          & Hf & Hm & Hd & Hn & _).
    cbv zeta. rewrite Hrun. cbn [snd].
    rewrite frame_show_message, mode_show_message, new_actions_show_message.
    split; [exact Hf |]. split; [exact Hm |].
    split.
    + exists final. split; [exact Hlast |].
      rewrite current_action_show_message.
      unfold current_action. rewrite Hd. reflexivity.
    + rewrite Hn, transitions_length. reflexivity.
Qed.
End MultiExportProperties.

(** ** More on strings and dicts *)

Lemma contains_app_true (sub a b : string) :
  py_contains sub a = true -> py_contains sub (a +:+ b) = true.
Proof.
  induction a as [|c a IH]; intros Hc.
  - simpl in Hc. rewrite orb_false_r in Hc.
    destruct sub; [|discriminate].
    destruct b; reflexivity.
  - cbn [py_contains] in Hc. rewrite append_cons. cbn [py_contains].
    apply orb_true_iff in Hc as [Hp|Hc].
    + apply prefix_split in Hp as [r Hr].
      rewrite <- append_cons, Hr, append_assoc, prefix_append. reflexivity.
    + rewrite (IH Hc). apply orb_true_r.
Qed.

Lemma contains_app_false (sub a b : string) :
  py_contains sub (a +:+ b) = false -> py_contains sub a = false.
Proof.
  intros Hc. destruct (py_contains sub a) eqn:E; [|reflexivity].
  rewrite (contains_app_true sub a b E) in Hc. discriminate.
Qed.

Lemma contains_prefixed (sub s : string) : py_contains sub (sub +:+ s) = true.
Proof.
  destruct sub as [|c sub]; [destruct s; reflexivity |].
  rewrite append_cons. cbn [py_contains].
  rewrite <- append_cons, prefix_append. reflexivity.
Qed.

Lemma replace_go_skip (old p s : string) :
  replace_go old (String.length p) (p +:+ s) = replace_go old 0 s.
Proof.
  induction p as [|c p IH]; [reflexivity |].
  rewrite append_cons. simpl. exact IH.
Qed.

(** An occurrence at the start is dropped. *)
Lemma replace_go_at_occurrence (old s : string) :
  old <> "" -> replace_go old 0 (old +:+ s) = replace_go old 0 s.
Proof.
  intros Hold. destruct old as [|c0 t]; [congruence |].
  rewrite append_cons. cbn [replace_go]. rewrite <- append_cons, prefix_append.
  cbn [String.length]. rewrite Nat.sub_succ, Nat.sub_0_r.
  apply replace_go_skip.
Qed.

(** What stands before the first occurrence is kept. *)
Lemma replace_go_before (old' : string) (c : ascii) (x z : string) :
  py_contains (old' +:+ String c "") (x +:+ old') = false ->
  replace_go (old' +:+ String c "") 0 (x +:+ (old' +:+ String c "") +:+ z)
  = x +:+ replace_go (old' +:+ String c "") 0 z.
Proof.
  induction x as [|a x IH]; intros Hx.
  - change (replace_go (old' +:+ String c "") 0 ((old' +:+ String c "") +:+ z)
            = replace_go (old' +:+ String c "") 0 z).
    apply replace_go_at_occurrence. destruct old'; discriminate.
  - rewrite append_cons in Hx. apply contains_cons in Hx as [Hp Hx].
    rewrite !append_cons. cbn [replace_go].
    assert (Hp' : String.prefix (old' +:+ String c "")
                    (String a (x +:+ (old' +:+ String c "") +:+ z)) = false).
    { rewrite <- Hp.
      replace (String a (x +:+ (old' +:+ String c "") +:+ z))
        with (String a (x +:+ old') +:+ (String c "" +:+ z)).
      - apply prefix_long. cbn [String.length].
        rewrite !append_length. simpl. lia.
      - rewrite append_cons. f_equal. rewrite !append_assoc. reflexivity. }
    rewrite Hp'. rewrite IH by exact Hx. reflexivity.
Qed.

(** [src + "_To_" + dst] read back with no unit prefix in it. *)
Lemma split_transition_plain (unit_name a b : string) :
  py_contains (unit_name +:+ "_") (a +:+ "_To_" +:+ b) = false ->
  py_contains "_To_" (a +:+ "_To") = false ->
  py_contains "_To_" b = false ->
  split_transition unit_name (a +:+ "_To_" +:+ b) = [a; b].
Proof.
  intros Hunit Ha Hb. unfold split_transition, py_remove, py_split.
  rewrite replace_go_no_occurrence by exact Hunit.
  exact (split_go_once "_To" "_" a b "" Ha Hb).
Qed.

(** [unit_a + "_To_" + unit_b] read back: both unit prefixes are gone. *)
Lemma split_transition_prefixed (unit_name a b : string) :
  py_contains (unit_name +:+ "_") (a +:+ "_To_" +:+ unit_name) = false ->
  py_contains (unit_name +:+ "_") b = false ->
  py_contains "_To_" (a +:+ "_To") = false ->
  py_contains "_To_" b = false ->
  split_transition unit_name
    (((unit_name +:+ "_") +:+ a) +:+ "_To_" +:+ ((unit_name +:+ "_") +:+ b))
  = [a; b].
Proof.
  intros Hua Hub Ha Hb. unfold split_transition, py_remove, py_split.
  rewrite append_assoc.
  rewrite replace_go_at_occurrence by (destruct unit_name; discriminate).
  replace (a +:+ "_To_" +:+ (unit_name +:+ "_") +:+ b)
    with ((a +:+ "_To_") +:+ (unit_name +:+ String "_" "") +:+ b)
    by (rewrite append_assoc; reflexivity).
  rewrite replace_go_before by (rewrite append_assoc; exact Hua).
  rewrite replace_go_no_occurrence by exact Hub.
  rewrite append_assoc.
  exact (split_go_once "_To" "_" a b "" Ha Hb).
Qed.

(** A source that no record parses to is not a key of the map. *)
Lemma dict_get_fold_None (unit_name : string) (trs : list ClipRecord)
    (m : pydict (pydict string)) (src : string) :
  dict_get src m = None ->
  Forall (fun tr => forall dst, ~ parses_to unit_name src dst tr) trs ->
  dict_get src (foldl (add_transition unit_name) m trs) = None.
Proof.
  intros Hm Htrs. revert m Hm.
  induction Htrs as [|tr trs Htr Htrs IH]; intros m Hm; [exact Hm |].
  simpl. apply IH. unfold add_transition.
  destruct (split_transition unit_name (clip_name tr)) as [|a [|b [|c l]]] eqn:E;
    try exact Hm.
  rewrite dict_get_set_ne; [exact Hm |].
  intros ->. apply (Htr b). exact E.
Qed.

Lemma adjacency_key (m : pydict (pydict string)) (src dst t : string) :
  adjacency m src dst = Some t ->
  exists inner, dict_get src m = Some inner /\ dict_get dst inner = Some t.
Proof.
  unfold adjacency. destruct (dict_get src m) as [inner|]; [|discriminate].
  intros Hd. exists inner. split; [reflexivity | exact Hd].
Qed.

(** The map built from the transition records alone, when their names are
    read back as the keys [key src] and [key dst]. *)
Lemma adjacency_of_transitions (unit_name : string) (R2 : list ClipRecord)
    (pairs : list (Selected * Selected)) (key : Selected -> string) :
  map clip_name R2 = map (fun p => transition_name (fst p) (snd p)) pairs ->
  (forall s d, In (s, d) pairs ->
     split_transition unit_name (transition_name s d) = [key s; key d]) ->
  (forall s d s' d', In (s, d) pairs -> In (s', d') pairs ->
     key s = key s' -> key d = key d' ->
     transition_name s d = transition_name s' d') ->
  forall s d, In (s, d) pairs ->
    adjacency (build_trans_map unit_name R2) (key s) (key d)
    = Some (transition_name s d).
Proof.
  intros Hnames Hparse Hkey s d Hin. rewrite adjacency_build.
  assert (Hr : exists r, In r R2 /\ clip_name r = transition_name s d).
  { assert (Hn : In (transition_name s d) (map clip_name R2)).
    { rewrite Hnames. apply in_map_iff. exists (s, d). split; auto. }
    apply in_map_iff in Hn as (r & Hr & Hin'). exists r. split; auto. }
  destruct Hr as (r & Hr & Hn).
  destruct (last _) as [r'|] eqn:El.
  - apply last_Some in El as [l El].
    assert (Hin' : In r' (List.filter
               (fun tr => bool_decide (parses_to unit_name (key s) (key d) tr)) R2)).
    { rewrite El. apply in_or_app. right. left. reflexivity. }
    apply filter_In in Hin' as [Hr' Hp]. apply bool_decide_eq_true in Hp.
    assert (Hn' : In (clip_name r') (map clip_name R2)) by (apply in_map; exact Hr').
    rewrite Hnames in Hn'. apply in_map_iff in Hn' as ([s' d'] & Hn' & Hsd').
    simpl in Hn'. unfold parses_to in Hp.
    rewrite <- Hn', (Hparse s' d' Hsd') in Hp. inversion Hp as [[Hs Hd]].
    simpl. f_equal. rewrite <- Hn'. symmetry.
    apply Hkey; [exact Hin | exact Hsd' | congruence | congruence].
  - exfalso. apply last_None in El.
    assert (Hin' : In r (List.filter
               (fun tr => bool_decide (parses_to unit_name (key s) (key d) tr)) R2)).
    { apply filter_In. split; [exact Hr |].
      apply bool_decide_eq_true. unfold parses_to. rewrite Hn.
      apply Hparse. exact Hin. }
    rewrite El in Hin'. destruct Hin'.
Qed.

(** Records whose names are sorted by kind split by kind. *)
Lemma filter_by_kind {A} (p : A -> bool) (l1 l2 : list A) :
  Forall (fun x => p x = false) l1 ->
  Forall (fun x => p x = true) l2 ->
  List.filter p (l1 ++ l2) = l2 /\
  List.filter (fun x => negb (p x)) (l1 ++ l2) = l1.
Proof.
  intros H1 H2. rewrite !List.filter_app. split.
  - replace (List.filter p l1) with (@nil A).
    + simpl. apply forallb_filter_id. apply forallb_forall.
      intros x Hx. eapply Forall_forall in H2; [exact H2 |].
      apply list_elem_of_In. exact Hx.
    + symmetry. induction H1 as [|x l1 Hx H1 IH]; [reflexivity |].
      simpl. rewrite Hx. exact IH.
  - replace (List.filter (fun x => negb (p x)) l2) with (@nil A).
    + rewrite app_nil_r. apply forallb_filter_id. apply forallb_forall.
      intros x Hx. eapply Forall_forall in H1; [|apply list_elem_of_In; exact Hx].
      simpl in H1. rewrite H1. reflexivity.
    + symmetry. induction H2 as [|x l2 Hx H2 IH]; [reflexivity |].
      simpl. rewrite Hx. exact IH.
Qed.

Lemma omap_all_some {A B} (f : A -> option (A * B)) (l : list A) :
  (forall x, In x l -> exists y, f x = Some (x, y)) ->
  map fst (omap f l) = l.
Proof.
  induction l as [|x l IH]; intros Hf; [reflexivity |].
  simpl. destruct (Hf x (or_introl eq_refl)) as [y Hy]. rewrite Hy. simpl.
  f_equal. apply IH. intros x' Hx'. apply Hf. right. exact Hx'.
Qed.

Lemma omap_all_none {A B} (f : A -> option B) (l : list A) :
  (forall x, In x l -> f x = None) -> omap f l = [].
Proof.
  induction l as [|x l IH]; intros Hf; [reflexivity |].
  simpl. rewrite (Hf x (or_introl eq_refl)). apply IH.
  intros x' Hx'. apply Hf. right. exact Hx'.
Qed.

(** ** The JavaScript helper of a multi-export *)

Lemma foldr_counts (clips : list (string * Z)) :
  sum_counts clips = foldr Z.add 0 (map snd clips).
Proof.
  unfold sum_counts. induction clips as [|c clips IH]; simpl; [reflexivity |].
  rewrite IH. reflexivity.
Qed.

Lemma other_key {A} (f : A -> nat) (l : list A) (x : A) :
  NoDup (map f l) -> (2 <= length l)%nat -> exists y, In y l /\ f y <> f x.
Proof.
  intros Hnd Hlen. destruct l as [|a [|b l]]; simpl in Hlen; try lia.
  simpl in Hnd. apply NoDup_cons in Hnd as [Hab _].
  destruct (Nat.eq_dec (f a) (f x)) as [Heq|Hne].
  - exists b. split; [right; left; reflexivity |].
    intros Hb. apply Hab. replace (f a) with (f b) by congruence. left.
  - exists a. split; [left; reflexivity | exact Hne].
Qed.

Section DescriptorFacts.
Context `{PoseSource}.

Lemma multi_finished_inv (ctx : BlenderContext) (unit_name : string)
    (export_method : ExportMethod) (property_name : string) (all : bool)
    (h : Host) :
  fst (export_multiple_animations ctx unit_name export_method property_name all h)
    = FINISHED ->
  is_armature ctx /\ animations_to_export ctx <> [] /\
  Forall (valid_clip all) (animations_to_export ctx) /\
  (export_method = BIN -> filepath ctx <> "").
Proof.
  intros Hfin.
  destruct (multi_export_cases ctx unit_name export_method property_name all h)
    as [Hna|[[Harm Hsel]|[[Harm (good & bad & rest & Hsel & Hgood & Hbad)]
       |[(Harm & Hne & Hvalid & Hm & Hempty)|(Harm & Hne & Hvalid & Hsaved)]]]].
  - rewrite multi_not_armature in Hfin by exact Hna. discriminate.
  - rewrite multi_no_selection in Hfin by assumption. discriminate.
  - rewrite (multi_clip_error ctx unit_name export_method property_name all h
               good bad rest Harm Hsel Hgood Hbad) in Hfin.
    discriminate.
  - subst export_method.
    destruct (multi_unsaved ctx unit_name property_name all h
                Harm Hne Hvalid Hempty) as (A & h1 & final & _ & Hrun & _).
    rewrite Hrun in Hfin. discriminate.
  - repeat split; assumption.
Qed.

(** The entries that a finished multi-export is made of, and the files of
    its binary method. *)
Lemma multi_finished_bin (ctx : BlenderContext) (unit_name : string)
    (property_name : string) (all : bool) (h : Host) :
  fst (export_multiple_animations ctx unit_name BIN property_name all h)
    = FINISHED ->
  exists (clip_hosts tr_hosts : list Host),
    length clip_hosts = length (animations_to_export ctx) /\
    length tr_hosts = length (transitions (animations_to_export ctx)) /\
    Forall (valid_clip all) (animations_to_export ctx) /\
    let es :=
      rest_entry ctx unit_name h ::
      zip_with (clip_entry all) (animations_to_export ctx) clip_hosts ++
      zip_with transition_entry (transitions (animations_to_export ctx)) tr_hosts in
    files (snd (export_multiple_animations ctx unit_name BIN property_name all h))
    = files h ++
      [BinFile ((unit_name +:+ "_animations") +:+ ".bin")
               (concat (all_matrix_data (locals_of (pose_bones ctx) es)));
       JsFile ((unit_name +:+ "_animations") +:+ ".js")
              (descriptor ctx unit_name (locals_of (pose_bones ctx) es))].
Proof.
  intros Hfin.
  destruct (multi_finished_inv _ _ _ _ _ _ Hfin) as (Harm & Hne & Hvalid & Hsaved).
  destruct (multi_finished ctx unit_name BIN property_name all h
              Harm Hne Hvalid Hsaved)
    as (clip_hosts & tr_hosts & A & h1 & msg & h2 & final & _ & Hrun & Hl1 & Hl2
        & HL & Hdata & _ & _ & _ & _ & _ & _ & Hfiles & _).
  exists clip_hosts, tr_hosts.
  split; [exact Hl1 |]. split; [exact Hl2 |]. split; [exact Hvalid |].
  cbv zeta. rewrite Hrun. simpl. rewrite Hfiles. unfold written_files.
  rewrite Hdata, HL. reflexivity.
Qed.

(** The records of the rest pose and the main clips, then those of the
    transitions. *)
Lemma layout_by_kind (bones : list Bone) (es1 es2 : list Entry) :
  exists R1 R2,
    animation_helpers (locals_of bones (es1 ++ es2)) = R1 ++ R2 /\
    map clip_name R1 = map e_name es1 /\
    map clip_name R2 = map e_name es2.
Proof.
  cbn [locals_of animation_helpers]. rewrite map_app, spec_layout_app.
  eexists _, _. split; [reflexivity |].
  rewrite !spec_layout_names, !map_map. split; reflexivity.
Qed.

(** X7. The helper file of a finished binary multi-export describes the
    clips by parallel arrays: frameCounts, frameSteps, animationRanges and
    animationNames all have animationCount = 1 + n + n*(n-1) entries, in
    the order rest pose, main clips, transitions: the names are
    unit_name + "Rest", the action names and the transition names, the
    counts are 1, the lengths of the clips' frame lists and 10 for every
    transition.  The rest pose and every transition have step 1, a main
    clip has its own step (1 when every frame is exported), a transition
    has range (1, 10); every count is at least 1, the counts add up to
    totalFrames, and the binary file holds totalFrames * numBones * 16
    floats. *)
Theorem multi_export_descriptor (ctx : BlenderContext) (unit_name : string)
    (property_name : string) (all : bool) (h : Host) :
  fst (export_multiple_animations ctx unit_name BIN property_name all h)
    = FINISHED ->
  let sel := animations_to_export ctx in
  let count := (1 + length sel + length sel * (length sel - 1))%nat in
  exists data d,
    files (snd (export_multiple_animations ctx unit_name BIN property_name all h))
    = files h ++
      [BinFile ((unit_name +:+ "_animations") +:+ ".bin") data;
       JsFile ((unit_name +:+ "_animations") +:+ ".js") d] /\
    js_unit d = unit_name /\
    animationCount d = Z.of_nat count /\
    length (frameCounts d) = count /\
    length (frameSteps d) = count /\
    length (animationRanges d) = count /\
    length (animationNames d) = count /\
    animationNames d =
      (unit_name +:+ "Rest")
      :: map (fun s => action_name (sel_action s)) sel ++
         map (fun p => transition_name (fst p) (snd p)) (transitions sel) /\
    frameCounts d =
      1 :: map (fun s => Z.of_nat (length (clip_frames all s))) sel ++
           map (fun _ => 10) (transitions sel) /\
    frameSteps d =
      1 :: map (fun s => if all then 1 else frame_step (sel_item s)) sel ++
           map (fun _ => 1) (transitions sel) /\
    animationRanges d =
      ((if frame_start ctx <=? 0 then 0 else 1),
       (if frame_start ctx <=? 0 then 0 else 1))
      :: map (fun s => clip_range (sel_item s) (sel_action s)) sel ++
         map (fun _ => (1, 10)) (transitions sel) /\
    Forall (fun c => 1 <= c) (frameCounts d) /\
    totalFrames d = foldr Z.add 0 (frameCounts d) /\
    boneNames d = map bone_name (pose_bones ctx) /\
    numBones d = Z.of_nat (length (boneNames d)) /\
    Z.of_nat (length data) = totalFrames d * numBones d * 16.
Proof.
  intros Hfin sel count.
  destruct (multi_finished_bin ctx unit_name property_name all h Hfin)
    as (clip_hosts & tr_hosts & Hl1 & Hl2 & Hvalid & Hfiles).
  cbv zeta in Hfiles. fold sel in Hl1, Hl2, Hvalid, Hfiles.
  set (es := rest_entry ctx unit_name h ::
             zip_with (clip_entry all) sel clip_hosts ++
             zip_with transition_entry (transitions sel) tr_hosts) in *.
  assert (Hlen : length es = count).
  { unfold es, count. cbn [length].
    rewrite length_app, !length_zip_with, Hl1, Hl2.
    unfold sel. rewrite transitions_length. lia. }
  eexists _, _. split; [exact Hfiles |].
  split; [reflexivity |].
  split.
  { cbn [descriptor animationCount locals_of animation_helpers].
    rewrite spec_layout_length, length_map, Hlen. reflexivity. }
  split; [cbn; rewrite length_map; exact Hlen |].
  split; [cbn; rewrite length_map; exact Hlen |].
  split; [cbn; rewrite length_map; exact Hlen |].
  split.
  { cbn [descriptor animationNames locals_of animation_helpers].
    rewrite length_map, spec_layout_length, length_map. exact Hlen. }
  split.
  { cbn [descriptor animationNames].
    rewrite locals_of_names. unfold es.
    cbn [map]. rewrite map_app. f_equal. f_equal.
    - apply map_zip_with_l; [reflexivity | exact Hl1].
    - apply map_zip_with_l; [reflexivity | exact Hl2]. }
  split.
  { cbn [descriptor frameCounts locals_of frame_counts]. unfold es.
    cbn [map]. rewrite map_app. f_equal. f_equal.
    - apply map_zip_with_l; [reflexivity | exact Hl1].
    - apply map_zip_with_l; [reflexivity | exact Hl2]. }
  split.
  { cbn [descriptor frameSteps locals_of frame_steps]. unfold es.
    cbn [map]. rewrite map_app. f_equal. f_equal.
    - apply map_zip_with_l; [reflexivity | exact Hl1].
    - apply map_zip_with_l; [reflexivity | exact Hl2]. }
  split.
  { cbn [descriptor animationRanges locals_of animation_ranges]. unfold es.
    cbn [map]. rewrite map_app. f_equal. f_equal.
    - apply map_zip_with_l; [reflexivity | exact Hl1].
    - apply map_zip_with_l; [reflexivity | exact Hl2]. }
  split.
  { cbn [descriptor frameCounts locals_of frame_counts].
    apply Forall_forall. intros c Hc.
    apply list_elem_of_In, in_map_iff in Hc as (e & <- & He).
    destruct He as [<-|He]; [reflexivity |].
    apply in_app_or in He as [He|He].
    - apply list_elem_of_In, elem_of_lookup_zip_with in He
        as (i & s & hx & -> & Hs & _).
      unfold e_count. simpl.
      assert (Hv : valid_clip all s).
      { eapply Forall_forall in Hvalid; [exact Hvalid |].
        eapply list_elem_of_lookup_2. exact Hs. }
      pose proof (clip_frames_nonempty all s Hv). lia.
    - apply list_elem_of_In, elem_of_lookup_zip_with in He
        as (i & p & hx & -> & _ & _). unfold e_count. simpl. lia. }
  split.
  { cbn [descriptor totalFrames frameCounts locals_of total_frames frame_counts].
    rewrite foldr_counts, map_map. reflexivity. }
  split; [reflexivity |].
  split; [cbn; rewrite length_map; reflexivity |].
  cbn [descriptor totalFrames numBones].
  apply locals_of_payload.
Qed.
End DescriptorFacts.

Section JsCalls.
Context `{PoseSource}.

(** The records of a finished binary multi-export, by kind, and its
    helper file. *)
Lemma finished_records (ctx : BlenderContext) (unit_name : string)
    (property_name : string) (all : bool) (h : Host) :
  fst (export_multiple_animations ctx unit_name BIN property_name all h)
    = FINISHED ->
  exists (R1 R2 : list ClipRecord) (data : list float32) (L : Locals),
    files (snd (export_multiple_animations ctx unit_name BIN property_name all h))
    = files h ++
      [BinFile ((unit_name +:+ "_animations") +:+ ".bin") data;
       JsFile ((unit_name +:+ "_animations") +:+ ".js")
              (descriptor ctx unit_name L)] /\
    animation_helpers L = R1 ++ R2 /\
    assembled_records ctx unit_name all h = Some (R1 ++ R2) /\
    map clip_name R1 =
      (unit_name +:+ "Rest")
      :: map (fun s => action_name (sel_action s)) (animations_to_export ctx) /\
    map clip_name R2 =
      map (fun p => transition_name (fst p) (snd p))
          (transitions (animations_to_export ctx)).
Proof.
  intros Hfin.
  destruct (multi_finished_inv _ _ _ _ _ _ Hfin) as (Harm & Hne & Hvalid & Hsaved).
  destruct (multi_finished ctx unit_name BIN property_name all h
              Harm Hne Hvalid Hsaved)
    as (clip_hosts & tr_hosts & A & h1 & msg & h2 & final & Hasm & Hrun & Hl1 & Hl2
        & HL & Hdata & _ & _ & _ & _ & _ & _ & Hfiles & _).
  destruct (layout_by_kind (pose_bones ctx)
              (rest_entry ctx unit_name h ::
               zip_with (clip_entry all) (animations_to_export ctx) clip_hosts)
              (zip_with transition_entry
                 (transitions (animations_to_export ctx)) tr_hosts))
    as (R1 & R2 & Hrs & Hn1 & Hn2).
  change ((rest_entry ctx unit_name h ::
           zip_with (clip_entry all) (animations_to_export ctx) clip_hosts) ++
          zip_with transition_entry (transitions (animations_to_export ctx)) tr_hosts)
    with (rest_entry ctx unit_name h ::
          zip_with (clip_entry all) (animations_to_export ctx) clip_hosts ++
          zip_with transition_entry (transitions (animations_to_export ctx)) tr_hosts)
    in Hrs.
  rewrite <- HL in Hrs.
  exists R1, R2, (combined_data A), (locals A).
  split.
  { rewrite Hrun. simpl. rewrite Hfiles. reflexivity. }
  split; [exact Hrs |].
  split.
  { unfold assembled_records. rewrite Hasm. simpl. rewrite Hrs. reflexivity. }
  split.
  - rewrite Hn1. cbn [map]. f_equal.
    apply map_zip_with_l; [reflexivity | exact Hl1].
  - rewrite Hn2. apply map_zip_with_l; [reflexivity | exact Hl2].
Qed.

Lemma transition_records_named (R2 : list ClipRecord)
    (pairs : list (Selected * Selected)) :
  map clip_name R2 = map (fun p => transition_name (fst p) (snd p)) pairs ->
  Forall (fun r => is_transition_record r = true) R2.
Proof.
  intros Hn. apply Forall_forall. intros r Hr.
  apply list_elem_of_In, (in_map clip_name) in Hr. rewrite Hn in Hr.
  apply in_map_iff in Hr as ([s d] & Heq & _).
  unfold is_transition_record. rewrite <- Heq. apply contains_separator.
Qed.

Lemma main_records_named (R1 : list ClipRecord) (names : list string) :
  map clip_name R1 = names ->
  Forall (fun n => py_contains "_To_" n = false) names ->
  Forall (fun r => is_transition_record r = false) R1.
Proof.
  intros Hn Hnames. apply Forall_forall. intros r Hr.
  apply list_elem_of_In, (in_map clip_name) in Hr. rewrite Hn in Hr.
  eapply Forall_forall in Hnames; [exact Hnames |].
  apply list_elem_of_In. exact Hr.
Qed.

(** X8. The helper file lists a record with the transitions exactly when
    its name contains "_To_", whatever made the record: a main clip whose
    action name contains "_To_" is written as a transition call and not as
    a main call.  When neither unit_name + "Rest" nor any action name
    contains "_To_", the main calls are the rest pose and the main clips,
    and the transition calls are the transitions, each list in creation
    order. *)
Theorem multi_export_js_calls (ctx : BlenderContext) (unit_name : string)
    (property_name : string) (all : bool) (h : Host) :
  fst (export_multiple_animations ctx unit_name BIN property_name all h)
    = FINISHED ->
  let sel := animations_to_export ctx in
  exists data d records,
    files (snd (export_multiple_animations ctx unit_name BIN property_name all h))
    = files h ++
      [BinFile ((unit_name +:+ "_animations") +:+ ".bin") data;
       JsFile ((unit_name +:+ "_animations") +:+ ".js") d] /\
    assembled_records ctx unit_name all h = Some records /\
    (forall r, In r (js_main_calls d) <->
               In r records /\ py_contains "_To_" (clip_name r) = false) /\
    (forall r, In r (js_transition_calls d) <->
               In r records /\ py_contains "_To_" (clip_name r) = true) /\
    (forall s, In s sel ->
       py_contains "_To_" (action_name (sel_action s)) = true ->
       In (action_name (sel_action s)) (map clip_name (js_transition_calls d)) /\
       ~ In (action_name (sel_action s)) (map clip_name (js_main_calls d))) /\
    (py_contains "_To_" (unit_name +:+ "Rest") = false ->
     Forall (fun s => py_contains "_To_" (action_name (sel_action s)) = false) sel ->
     records = js_main_calls d ++ js_transition_calls d /\
     map clip_name (js_main_calls d) =
       (unit_name +:+ "Rest") :: map (fun s => action_name (sel_action s)) sel /\
     map clip_name (js_transition_calls d) =
       map (fun p => transition_name (fst p) (snd p)) (transitions sel)).
Proof.
  intros Hfin sel.
  destruct (finished_records ctx unit_name property_name all h Hfin)
    as (R1 & R2 & data & L & Hfiles & Hrs & Hrec & Hn1 & Hn2).
  fold sel in Hn1, Hn2.
  exists data, (descriptor ctx unit_name L), (R1 ++ R2).
  split; [exact Hfiles |]. split; [exact Hrec |].
  cbn [descriptor js_main_calls js_transition_calls].
  unfold rest_and_main, transition_records. rewrite Hrs.
  split.
  { intros r. rewrite filter_In. unfold is_transition_record.
    rewrite negb_true_iff. reflexivity. }
  split.
  { intros r. rewrite filter_In. reflexivity. }
  split.
  { intros s Hs Hto.
    assert (Hin : In (action_name (sel_action s)) (map clip_name R1)).
    { rewrite Hn1. right. apply in_map_iff. exists s. split; auto. }
    apply in_map_iff in Hin as (r & Hname & Hr).
    split.
    - apply in_map_iff. exists r. split; [exact Hname |].
      apply filter_In. split; [apply in_or_app; left; exact Hr |].
      unfold is_transition_record. rewrite Hname. exact Hto.
    - intros Hmain. apply in_map_iff in Hmain as (r' & Hname' & Hr').
      apply filter_In in Hr' as [_ Hnot]. unfold is_transition_record in Hnot.
      rewrite Hname', Hto in Hnot. discriminate. }
  intros Hrest Hnames.
  assert (H1 : Forall (fun r => is_transition_record r = false) R1).
  { apply (main_records_named R1 _ Hn1). constructor; [exact Hrest |].
    apply Forall_forall. intros n Hn.
    apply list_elem_of_In, in_map_iff in Hn as (s & <- & Hs).
    eapply Forall_forall in Hnames; [exact Hnames |].
    apply list_elem_of_In. exact Hs. }
  pose proof (transition_records_named R2 _ Hn2) as H2.
  destruct (filter_by_kind is_transition_record R1 R2 H1 H2) as [Ht Hm].
  rewrite Ht, Hm. split; [reflexivity |]. split; assumption.
Qed.
End JsCalls.

Section AdjacencyCalls.
Context `{PoseSource}.

(** X9. With at least two clips whose names are read back as they were
    written (no "_To_" starts inside an action name, and the transition
    names hold no unit_name + "_"), the helper file has one
    setAnimationTransitions call per main clip, in selection order,
    leaving out a clip named unit_name + "Rest"; the call of src maps every
    other clip dst to the transition named src_To_dst. *)
Theorem adjacency_calls_plain_names (ctx : BlenderContext) (unit_name : string)
    (property_name : string) (all : bool) (h : Host) :
  fst (export_multiple_animations ctx unit_name BIN property_name all h)
    = FINISHED ->
  let sel := animations_to_export ctx in
  (2 <= length sel)%nat ->
  py_contains "_To_" (unit_name +:+ "Rest") = false ->
  Forall (fun s => py_contains "_To_" (action_name (sel_action s) +:+ "_To") = false)
         sel ->
  (forall src dst, In (src, dst) (transitions sel) ->
     py_contains (unit_name +:+ "_") (transition_name src dst) = false) ->
  exists data d,
    files (snd (export_multiple_animations ctx unit_name BIN property_name all h))
    = files h ++
      [BinFile ((unit_name +:+ "_animations") +:+ ".bin") data;
       JsFile ((unit_name +:+ "_animations") +:+ ".js") d] /\
    map fst (js_adjacency_calls d) =
      List.filter (fun n => negb (String.eqb n (unit_name +:+ "Rest")))
                  (map (fun s => action_name (sel_action s)) sel) /\
    (forall src dst,
       In (src, dst) (transitions sel) ->
       action_name (sel_action src) <> unit_name +:+ "Rest" ->
       exists inner,
         In (action_name (sel_action src), inner) (js_adjacency_calls d) /\
         dict_get (action_name (sel_action dst)) inner
           = Some (transition_name src dst)).
Proof.
  intros Hfin sel Hn Hrest Hnames Hunit.
  destruct (finished_records ctx unit_name property_name all h Hfin)
    as (R1 & R2 & data & L & Hfiles & Hrs & _ & Hn1 & Hn2).
  fold sel in Hn1, Hn2.
  exists data, (descriptor ctx unit_name L). split; [exact Hfiles |].
  assert (Hplain : Forall (fun s => py_contains "_To_" (action_name (sel_action s))
                                    = false) sel).
  { eapply Forall_impl; [exact Hnames |]. intros s Hs.
    exact (contains_app_false _ _ _ Hs). }
  assert (H1 : Forall (fun r => is_transition_record r = false) R1).
  { apply (main_records_named R1 _ Hn1). constructor; [exact Hrest |].
    apply Forall_forall. intros n Hin.
    apply list_elem_of_In, in_map_iff in Hin as (s & <- & Hs).
    eapply Forall_forall in Hplain; [exact Hplain |].
    apply list_elem_of_In. exact Hs. }
  pose proof (transition_records_named R2 _ Hn2) as H2.
  destruct (filter_by_kind is_transition_record R1 R2 H1 H2) as [Ht Hm].
  assert (Hadj : forall s d, In (s, d) (transitions sel) ->
            adjacency (build_trans_map unit_name R2)
                      (action_name (sel_action s)) (action_name (sel_action d))
            = Some (transition_name s d)).
  { apply (adjacency_of_transitions unit_name R2 (transitions sel)
             (fun s => action_name (sel_action s)) Hn2).
    - intros s d Hin. apply transitions_in in Hin as Hsd.
      destruct Hsd as (Hs & Hd & _).
      apply split_transition_plain.
      + apply Hunit. exact Hin.
      + eapply Forall_forall in Hnames; [exact Hnames |].
        apply list_elem_of_In. exact Hs.
      + eapply Forall_forall in Hplain; [exact Hplain |].
        apply list_elem_of_In. exact Hd.
    - intros s d s' d' _ _ Hs Hd. unfold transition_name.
      rewrite Hs, Hd. reflexivity. }
  cbn [descriptor js_adjacency_calls].
  unfold rest_and_main, transition_records. rewrite Hrs, Ht, Hm, Hn1.
  cbn [List.filter]. rewrite String.eqb_refl. cbn [negb].
  split.
  - apply omap_all_some. intros x Hx.
    apply filter_In in Hx as [Hx _].
    apply in_map_iff in Hx as (s & <- & Hs).
    destruct (other_key sel_pos sel s (selected_positions_NoDup ctx) Hn)
      as (d & Hd & Hne).
    assert (Hin : In (s, d) (transitions sel))
      by (apply transitions_in; repeat split; auto).
    destruct (adjacency_key _ _ _ _ (Hadj s d Hin)) as (inner & Hget & _).
    exists inner. rewrite Hget. reflexivity.
  - intros src dst Hin Hnot.
    destruct (adjacency_key _ _ _ _ (Hadj src dst Hin)) as (inner & Hget & Hdst).
    exists inner. split; [|exact Hdst].
    apply list_elem_of_In, list_elem_of_omap.
    exists (action_name (sel_action src)). split.
    + apply list_elem_of_In, filter_In. split.
      * apply in_map_iff. exists src. split; [reflexivity |].
        apply transitions_in in Hin. tauto.
      * apply negb_true_iff. apply String.eqb_neq. exact Hnot.
    + rewrite Hget. reflexivity.
Qed.

(** X10. Let every action be named unit_name + "_" + short name, with no
    "_To_" in unit_name + "Rest" or in an action name, no "_To_" that
    starts inside a short name, and no unit_name + "_" in short name +
    "_To_" + unit_name (so that removing unit_name + "_" from a transition
    name removes its two prefixes and nothing else).  Then the adjacency
    map is keyed by the short names, because unit_name + "_" is removed
    from the transition names before they are split; the clips are looked
    up under their full names, which are not keys, so the helper file of
    a finished binary multi-export has no setAnimationTransitions call at
    all. *)
Theorem adjacency_calls_prefixed_names (ctx : BlenderContext)
    (unit_name : string) (property_name : string) (all : bool) (h : Host)
    (short : Selected -> string) :
  fst (export_multiple_animations ctx unit_name BIN property_name all h)
    = FINISHED ->
  let sel := animations_to_export ctx in
  py_contains "_To_" (unit_name +:+ "Rest") = false ->
  (forall s, In s sel ->
     action_name (sel_action s) = (unit_name +:+ "_") +:+ short s /\
     py_contains "_To_" (action_name (sel_action s)) = false /\
     py_contains (unit_name +:+ "_") (short s +:+ "_To_" +:+ unit_name) = false /\
     py_contains "_To_" (short s +:+ "_To") = false) ->
  exists data d records,
    files (snd (export_multiple_animations ctx unit_name BIN property_name all h))
    = files h ++
      [BinFile ((unit_name +:+ "_animations") +:+ ".bin") data;
       JsFile ((unit_name +:+ "_animations") +:+ ".js") d] /\
    assembled_records ctx unit_name all h = Some records /\
    (forall src dst, In (src, dst) (transitions sel) ->
       adjacency (build_trans_map unit_name (transition_records records))
                 (short src) (short dst)
       = Some (transition_name src dst)) /\
    js_adjacency_calls d = [].
Proof.
  intros Hfin sel Hrest Hnames.
  destruct (finished_records ctx unit_name property_name all h Hfin)
    as (R1 & R2 & data & L & Hfiles & Hrs & Hrec & Hn1 & Hn2).
  fold sel in Hn1, Hn2.
  exists data, (descriptor ctx unit_name L), (R1 ++ R2).
  split; [exact Hfiles |]. split; [exact Hrec |].
  assert (H1 : Forall (fun r => is_transition_record r = false) R1).
  { apply (main_records_named R1 _ Hn1). constructor; [exact Hrest |].
    apply Forall_forall. intros n Hin.
    apply list_elem_of_In, in_map_iff in Hin as (s & <- & Hs).
    apply (Hnames s Hs). }
  pose proof (transition_records_named R2 _ Hn2) as H2.
  destruct (filter_by_kind is_transition_record R1 R2 H1 H2) as [Ht Hm].
  assert (Hshort : forall s, In s sel ->
            py_contains (unit_name +:+ "_") (short s) = false /\
            py_contains "_To_" (short s) = false).
  { intros s Hs. destruct (Hnames s Hs) as (_ & _ & Hu & Hto). split.
    - exact (contains_app_false _ _ _ Hu).
    - exact (contains_app_false _ _ _ Hto). }
  assert (Hparse : forall s d, In (s, d) (transitions sel) ->
            split_transition unit_name (transition_name s d) = [short s; short d]).
  { intros s d Hin. apply transitions_in in Hin as (Hs & Hd & _).
    destruct (Hnames s Hs) as (Es & _ & Hu & Hto).
    destruct (Hnames d Hd) as (Ed & _).
    destruct (Hshort d Hd) as [Hud Htod].
    unfold transition_name. rewrite Es, Ed.
    apply split_transition_prefixed; assumption. }
  split.
  - unfold transition_records. rewrite Ht.
    apply (adjacency_of_transitions unit_name R2 (transitions sel) short Hn2 Hparse).
    intros s d s' d' Hin Hin' Hs Hd.
    apply transitions_in in Hin as (Hs1 & Hd1 & _).
    apply transitions_in in Hin' as (Hs2 & Hd2 & _).
    unfold transition_name.
    rewrite (proj1 (Hnames s Hs1)), (proj1 (Hnames d Hd1)),
      (proj1 (Hnames s' Hs2)), (proj1 (Hnames d' Hd2)), Hs, Hd.
    reflexivity.
  - cbn [descriptor js_adjacency_calls].
    unfold rest_and_main, transition_records. rewrite Hrs, Ht, Hm, Hn1.
    cbn [List.filter]. rewrite String.eqb_refl. cbn [negb].
    apply omap_all_none. intros x Hx.
    apply filter_In in Hx as [Hx _].
    apply in_map_iff in Hx as (s & <- & Hs).
    assert (Hnone : dict_get (action_name (sel_action s))
                      (build_trans_map unit_name R2) = None).
    { apply dict_get_fold_None; [reflexivity |].
      apply Forall_forall. intros r Hr dst Hp.
      apply list_elem_of_In, (in_map clip_name) in Hr. rewrite Hn2 in Hr.
      apply in_map_iff in Hr as ([s' d'] & Heq & Hin). simpl in Heq.
      unfold parses_to in Hp. rewrite <- Heq, (Hparse s' d' Hin) in Hp.
      inversion Hp as [[Hs' Hd']].
      apply transitions_in in Hin as (Hs1 & _).
      destruct (Hshort s' Hs1) as [Hu _].
      rewrite Hs', (proj1 (Hnames s Hs)), contains_prefixed in Hu.
      discriminate. }
    rewrite Hnone. reflexivity.
Qed.
End AdjacencyCalls.

(** ** The single export, case by case *)

Section SingleExportCases.
Context `{PoseSource}.

Ltac run_calls :=
  match goal with
  | |- context [bind ?m ?k ?hx] =>
      let r := eval cbv [bind perform write_file set_property del_property
                         frame_set mode_set modify ret get lift raise] in (m hx) in
      lazymatch r with
      | (Ok ?a, ?h') => rewrite (bind_run m k hx a h' eq_refl)
      | (Raise ?e, ?h') => rewrite (bind_fail m k hx e h' eq_refl)
      end
  end.

Lemma single_body_not_armature (ctx : BlenderContext) (animation_name : string)
    (use_custom_name : bool) (start_frame end_frame : option Z) (frame_step : Z)
    (all use_full : bool) (export_method : ExportMethod) (property_name : string)
    (h : Host) :
  ~ is_armature ctx ->
  export_single_body ctx animation_name use_custom_name start_frame end_frame
    frame_step all use_full export_method property_name h
  = (Raise not_armature_error, h).
Proof.
  intros Hna. unfold export_single_body.
  rewrite bool_decide_eq_false_2 by exact Hna. reflexivity.
Qed.

Lemma single_body_no_name (ctx : BlenderContext) (animation_name : string)
    (use_custom_name : bool) (start_frame end_frame : option Z) (frame_step : Z)
    (all use_full : bool) (export_method : ExportMethod) (property_name : string)
    (h : Host) :
  is_armature ctx ->
  single_name h animation_name use_custom_name = None ->
  export_single_body ctx animation_name use_custom_name start_frame end_frame
    frame_step all use_full export_method property_name h
  = (Raise name_error, h).
Proof.
  intros Harm Hname. unfold export_single_body.
  rewrite bool_decide_eq_true_2 by exact Harm.
  change (negb true) with false. cbv iota.
  unfold bind at 1. unfold get at 1.
  unfold single_name in Hname. cbv zeta in Hname.
  unfold bind at 1.
  destruct (negb use_custom_name && negb (String.eqb _ "")); [discriminate |].
  destruct (String.eqb animation_name ""); [reflexivity | discriminate].
Qed.

Lemma single_body_no_action (ctx : BlenderContext) (animation_name : string)
    (use_custom_name : bool) (start_frame end_frame : option Z) (frame_step : Z)
    (all : bool) (export_method : ExportMethod) (property_name : string)
    (h : Host) (name : string) :
  is_armature ctx ->
  single_name h animation_name use_custom_name = Some name ->
  current_action h = None ->
  export_single_body ctx animation_name use_custom_name start_frame end_frame
    frame_step all true export_method property_name h
  = (Raise no_action_error, h).
Proof.
  intros Harm Hname Hcur. unfold export_single_body.
  rewrite bool_decide_eq_true_2 by exact Harm.
  change (negb true) with false. cbv iota.
  unfold bind at 1. unfold get at 1.
  unfold single_name in Hname. cbv zeta in Hname.
  unfold bind at 1. rewrite Hcur in *.
  destruct (negb use_custom_name && negb (String.eqb _ "")).
  - unfold ret at 1. unfold bind at 1. reflexivity.
  - destruct (String.eqb animation_name ""); [discriminate |].
    unfold ret at 1. unfold bind at 1. reflexivity.
Qed.

(** The name rule of lines 532-539. *)
Lemma single_name_none (h : Host) (animation_name : string) (use_custom_name : bool) :
  single_name h animation_name use_custom_name = None <->
  animation_name = "" /\
  (use_custom_name = true \/
   match current_action h with
   | Some r => ref_name r = ""
   | None => True
   end).
Proof.
  unfold single_name. cbv zeta.
  destruct use_custom_name; simpl;
    destruct (current_action h) as [r|]; simpl;
    try destruct (String.eqb_spec (ref_name r) ""); simpl;
    try destruct (String.eqb_spec animation_name "");
    split; intros; try discriminate; intuition (congruence || discriminate).
Qed.

(** The sampling part on a range in order. *)
Lemma single_frames_state (ctx : BlenderContext) (name : string)
    (s e step : Z) (all : bool) (export_method : ExportMethod)
    (property_name : string) (h : Host) (frames : list Z) :
  s <= e ->
  frames_to_export s e step all = Ok frames ->
  (export_method = BIN -> filepath ctx <> "") ->
  exists h',
    export_single_frames ctx name s e step all export_method property_name h
    = (Ok (msg_single (Z.of_nat (length frames))
                      (Z.of_nat (length (pose_bones ctx)))), h') /\
    frame_current h' = frame_current h /\
    mode h' = OBJECT /\
    animation_data h' = animation_data h /\
    new_actions h' = new_actions h /\
    messages h' = messages h /\
    match export_method with
    | BIN =>
        id_properties h' = id_properties h /\
        exists d,
          files h' = files h ++
            [BinFile (single_base_filename name s e step all frames +:+ ".bin")
                     (spec_pack (pose_bones ctx) frames h);
             SingleJsFile (single_base_filename name s e step all frames +:+ ".js")
                          d] /\
          sd_name d = name /\
          sd_numFrames d = Z.of_nat (length frames) /\
          sd_numBones d = Z.of_nat (length (pose_bones ctx)) /\
          sd_startFrame d = s /\ sd_endFrame d = e /\
          sd_frameStep d = step /\ sd_exportAllFrames d = all /\
          sd_boneNames d = map bone_name (pose_bones ctx) /\
          sd_last_index d = Z.of_nat (length frames) - 1
    | PROPERTY =>
        files h' = files h /\
        id_properties h' =
        <[property_name +:+ "_numBones" :=
            prop_int (Z.of_nat (length (pose_bones ctx)))]>
        (<[property_name +:+ "_numFrames" := prop_int (Z.of_nat (length frames))]>
        (<[property_name := prop_floats (spec_pack (pose_bones ctx) frames h)]>
        (delete property_name (id_properties h))))
    end.
Proof.
  intros Hle Hframes Hsaved. unfold export_single_frames.
  destruct (Z.gtb_spec s e); [lia |].
  run_calls. cbv zeta. rewrite Hframes.
  run_calls.
  rewrite (bind_run _ _ _ _ _ (bake_frames_ok _ _ _)).
  assert (Hsteady : steady h (after_frames frames h))
    by apply steady_after_frames, steady_refl.
  destruct Hsteady as (F & P & Ms).
  pose proof (animation_data_after_frames frames h) as Hd.
  pose proof (new_actions_after_frames frames h) as Hn.
  destruct export_method.
  - destruct (String.eqb_spec (filepath ctx) "") as [Hempty|_].
    { exfalso. apply (Hsaved eq_refl). exact Hempty. }
    do 3 run_calls. eexists. split; [reflexivity |]. simpl.
    split; [reflexivity |]. split; [reflexivity |]. split; [exact Hd |].
    split; [exact Hn |]. split; [exact Ms |]. split; [exact P |].
    eexists. split.
    + rewrite F, <- app_assoc. reflexivity.
    + repeat split.
  - do 3 run_calls. eexists. split; [reflexivity |]. simpl.
    split; [reflexivity |]. split; [reflexivity |]. split; [exact Hd |].
    split; [exact Hn |]. split; [exact Ms |]. split; [exact F |].
    rewrite P. reflexivity.
Qed.

Lemma single_frames_unsaved (ctx : BlenderContext) (name : string)
    (s e step : Z) (all : bool) (property_name : string) (h : Host)
    (frames : list Z) :
  s <= e ->
  frames_to_export s e step all = Ok frames ->
  filepath ctx = "" ->
  export_single_frames ctx name s e step all BIN property_name h
  = (Raise unsaved_error, after_frames frames h).
Proof.
  intros Hle Hframes Hempty. unfold export_single_frames.
  destruct (Z.gtb_spec s e); [lia |].
  run_calls. cbv zeta. rewrite Hframes.
  run_calls.
  rewrite (bind_run _ _ _ _ _ (bake_frames_ok _ _ _)).
  rewrite Hempty. reflexivity.
Qed.

Lemma single_frames_sampler_error (ctx : BlenderContext) (name : string)
    (s e step : Z) (all : bool) (export_method : ExportMethod)
    (property_name : string) (h : Host) (x : exn) :
  s <= e ->
  frames_to_export s e step all = Raise x ->
  export_single_frames ctx name s e step all export_method property_name h
  = (Raise x, h).
Proof.
  intros Hle Hframes. unfold export_single_frames.
  destruct (Z.gtb_spec s e); [lia |].
  run_calls. cbv zeta. rewrite Hframes. reflexivity.
Qed.

(** With an armature and a name, a range is settled unless the full range
    is asked for and no action is active. *)
Lemma single_range_none (ctx : BlenderContext) (h : Host)
    (start_frame end_frame : option Z) (use_full : bool) :
  single_range ctx h start_frame end_frame use_full = None <->
  use_full = true /\ current_action h = None.
Proof.
  unfold single_range. destruct use_full.
  - destruct (current_action h); split; try discriminate; try tauto.
    intros [_ ?]. discriminate.
  - split; [discriminate | intros [? _]; discriminate].
Qed.
End SingleExportCases.

(** * The calls of a run *)

Section CallFacts.
Context `{PoseSource}.

Lemma extends_refl (h : Host) : extends h h.
Proof. exists []. reflexivity. Qed.

Lemma extends_trans (h1 h2 h3 : Host) : extends h1 h2 -> extends h2 h3 -> extends h1 h3.
Proof.
  intros [o1 H1] [o2 H2]. exists (o2 ++ o1). rewrite H2, H1, app_assoc. reflexivity.
Qed.

Lemma extends_same (h h' : Host) : history h' = history h -> extends h h'.
Proof. intros E. exists []. exact E. Qed.

Lemma extends_log (op : HostOp) (h h' : Host) : extends h h' -> extends h (log op h').
Proof. intros [o E]. exists (op :: o). simpl. rewrite E. reflexivity. Qed.

Lemma grows_ret {A} (a : A) : grows (ret a).
Proof. intros h. apply extends_refl. Qed.

Lemma grows_raise {A} (e : exn) : grows (@raise _ A e).
Proof. intros h. apply extends_refl. Qed.

Lemma grows_lift {A} (r : result A) : grows (lift r).
Proof. intros h. apply extends_refl. Qed.

Lemma grows_get : grows get.
Proof. intros h. apply extends_refl. Qed.

Lemma grows_modify (f : Host -> Host) : (forall h, extends h (f h)) -> grows (modify f).
Proof. intros Hf h. apply Hf. Qed.

Lemma grows_bind {A B} (m : M A) (k : A -> M B) :
  grows m -> (forall a, grows (k a)) -> grows (bind m k).
Proof.
  intros Hm Hk h. unfold bind. specialize (Hm h).
  destruct (m h) as [[a|e] h1]; simpl in *.
  - eapply extends_trans; [exact Hm | apply Hk].
  - exact Hm.
Qed.

Lemma grows_for_each {A S} (l : list A) (body : A -> S -> M S) :
  (forall a s, grows (body a s)) -> forall s, grows (for_each l body s).
Proof.
  intros Hb. induction l as [|a l IH]; intros s; simpl.
  - apply grows_ret.
  - apply grows_bind; [apply Hb | exact IH].
Qed.

Lemma grows_frame_set (f : Z) : grows (frame_set f).
Proof. apply grows_modify. intros h. apply extends_log, extends_same. reflexivity. Qed.

Lemma grows_perform (op : HostOp) : grows (perform op).
Proof. apply grows_modify. intros h. apply extends_log, extends_refl. Qed.

Lemma grows_mode_set (m : Mode) : grows (mode_set m).
Proof. apply grows_modify. intros h. apply extends_log, extends_same. reflexivity. Qed.

Lemma grows_ensure : grows ensure_animation_data.
Proof.
  intros h. rewrite ensure_run. simpl. unfold ensured.
  destruct (animation_data h); [apply extends_refl |].
  apply extends_log, extends_same. reflexivity.
Qed.

Lemma grows_set_action (a : ActionRef) : grows (set_action a).
Proof.
  intros h. unfold set_action, bind, get.
  destruct (animation_data h); [|apply extends_refl].
  simpl. apply extends_log, extends_same. reflexivity.
Qed.

Lemma grows_restore_action (o : option ActionRef) : grows (restore_action o).
Proof.
  intros h. unfold restore_action, bind, get.
  destruct (animation_data h) eqn:E; [destruct o |]; try apply extends_refl.
  apply grows_set_action.
Qed.

Lemma grows_actions_new (name : string) : grows (actions_new name).
Proof. intros h. rewrite actions_new_run. apply extends_log, extends_refl. Qed.

Lemma grows_keyframe_all (bones : list Bone) (frame : Z) :
  grows (keyframe_all bones frame).
Proof.
  unfold keyframe_all. apply grows_for_each. intros b [].
  repeat (apply grows_bind; [apply grows_perform | intros _]).
  apply grows_perform.
Qed.

Lemma grows_bake_frames (bones : list Bone) (frames : list Z) :
  grows (bake_frames bones frames).
Proof.
  intros h. rewrite bake_frames_ok. simpl. revert h.
  induction frames as [|f frames IH]; intros h; [apply extends_refl |].
  simpl. eapply extends_trans; [|apply IH].
  apply extends_log, extends_same. reflexivity.
Qed.

Lemma grows_export_transition (ctx : BlenderContext) (p : Selected * Selected)
    (L : Locals) : grows (export_transition ctx p L).
Proof.
  destruct p as [src dst]. unfold export_transition.
  repeat first
    [ apply grows_actions_new | apply grows_ensure | apply grows_set_action
    | apply grows_frame_set | apply grows_perform | apply grows_mode_set
    | apply grows_keyframe_all | apply grows_lift | apply grows_bake_frames
    | apply grows_ret
    | apply grows_bind; [|intros ?] ].
Qed.

Lemma grows_write_file (f : File) : grows (write_file f).
Proof. apply grows_modify. intros h. apply extends_same. reflexivity. Qed.

Lemma grows_set_property (key : string) (v : IdProp) : grows (set_property key v).
Proof. apply grows_modify. intros h. apply extends_same. reflexivity. Qed.

Lemma grows_del_property (key : string) : grows (del_property key).
Proof. apply grows_modify. intros h. apply extends_same. reflexivity. Qed.

Lemma history_after_frames (frames : list Z) (h : Host) :
  history (after_frames frames h) = rev (map op_frame_set frames) ++ history h.
Proof.
  revert h. induction frames as [|f frames IH]; intros h; [reflexivity |].
  cbn [after_frames foldl map rev]. fold (after_frames frames (at_frame f h)).
  rewrite IH, <- app_assoc. reflexivity.
Qed.

(** The single export's calls begin with one [scene.frame_set] per frame
    of the list, in order. *)
Lemma single_frames_calls (ctx : BlenderContext) (name : string)
    (s e step : Z) (all : bool) (export_method : ExportMethod)
    (property_name : string) (h : Host) (frames : list Z) :
  s <= e ->
  frames_to_export s e step all = Ok frames ->
  exists ops,
    history (snd (export_single_frames ctx name s e step all export_method
                    property_name h))
    = ops ++ rev (map op_frame_set frames) ++ history h.
Proof.
  intros Hse Hframes. unfold export_single_frames.
  destruct (Z.gtb_spec s e); [lia |].
  unfold bind at 1. unfold get at 1.
  unfold lift at 1. unfold bind at 1. rewrite Hframes.
  rewrite (bind_run _ _ _ _ _ (bake_frames_ok _ _ _)).
  match goal with
  | |- context [bind ?c ?k ?hx] =>
      assert (Hg : grows (bind c k));
      [|destruct (Hg hx) as [ops Hops]; exists ops;
        rewrite Hops, history_after_frames; reflexivity]
  end.
  apply grows_bind.
  - destruct export_method.
    + destruct (String.eqb (filepath ctx) ""); [apply grows_raise |].
      repeat first
        [ apply grows_perform | apply grows_write_file | apply grows_ret
        | apply grows_bind; [|intros ?] ].
    + repeat first
        [ apply grows_set_property | apply grows_del_property | apply grows_ret
        | apply grows_bind; [|intros ?] ].
  - intros msg.
    repeat first
      [ apply grows_frame_set | apply grows_mode_set | apply grows_ret
      | apply grows_bind; [|intros ?] ].
Qed.

Lemma grows_export_clip (bones : list Bone) (all : bool) (s : Selected) (L : Locals) :
  grows (export_clip bones all s L).
Proof.
  unfold export_clip.
  apply grows_bind; [apply grows_ensure | intros _].
  apply grows_bind; [apply grows_set_action | intros _].
  destruct (clip_range (sel_item s) (sel_action s)) as [start_frame end_frame].
  destruct (start_frame >? end_frame); [apply grows_raise |].
  apply grows_bind; [apply grows_lift | intros frames].
  apply grows_bind; [apply grows_bake_frames | intros m].
  apply grows_ret.
Qed.

Ltac run_call_step :=
  first
    [ rewrite (bind_run _ _ _ _ _ (frame_set_run _ _))
    | rewrite (bind_run _ _ _ _ _ (perform_run _ _))
    | rewrite (bind_run _ _ _ _ _ (mode_set_run _ _))
    | rewrite (bind_run _ _ _ _ _ (actions_new_run _ _))
    | erewrite bind_run by (apply set_action_run; simpl; eauto) ].

(** One transition, on an armature that has animation data: its first
    calls are those that read the source pose. *)
Lemma export_transition_calls (ctx : BlenderContext) (src dst : Selected)
    (L : Locals) (h : Host) :
  is_Some (animation_data h) ->
  exists serial ops,
    history (snd (export_transition ctx (src, dst) L h))
    = ops ++
      rev (source_pose_calls src dst
             (last_frame (sel_item src) (sel_action src)) serial) ++
      history h.
Proof.
  intros [d Hd]. unfold export_transition.
  run_call_step.
  rewrite (bind_run _ _ _ _ _ (ensure_run _)).
  assert (He : ensured (log (op_actions_new (transition_name src dst)) h)
               = log (op_actions_new (transition_name src dst)) h).
  { unfold ensured. simpl. rewrite Hd. reflexivity. }
  rewrite He.
  erewrite bind_run by (apply set_action_run; simpl; rewrite Hd; eauto).
  do 8 run_call_step.
  match goal with
  | |- context [bind ?c ?k ?hx] =>
      assert (Hg : grows (bind c k));
      [|destruct (Hg hx) as [ops Hops];
        exists (length (List.filter is_actions_new (history h))), ops;
        rewrite Hops; reflexivity]
  end.
  repeat first
    [ apply grows_actions_new | apply grows_ensure | apply grows_set_action
    | apply grows_frame_set | apply grows_perform | apply grows_mode_set
    | apply grows_keyframe_all | apply grows_lift | apply grows_bake_frames
    | apply grows_ret
    | apply grows_bind; [|intros ?] ].
Qed.

(** The transitions loop: every transition's calls are among the calls of
    the loop. *)
Lemma transitions_calls (ctx : BlenderContext) (pairs : list (Selected * Selected)) :
  forall (L : Locals) (h : Host),
    is_Some (animation_data h) ->
    forall src dst, In (src, dst) pairs ->
      exists serial post pre,
        history (snd (for_each pairs (export_transition ctx) L h))
        = post ++
          rev (source_pose_calls src dst
                 (last_frame (sel_item src) (sel_action src)) serial) ++
          pre ++ history h.
Proof.
  induction pairs as [|[s d] pairs IH]; intros L h Hd src dst Hin; [destruct Hin |].
  destruct (export_transition_state ctx s d L h) as (L1 & hb & Hrun & _ & [k Hk] & _).
  assert (Hd1 : is_Some (animation_data (after_frames transition_positions hb))).
  { rewrite animation_data_after_frames, Hk. eauto. }
  cbn [for_each]. rewrite (bind_run _ _ _ _ _ Hrun).
  destruct Hin as [E|Hin].
  - inversion E; subst s d.
    destruct (export_transition_calls ctx src dst L h Hd) as (serial & ops & Hops).
    rewrite Hrun in Hops. cbn [snd] in Hops.
    destruct (grows_for_each pairs (export_transition ctx)
                (grows_export_transition ctx) L1
                (after_frames transition_positions hb)) as [ops' Hops'].
    exists serial, (ops' ++ ops), [].
    rewrite Hops', Hops, <- app_assoc. reflexivity.
  - destruct (IH L1 _ Hd1 src dst Hin) as (serial & post & pre & Hh).
    destruct (grows_export_transition ctx (s, d) L h) as [ops1 Hops1].
    rewrite Hrun in Hops1. cbn [snd] in Hops1.
    exists serial, post, (pre ++ ops1).
    rewrite Hh, Hops1, <- app_assoc. reflexivity.
Qed.

(** The assembly phase: the calls of every transition are among its
    calls. *)
Lemma assemble_calls (ctx : BlenderContext) (unit_name : string) (all : bool)
    (h : Host) :
  is_armature ctx ->
  animations_to_export ctx <> [] ->
  Forall (valid_clip all) (animations_to_export ctx) ->
  forall src dst, In (src, dst) (transitions (animations_to_export ctx)) ->
    exists serial before after,
      rev (history (snd (assemble ctx unit_name all h)))
      = rev (history h) ++ before ++
        source_pose_calls src dst
          (last_frame (sel_item src) (sel_action src)) serial ++
        after.
Proof.
  intros Harm Hne Hvalid src dst Hin. unfold assemble.
  rewrite bool_decide_eq_true_2 by exact Harm. cbv [negb].
  destruct (animations_to_export ctx) as [|s0 sel0] eqn:Esel; [congruence |].
  rewrite <- Esel in *. clear Hne.
  unfold bind at 1. unfold get at 1.
  rewrite (bind_run _ _ _ _ _ (collect_matrices_at_frame_ok _ _ _)).
  fold (rest_frame ctx).
  assert (Hrest : forall hx,
    {| all_matrix_data := [spec_frame (pose_bones ctx) (at_frame (rest_frame ctx) hx)];
       frame_counts := [1];
       frame_steps := [1];
       animation_ranges := [(rest_frame ctx, rest_frame ctx)];
       total_frames := 1;
       animation_helpers :=
         [{| clip_name := unit_name +:+ "Rest"; start_idx := 0; end_idx := 0 |}] |}
    = locals_of (pose_bones ctx) [rest_entry ctx unit_name hx]).
  { intros hx. unfold locals_of, e_chunk. simpl. rewrite app_nil_r. reflexivity. }
  rewrite Hrest.
  destruct (clips_loop (pose_bones ctx) all (animations_to_export ctx) Hvalid
              [rest_entry ctx unit_name h] (at_frame (rest_frame ctx) h))
    as (clip_hosts & h1 & Hlen1 & Hact1 & Hs1 & Hcur & Hrun1).
  destruct (grows_for_each (animations_to_export ctx)
              (export_clip (pose_bones ctx) all)
              (grows_export_clip (pose_bones ctx) all)
              (locals_of (pose_bones ctx) [rest_entry ctx unit_name h])
              (at_frame (rest_frame ctx) h)) as [ops1 Hops1].
  rewrite Hrun1 in Hops1. cbn [snd] in Hops1.
  rewrite (bind_run _ _ _ _ _ Hrun1).
  unfold bind at 1. unfold get at 1.
  assert (Hd1 : is_Some (animation_data h1)).
  { specialize (Hcur ltac:(rewrite Esel; discriminate)).
    unfold current_action in Hcur.
    destruct (animation_data h1); [eauto |].
    rewrite Esel in Hcur. destruct (last (s0 :: sel0)) eqn:El; [discriminate |].
    apply last_None in El. discriminate. }
  destruct (transitions_loop ctx (transitions (animations_to_export ctx))
              ([rest_entry ctx unit_name h] ++
               zip_with (clip_entry all) (animations_to_export ctx) clip_hosts) h1)
    as (tr_hosts & h2 & Hlen2 & Hact2 & Hs2 & Hrun2).
  destruct (transitions_calls ctx (transitions (animations_to_export ctx))
              (locals_of (pose_bones ctx)
                 ([rest_entry ctx unit_name h] ++
                  zip_with (clip_entry all) (animations_to_export ctx) clip_hosts))
              h1 Hd1 src dst Hin) as (serial & post & pre & Hh2).
  rewrite Hrun2 in Hh2. cbn [snd] in Hh2.
  rewrite (bind_run _ _ _ _ _ Hrun2).
  destruct (restore_action_run (current_action h1) h2) as (h3 & Hrun3 & _).
  destruct (grows_restore_action (current_action h1) h2) as [ops3 Hops3].
  rewrite Hrun3 in Hops3. cbn [snd] in Hops3.
  rewrite (bind_run _ _ _ _ _ Hrun3).
  exists serial, ([op_frame_set (rest_frame ctx)] ++ rev ops1 ++ rev pre),
         (rev post ++ rev ops3).
  cbn [snd ret]. rewrite Hops3, Hh2, Hops1.
  change (history (at_frame (rest_frame ctx) h))
    with (op_frame_set (rest_frame ctx) :: history h).
  rewrite !rev_app_distr, rev_involutive. cbn [rev].
  rewrite <- !app_assoc. reflexivity.
Qed.
End CallFacts.

Section SingleExportProperties.
Context `{PoseSource}.

(** Every single export is in exactly one of seven cases. *)
Lemma single_export_cases (ctx : BlenderContext) (animation_name : string)
    (use_custom_name : bool) (start_frame end_frame : option Z) (frame_step : Z)
    (all use_full : bool) (export_method : ExportMethod) (property_name : string)
    (h : Host) :
  let r := export_animation_frames_raw ctx animation_name use_custom_name
             start_frame end_frame frame_step all use_full export_method
             property_name h in
  (~ is_armature ctx /\
   r = (CANCELLED, show_message true (msg_failed not_armature_error) h)) \/
  (is_armature ctx /\ single_name h animation_name use_custom_name = None /\
   r = (CANCELLED, show_message true (msg_failed name_error) h)) \/
  (is_armature ctx /\ use_full = true /\ current_action h = None /\
   r = (CANCELLED, show_message true (msg_failed no_action_error) h)) \/
  (exists name s e,
     is_armature ctx /\
     single_name h animation_name use_custom_name = Some name /\
     single_range ctx h start_frame end_frame use_full = Some (s, e) /\
     ((e < s /\
       r = (CANCELLED, show_message true (msg_failed single_range_error) h)) \/
      (s <= e /\ exists x,
         frames_to_export s e frame_step all = Raise x /\
         r = (CANCELLED, show_message true (msg_failed x) h)) \/
      (s <= e /\ exists frames,
         frames_to_export s e frame_step all = Ok frames /\
         last frames = Some e /\
         export_method = BIN /\ filepath ctx = "" /\
         r = (CANCELLED,
              show_message true (msg_failed unsaved_error) (after_frames frames h))) \/
      (s <= e /\ exists frames,
         frames_to_export s e frame_step all = Ok frames /\
         (export_method = BIN -> filepath ctx <> "") /\
         exists h',
           export_single_frames ctx name s e frame_step all export_method
             property_name h
           = (Ok (msg_single (Z.of_nat (length frames))
                             (Z.of_nat (length (pose_bones ctx)))), h') /\
           r = (FINISHED,
                show_message false
                  (msg_single (Z.of_nat (length frames))
                              (Z.of_nat (length (pose_bones ctx)))) h')))).
Proof.
  intros r. subst r. unfold export_animation_frames_raw, run_export.
  destruct (decide (object_type ctx = Some "ARMATURE")) as [Harm|Hna].
  2:{ left. split; [exact Hna |].
      rewrite single_body_not_armature by exact Hna. reflexivity. }
  right.
  destruct (single_name h animation_name use_custom_name) as [name|] eqn:Hname.
  2:{ left. split; [exact Harm |]. split; [reflexivity |].
      rewrite single_body_no_name by assumption. reflexivity. }
  right.
  destruct (single_range ctx h start_frame end_frame use_full) as [[s e]|] eqn:Hrange.
  2:{ left. apply single_range_none in Hrange as [-> Hcur].
      split; [exact Harm |]. split; [reflexivity |]. split; [exact Hcur |].
      rewrite (single_body_no_action ctx animation_name use_custom_name start_frame
                 end_frame frame_step all export_method property_name h name
                 Harm Hname Hcur).
      reflexivity. }
  right. exists name, s, e.
  split; [exact Harm |]. split; [reflexivity |]. split; [reflexivity |].
  rewrite (export_single_prefix ctx animation_name use_custom_name start_frame
             end_frame frame_step all use_full export_method property_name
             h name s e Harm Hname Hrange).
  destruct (Z_lt_dec e s) as [Hrev|Hle].
  { left. split; [exact Hrev |].
    rewrite export_single_frames_reversed by exact Hrev. reflexivity. }
  right. assert (Hse : s <= e) by lia.
  destruct (frames_to_export s e frame_step all) as [frames|x] eqn:Hframes.
  2:{ left. split; [exact Hse |]. exists x. split; [reflexivity |].
      rewrite (single_frames_sampler_error ctx name s e frame_step all
                 export_method property_name h x Hse Hframes).
      reflexivity. }
  right.
  assert (Hlast : last frames = Some e).
  { destruct all.
    - destruct (sampler_ends s e frame_step true Hse (or_introl eq_refl))
        as (fr & Hf & Hl). rewrite Hframes in Hf. inversion Hf; subst. exact Hl.
    - destruct (Z_lt_dec frame_step 1) as [Hbad|Hok].
      + exfalso. destruct (Z.eq_dec frame_step 0) as [->|Hnz].
        * rewrite frames_to_export_zero_step in Hframes. discriminate.
        * rewrite frames_to_export_negative_step in Hframes by lia. discriminate.
      + destruct (sampler_ends s e frame_step false Hse ltac:(right; lia))
          as (fr & Hf & Hl). rewrite Hframes in Hf. inversion Hf; subst. exact Hl. }
  assert (Hcase : (export_method = BIN /\ filepath ctx = "") \/
                  (export_method = BIN -> filepath ctx <> "")).
  { destruct export_method; [|right; discriminate].
    destruct (String.string_dec (filepath ctx) ""); [left; auto | right; auto]. }
  destruct Hcase as [[-> Hempty]|Hsaved].
  - left. split; [exact Hse |]. exists frames.
    split; [reflexivity |]. split; [exact Hlast |].
    split; [reflexivity |]. split; [exact Hempty |].
    rewrite (single_frames_unsaved ctx name s e frame_step all property_name h
               frames Hse Hframes Hempty).
    reflexivity.
  - right. split; [exact Hse |]. exists frames.
    split; [reflexivity |]. split; [exact Hsaved |].
    destruct (single_frames_state ctx name s e frame_step all export_method
                property_name h frames Hse Hframes Hsaved) as (h' & Hrun & _).
    exists h'. split; [exact Hrun |]. rewrite Hrun. reflexivity.
Qed.

(** When the single export finishes. *)
Lemma single_finished_iff (ctx : BlenderContext) (animation_name : string)
    (use_custom_name : bool) (start_frame end_frame : option Z) (frame_step : Z)
    (all use_full : bool) (export_method : ExportMethod) (property_name : string)
    (h : Host) :
  fst (export_animation_frames_raw ctx animation_name use_custom_name
         start_frame end_frame frame_step all use_full export_method
         property_name h) = FINISHED
  <-> is_armature ctx /\
      exists name s e,
        single_name h animation_name use_custom_name = Some name /\
        single_range ctx h start_frame end_frame use_full = Some (s, e) /\
        s <= e /\ (all = true \/ 1 <= frame_step) /\
        (export_method = BIN -> filepath ctx <> "").
Proof.
  split.
  + intros Hfin.
    destruct (single_export_cases ctx animation_name use_custom_name start_frame
                end_frame frame_step all use_full export_method property_name h)
      as [[_ Hr]|[(_ & _ & Hr)|[(_ & _ & _ & Hr)
         |(name & s & e & Harm & Hname & Hrange & Hcases)]]];
      cbv zeta in *; try (rewrite Hr in Hfin; discriminate).
    destruct Hcases as [[_ Hr]|[(_ & x & _ & Hr)
      |[(_ & frames & _ & _ & _ & _ & Hr)
       |(Hse & frames & Hframes & Hsaved & _)]]];
      try (rewrite Hr in Hfin; discriminate).
    split; [exact Harm |]. exists name, s, e.
    repeat split; try assumption.
    destruct all; [left; reflexivity | right].
    destruct (Z_lt_dec frame_step 1) as [Hbad|]; [exfalso | lia].
    destruct (Z.eq_dec frame_step 0) as [->|Hnz].
    * rewrite frames_to_export_zero_step in Hframes. discriminate.
    * rewrite frames_to_export_negative_step in Hframes by lia. discriminate.
  + intros (Harm & name & s & e & Hname & Hrange & Hse & Hstep & Hsaved).
    unfold export_animation_frames_raw, run_export.
    rewrite (export_single_prefix ctx animation_name use_custom_name start_frame
               end_frame frame_step all use_full export_method property_name
               h name s e Harm Hname Hrange).
    destruct (sampler_ends s e frame_step all Hse Hstep) as (frames & Hframes & _).
    destruct (single_frames_state ctx name s e frame_step all export_method
                property_name h frames Hse Hframes Hsaved) as (h' & Hrun & _).
    rewrite Hrun. reflexivity.
Qed.

(** The run of a single export whose checks all pass. *)
Lemma single_finished_run (ctx : BlenderContext) (animation_name : string)
    (use_custom_name : bool) (start_frame end_frame : option Z) (frame_step : Z)
    (all use_full : bool) (export_method : ExportMethod) (property_name : string)
    (h : Host) (name : string) (s e : Z) :
  is_armature ctx ->
  single_name h animation_name use_custom_name = Some name ->
  single_range ctx h start_frame end_frame use_full = Some (s, e) ->
  s <= e -> all = true \/ 1 <= frame_step ->
  (export_method = BIN -> filepath ctx <> "") ->
  exists frames h',
    frames_to_export s e frame_step all = Ok frames /\
    last frames = Some e /\
    export_single_frames ctx name s e frame_step all export_method property_name h
    = (Ok (msg_single (Z.of_nat (length frames))
                      (Z.of_nat (length (pose_bones ctx)))), h') /\
    export_animation_frames_raw ctx animation_name use_custom_name
      start_frame end_frame frame_step all use_full export_method property_name h
    = (FINISHED,
       show_message false
         (msg_single (Z.of_nat (length frames))
                     (Z.of_nat (length (pose_bones ctx)))) h').
Proof.
  intros Harm Hname Hrange Hse Hstep Hsaved.
  destruct (sampler_ends s e frame_step all Hse Hstep) as (frames & Hframes & Hlast).
  destruct (single_frames_state ctx name s e frame_step all export_method
              property_name h frames Hse Hframes Hsaved) as (h' & Hrun & _).
  exists frames, h'. split; [exact Hframes |]. split; [exact Hlast |].
  split; [exact Hrun |].
  unfold export_animation_frames_raw, run_export.
  rewrite (export_single_prefix ctx animation_name use_custom_name start_frame
             end_frame frame_step all use_full export_method property_name
             h name s e Harm Hname Hrange).
  rewrite Hrun. reflexivity.
Qed.

(** X11. The checks of the single export are made in a fixed order:
    armature, name, action for the full range, range, sampler, unsaved
    file.  It finishes only when all of them pass, and the first one that
    fails cancels it with its message.  The name check fails when no name
    was given and either a custom name was asked for or the armature has
    no named action; the range check comes before any frame is set, so up
    to there a failure leaves the scene as it was, while the unsaved-file
    check comes after the sampling and leaves the scene at the end frame
    (an end frame that the host accepts). *)
Theorem single_export_decision (ctx : BlenderContext) (animation_name : string)
    (use_custom_name : bool) (start_frame end_frame : option Z) (frame_step : Z)
    (all use_full : bool) (export_method : ExportMethod) (property_name : string)
    (h : Host) :
  (fst (export_animation_frames_raw ctx animation_name use_custom_name
          start_frame end_frame frame_step all use_full export_method
          property_name h) = FINISHED
   -> is_armature ctx /\
      exists name s e,
        single_name h animation_name use_custom_name = Some name /\
        single_range ctx h start_frame end_frame use_full = Some (s, e) /\
        s <= e /\ (all = true \/ 1 <= frame_step) /\
        (export_method = BIN -> filepath ctx <> "")) /\
  (~ is_armature ctx ->
   export_animation_frames_raw ctx animation_name use_custom_name
     start_frame end_frame frame_step all use_full export_method property_name h
   = (CANCELLED, show_message true (msg_failed not_armature_error) h)) /\
  (is_armature ctx ->
   animation_name = "" ->
   use_custom_name = true \/
   match current_action h with
   | Some a => ref_name a = ""
   | None => True
   end ->
   export_animation_frames_raw ctx animation_name use_custom_name
     start_frame end_frame frame_step all use_full export_method property_name h
   = (CANCELLED, show_message true (msg_failed name_error) h)) /\
  (is_armature ctx ->
   forall name,
     single_name h animation_name use_custom_name = Some name ->
     (use_full = true -> current_action h = None ->
      export_animation_frames_raw ctx animation_name use_custom_name
        start_frame end_frame frame_step all use_full export_method property_name h
      = (CANCELLED, show_message true (msg_failed no_action_error) h)) /\
     (forall s e,
        single_range ctx h start_frame end_frame use_full = Some (s, e) ->
        (e < s ->
         export_animation_frames_raw ctx animation_name use_custom_name
           start_frame end_frame frame_step all use_full export_method
           property_name h
         = (CANCELLED, show_message true (msg_failed single_range_error) h)) /\
        (s <= e -> all = false -> frame_step < 1 ->
         export_animation_frames_raw ctx animation_name use_custom_name
           start_frame end_frame frame_step all use_full export_method
           property_name h
         = (CANCELLED,
            show_message true
              (msg_failed (if decide (frame_step = 0) then ValueError
                           else IndexError)) h)) /\
        (s <= e -> all = true \/ 1 <= frame_step ->
         export_method = BIN -> filepath ctx = "" ->
         exists h',
           export_animation_frames_raw ctx animation_name use_custom_name
             start_frame end_frame frame_step all use_full export_method
             property_name h
           = (CANCELLED, show_message true (msg_failed unsaved_error) h') /\
           (host_frame e -> frame_current h' = e) /\
           files h' = files h /\ id_properties h' = id_properties h))).
Proof.
  split; [|split; [|split; [|intros Harm name Hname; split; [|intros s e Hrange;
    split; [|split]]]]].
  - apply single_finished_iff.
  - intros Hna. unfold export_animation_frames_raw, run_export.
    rewrite single_body_not_armature by exact Hna. reflexivity.
  - intros Harm Hempty Hwhy. unfold export_animation_frames_raw, run_export.
    rewrite single_body_no_name; [reflexivity | exact Harm |].
    apply single_name_none. split; assumption.
  - intros -> Hcur. unfold export_animation_frames_raw, run_export.
    rewrite (single_body_no_action ctx animation_name use_custom_name start_frame
               end_frame frame_step all export_method property_name h name
               Harm Hname Hcur).
    reflexivity.
  - intros Hrev. unfold export_animation_frames_raw, run_export.
    rewrite (export_single_prefix ctx animation_name use_custom_name start_frame
               end_frame frame_step all use_full export_method property_name
               h name s e Harm Hname Hrange).
    rewrite export_single_frames_reversed by exact Hrev. reflexivity.
  - intros Hse -> Hbad. unfold export_animation_frames_raw, run_export.
    rewrite (export_single_prefix ctx animation_name use_custom_name start_frame
               end_frame frame_step false use_full export_method property_name
               h name s e Harm Hname Hrange).
    destruct (decide (frame_step = 0)) as [->|Hnz].
    + rewrite (single_frames_sampler_error ctx name s e 0 false export_method
                 property_name h ValueError Hse (frames_to_export_zero_step s e)).
      reflexivity.
    + rewrite (single_frames_sampler_error ctx name s e frame_step false
                 export_method property_name h IndexError Hse
                 (frames_to_export_negative_step s e frame_step Hse ltac:(lia))).
      reflexivity.
  - intros Hse Hstep -> Hempty.
    destruct (sampler_ends s e frame_step all Hse Hstep) as (frames & Hframes & Hlast).
    exists (after_frames frames h). split.
    + unfold export_animation_frames_raw, run_export.
      rewrite (export_single_prefix ctx animation_name use_custom_name start_frame
                 end_frame frame_step all use_full BIN property_name
                 h name s e Harm Hname Hrange).
      rewrite (single_frames_unsaved ctx name s e frame_step all property_name h
                 frames Hse Hframes Hempty).
      reflexivity.
    + split; [intros _; apply after_frames_last; exact Hlast |].
      destruct (steady_after_frames frames h h (steady_refl h)) as (F & P & _).
      split; assumption.
Qed.

(** X12. The single export writes its output only at the end and never
    touches the armature's action.  When it is cancelled no file was
    written and no custom property was changed; when it finishes the scene
    is back at the frame it started from, the armature is in object mode,
    and the output is exactly one binary file and one helper file with the
    same base name, the binary file holding numFrames * numBones * 16
    floats, or only property changes. *)
Theorem single_export_state (ctx : BlenderContext) (animation_name : string)
    (use_custom_name : bool) (start_frame end_frame : option Z) (frame_step : Z)
    (all use_full : bool) (export_method : ExportMethod) (property_name : string)
    (h : Host) :
  (fst (export_animation_frames_raw ctx animation_name use_custom_name
          start_frame end_frame frame_step all use_full export_method
          property_name h) = CANCELLED ->
   exists h',
     export_animation_frames_raw ctx animation_name use_custom_name
       start_frame end_frame frame_step all use_full export_method
       property_name h = (CANCELLED, h') /\
     files h' = files h /\
     id_properties h' = id_properties h /\
     animation_data h' = animation_data h /\
     mode h' = mode h /\
     exists e, messages h' = messages h ++ [(true, msg_failed e)]) /\
  (fst (export_animation_frames_raw ctx animation_name use_custom_name
          start_frame end_frame frame_step all use_full export_method
          property_name h) = FINISHED ->
   exists h',
     export_animation_frames_raw ctx animation_name use_custom_name
       start_frame end_frame frame_step all use_full export_method
       property_name h = (FINISHED, h') /\
     frame_current h' = frame_current h /\
     mode h' = OBJECT /\
     animation_data h' = animation_data h /\
     new_actions h' = new_actions h /\
     (exists msg, messages h' = messages h ++ [(false, msg)]) /\
     match export_method with
     | BIN =>
         id_properties h' = id_properties h /\
         exists base data d,
           files h' = files h ++
             [BinFile (base +:+ ".bin") data; SingleJsFile (base +:+ ".js") d] /\
           Z.of_nat (length data) = sd_numFrames d * sd_numBones d * 16 /\
           sd_last_index d = sd_numFrames d - 1
     | PROPERTY => files h' = files h
     end).
Proof.
  destruct (single_export_cases ctx animation_name use_custom_name start_frame
              end_frame frame_step all use_full export_method property_name h)
    as [[_ Hr]|[(_ & _ & Hr)|[(_ & _ & _ & Hr)
       |(name & s & e & Harm & Hname & Hrange & Hcases)]]];
    cbv zeta in *.
  1-3: rewrite Hr; (split; [intros _ | discriminate]);
    eexists; (split; [reflexivity |]); repeat (split; [reflexivity |]);
    eexists; reflexivity.
  destruct Hcases as [[_ Hr]|[(_ & x & _ & Hr)
    |[(_ & frames & _ & _ & _ & _ & Hr)
     |(Hse & frames & Hframes & Hsaved & h' & Hrun & Hr)]]].
  1-2: rewrite Hr; (split; [intros _ | discriminate]);
    eexists; (split; [reflexivity |]); repeat (split; [reflexivity |]);
    eexists; reflexivity.
  - rewrite Hr. split; [intros _ | discriminate].
    eexists. split; [reflexivity |].
    destruct (steady_after_frames frames h h (steady_refl h)) as (F & P & Ms).
    split; [exact F |]. split; [exact P |].
    split; [apply animation_data_after_frames |].
    split; [apply mode_after_frames |].
    eexists. simpl. rewrite Ms. reflexivity.
  - rewrite Hr. split; [discriminate | intros _].
    destruct (single_frames_state ctx name s e frame_step all export_method
                property_name h frames Hse Hframes Hsaved)
      as (h2 & Hrun2 & Hf & Hm & Hd & Hn & Ms & Hout).
    rewrite Hrun in Hrun2. inversion Hrun2; subst h2.
    eexists. split; [reflexivity |].
    split; [exact Hf |]. split; [exact Hm |]. split; [exact Hd |].
    split; [exact Hn |].
    split; [eexists; simpl; rewrite Ms; reflexivity |].
    destruct export_method.
    + destruct Hout as (P & d & Hfiles & _ & Hnf & Hnb & _ & _ & _ & _ & _ & Hli).
      split; [exact P |]. eexists _, _, d. split; [exact Hfiles |].
      rewrite Hnf, Hnb, Hli. split; [|reflexivity].
      rewrite spec_pack_length. lia.
    + destruct Hout as [F _]. exact F.
Qed.
End SingleExportProperties.

(** ** The single export's output, and the operator *)

Lemma append_inj_l (p x y : string) : p +:+ x = p +:+ y -> x = y.
Proof.
  induction p as [|c p IH]; intros Heq; [exact Heq |].
  rewrite !append_cons in Heq. inversion Heq. apply IH. assumption.
Qed.

Section SingleExportOutput.
Context `{PoseSource}.

(** X13. What a single export that finished leaves behind, for the name
    and the range that it settled on.  In the binary
    mode: the file <name>_f<start>_<end>_n<frames>[_s<step>].bin with the
    packed matrices of the sampled frames, and a helper file of the same
    base name that carries the name, the counts, the range, the step and
    the bone names.  In the property mode: the packed matrices under the
    property name and the two counts under <property>_numFrames and
    <property>_numBones, every other custom property being left as it
    was. *)
Theorem single_export_output (ctx : BlenderContext) (animation_name : string)
    (use_custom_name : bool) (start_frame end_frame : option Z) (frame_step : Z)
    (all use_full : bool) (export_method : ExportMethod) (property_name : string)
    (h : Host) (name : string) (s e : Z) :
  single_name h animation_name use_custom_name = Some name ->
  single_range ctx h start_frame end_frame use_full = Some (s, e) ->
  fst (export_animation_frames_raw ctx animation_name use_custom_name
         start_frame end_frame frame_step all use_full export_method
         property_name h) = FINISHED ->
  exists frames h',
    frames_to_export s e frame_step all = Ok frames /\
    export_animation_frames_raw ctx animation_name use_custom_name
      start_frame end_frame frame_step all use_full export_method property_name h
    = (FINISHED, h') /\
    match export_method with
    | BIN =>
        id_properties h' = id_properties h /\
        exists d,
          files h' = files h ++
            [BinFile (single_base_filename name s e frame_step all frames +:+ ".bin")
                     (spec_pack (pose_bones ctx) frames h);
             SingleJsFile
               (single_base_filename name s e frame_step all frames +:+ ".js") d] /\
          sd_name d = name /\
          sd_numFrames d = Z.of_nat (length frames) /\
          sd_numBones d = Z.of_nat (length (pose_bones ctx)) /\
          sd_startFrame d = s /\ sd_endFrame d = e /\
          sd_frameStep d = frame_step /\ sd_exportAllFrames d = all /\
          sd_boneNames d = map bone_name (pose_bones ctx)
    | PROPERTY =>
        files h' = files h /\
        id_properties h' !! property_name
          = Some (prop_floats (spec_pack (pose_bones ctx) frames h)) /\
        id_properties h' !! (property_name +:+ "_numFrames")
          = Some (prop_int (Z.of_nat (length frames))) /\
        id_properties h' !! (property_name +:+ "_numBones")
          = Some (prop_int (Z.of_nat (length (pose_bones ctx)))) /\
        forall k : string,
          k <> property_name ->
          k <> property_name +:+ "_numFrames" ->
          k <> property_name +:+ "_numBones" ->
          id_properties h' !! k = id_properties h !! k
    end.
Proof.
  intros Hname Hrange Hfin.
  apply single_finished_iff in Hfin
    as (Harm & name' & s' & e' & Hname' & Hrange' & Hse & Hstep & Hsaved).
  rewrite Hname in Hname'. rewrite Hrange in Hrange'.
  inversion Hname'; subst name'. inversion Hrange'; subst s' e'.
  destruct (single_finished_run ctx animation_name use_custom_name start_frame
              end_frame frame_step all use_full export_method property_name h
              name s e Harm Hname Hrange Hse Hstep Hsaved)
    as (frames & h' & Hframes & _ & Hrun & Hr).
  destruct (single_frames_state ctx name s e frame_step all export_method
              property_name h frames Hse Hframes Hsaved)
    as (h2 & Hrun2 & _ & _ & _ & _ & _ & Hout).
  rewrite Hrun in Hrun2. inversion Hrun2; subst h2.
  eexists frames, _. split; [exact Hframes |]. split; [exact Hr |].
  destruct export_method.
  - destruct Hout as (P & d & Hfiles & Hn & Hnf & Hnb & Hs & He & Hst & Ha & Hb & _).
    split; [exact P |]. exists d. repeat (split; [assumption |]). assumption.
  - destruct Hout as [F P]. split; [exact F |].
    change (id_properties (show_message false
              (msg_single (Z.of_nat (length frames))
                          (Z.of_nat (length (pose_bones ctx)))) h'))
      with (id_properties h').
    rewrite P.
    assert (N1 : property_name +:+ "_numBones" <> property_name +:+ "_numFrames").
    { intros Heq. apply append_inj_l in Heq. discriminate. }
    assert (N2 : property_name +:+ "_numBones" <> property_name).
    { apply append_ne_self. discriminate. }
    assert (N3 : property_name +:+ "_numFrames" <> property_name).
    { apply append_ne_self. discriminate. }
    split.
    { rewrite lookup_insert_ne by exact N2.
      rewrite lookup_insert_ne by exact N3.
      apply lookup_insert_eq. }
    split.
    { rewrite lookup_insert_ne by exact N1. apply lookup_insert_eq. }
    split; [apply lookup_insert_eq |].
    intros k K1 K2 K3.
    rewrite lookup_insert_ne by congruence.
    rewrite lookup_insert_ne by congruence.
    rewrite lookup_insert_ne by congruence.
    apply lookup_delete_ne. congruence.
Qed.
End SingleExportOutput.

Section OperatorFacts.
Context `{PoseSource}.

(** The range that the operator hands to the single export. *)
Lemma operator_range (ctx : BlenderContext) (props : Props.t) (h : Host) :
  single_range ctx h
    (if negb (Props.start_frame props =? 0)
        && negb (Props.use_full_animation_range props)
     then Some (Props.start_frame props) else None)
    (if negb (Props.end_frame props =? 0)
        && negb (Props.use_full_animation_range props)
     then Some (Props.end_frame props) else None)
    (Props.use_full_animation_range props)
  = if Props.use_full_animation_range props then
      match current_action h with
      | None => None
      | Some a => Some (1, py_int (snd (ref_frame_range h a)))
      end
    else
      Some (if Props.start_frame props =? 0 then frame_start ctx
            else Props.start_frame props,
            if Props.end_frame props =? 0 then frame_end ctx
            else Props.end_frame props).
Proof.
  unfold single_range.
  destruct (Props.use_full_animation_range props); [reflexivity |].
  rewrite !andb_true_r.
  destruct (Props.start_frame props =? 0), (Props.end_frame props =? 0);
    reflexivity.
Qed.

(** X14. The range of a single export started from the panel.  With the
    full range switched on the start and end frame settings play no part
    and the range runs from frame 1, whatever the action's first frame
    is, to the action's last frame; otherwise it runs from the start
    frame setting to the end frame setting, a setting of 0 standing for
    the scene's start or end frame.  A finished export has sampled the
    range from its first to its last frame: the frame list starts at the
    range's start and ends at its end, the calls of the run begin with
    one scene.frame_set per frame of the list, in order, and the payload
    that is written to the file or stored in the property is the packing
    of these frames; in the binary mode the helper file records exactly
    this range. *)
Theorem operator_single_range (ctx : BlenderContext) (props : Props.t) (h : Host) :
  Props.export_mode props = SINGLE ->
  fst (ExportAnimationOperator_execute ctx props h) = FINISHED ->
  exists s e frames h',
    (if Props.use_full_animation_range props then
       exists a, current_action h = Some a /\
                 s = 1 /\ e = py_int (snd (ref_frame_range h a))
     else
       s = (if Props.start_frame props =? 0 then frame_start ctx
            else Props.start_frame props) /\
       e = (if Props.end_frame props =? 0 then frame_end ctx
            else Props.end_frame props)) /\
    s <= e /\
    frames_to_export s e (Props.frame_step props) (Props.export_all_frames props)
      = Ok frames /\
    head frames = Some s /\ last frames = Some e /\
    ExportAnimationOperator_execute ctx props h = (FINISHED, h') /\
    (exists after,
       rev (history h') = rev (history h) ++ map op_frame_set frames ++ after) /\
    match Props.export_method props with
    | BIN =>
        exists base d,
          files h' = files h ++
            [BinFile (base +:+ ".bin") (spec_pack (pose_bones ctx) frames h);
             SingleJsFile (base +:+ ".js") d] /\
          sd_startFrame d = s /\ sd_endFrame d = e
    | PROPERTY =>
        id_properties h' !! Props.property_name props
        = Some (prop_floats (spec_pack (pose_bones ctx) frames h))
    end.
Proof.
  intros Hmode Hfin. unfold ExportAnimationOperator_execute in *.
  rewrite Hmode in *.
  apply single_finished_iff in Hfin
    as (Harm & name & s & e & Hname & Hrange & Hse & Hstep & Hsaved).
  destruct (single_finished_run ctx _ _ _ _ _ _ _ (Props.export_method props)
              (Props.property_name props) h name s e
              Harm Hname Hrange Hse Hstep Hsaved)
    as (frames & h' & Hframes & Hlast & Hrun & Hr).
  destruct (single_frames_state ctx name s e _ _ (Props.export_method props)
              (Props.property_name props) h frames Hse Hframes Hsaved)
    as (h2 & Hrun2 & _ & _ & _ & _ & _ & Hout).
  rewrite Hrun in Hrun2. inversion Hrun2; subst h2.
  rewrite operator_range in Hrange.
  eexists s, e, frames, _.
  split.
  { destruct (Props.use_full_animation_range props).
    - destruct (current_action h) as [a|]; [|discriminate].
      exists a. inversion Hrange. auto.
    - inversion Hrange. auto. }
  split; [exact Hse |]. split; [exact Hframes |].
  split.
  { destruct (Props.export_all_frames props).
    - rewrite frames_to_export_all in Hframes. inversion Hframes.
      apply stepped_frames_head; lia.
    - destruct Hstep as [|Hstep]; [discriminate |].
      rewrite frames_to_export_stepped in Hframes by assumption.
      inversion Hframes.
      pose proof (stepped_frames_head s e (Props.frame_step props)
                    Hse ltac:(lia)) as Hh.
      destruct (stepped_frames s e (Props.frame_step props)) as [|x l];
        [discriminate | exact Hh]. }
  split; [exact Hlast |]. split; [exact Hr |].
  split.
  { destruct (single_frames_calls ctx name s e (Props.frame_step props)
                (Props.export_all_frames props) (Props.export_method props)
                (Props.property_name props) h frames Hse Hframes) as [ops Hops].
    rewrite Hrun in Hops. cbn [snd] in Hops.
    exists (rev ops).
    change (history (show_message false
              (msg_single (Z.of_nat (length frames))
                          (Z.of_nat (length (pose_bones ctx)))) h'))
      with (history h').
    rewrite Hops, !rev_app_distr, rev_involutive, <- app_assoc. reflexivity. }
  destruct (Props.export_method props).
  - destruct Hout as (_ & d & Hfiles & _ & _ & _ & Hs & He & _).
    eexists _, d. split; [exact Hfiles |]. split; assumption.
  - destruct Hout as [_ P].
    change (id_properties (show_message false
              (msg_single (Z.of_nat (length frames))
                          (Z.of_nat (length (pose_bones ctx)))) h'))
      with (id_properties h').
    rewrite P.
    rewrite !lookup_insert_ne by (apply append_ne_self; discriminate).
    apply lookup_insert_eq.
Qed.

(** X15. In the multi mode the all-frames switch of the export is the
    multi mode's own, multi_export_all_frames, not the single mode's
    export_all_frames.  The operator finishes only when an armature is
    active, at least one list item is included with an action, every such
    clip has a range in order and, unless the multi mode's switch is on, a
    step of at least 1, and, for the binary mode, the file was saved; and
    the first clip that is not valid in this sense cancels it with that
    clip's error. *)
Theorem operator_multi_mode (ctx : BlenderContext) (props : Props.t) (h : Host) :
  Props.export_mode props = MULTI ->
  (fst (ExportAnimationOperator_execute ctx props h) = FINISHED ->
   is_armature ctx /\ animations_to_export ctx <> [] /\
   Forall (valid_clip (multi_export_all_frames ctx)) (animations_to_export ctx) /\
   (Props.export_method props = BIN -> filepath ctx <> "")) /\
  (is_armature ctx ->
   forall good bad rest,
     animations_to_export ctx = good ++ bad :: rest ->
     Forall (valid_clip (multi_export_all_frames ctx)) good ->
     ~ valid_clip (multi_export_all_frames ctx) bad ->
     fst (ExportAnimationOperator_execute ctx props h) = CANCELLED /\
     messages (snd (ExportAnimationOperator_execute ctx props h))
     = messages h ++ [(true, msg_failed (clip_error bad))]).
Proof.
  intros Hmode. unfold ExportAnimationOperator_execute. rewrite Hmode. split.
  - apply multi_finished_inv.
  - intros Harm good bad rest Hsel Hgood Hbad.
    rewrite (multi_clip_error ctx (Props.unit_name props)
               (Props.export_method props) (Props.property_name props)
               (multi_export_all_frames ctx) h good bad rest Harm Hsel Hgood Hbad).
    split; [reflexivity |]. simpl.
    pose proof (steady_ensured _ _
                  (steady_after_clips (multi_export_all_frames ctx) good
                     (at_frame (rest_frame ctx) h)))
      as (_ & _ & Ms').
    simpl. rewrite Ms'. reflexivity.
Qed.
End OperatorFacts.

(** ** The animation list after a refresh *)

Lemma foldl_snoc_map {A B} (f : A -> B) (l : list A) (acc : list B) :
  foldl (fun items a => items ++ [f a]) acc l = acc ++ map f l.
Proof.
  revert acc. induction l as [|a l IH]; intros acc; simpl.
  - rewrite app_nil_r. reflexivity.
  - rewrite IH, <- app_assoc. reflexivity.
Qed.

Lemma select_refreshed (g : nat -> nat) (actions : list Action) :
  omap select (imap (fun i item => (g i, item)) (map refresh_item actions))
  = imap (fun i a => {| sel_pos := g i; sel_item := refresh_item a; sel_action := a |})
         actions.
Proof.
  revert g. induction actions as [|a actions IH]; intros g; [reflexivity |].
  simpl. f_equal. apply (IH (g ∘ S)).
Qed.

Lemma refreshed_selection (actions : list Action) (ctx : BlenderContext) :
  animations_to_export (snd (AnimationList_OT_Refresh_execute actions ctx))
  = imap (fun i a => {| sel_pos := i; sel_item := refresh_item a; sel_action := a |})
         actions.
Proof.
  unfold animations_to_export, AnimationList_OT_Refresh_execute.
  cbn [snd with_animation_list animation_list].
  rewrite foldl_snoc_map. cbn [app].
  apply (select_refreshed (fun i => i)).
Qed.

Lemma refreshed_actions (g : nat -> nat) (actions : list Action) :
  map sel_action
    (imap (fun i a => {| sel_pos := g i; sel_item := refresh_item a; sel_action := a |})
          actions)
  = actions.
Proof.
  revert g. induction actions as [|a l IH]; intros g; [reflexivity |].
  cbn [imap map sel_action]. f_equal. apply (IH (g ∘ S)).
Qed.

Lemma refreshed_positions (g : nat -> nat) (k : nat) (actions : list Action) :
  (forall j, g j = (k + j)%nat) ->
  map sel_pos
    (imap (fun i a => {| sel_pos := g i; sel_item := refresh_item a; sel_action := a |})
          actions)
  = seq k (length actions).
Proof.
  revert g k. induction actions as [|a l IH]; intros g k Hg; [reflexivity |].
  cbn [imap map sel_pos length seq]. f_equal; [rewrite Hg; lia |].
  apply (IH (g ∘ S) (S k)). intros j. unfold compose. rewrite Hg. lia.
Qed.

Lemma Forall_imap {A B} (P : B -> Prop) (f : nat -> A -> B) (l : list A) :
  (forall i a, l !! i = Some a -> P (f i a)) -> Forall P (imap f l).
Proof.
  revert f. induction l as [|a l IH]; intros f Hf; [constructor |].
  cbn [imap]. constructor.
  - apply (Hf 0%nat). reflexivity.
  - apply IH. intros i b Hi. apply (Hf (S i)). exact Hi.
Qed.

Lemma Forall_imap_inv {A B} (P : B -> Prop) (f : nat -> A -> B) (l : list A) :
  Forall P (imap f l) -> forall i a, l !! i = Some a -> P (f i a).
Proof.
  revert f. induction l as [|a l IH]; intros f Hall i b Hi; [discriminate |].
  cbn [imap] in Hall. inversion Hall; subst.
  destruct i as [|i].
  - inversion Hi; subst. assumption.
  - apply (IH (f ∘ S)); assumption.
Qed.

(** X16. Refreshing the list discards what it held and makes one item per
    action, in the order of the actions, each included, named after its
    action, with step 1 and the full range; so every action is selected for
    the multi-export, at its position, with the range
    (int(frame_range[0]), int(frame_range[1])).  Nothing else of the scene
    changes.  Switching a fresh item to its custom range gives the range
    (1, int(frame_range[1])). *)
Theorem refresh_selects_every_action (actions : list Action) (ctx : BlenderContext) :
  let ctx' := snd (AnimationList_OT_Refresh_execute actions ctx) in
  fst (AnimationList_OT_Refresh_execute actions ctx) = FINISHED /\
  (forall old : list AnimationListItem,
     AnimationList_OT_Refresh_execute actions (with_animation_list old ctx)
     = AnimationList_OT_Refresh_execute actions ctx) /\
  map item_name (animation_list ctx') = map action_name actions /\
  map sel_action (animations_to_export ctx') = actions /\
  map sel_pos (animations_to_export ctx') = seq 0 (length actions) /\
  Forall (fun s =>
            frame_step (sel_item s) = 1 /\
            clip_range (sel_item s) (sel_action s)
            = (py_int (fst (frame_range (sel_action s))),
               py_int (snd (frame_range (sel_action s)))) /\
            clip_range
              {| item_name := item_name (sel_item s);
                 item_action := item_action (sel_item s);
                 include := include (sel_item s);
                 frame_step := frame_step (sel_item s);
                 use_full_range := false;
                 custom_start := custom_start (sel_item s);
                 custom_end := custom_end (sel_item s) |}
              (sel_action s)
            = (1, py_int (snd (frame_range (sel_action s)))))
         (animations_to_export ctx') /\
  object_type ctx' = object_type ctx /\
  pose_bones ctx' = pose_bones ctx /\
  frame_start ctx' = frame_start ctx /\
  frame_end ctx' = frame_end ctx /\
  multi_export_all_frames ctx' = multi_export_all_frames ctx /\
  filepath ctx' = filepath ctx.
Proof.
  intros ctx'. subst ctx'.
  split; [reflexivity |]. split; [reflexivity |].
  split.
  { unfold AnimationList_OT_Refresh_execute.
    cbn [snd with_animation_list animation_list].
    rewrite foldl_snoc_map. cbn [app]. rewrite map_map. reflexivity. }
  rewrite refreshed_selection.
  split; [apply (refreshed_actions (fun i => i)) |].
  split; [apply (refreshed_positions (fun i => i) 0); intros j; lia |].
  split; [|repeat split].
  apply Forall_imap. intros i a _.
  cbn [sel_item sel_action refresh_item frame_step use_full_range custom_start
       custom_end item_name item_action include].
  split; [reflexivity |]. split; [reflexivity |].
  unfold clip_range. cbn [use_full_range custom_start custom_end].
  f_equal.
  destruct (Z.eqb_spec (Z.max 0 (py_int (snd (frame_range a)))) 0) as [E|E];
    cbn [negb]; lia.
Qed.

Section RefreshThenExport.
Context `{PoseSource}.

Lemma refreshed_valid (all : bool) (i : nat) (a : Action) :
  valid_clip all {| sel_pos := i; sel_item := refresh_item a; sel_action := a |}
  <-> py_int (fst (frame_range a)) <= py_int (snd (frame_range a)).
Proof.
  unfold valid_clip, clip_range.
  cbn [sel_item sel_action refresh_item use_full_range frame_step fst snd].
  split; [intros [Hle _]; exact Hle |].
  intros Hle. split; [exact Hle | right; lia].
Qed.

(** X17. A multi-export run on a freshly refreshed list, with an armature
    active, finishes only when there is at least one action and no
    action's range is reversed once its two ends are truncated to
    integers.  With no action at all it is cancelled for want of a
    selection, and the first action with a reversed range cancels it with
    the range error that names this action. *)
Theorem refresh_then_multi_export (actions : list Action) (ctx : BlenderContext)
    (unit_name : string) (export_method : ExportMethod) (property_name : string)
    (all : bool) (h : Host) :
  is_armature ctx ->
  let ctx' := snd (AnimationList_OT_Refresh_execute actions ctx) in
  let ordered := fun a : Action =>
    py_int (fst (frame_range a)) <= py_int (snd (frame_range a)) in
  (fst (export_multiple_animations ctx' unit_name export_method property_name all h)
     = FINISHED ->
   actions <> [] /\ Forall ordered actions) /\
  (actions = [] ->
   export_multiple_animations ctx' unit_name export_method property_name all h
   = (CANCELLED, show_message true (msg_failed no_selection_error) h)) /\
  (forall good bad rest,
     actions = good ++ bad :: rest ->
     Forall ordered good ->
     ~ ordered bad ->
     fst (export_multiple_animations ctx' unit_name export_method property_name
            all h) = CANCELLED /\
     messages (snd (export_multiple_animations ctx' unit_name export_method
                      property_name all h))
     = messages h ++ [(true, msg_failed (invalid_range bad))]).
Proof.
  intros Harm ctx' ordered.
  assert (Harm' : is_armature ctx') by exact Harm.
  split; [|split].
  - intros Hfin. apply multi_finished_inv in Hfin as (_ & Hne & Hvalid & _).
    unfold ctx' in Hne, Hvalid. rewrite refreshed_selection in Hne, Hvalid.
    split; [intros ->; apply Hne; reflexivity |].
    apply Forall_forall. intros a Ha.
    apply list_elem_of_lookup in Ha as [i Hi].
    apply (proj1 (refreshed_valid all i a)).
    exact (Forall_imap_inv _ _ _ Hvalid i a Hi).
  - intros ->. apply multi_no_selection; [exact Harm' | reflexivity].
  - intros good bad rest Hacts Hgood Hbad.
    set (mk := fun (i : nat) (a : Action) =>
                 {| sel_pos := i; sel_item := refresh_item a; sel_action := a |}).
    assert (Hsel : animations_to_export ctx'
                   = imap mk good ++
                     mk (length good + 0)%nat bad ::
                     imap (fun n => mk (length good + S n)%nat) rest).
    { unfold ctx'. rewrite refreshed_selection, Hacts.
      fold mk. rewrite imap_app. reflexivity. }
    assert (Hgood' : Forall (valid_clip all) (imap mk good)).
    { apply Forall_imap. intros i a Hi. apply refreshed_valid.
      rewrite Forall_forall in Hgood. apply Hgood.
      apply list_elem_of_lookup. exists i. exact Hi. }
    assert (Hbad' : ~ valid_clip all (mk (length good + 0)%nat bad)).
    { intros Hv. apply Hbad.
      apply (proj1 (refreshed_valid all (length good + 0)%nat bad)). exact Hv. }
    rewrite (multi_clip_error ctx' unit_name export_method property_name all h
               _ _ _ Harm' Hsel Hgood' Hbad').
    split; [reflexivity |]. simpl.
    pose proof (steady_ensured _ _
                  (steady_after_clips all (imap mk good)
                     (at_frame (rest_frame ctx') h)))
      as (_ & _ & Ms').
    simpl. rewrite Ms'.
    unfold clip_error. rewrite decide_True; [reflexivity |].
    unfold reversed, clip_range. simpl. unfold ordered in Hbad. lia.
Qed.
End RefreshThenExport.

(** ** The lines of the message dialog *)

Lemma newline_free_snoc (c : ascii) (cur : string) :
  c <> ascii_of_nat 10 ->
  py_contains newline cur = false ->
  py_contains newline (cur +:+ String c "") = false.
Proof.
  intros Hc. induction cur as [|d cur IH]; intros Hcur.
  - change (py_contains newline (String c "") = false).
    unfold newline. cbn [py_contains String.prefix].
    destruct (ascii_dec (ascii_of_nat 10) c) as [E|_]; [congruence | reflexivity].
  - apply contains_cons in Hcur as [Hp Hrest].
    rewrite append_cons. cbn [py_contains].
    rewrite (IH Hrest), orb_false_r.
    unfold newline in *. cbn [String.prefix] in *.
    destruct (ascii_dec (ascii_of_nat 10) d); [|reflexivity].
    rewrite prefix_nil in Hp. discriminate.
Qed.

Lemma split_go_newline_free (s cur : string) :
  py_contains newline cur = false ->
  Forall (fun line => py_contains newline line = false) (split_go newline 0 cur s).
Proof.
  revert cur. induction s as [|c s IH]; intros cur Hcur.
  - constructor; [exact Hcur | constructor].
  - cbn [split_go].
    destruct (String.prefix newline (String c s)) eqn:Hp.
    + constructor; [exact Hcur |]. apply IH. reflexivity.
    + apply IH. apply newline_free_snoc; [|exact Hcur].
      intros ->. unfold newline in Hp. cbn [String.prefix] in Hp.
      destruct (ascii_dec (ascii_of_nat 10) (ascii_of_nat 10)); [|congruence].
      rewrite prefix_nil in Hp. discriminate.
Qed.

(** X18. The message dialog shows one label per line of the message: there
    is always at least one label, no label contains a line break, joining
    the labels with line breaks gives the message back, and a message
    without a line break is shown as a single label. *)
Theorem message_dialog_lines (message : string) :
  ShowMessageOperator_draw message <> [] /\
  Forall (fun line => py_contains newline line = false)
         (ShowMessageOperator_draw message) /\
  py_join newline (ShowMessageOperator_draw message) = message /\
  (py_contains newline message = false ->
   ShowMessageOperator_draw message = [message]).
Proof.
  unfold ShowMessageOperator_draw.
  split; [apply split_go_nonempty |].
  split; [apply split_go_newline_free; reflexivity |].
  split; [apply join_split; discriminate |].
  intros Hc. unfold py_split. rewrite split_go_no_occurrence by exact Hc.
  reflexivity.
Qed.

(** ** The custom properties of a multi-export *)

Lemma map_zip_with_both {A B C D} (g : C -> D) (f : A -> B -> C)
    (l : list A) (k : list B) :
  map g (zip_with f l k) = zip_with (fun a b => g (f a b)) l k.
Proof.
  revert k. induction l as [|a l IH]; intros [|b k]; simpl; try reflexivity.
  rewrite IH. reflexivity.
Qed.

Section StoredProperties.
Context `{PoseSource}.

(** X19. A finished multi-export in the property mode writes no file and
    stores five custom properties on the armature.  Under the property
    name: the buffer that the assembly phase of this run returns, which is
    the packing of the rest frame, then of every main clip's frame list
    sampled with the clip's action active, then of the frames 1 to 10 of
    every transition sampled with the transition's action active.  Under
    that name followed by _totalFrames, _numBones, _animationCount and
    _frameSteps: the sum of the clips' frame counts (1, the lengths of the
    frame lists, 10 per transition), the number of bones, the number
    1 + n + n*(n-1) of clips and the text of the list of steps.  The
    buffer holds totalFrames * numBones * 16 floats, and every other
    custom property is left as it was. *)
Theorem multi_export_properties (ctx : BlenderContext) (unit_name : string)
    (property_name : string) (all : bool) (h : Host) :
  fst (export_multiple_animations ctx unit_name PROPERTY property_name all h)
    = FINISHED ->
  let h' := snd (export_multiple_animations ctx unit_name PROPERTY property_name
                   all h) in
  let sel := animations_to_export ctx in
  let bones := pose_bones ctx in
  let count := (1 + length sel + length sel * (length sel - 1))%nat in
  let counts :=
    1 :: map (fun s => Z.of_nat (length (clip_frames all s))) sel ++
         map (fun _ => 10) (transitions sel) in
  files h' = files h /\
  exists (A : Assembly) (h1 : Host) (clip_hosts tr_hosts : list Host),
    assemble ctx unit_name all h = (Ok A, h1) /\
    length clip_hosts = length sel /\
    length tr_hosts = length (transitions sel) /\
    Forall2 samples_action sel clip_hosts /\
    Forall2 samples_transition (transitions sel) tr_hosts /\
    combined_data A =
      spec_pack bones [rest_frame ctx] h ++
      concat (zip_with (fun s hx => spec_pack bones (clip_frames all s) hx)
                       sel clip_hosts) ++
      concat (zip_with (fun _ hx => spec_pack bones transition_positions hx)
                       (transitions sel) tr_hosts) /\
    frame_counts (locals A) = counts /\
    total_frames (locals A) = foldr Z.add 0 counts /\
    id_properties h' !! property_name = Some (prop_floats (combined_data A)) /\
    id_properties h' !! (property_name +:+ "_totalFrames")
      = Some (prop_int (total_frames (locals A))) /\
    id_properties h' !! (property_name +:+ "_numBones")
      = Some (prop_int (Z.of_nat (length bones))) /\
    id_properties h' !! (property_name +:+ "_animationCount")
      = Some (prop_int (Z.of_nat count)) /\
    id_properties h' !! (property_name +:+ "_frameSteps")
      = Some (prop_str_of_ints
                (1 :: map (fun s => if all then 1 else frame_step (sel_item s)) sel ++
                      map (fun _ => 1) (transitions sel))) /\
    Z.of_nat (length (combined_data A))
      = total_frames (locals A) * Z.of_nat (length bones) * 16 /\
    forall k : string,
      k <> property_name ->
      k <> property_name +:+ "_totalFrames" ->
      k <> property_name +:+ "_numBones" ->
      k <> property_name +:+ "_animationCount" ->
      k <> property_name +:+ "_frameSteps" ->
      id_properties h' !! k = id_properties h !! k.
Proof.
  intros Hfin h' sel bones count counts. subst h'.
  destruct (multi_finished_inv _ _ _ _ _ _ Hfin) as (Harm & Hne & Hvalid & Hsaved).
  destruct (multi_finished ctx unit_name PROPERTY property_name all h
              Harm Hne Hvalid Hsaved)
    as (clip_hosts & tr_hosts & A & h1 & msg & h2 & final & Hasm & Hrun & Hl1 & Hl2
        & HL & Hdata & _ & _ & _ & _ & _ & _ & Hfiles & Hprops).
  destruct (assemble_run ctx unit_name all h Harm Hne Hvalid)
    as (clip_hosts' & tr_hosts' & A' & h1' & Hasm' & _ & Hl1' & Hl2' & Hact1 & Hact2
        & HL' & _).
  rewrite Hasm in Hasm'. inversion Hasm'; subst A' h1'. clear Hasm' HL Hl1 Hl2.
  clear clip_hosts tr_hosts.
  rename clip_hosts' into clip_hosts, tr_hosts' into tr_hosts, HL' into HL,
    Hl1' into Hl1, Hl2' into Hl2.
  fold sel in Hl1, Hl2, HL, Hact1, Hact2. fold bones in HL.
  rewrite Hrun.
  change (files (snd (FINISHED, show_message false msg h2))) with (files h2).
  change (id_properties (snd (FINISHED, show_message false msg h2)))
    with (id_properties h2).
  split; [exact Hfiles |].
  rewrite Hprops. unfold stored_properties.
  set (es := rest_entry ctx unit_name h ::
             zip_with (clip_entry all) sel clip_hosts ++
             zip_with transition_entry (transitions sel) tr_hosts) in *.
  assert (Hlen : length es = count).
  { unfold es, count. cbn [length].
    rewrite length_app, !length_zip_with, Hl1, Hl2.
    unfold sel. rewrite transitions_length. lia. }
  assert (Hcounts : frame_counts (locals A) = counts).
  { rewrite HL. cbn [locals_of frame_counts]. unfold es, counts.
    cbn [map]. rewrite map_app. f_equal. f_equal.
    - apply map_zip_with_l; [reflexivity | exact Hl1].
    - apply map_zip_with_l; [reflexivity | exact Hl2]. }
  assert (Hsuffix : forall x y : string, x <> y ->
            property_name +:+ x <> property_name +:+ y).
  { intros x y Hxy Heq. apply Hxy. exact (append_inj_l _ _ _ Heq). }
  assert (Hself : forall x : string, x <> "" -> property_name +:+ x <> property_name).
  { intros x Hx. apply append_ne_self. exact Hx. }
  exists A, h1, clip_hosts, tr_hosts.
  split; [exact Hasm |]. split; [exact Hl1 |]. split; [exact Hl2 |].
  split; [exact Hact1 |]. split; [exact Hact2 |].
  split.
  { rewrite Hdata, HL. cbn [locals_of all_matrix_data]. unfold es.
    cbn [map concat]. rewrite map_app, concat_app, !map_zip_with_both.
    unfold e_chunk at 1. cbn [rest_entry e_frames e_host]. reflexivity. }
  split; [exact Hcounts |].
  split.
  { rewrite <- Hcounts, HL. cbn [locals_of total_frames frame_counts].
    rewrite foldr_counts, map_map. reflexivity. }
  split.
  { rewrite !lookup_insert_ne by (apply Hself; discriminate).
    apply lookup_insert_eq. }
  split.
  { rewrite !lookup_insert_ne by (apply Hsuffix; discriminate).
    apply lookup_insert_eq. }
  split.
  { rewrite !lookup_insert_ne by (apply Hsuffix; discriminate).
    apply lookup_insert_eq. }
  split.
  { rewrite lookup_insert_ne by (apply Hsuffix; discriminate).
    rewrite lookup_insert_eq. rewrite HL.
    cbn [locals_of animation_helpers].
    rewrite spec_layout_length, length_map, Hlen. reflexivity. }
  split.
  { rewrite lookup_insert_eq. rewrite HL.
    cbn [locals_of frame_steps]. unfold es.
    cbn [map]. rewrite map_app. do 3 f_equal. f_equal.
    - apply map_zip_with_l; [reflexivity | exact Hl1].
    - apply map_zip_with_l; [reflexivity | exact Hl2]. }
  split.
  { rewrite Hdata, HL. apply locals_of_payload. }
  intros k K1 K2 K3 K4 K5.
  rewrite !lookup_insert_ne by congruence.
  apply lookup_delete_ne. congruence.
Qed.
End StoredProperties.

Section UnsavedState.
Context `{PoseSource}.

(** X20. A binary multi-export of a file that was never saved fails only
    after all the sampling is done, and restores nothing: the n*(n-1)
    actions made for the transitions stay, and the last clip's action is
    the active one.  With two clips or more the armature is left in pose
    mode with the scene at frame 10, the last frame of the last
    transition; with one clip the mode is unchanged and the scene is at
    the clip's end frame (an end frame that the host accepts).  No file is
    written and no property changed. *)
Theorem multi_export_unsaved_state (ctx : BlenderContext) (unit_name : string)
    (property_name : string) (all : bool) (h : Host) :
  is_armature ctx ->
  animations_to_export ctx <> [] ->
  Forall (valid_clip all) (animations_to_export ctx) ->
  filepath ctx = "" ->
  let n := length (animations_to_export ctx) in
  exists h' final,
    export_multiple_animations ctx unit_name BIN property_name all h
    = (CANCELLED, h') /\
    messages h' = messages h ++ [(true, msg_failed unsaved_error)] /\
    files h' = files h /\
    id_properties h' = id_properties h /\
    last (animations_to_export ctx) = Some final /\
    current_action h' = Some (DataAction (sel_action final)) /\
    new_actions h' = (new_actions h + n * (n - 1))%nat /\
    (n = 1%nat ->
     mode h' = mode h /\
     (host_frame (snd (clip_range (sel_item final) (sel_action final))) ->
      frame_current h' = snd (clip_range (sel_item final) (sel_action final)))) /\
    ((2 <= n)%nat -> mode h' = POSE /\ frame_current h' = 10).
Proof.
  intros Harm Hne Hvalid Hempty n.
  destruct (multi_unsaved ctx unit_name property_name all h Harm Hne Hvalid Hempty)
    as (A & h1 & final & _ & Hrun & (F & P & Ms) & Hlast & Hd & Hn & Hone & Hmany).
  pose proof (transitions_length ctx) as Hlen.
  fold n in Hlen.
  eexists _, final. split; [exact Hrun |].
  split; [simpl; rewrite Ms; reflexivity |].
  split; [exact F |]. split; [exact P |]. split; [exact Hlast |].
  split.
  { unfold current_action. simpl. rewrite Hd. reflexivity. }
  split.
  { change (new_actions (show_message true (msg_failed unsaved_error) h1))
      with (new_actions h1).
    rewrite Hn, Hlen. reflexivity. }
  split.
  - intros Hn1.
    assert (Hnil : transitions (animations_to_export ctx) = []).
    { destruct (transitions (animations_to_export ctx)); [reflexivity |].
      rewrite Hn1 in Hlen. simpl in Hlen. lia. }
    destruct (Hone Hnil) as [Hm Hf]. split; [exact Hm | intros _; exact Hf].
  - intros Hn2. apply Hmany. intros Hnil. rewrite Hnil in Hlen.
    simpl in Hlen. nia.
Qed.
End UnsavedState.

(** * Lengths of the payload (C7) *)

Section PayloadClaims.
Context `{PoseSource}.

(** C7. For every export that finished, the emitted payload holds
    total_frames * num_bones * 16 floats, whether it went to the binary
    file or to the armature property, and the slice of the buffer that
    belongs to a clip holds (length of the clip's Frame Index Sequence) *
    num_bones * 16 floats.  For the multi-export this is the combined
    buffer and its per-clip slices; for the single export the payload is
    the one clip's slice and total_frames is its number of frames. *)
Theorem C7_payload_length (ctx : BlenderContext) (unit_name : string)
    (export_method : ExportMethod) (property_name : string) (all : bool) :
  let sel := animations_to_export ctx in
  let num_bones := Z.of_nat (length (pose_bones ctx)) in
  (forall h : Host,
     fst (export_multiple_animations ctx unit_name export_method property_name
            all h) = FINISHED ->
     exists A h1 h',
       assemble ctx unit_name all h = (Ok A, h1) /\
       export_multiple_animations ctx unit_name export_method property_name all h
         = (FINISHED, h') /\
       let L := locals A in
       Z.of_nat (length (combined_data A)) = total_frames L * num_bones * 16 /\
       match export_method with
       | BIN =>
           exists d,
             files h' = files h ++
               [BinFile ((unit_name +:+ "_animations") +:+ ".bin") (combined_data A);
                JsFile ((unit_name +:+ "_animations") +:+ ".js") d] /\
             Z.of_nat (length (combined_data A)) = totalFrames d * numBones d * 16
       | PROPERTY =>
           id_properties h' !! property_name = Some (prop_floats (combined_data A)) /\
           id_properties h' !! (property_name +:+ "_totalFrames")
             = Some (prop_int (total_frames L)) /\
           id_properties h' !! (property_name +:+ "_numBones")
             = Some (prop_int num_bones)
       end /\
       frame_counts L =
         1 :: map (fun s => Z.of_nat (length (clip_frames all s))) sel ++
              map (fun _ => 10) (transitions sel) /\
       map (fun chunk => Z.of_nat (length chunk)) (all_matrix_data L) =
         map (fun count => count * num_bones * 16) (frame_counts L) /\
       combined_data A = concat (all_matrix_data L)) /\
  (forall (h : Host) (animation_name : string) (use_custom_name : bool)
          (start_frame end_frame : option Z) (step : Z) (use_full : bool),
     fst (export_animation_frames_raw ctx animation_name use_custom_name
            start_frame end_frame step all use_full export_method property_name h)
       = FINISHED ->
     exists name s e frames h',
       single_name h animation_name use_custom_name = Some name /\
       single_range ctx h start_frame end_frame use_full = Some (s, e) /\
       frames_to_export s e step all = Ok frames /\
       export_animation_frames_raw ctx animation_name use_custom_name
         start_frame end_frame step all use_full export_method property_name h
         = (FINISHED, h') /\
       let payload := spec_pack (pose_bones ctx) frames h in
       Z.of_nat (length payload) = Z.of_nat (length frames) * num_bones * 16 /\
       match export_method with
       | BIN =>
           exists d,
             files h' = files h ++
               [BinFile (single_base_filename name s e step all frames +:+ ".bin")
                        payload;
                SingleJsFile (single_base_filename name s e step all frames +:+ ".js")
                             d] /\
             Z.of_nat (length payload) = sd_numFrames d * sd_numBones d * 16
       | PROPERTY =>
           id_properties h' !! property_name = Some (prop_floats payload) /\
           id_properties h' !! (property_name +:+ "_numFrames")
             = Some (prop_int (Z.of_nat (length frames))) /\
           id_properties h' !! (property_name +:+ "_numBones")
             = Some (prop_int num_bones)
       end).
Proof.
  intros sel num_bones.
  assert (Hk : forall suffix, suffix <> "" ->
            property_name +:+ suffix <> property_name)
    by (intros; apply append_ne_self; assumption).
  assert (Hk2 : forall s1 s2, s1 <> s2 ->
            property_name +:+ s1 <> property_name +:+ s2)
    by (intros s1 s2 Hne12 Heq; apply Hne12, (append_inj_r _ _ _ Heq)).
  split.
  - intros h Hfin.
    destruct (multi_finished_inv _ _ _ _ _ _ Hfin) as (Harm & Hne & Hvalid & Hsaved).
    destruct (assemble_run ctx unit_name all h Harm Hne Hvalid)
      as (clip_hosts & tr_hosts & A & h1 & Hrun & Hs1 & Hlen1 & Hlen2 & _ & _ & HL
          & Hdata & _).
    fold sel in Hlen1, Hlen2, HL.
    assert (Hpayload : Z.of_nat (length (combined_data A)) =
                       total_frames (locals A) * num_bones * 16).
    { rewrite Hdata, HL. apply locals_of_payload. }
    destruct (export_after_assemble ctx unit_name export_method property_name all
                h A h1 Hrun) as [(Hm & Hempty & _)|(msg & h2 & Hbody & _ & _ & Hout)].
    { exfalso. apply (Hsaved Hm). exact Hempty. }
    exists A, h1, (show_message false msg h2).
    split; [exact Hrun |].
    split.
    { unfold export_multiple_animations, run_export. rewrite Hbody. reflexivity. }
    cbv zeta. split; [exact Hpayload |].
    destruct Hs1 as (F1 & P1 & _).
    split.
    { destruct export_method.
      - destruct Hout as (_ & Hfiles & _).
        exists (descriptor ctx unit_name (locals A)). split.
        + simpl. rewrite Hfiles, F1. reflexivity.
        + exact Hpayload.
      - destruct Hout as (_ & Hprops). simpl. rewrite Hprops.
        unfold stored_properties.
        split; [|split].
        + rewrite !lookup_insert_ne by (apply Hk; discriminate).
          apply lookup_insert_eq.
        + rewrite !lookup_insert_ne by (apply Hk2; discriminate).
          apply lookup_insert_eq.
        + rewrite !lookup_insert_ne by (apply Hk2; discriminate).
          apply lookup_insert_eq. }
    split.
    { rewrite HL. cbn [locals_of frame_counts map]. f_equal.
      rewrite map_app. f_equal.
      - apply map_zip_with_l; [reflexivity | exact Hlen1].
      - apply map_zip_with_l; [reflexivity | exact Hlen2]. }
    split; [|exact Hdata].
    rewrite HL, locals_of_chunks.
    rewrite <- (map_map record_frames (fun c => c * num_bones * 16)).
    rewrite locals_of_record_frames. reflexivity.
  - intros h animation_name use_custom_name start_frame end_frame step use_full Hfin.
    apply single_finished_iff in Hfin
      as (Harm & name & s & e & Hname & Hrange & Hle & Hstep & Hsaved).
    destruct (single_finished_run ctx animation_name use_custom_name start_frame
                end_frame step all use_full export_method property_name h name s e
                Harm Hname Hrange Hle Hstep Hsaved)
      as (frames & h' & Hframes & _ & Hrun & Hr).
    pose proof (export_single_frames_run ctx name s e step all export_method
                  property_name h Hle) as Hcases.
    rewrite Hframes in Hcases.
    destruct Hcases as [(_ & _ & Hbad)|(h2 & Hrun2 & _ & _ & Hout)].
    { rewrite Hrun in Hbad. discriminate. }
    rewrite Hrun in Hrun2. inversion Hrun2; subst h2.
    exists name, s, e, frames. eexists.
    split; [exact Hname |]. split; [exact Hrange |]. split; [exact Hframes |].
    split; [exact Hr |].
    cbv zeta.
    assert (Hlen : Z.of_nat (length (spec_pack (pose_bones ctx) frames h)) =
                   Z.of_nat (length frames) * num_bones * 16).
    { rewrite spec_pack_length. unfold num_bones. lia. }
    split; [exact Hlen |].
    destruct export_method.
    + destruct Hout as (_ & d & Hfiles & Hn & Hb).
      exists d. split; [exact Hfiles |]. rewrite Hn, Hb. exact Hlen.
    + destruct Hout as (_ & Hprops).
      change (id_properties (show_message false
                (msg_single (Z.of_nat (length frames))
                            (Z.of_nat (length (pose_bones ctx)))) h'))
        with (id_properties h').
      rewrite Hprops.
      split; [|split].
      * rewrite !lookup_insert_ne by (apply Hk; discriminate).
        apply lookup_insert_eq.
      * rewrite lookup_insert_ne by (apply Hk2; discriminate).
        apply lookup_insert_eq.
      * apply lookup_insert_eq.
Qed.
End PayloadClaims.

(** * The custom end frame 0 (C10) *)

Section SentinelClaims.
Context `{PoseSource}.

(** C10. For a clip that does not use its action's full range, a custom
    end frame of 0 means the action's last frame: the end of the exported
    range and the source frame from which transitions out of the clip are
    made both fall back to the end of the action's frame_range; a non-zero
    custom end is used as it is.  In a multi-export the range recorded for
    such a clip, and the last frame sampled for it, are that fallback; and
    for every other exported clip d the run makes the transition out of
    the clip into d by these calls of its own, one after the other: it creates the
    transition's action, makes the clip's action active, sets the scene to
    the end of the action's frame_range, updates the view layer, enters
    pose mode, selects and copies the pose, makes the new action active,
    sets the scene to frame 1 and pastes the pose. *)
Theorem C10_custom_end_sentinel (ctx : BlenderContext) (unit_name : string)
    (all : bool) (h : Host) (i : nat) (s : Selected) :
  use_full_range (sel_item s) = false ->
  (custom_end (sel_item s) = 0 ->
     clip_range (sel_item s) (sel_action s) =
       (custom_start (sel_item s), py_int (snd (frame_range (sel_action s)))) /\
     last_frame (sel_item s) (sel_action s) =
       py_int (snd (frame_range (sel_action s)))) /\
  (custom_end (sel_item s) <> 0 ->
     clip_range (sel_item s) (sel_action s) =
       (custom_start (sel_item s), custom_end (sel_item s)) /\
     last_frame (sel_item s) (sel_action s) = custom_end (sel_item s)) /\
  (custom_end (sel_item s) = 0 ->
   is_armature ctx ->
   Forall (valid_clip all) (animations_to_export ctx) ->
   animations_to_export ctx !! i = Some s ->
   exists A h',
     assemble ctx unit_name all h = (Ok A, h') /\
     animation_ranges (locals A) !! S i =
       Some (custom_start (sel_item s), py_int (snd (frame_range (sel_action s)))) /\
     last (clip_frames all s) = Some (py_int (snd (frame_range (sel_action s)))) /\
     forall (j : nat) (d : Selected),
       animations_to_export ctx !! j = Some d -> j <> i ->
       exists serial before after,
         rev (history h')
         = rev (history h) ++ before ++
           source_pose_calls s d (py_int (snd (frame_range (sel_action s)))) serial ++
           after).
Proof.
  intros Hfull.
  assert (Hzero : custom_end (sel_item s) = 0 ->
    clip_range (sel_item s) (sel_action s) =
      (custom_start (sel_item s), py_int (snd (frame_range (sel_action s)))) /\
    last_frame (sel_item s) (sel_action s) =
      py_int (snd (frame_range (sel_action s)))).
  { intros Hz. unfold clip_range, last_frame. rewrite Hfull, Hz. split; reflexivity. }
  split; [exact Hzero |]. split.
  - intros Hnz. unfold clip_range, last_frame. rewrite Hfull.
    destruct (Z.eqb_spec (custom_end (sel_item s)) 0); [contradiction |].
    split; reflexivity.
  - intros Hz Harm Hvalid Hi.
    assert (Hne : animations_to_export ctx <> [])
      by (intros E; rewrite E in Hi; discriminate).
    destruct (assemble_run ctx unit_name all h Harm Hne Hvalid)
      as (clip_hosts & tr_hosts & A & h' & Hrun & _ & Hlen & _ & _ & _ & HL & _).
    exists A, h'. split; [exact Hrun |].
    destruct (Hzero Hz) as [Hrange Hlast_frame].
    assert (Hhost : exists hx, clip_hosts !! i = Some hx).
    { apply lookup_lt_is_Some. rewrite Hlen. eapply lookup_lt_Some. exact Hi. }
    destruct Hhost as [hx Hhx].
    split.
    + rewrite HL. cbn [locals_of animation_ranges map].
      rewrite lookup_cons. cbv iota.
      rewrite map_app, lookup_app_l.
      2:{ rewrite length_map, length_zip_with, Hlen.
          apply lookup_lt_Some in Hi. lia. }
      rewrite lookup_map, lookup_zip_with, Hi. simpl. rewrite Hhx. simpl.
      rewrite Hrange. reflexivity.
    + split.
      * assert (Hv : valid_clip all s).
        { eapply Forall_forall in Hvalid; [exact Hvalid |].
          eapply list_elem_of_lookup_2. exact Hi. }
        pose proof (valid_clip_frames all s Hv) as Hf. cbv zeta in Hf.
        destruct Hv as [Hle Hstep]. rewrite Hrange in Hf, Hle. simpl in Hf, Hle.
        destruct (sampler_ends (custom_start (sel_item s))
                    (py_int (snd (frame_range (sel_action s))))
                    (frame_step (sel_item s)) all Hle Hstep)
          as (frames & Hrun' & Hlast).
        rewrite Hf in Hrun'. inversion Hrun'; subst. exact Hlast.
      * intros j d Hj Hji.
        assert (Hin : In (s, d) (transitions (animations_to_export ctx))).
        { apply transitions_in.
          split; [apply list_elem_of_In; eapply list_elem_of_lookup_2; exact Hi |].
          split; [apply list_elem_of_In; eapply list_elem_of_lookup_2; exact Hj |].
          intros Hpos. apply Hji.
          apply (NoDup_lookup (map sel_pos (animations_to_export ctx)) j i (sel_pos s)).
          - apply selected_positions_NoDup.
          - rewrite lookup_map, Hj. simpl. rewrite Hpos. reflexivity.
          - rewrite lookup_map, Hi. reflexivity. }
        destruct (assemble_calls ctx unit_name all h Harm Hne Hvalid s d Hin)
          as (serial & before & after & Hcalls).
        rewrite Hrun in Hcalls. cbn [snd] in Hcalls.
        rewrite Hlast_frame in Hcalls.
        exists serial, before, after. exact Hcalls.
Qed.
End SentinelClaims.

(** * The further properties at concrete scenes *)

(** A concrete frame that the host accepts. *)
Ltac frame_ok :=
  unfold host_frame, MAXFRAME; vm_compute; split;
  let E := fresh "E" in intros E; discriminate E.

Lemma walk_run_finishes :
  fst (export_multiple_animations Fixture.walk_run "unit" BIN "animation_matrices"
         false Fixture.host0) = FINISHED.
Proof.
  assert (Harm : is_armature Fixture.walk_run) by reflexivity.
  assert (Hne : animations_to_export Fixture.walk_run <> [])
    by (vm_compute; intros E; discriminate E).
  assert (Hvalid : Forall (valid_clip false) (animations_to_export Fixture.walk_run))
    by clips_ok.
  assert (Hsaved : BIN = BIN -> filepath Fixture.walk_run <> "")
    by (intros _; vm_compute; intros E; discriminate E).
  destruct (multi_finished Fixture.walk_run "unit" BIN "animation_matrices" false
              Fixture.host0 Harm Hne Hvalid Hsaved)
    as (? & ? & ? & ? & ? & ? & ? & _ & Hrun & _).
  rewrite Hrun. reflexivity.
Qed.

Lemma stepped_walk_run_finishes :
  fst (export_multiple_animations Fixture.stepped_walk_run "unit" BIN
         "animation_matrices" false Fixture.host0) = FINISHED.
Proof.
  assert (Harm : is_armature Fixture.stepped_walk_run) by reflexivity.
  assert (Hne : animations_to_export Fixture.stepped_walk_run <> [])
    by (vm_compute; intros E; discriminate E).
  assert (Hvalid : Forall (valid_clip false)
                     (animations_to_export Fixture.stepped_walk_run))
    by clips_ok.
  assert (Hsaved : BIN = BIN -> filepath Fixture.stepped_walk_run <> "")
    by (intros _; vm_compute; intros E; discriminate E).
  destruct (multi_finished Fixture.stepped_walk_run "unit" BIN "animation_matrices"
              false Fixture.host0 Harm Hne Hvalid Hsaved)
    as (? & ? & ? & ? & ? & ? & ? & _ & Hrun & _).
  rewrite Hrun. reflexivity.
Qed.

Lemma unit_prefixed_finishes :
  fst (export_multiple_animations Scenes.unit_prefixed "u" BIN "animation_matrices"
         false Fixture.host0) = FINISHED.
Proof.
  assert (Harm : is_armature Scenes.unit_prefixed) by reflexivity.
  assert (Hne : animations_to_export Scenes.unit_prefixed <> [])
    by (vm_compute; intros E; discriminate E).
  assert (Hvalid : Forall (valid_clip false) (animations_to_export Scenes.unit_prefixed))
    by clips_ok.
  assert (Hsaved : BIN = BIN -> filepath Scenes.unit_prefixed <> "")
    by (intros _; vm_compute; intros E; discriminate E).
  destruct (multi_finished Scenes.unit_prefixed "u" BIN "animation_matrices" false
              Fixture.host0 Harm Hne Hvalid Hsaved)
    as (? & ? & ? & ? & ? & ? & ? & _ & Hrun & _).
  rewrite Hrun. reflexivity.
Qed.

Lemma single_settings_finish :
  fst (ExportAnimationOperator_execute (Fixture.scene []) Scenes.single_settings
         Fixture.host0) = FINISHED.
Proof.
  apply single_finished_iff. split; [reflexivity |].
  exists "Idle", 3, 250.
  split; [reflexivity |]. split; [reflexivity |].
  split; [lia |]. split; [right; simpl; lia |].
  intros _. vm_compute. intros E. discriminate E.
Qed.

Lemma multi_export_clip_failure_state_witness :
  is_armature Scenes.walk_then_reversed /\
  animations_to_export Scenes.walk_then_reversed
    = [Fixture.walk_clip] ++ Scenes.reversed_run_clip :: [] /\
  Forall (valid_clip false) [Fixture.walk_clip] /\
  ~ valid_clip false Scenes.reversed_run_clip /\
  (forall s, last [Fixture.walk_clip] = Some s ->
     host_frame (snd (clip_range (sel_item s) (sel_action s)))) /\
  exists h',
    export_multiple_animations Scenes.walk_then_reversed "unit" BIN
      "animation_matrices" false Fixture.host0 = (CANCELLED, h') /\
    current_action h' = Some (DataAction Fixture.Run) /\
    frame_current h' = 5.
Proof.
  assert (Harm : is_armature Scenes.walk_then_reversed) by reflexivity.
  assert (Hsel : animations_to_export Scenes.walk_then_reversed
                 = [Fixture.walk_clip] ++ Scenes.reversed_run_clip :: [])
    by reflexivity.
  assert (Hgood : Forall (valid_clip false) [Fixture.walk_clip]) by clips_ok.
  assert (Hbad : ~ valid_clip false Scenes.reversed_run_clip).
  { intros [Hle _]. vm_compute in Hle. apply Hle. reflexivity. }
  assert (Hframe0 : forall s, last [Fixture.walk_clip] = Some s ->
            host_frame (snd (clip_range (sel_item s) (sel_action s)))).
  { intros s E. inversion E; subst s. frame_ok. }
  split; [exact Harm |]. split; [exact Hsel |]. split; [exact Hgood |].
  split; [exact Hbad |]. split; [exact Hframe0 |].
  destruct (multi_export_clip_failure_state Scenes.walk_then_reversed "unit" BIN
              "animation_matrices" false Fixture.host0
              [Fixture.walk_clip] Scenes.reversed_run_clip [] Harm Hsel Hgood Hbad
              Hframe0)
    as (h' & Hrun & Hact & Hframe & _).
  exists h'. split; [exact Hrun |]. split; [exact Hact | exact Hframe].
Defined.

Lemma multi_export_success_state_witness :
  fst (export_multiple_animations Fixture.walk_run "unit" BIN "animation_matrices"
         false Fixture.host0) = FINISHED /\
  frame_current
    (snd (export_multiple_animations Fixture.walk_run "unit" BIN "animation_matrices"
            false Fixture.host0)) = 7 /\
  current_action
    (snd (export_multiple_animations Fixture.walk_run "unit" BIN "animation_matrices"
            false Fixture.host0)) = Some (DataAction Fixture.Run) /\
  new_actions
    (snd (export_multiple_animations Fixture.walk_run "unit" BIN "animation_matrices"
            false Fixture.host0)) = 2%nat.
Proof.
  split; [exact walk_run_finishes |].
  destruct (multi_export_success_state Fixture.walk_run "unit" BIN "animation_matrices"
              false Fixture.host0 walk_run_finishes)
    as (Hframe & _ & (final & Hlast & Hact) & Hnew).
  split; [exact Hframe |]. split; [|exact Hnew].
  rewrite Hact. inversion Hlast. reflexivity.
Defined.

Lemma multi_export_descriptor_witness :
  fst (export_multiple_animations Fixture.stepped_walk_run "unit" BIN
         "animation_matrices" false Fixture.host0) = FINISHED /\
  exists data d,
    files (snd (export_multiple_animations Fixture.stepped_walk_run "unit" BIN
                  "animation_matrices" false Fixture.host0))
    = [BinFile "unit_animations.bin" data; JsFile "unit_animations.js" d] /\
    animationCount d = 5 /\
    animationNames d = ["unitRest"; "Walk"; "Run"; "Walk_To_Run"; "Run_To_Walk"] /\
    frameCounts d = [1; 3; 4; 10; 10] /\
    frameSteps d = [1; 2; 1; 1; 1] /\
    animationRanges d = [(1, 1); (1, 5); (1, 4); (1, 10); (1, 10)].
Proof.
  split; [exact stepped_walk_run_finishes |].
  destruct (multi_export_descriptor Fixture.stepped_walk_run "unit"
              "animation_matrices" false Fixture.host0 stepped_walk_run_finishes)
    as (data & d & Hfiles & _ & Hcount & _ & _ & _ & _ & Hnames & Hcounts & Hsteps
        & Hranges & _).
  exists data, d. split; [exact Hfiles |]. split; [exact Hcount |].
  split; [exact Hnames |]. split; [exact Hcounts |].
  split; [exact Hsteps | exact Hranges].
Defined.

Lemma multi_export_js_calls_witness :
  fst (export_multiple_animations Fixture.walk_run "unit" BIN "animation_matrices"
         false Fixture.host0) = FINISHED /\
  exists data d,
    files (snd (export_multiple_animations Fixture.walk_run "unit" BIN
                  "animation_matrices" false Fixture.host0))
    = [BinFile "unit_animations.bin" data; JsFile "unit_animations.js" d] /\
    map clip_name (js_main_calls d) = ["unitRest"; "Walk"; "Run"] /\
    map clip_name (js_transition_calls d) = ["Walk_To_Run"; "Run_To_Walk"].
Proof.
  split; [exact walk_run_finishes |].
  destruct (multi_export_js_calls Fixture.walk_run "unit" "animation_matrices" false
              Fixture.host0 walk_run_finishes)
    as (data & d & records & Hfiles & _ & _ & _ & _ & Hplain).
  destruct Hplain as (_ & Hmain & Htrans);
    [reflexivity | repeat constructor |].
  exists data, d. split; [exact Hfiles |]. split; [exact Hmain | exact Htrans].
Defined.

Lemma adjacency_calls_plain_names_witness :
  fst (export_multiple_animations Fixture.walk_run "unit" BIN "animation_matrices"
         false Fixture.host0) = FINISHED /\
  exists data d,
    files (snd (export_multiple_animations Fixture.walk_run "unit" BIN
                  "animation_matrices" false Fixture.host0))
    = [BinFile "unit_animations.bin" data; JsFile "unit_animations.js" d] /\
    map fst (js_adjacency_calls d) = ["Walk"; "Run"].
Proof.
  split; [exact walk_run_finishes |].
  destruct (adjacency_calls_plain_names Fixture.walk_run "unit" "animation_matrices"
              false Fixture.host0 walk_run_finishes)
    as (data & d & Hfiles & Hkeys & _).
  - vm_compute. lia.
  - reflexivity.
  - repeat constructor.
  - intros src dst Hin. simpl in Hin.
    destruct Hin as [E|[E|[]]]; inversion E; subst; reflexivity.
  - exists data, d. split; [exact Hfiles | exact Hkeys].
Defined.

Lemma adjacency_calls_prefixed_names_witness :
  fst (export_multiple_animations Scenes.unit_prefixed "u" BIN "animation_matrices"
         false Fixture.host0) = FINISHED /\
  exists data d,
    files (snd (export_multiple_animations Scenes.unit_prefixed "u" BIN
                  "animation_matrices" false Fixture.host0))
    = [BinFile "u_animations.bin" data; JsFile "u_animations.js" d] /\
    js_adjacency_calls d = [].
Proof.
  split; [exact unit_prefixed_finishes |].
  destruct (adjacency_calls_prefixed_names Scenes.unit_prefixed "u"
              "animation_matrices" false Fixture.host0 Scenes.short_name
              unit_prefixed_finishes)
    as (data & d & records & Hfiles & _ & _ & Hnone).
  - reflexivity.
  - intros s Hin. simpl in Hin.
    destruct Hin as [E|[E|[]]]; subst s; repeat split; reflexivity.
  - exists data, d. split; [exact Hfiles | exact Hnone].
Defined.

Lemma single_export_output_witness :
  single_name Fixture.host0 "" false = Some "Idle" /\
  single_range (Fixture.scene []) Fixture.host0 (Some 3) (Some 6) false = Some (3, 6) /\
  fst (export_animation_frames_raw (Fixture.scene []) "" false (Some 3) (Some 6) 2
         false false BIN "animation_matrices" Fixture.host0) = FINISHED /\
  exists frames h' d,
    frames_to_export 3 6 2 false = Ok frames /\
    export_animation_frames_raw (Fixture.scene []) "" false (Some 3) (Some 6) 2
      false false BIN "animation_matrices" Fixture.host0 = (FINISHED, h') /\
    files h' =
      [BinFile (single_base_filename "Idle" 3 6 2 false frames +:+ ".bin")
               (spec_pack Fixture.skeleton frames Fixture.host0);
       SingleJsFile (single_base_filename "Idle" 3 6 2 false frames +:+ ".js") d] /\
    sd_startFrame d = 3 /\ sd_endFrame d = 6.
Proof.
  assert (Hname : single_name Fixture.host0 "" false = Some "Idle") by reflexivity.
  assert (Hrange : single_range (Fixture.scene []) Fixture.host0 (Some 3) (Some 6) false
                   = Some (3, 6)) by reflexivity.
  assert (Hfin : fst (export_animation_frames_raw (Fixture.scene []) "" false (Some 3)
                        (Some 6) 2 false false BIN "animation_matrices" Fixture.host0)
                 = FINISHED).
  { apply single_finished_iff. split; [reflexivity |].
    exists "Idle", 3, 6.
    split; [reflexivity |]. split; [reflexivity |].
    split; [lia |]. split; [right; lia |].
    intros _. vm_compute. intros E. discriminate E. }
  split; [exact Hname |]. split; [exact Hrange |]. split; [exact Hfin |].
  destruct (single_export_output (Fixture.scene []) "" false (Some 3) (Some 6) 2
              false false BIN "animation_matrices" Fixture.host0 "Idle" 3 6
              Hname Hrange Hfin)
    as (frames & h' & Hframes & Hrun & _ & d & Hfiles & _ & _ & _ & Hs & He & _).
  exists frames, h', d. split; [exact Hframes |]. split; [exact Hrun |].
  split; [exact Hfiles |]. split; [exact Hs | exact He].
Defined.

Lemma operator_single_range_witness :
  Props.export_mode Scenes.single_settings = SINGLE /\
  fst (ExportAnimationOperator_execute (Fixture.scene []) Scenes.single_settings
         Fixture.host0) = FINISHED /\
  exists frames h',
    frames_to_export 3 250 2 false = Ok frames /\
    head frames = Some 3 /\ last frames = Some 250 /\
    ExportAnimationOperator_execute (Fixture.scene []) Scenes.single_settings
      Fixture.host0 = (FINISHED, h').
Proof.
  split; [reflexivity |]. split; [exact single_settings_finish |].
  destruct (operator_single_range (Fixture.scene []) Scenes.single_settings
              Fixture.host0 eq_refl single_settings_finish)
    as (s & e & frames & h' & [Hs He] & _ & Hframes & Hhead & Hlast & Hrun & _).
  simpl in Hs, He. subst s e.
  exists frames, h'. split; [exact Hframes |]. split; [exact Hhead |].
  split; [exact Hlast | exact Hrun].
Defined.

Lemma operator_multi_mode_witness :
  Props.export_mode Scenes.multi_settings = MULTI /\
  is_armature Scenes.walk_then_reversed /\
  animations_to_export Scenes.walk_then_reversed
    = [Fixture.walk_clip] ++ Scenes.reversed_run_clip :: [] /\
  Forall (valid_clip false) [Fixture.walk_clip] /\
  ~ valid_clip false Scenes.reversed_run_clip /\
  fst (ExportAnimationOperator_execute Scenes.walk_then_reversed
         Scenes.multi_settings Fixture.host0) = CANCELLED /\
  messages (snd (ExportAnimationOperator_execute Scenes.walk_then_reversed
                   Scenes.multi_settings Fixture.host0))
  = [(true, msg_failed (invalid_range Fixture.Run))].
Proof.
  assert (Harm : is_armature Scenes.walk_then_reversed) by reflexivity.
  assert (Hsel : animations_to_export Scenes.walk_then_reversed
                 = [Fixture.walk_clip] ++ Scenes.reversed_run_clip :: [])
    by reflexivity.
  assert (Hgood : Forall (valid_clip false) [Fixture.walk_clip]) by clips_ok.
  assert (Hbad : ~ valid_clip false Scenes.reversed_run_clip).
  { intros [Hle _]. vm_compute in Hle. apply Hle. reflexivity. }
  split; [reflexivity |]. split; [exact Harm |]. split; [exact Hsel |].
  split; [exact Hgood |]. split; [exact Hbad |].
  destruct (operator_multi_mode Scenes.walk_then_reversed Scenes.multi_settings
              Fixture.host0 eq_refl) as [_ Hfail].
  exact (Hfail Harm [Fixture.walk_clip] Scenes.reversed_run_clip [] Hsel Hgood Hbad).
Defined.

Lemma refresh_then_multi_export_witness :
  is_armature Fixture.only_walk /\
  fst (export_multiple_animations
         (snd (AnimationList_OT_Refresh_execute
                 [Fixture.Walk; Fixture.action "Back" 9 2; Fixture.Run]
                 Fixture.only_walk))
         "unit" BIN "animation_matrices" false Fixture.host0) = CANCELLED /\
  messages
    (snd (export_multiple_animations
            (snd (AnimationList_OT_Refresh_execute
                    [Fixture.Walk; Fixture.action "Back" 9 2; Fixture.Run]
                    Fixture.only_walk))
            "unit" BIN "animation_matrices" false Fixture.host0))
  = [(true, msg_failed (invalid_range (Fixture.action "Back" 9 2)))].
Proof.
  assert (Harm : is_armature Fixture.only_walk) by reflexivity.
  split; [exact Harm |].
  destruct (refresh_then_multi_export
              [Fixture.Walk; Fixture.action "Back" 9 2; Fixture.Run]
              Fixture.only_walk "unit" BIN "animation_matrices" false Fixture.host0
              Harm) as (_ & _ & Hfail).
  apply (Hfail [Fixture.Walk] (Fixture.action "Back" 9 2) [Fixture.Run]).
  - reflexivity.
  - repeat constructor. vm_compute. intros E. discriminate E.
  - intros Hle. vm_compute in Hle. apply Hle. reflexivity.
Defined.

Lemma multi_export_properties_witness :
  fst (export_multiple_animations Scenes.unsaved_walk_run "unit" PROPERTY
         "animation_matrices" false Fixture.host0) = FINISHED /\
  files (snd (export_multiple_animations Scenes.unsaved_walk_run "unit" PROPERTY
                "animation_matrices" false Fixture.host0)) = [] /\
  exists A h1,
    assemble Scenes.unsaved_walk_run "unit" false Fixture.host0 = (Ok A, h1) /\
    frame_counts (locals A) = [1; 5; 4; 10; 10] /\
    total_frames (locals A) = 30 /\
    id_properties
      (snd (export_multiple_animations Scenes.unsaved_walk_run "unit" PROPERTY
              "animation_matrices" false Fixture.host0))
      !! "animation_matrices" = Some (prop_floats (combined_data A)) /\
    id_properties
      (snd (export_multiple_animations Scenes.unsaved_walk_run "unit" PROPERTY
              "animation_matrices" false Fixture.host0))
      !! "animation_matrices_totalFrames" = Some (prop_int (total_frames (locals A))) /\
    id_properties
      (snd (export_multiple_animations Scenes.unsaved_walk_run "unit" PROPERTY
              "animation_matrices" false Fixture.host0))
      !! "animation_matrices_animationCount" = Some (prop_int 5).
Proof.
  assert (Hfin : fst (export_multiple_animations Scenes.unsaved_walk_run "unit"
                        PROPERTY "animation_matrices" false Fixture.host0)
                 = FINISHED).
  { assert (Harm : is_armature Scenes.unsaved_walk_run) by reflexivity.
    assert (Hne : animations_to_export Scenes.unsaved_walk_run <> [])
      by (vm_compute; intros E; discriminate E).
    assert (Hvalid : Forall (valid_clip false)
                       (animations_to_export Scenes.unsaved_walk_run))
      by clips_ok.
    assert (Hsaved : PROPERTY = BIN -> filepath Scenes.unsaved_walk_run <> "")
      by discriminate.
    destruct (multi_finished Scenes.unsaved_walk_run "unit" PROPERTY
                "animation_matrices" false Fixture.host0 Harm Hne Hvalid Hsaved)
      as (? & ? & ? & ? & ? & ? & ? & _ & Hrun & _).
    rewrite Hrun. reflexivity. }
  split; [exact Hfin |].
  destruct (multi_export_properties Scenes.unsaved_walk_run "unit"
              "animation_matrices" false Fixture.host0 Hfin)
    as (Hfiles & A & h1 & clip_hosts & tr_hosts & Hasm & _ & _ & _ & _ & _ & Hcounts
        & Htotal & Hdata & Htotal' & _ & Hcount & _).
  split; [exact Hfiles |].
  exists A, h1. split; [exact Hasm |]. split; [exact Hcounts |].
  split; [exact Htotal |]. split; [exact Hdata |]. split; [exact Htotal' | exact Hcount].
Defined.

Lemma multi_export_unsaved_state_witness :
  is_armature Scenes.unsaved_walk_run /\
  animations_to_export Scenes.unsaved_walk_run <> [] /\
  Forall (valid_clip false) (animations_to_export Scenes.unsaved_walk_run) /\
  filepath Scenes.unsaved_walk_run = "" /\
  exists h',
    export_multiple_animations Scenes.unsaved_walk_run "unit" BIN
      "animation_matrices" false Fixture.host0 = (CANCELLED, h') /\
    current_action h' = Some (DataAction Fixture.Run) /\
    new_actions h' = 2%nat /\
    mode h' = POSE /\ frame_current h' = 10.
Proof.
  assert (Harm : is_armature Scenes.unsaved_walk_run) by reflexivity.
  assert (Hne : animations_to_export Scenes.unsaved_walk_run <> [])
    by (vm_compute; intros E; discriminate E).
  assert (Hvalid : Forall (valid_clip false)
                     (animations_to_export Scenes.unsaved_walk_run))
    by clips_ok.
  assert (Hempty : filepath Scenes.unsaved_walk_run = "") by reflexivity.
  split; [exact Harm |]. split; [exact Hne |]. split; [exact Hvalid |].
  split; [exact Hempty |].
  destruct (multi_export_unsaved_state Scenes.unsaved_walk_run "unit"
              "animation_matrices" false Fixture.host0 Harm Hne Hvalid Hempty)
    as (h' & final & Hrun & _ & _ & _ & Hlast & Hact & Hnew & _ & Hmany).
  exists h'. split; [exact Hrun |].
  split; [rewrite Hact; inversion Hlast; reflexivity |].
  split; [exact Hnew |].
  apply Hmany. vm_compute. lia.
Defined.

(** * The claims on lengths and on the custom end frame at concrete scenes *)

Lemma C7_payload_length_witness :
  fst (export_multiple_animations Fixture.stepped_walk_run "unit" BIN
         "animation_matrices" false Fixture.host0) = FINISHED /\
  fst (export_animation_frames_raw Fixture.stepped_walk_run "" false (Some 1) (Some 5)
         2 false false BIN "animation_matrices" Fixture.host0) = FINISHED /\
  (exists A h',
     export_multiple_animations Fixture.stepped_walk_run "unit" BIN
       "animation_matrices" false Fixture.host0 = (FINISHED, h') /\
     Z.of_nat (length (combined_data A)) = total_frames (locals A) * 2 * 16 /\
     frame_counts (locals A) = [1; 3; 4; 10; 10]) /\
  (exists frames h',
     frames_to_export 1 5 2 false = Ok frames /\
     export_animation_frames_raw Fixture.stepped_walk_run "" false (Some 1) (Some 5)
       2 false false BIN "animation_matrices" Fixture.host0 = (FINISHED, h') /\
     Z.of_nat (length (spec_pack Fixture.skeleton frames Fixture.host0))
       = Z.of_nat (length frames) * 2 * 16).
Proof.
  assert (Hsingle_fin :
            fst (export_animation_frames_raw Fixture.stepped_walk_run "" false (Some 1)
                   (Some 5) 2 false false BIN "animation_matrices" Fixture.host0)
            = FINISHED).
  { apply single_finished_iff. split; [reflexivity |].
    exists "Idle", 1, 5.
    split; [reflexivity |]. split; [reflexivity |].
    split; [lia |]. split; [right; lia |].
    intros _. vm_compute. intros E. discriminate E. }
  split; [exact stepped_walk_run_finishes |]. split; [exact Hsingle_fin |].
  destruct (C7_payload_length Fixture.stepped_walk_run "unit" BIN
              "animation_matrices" false) as [Hmulti Hsingle].
  split.
  - destruct (Hmulti Fixture.host0 stepped_walk_run_finishes)
      as (A & h1 & h' & _ & Hrun & Hlen & _ & Hcounts & _).
    exists A, h'. split; [exact Hrun |]. split; [exact Hlen | exact Hcounts].
  - destruct (Hsingle Fixture.host0 "" false (Some 1) (Some 5) 2 false Hsingle_fin)
      as (name & s & e & frames & h' & _ & Hrange & Hframes & Hrun & Hlen & _).
    inversion Hrange; subst s e.
    exists frames, h'. split; [exact Hframes |]. split; [exact Hrun | exact Hlen].
Defined.

Lemma C10_custom_end_sentinel_witness :
  use_full_range (sel_item Fixture.open_ended_clip) = false /\
  custom_end (sel_item Fixture.open_ended_clip) = 0 /\
  is_armature Scenes.open_ended_walk_run /\
  Forall (valid_clip false) (animations_to_export Scenes.open_ended_walk_run) /\
  animations_to_export Scenes.open_ended_walk_run !! 0%nat
    = Some Fixture.open_ended_clip /\
  animations_to_export Scenes.open_ended_walk_run !! 1%nat
    = Some Fixture.run_clip /\
  clip_range (sel_item Fixture.open_ended_clip) (sel_action Fixture.open_ended_clip)
    = (2, 5) /\
  last_frame (sel_item Fixture.open_ended_clip) (sel_action Fixture.open_ended_clip)
    = 5 /\
  exists A h' serial before after,
    assemble Scenes.open_ended_walk_run "unit" false Fixture.host0 = (Ok A, h') /\
    animation_ranges (locals A) !! 1%nat = Some (2, 5) /\
    last (clip_frames false Fixture.open_ended_clip) = Some 5 /\
    rev (history h')
    = rev (history Fixture.host0) ++ before ++
      source_pose_calls Fixture.open_ended_clip Fixture.run_clip 5 serial ++ after.
Proof.
  assert (Hfull : use_full_range (sel_item Fixture.open_ended_clip) = false)
    by reflexivity.
  assert (Hzero : custom_end (sel_item Fixture.open_ended_clip) = 0) by reflexivity.
  assert (Harm : is_armature Scenes.open_ended_walk_run) by reflexivity.
  assert (Hvalid : Forall (valid_clip false)
                           (animations_to_export Scenes.open_ended_walk_run))
    by clips_ok.
  assert (Hs : animations_to_export Scenes.open_ended_walk_run !! 0%nat
               = Some Fixture.open_ended_clip) by reflexivity.
  assert (Hd : animations_to_export Scenes.open_ended_walk_run !! 1%nat
               = Some Fixture.run_clip) by reflexivity.
  split; [exact Hfull |]. split; [exact Hzero |]. split; [exact Harm |].
  split; [exact Hvalid |]. split; [exact Hs |]. split; [exact Hd |].
  destruct (C10_custom_end_sentinel Scenes.open_ended_walk_run "unit" false
              Fixture.host0 0 Fixture.open_ended_clip Hfull)
    as (Hsentinel & _ & Hexport).
  destruct (Hsentinel Hzero) as [Hrange Hlast].
  split; [exact Hrange |]. split; [exact Hlast |].
  destruct (Hexport Hzero Harm Hvalid Hs) as (A & h' & Hrun & Hranges & Hframes & Hcalls).
  destruct (Hcalls 1%nat Fixture.run_clip Hd ltac:(lia))
    as (serial & before & after & Hhist).
  exists A, h', serial, before, after.
  split; [exact Hrun |]. split; [exact Hranges |]. split; [exact Hframes | exact Hhist].
Defined.
